(* ===== verification/_CoqProject ===== *)
-Q . S2P
Prelude.v
CMemory.v
PacketTypes.v
Layers.v
Frames.v
TcpOptions.v
Stats.v
Entropy.v
EntropyReal.v
NameDissectors.v
TextDissectors.v
TextRoundtrips.v
Capture.v
CaptureProps.v
TcpFrames.v
Wire.v
Sender.v
Queue.v
QueueInv.v
QueueProps.v
QueueInterface.v
Pipeline.v
PipelineProps.v
Shutdown.v
MainProc.v
DnsFrames.v
GoText.v
GoNet.v
RingBuffer.v
LruCache.v
GoPacket.v
DnsPath.v
Filter.v
FilterProps.v
PcapExport.v
Dashboard.v
DashboardProps.v
DashboardGeo.v
Service.v
Page.v
PageProps.v
EndToEnd.v
