(* ===== verification/Prelude.v ===== *)
(** * pacsni: verification of a packet monitor

    pacsni captures frames with libpcap, dissects them and sends one fixed-size
    record per frame over TLS to a packet service, which passes them on to a
    dashboard.  This library models the capture engine ([src/cpp/]), the packet
    service ([src/rust/packet_service/]) and the dashboard's program and page
    ([src/go/dashboard/main.go], [script.js]), and proves what makes them
    correct, or shows where they are not.

    ** The program and its model

    - A frame arrives in [packet_handler], is copied (at most 256 bytes) into a
      [RawPacket] and pushed into the first queue; four workers pop raw
      packets, dissect them ([dissect_raw_packet]) and push the resulting
      [PacketInfo] into the second queue; the sender pops records and writes
      them, with an HMAC, to the TLS connection; the service cuts the stream
      into messages, checks them, decodes the records and broadcasts them.
    - Each connection to the dashboard gets the packets as lines of JSON.  The
      dashboard's reader puts them into a channel; a loop numbers them, looks up
      vendors and locations, applies the filter, stores them in the history and
      broadcasts them to the web sockets; a second goroutine asks the location
      database and updates cache, history and pages.  The page keeps a list of
      its own, from the messages or from [/api/packets], and draws it in a loop.

    The files, from the bottom up:

    - [Prelude]: outcomes of C++ code ([res], its faults and its logic [wp]),
      machine integers with their wrap-around, bytes and text, automation.
    - [CMemory]: memory as lists of bytes - reads, writes, [memcpy], [memcmp],
      [strlen], [snprintf], byte order - every access checked.
    - [PacketTypes] (cpp/packet_types.h, cpp/protocol_dissectors.h): the
      records, the assignments to their fields, typing ([wf_info], [wf_raw]).
    - [Layers]: [parse_ethernet_layer], [parse_ip_layer],
      [parse_transport_layer]; [Frames]: an encoder of TCP/IPv4 frames with
      VLAN tags and options, and the parsers' round trip on it.
    - [TcpOptions]: the two option parsers and [check_tcp_anomalies].
    - [Stats], [Entropy], [EntropyReal]: [calculate_byte_stats] and
      [calculate_entropy_scaled]; the operations on [double] are a type class
      with the laws the program relies on, instantiated by the reals (where
      the result is the Shannon entropy) and by fixed-point numbers (where
      witnesses evaluate).
    - [NameDissectors] (DNS, TLS), [TextDissectors] (HTTP, DHCP, NTP, LLDP, IGMP,
      VXLAN, SSH and others, ICMP, OSPF, STP, GRE), [TextRoundtrips] (their
      properties).
    - [Capture]: [dissect_raw_packet] block by block, and the first half of
      [packet_handler]; [CaptureProps]: their properties; [TcpFrames]: whole
      TCP/IPv4 frames, also longer than the buffer.
    - [Wire]: the 1024 bytes of a record and the decoder of handlers.rs and
      model.rs, [String::from_utf8_lossy] included; [Sender]:
      [send_packet_info] with partial writes and the receiving loop
      [handle_cpp_connection].
    - [Queue]: [LockFreeQueue::push] and [pop], one access of shared memory per
      step, any number of threads; [QueueInv]: the invariant; [QueueProps]: the
      abstract queue, the refinement, race freedom, lock freedom, a scheduler
      that runs concrete interleavings; [QueueInterface]: the type class
      [BoundedQueue] of what the pipeline relies on, with its instances.
    - [Pipeline]: the threads - [packet_handler], [worker_thread_main],
      [sender_thread_main], [signal_handler], the joins of [main] - as a
      transition system over two queues and the connection; [PipelineProps]
      and [Shutdown]: its properties.
    - [MainProc]: the choice of the interface, the set-up, the connection loop
      and the exit of [main] with the deleters of its objects, and
      [monitor_pcap_stats].
    - [GoText], [GoNet]: the functions of Go's packages strings and net that the
      dashboard uses - searching and splitting of text, addresses and subnets -
      and [isPrivateIP].
    - [RingBuffer] (the history) and [LruCache] (the known locations): the two
      data structures of main.go, indices and list cells as in the code, each
      with the abstract structure it refines, through which [Dashboard] uses it.
    - [DnsFrames]: frames with a DNS message over UDP and IPv4 or IPv6, and their
      dissection, followed in [DnsPath] through the service to the row of the table.
    - [GoPacket]: the dashboard's record, [getPacketInfo], [getMacVendor];
      [Filter], [FilterProps]: what a filter lets pass; [PcapExport]:
      [/api/export], with a reader of the format.
    - [Dashboard]: the goroutines and handlers of main.go as a transition system,
      one operation on shared state per step; [DashboardProps] (its invariant)
      and [DashboardGeo] (vendors and locations).
    - [Service]: [handle_go_connection] of handlers.rs, the reader of main.go and
      its reconnection.
    - [Page], [PageProps]: the page's list, its load of [/api/packets], search
      and redraw loop (script.js), compared with the dashboard's history.
    - [EndToEnd]: the three programs together, from the frames to the page and to
      the exported file.

    ** How the model corresponds to the code

    A function of the code is a definition of the same name.  A pointer into a
    buffer is the buffer and an offset; the 256-byte array of a raw packet and
    the length libpcap reports are separate values, as in the code, so that a
    read behind the array is a fault of the model.  Integers are [Z] with
    [u8] .. [u64], [i32], [i64] where the code converts.  A fault ([fault]) is
    an access out of bounds, a negative length given to a [size_t], a
    floating-point value out of the range of its integer type, or a loop
    bound of the model that was too small.  Specifications have the form
    [wp F m Q]; with [F] = [no_fault] ([ensures]) the code returns, with
    [any_fault] ([allows]) its result is right if it returns; most are proved
    once for both, under a guard that the lengths are backed by the buffer.

    Loops are recursions on fuel, given by the caller in terms of the data
    (the length of the buffer, 256 for the loops over symbols, one per tag or
    option byte); running out of fuel is the fault [OutOfFuel], so every
    theorem of the form [ensures] also states that the fuel was enough.  The
    concurrent parts are step relations; an uninitialised variable is an
    arbitrary value.  What libraries, kernel and network answer is an
    argument (lists of answers, records of results); HMAC-SHA512 is a
    function of which only the length of its result is used.  For the dashboard
    the parameters are the JSON codec, with the documented behaviour it relies on
    as a record of hypotheses ([codec_ok]); what tokio's broadcast channel
    yields, as a relation ([broadcasts]); the location database, a function;
    regular expressions and the Unicode tables, type classes.  A panic of Go and
    an exception of JavaScript are [None].  In [dash] the fields [received],
    [processed] and [log], in [client] all but the queue are for the theorems
    only.

    ** What is shown

    - Dissection: whatever the bytes, a result is well typed and its header
      fields are the frame's.  It returns without a fault on frames of at most
      256 bytes that hold what is read without a test ([honest_frame]: the
      addresses of ARP, the first byte of a Fragment header, the payload of UDP,
      127 bytes of a payload of TCP or all of it and, in a request on port 80, a
      Host header that ends or the whole request; no empty identifier in LLDP).
      On TCP/IPv4 frames of any length that hold this it computes exactly the
      fields; of requests on port 80 it is shown that no less is enough
      ([TcpFrames]).  So it does on DNS over UDP and IPv4 or IPv6, up to the text of the dashboard.
      Option, DNS, TLS, DHCP and LLDP dissectors invert their encoders;
      statistics and entropy are what they claim.
    - Queue: it refines a bounded queue with atomic operations for any number
      of threads, up to 2^62 pushed values; the plain copies of the elements
      do not race; it is lock-free: some call returns after boundedly many
      accesses, but a single call can be overtaken again and again.
    - Wire and pipeline: a record survives encoding, partial writes and any
      cutting of the stream; no frame or record is duplicated or vanishes
      unaccounted; what the service shows is what was captured.
    - Process: sockets are used in order on every path up to their last close,
      and every object is freed once; the counters printed are exact.
    - Service and dashboard: the dashboard's channel gets a subsequence of the
      sent records, in order, and all of them if nothing fails; history, cache,
      sets and channels stay bounded and no index is out of range, in every
      interleaving; rows are numbered in order and made of the right packets;
      without a filter none is lost; web sockets lose messages only when their
      channel is full; a page that loaded an empty history, or was cleared since,
      shows what the history holds; filters of words without negated subnets
      mean what the README says, subnets are tested by their leading bits,
      streams are selected exactly; both ends agree on addresses.
    - Together: when no write fails and nothing is skipped, [/api/packets]
      returns the last 5000 of exactly the records sent, each the dissection of
      a different captured frame, in every interleaving of all three programs,
      and [/api/export] a file with the time and the first bytes of each of
      these frames.
    - Where the code does something else: reads behind the 256 bytes, wrong
      offsets in ARP, hidden ports behind IPv6 extension headers, dead code
      for TLS names and keep-alive, an uninitialised record for short frames,
      records left in the queue, a possible hang on a full queue at shutdown,
      and [SSL_shutdown] on a descriptor that is closed; in the
      dashboard negated subnets that exclude hardly anything, streams that cannot be followed, locations that
      are never filled in, a search that stops the page, and a table whose loaded
      rows are upside down.

    ** Bounds

    The queue's theorems hold for capacities 2^1 to 2^32 (the program uses
    2^13) and as long as fewer than 2^62 values have been pushed, because the
    code compares positions as signed 64-bit integers.  The lengths reported
    by libpcap are below 2^31, its snapshot length being 8192.

    ** Not modelled

    Terminal output; the Windows build; [log_ssl_error]; the compiled capture filter
    ([pcap_freecode]); the bytes of the dashboard's saved cache; memory orders weaker than sequential
    consistency; the set-up of the service's TLS server and its loops that
    accept connections, which are calls of tokio and rustls; serde_json,
    encoding/json, regexp, the Unicode tables and the location database, which
    are parameters; the HTML template and the static files; what script.js does
    with the browser's document (panes, highlighting, completion, hex view,
    clipboard); build and deployment files. *)

From Stdlib Require Import Ascii String.
From Stdlib Require Export ZArith Lia ZifyBool.
From Stdlib Require Zbitwise.
From stdpp Require Import strings pretty.
From stdpp Require Export base numbers option list.

Declare Scope pacsni_scope.
Delimit Scope pacsni_scope with pacsni.
#[global] Open Scope pacsni_scope.
#[global] Open Scope list_scope.
#[global] Open Scope Z_scope.

(** ** Outcomes of C++ code

    A computation either returns or meets one of the faults below; a fault
    is undefined behaviour of the C++ program (or, for [OutOfFuel], a loop
    that was given too few iterations). *)

Inductive fault :=
  | OutOfBounds   (** an access outside the object a pointer points into *)
  | BadLength     (** a negative length converted to [size_t] *)
  | BadConversion (** a floating-point value cast to an integer type it does not fit *)
  | OutOfFuel.    (** the loop bound of the model was reached *)

#[export] Instance fault_eq_dec : EqDecision fault.
Proof. solve_decision. Defined.

Inductive res (A : Type) :=
  | Ok (a : A)
  | Fault (f : fault).
Arguments Ok {A} a.
Arguments Fault {A} f.

#[export] Instance res_ret : MRet res := @Ok.
#[export] Instance res_bind : MBind res := λ A B f m,
  match m with Ok a => f a | Fault e => Fault e end.

(** [wp F m Q]: [m] returns a value in [Q] or faults with a fault in [F]. *)
Definition wp {A} (F : fault → Prop) (m : res A) (Q : A → Prop) : Prop :=
  match m with Ok a => Q a | Fault f => F f end.

Definition no_fault : fault → Prop := λ _, False.
Definition any_fault : fault → Prop := λ _, True.

(** [m] returns, and its value satisfies [Q]. *)
Abbreviation ensures := (wp no_fault).
(** If [m] returns, its value satisfies [Q]. *)
Abbreviation allows := (wp any_fault).

(** ** Machine integers *)

Definition u8 (z : Z) : Z := z mod 2 ^ 8.
Definition u16 (z : Z) : Z := z mod 2 ^ 16.
Definition u32 (z : Z) : Z := z mod 2 ^ 32.
Definition u64 (z : Z) : Z := z mod 2 ^ 64.
(** Two's complement reading of a 32-bit and of a 64-bit word. *)
Definition i32 (z : Z) : Z := (z + 2 ^ 31) mod 2 ^ 32 - 2 ^ 31.
Definition i64 (z : Z) : Z := (z + 2 ^ 63) mod 2 ^ 64 - 2 ^ 63.

Definition is_u (w : Z) (z : Z) : Prop := 0 ≤ z < 2 ^ w.
Abbreviation is_byte := (is_u 8).

(** A list of bytes, as an object in memory. *)
Definition bytes (p : list Z) : Prop := Forall is_byte p.

#[export] Instance is_u_dec w z : Decision (is_u w z).
Proof. unfold is_u. apply _. Defined.
#[export] Instance bytes_dec p : Decision (bytes p).
Proof. unfold bytes. apply _. Defined.

(** The length of a list as an integer. *)
Abbreviation zlen l := (Z.of_nat (length l)).

(** [b ? 1 : 0] *)
Definition b2z (b : bool) : Z := if b then 1 else 0.

(** A string literal as bytes, without its terminator. *)
Definition str (s : string) : list Z :=
  (λ a, Z.of_N (N_of_ascii a)) <$> list_ascii_of_string s.

Arguments str _%_string_scope.

(** ["%d"] and ["%u"] of a non-negative argument. *)
Definition fmt_u (z : Z) : list Z := str (pretty z).

Definition hex_digit (d : Z) : Z := if d <? 10 then 48 + d else 87 + d.

(** ["%0<n>x"] of an argument below [16 ^ n]. *)
Fixpoint fmt_hex (n : nat) (z : Z) : list Z :=
  match n with
  | O => []
  | S n => fmt_hex n (z / 16) ++ [hex_digit (z mod 16)]
  end.

(** ** The outcome logic *)

Section outcomes.
Context {A B : Type}.
Implicit Types (m : res A) (F : fault → Prop).

Lemma wp_ret F (a : A) (Q : A → Prop) : Q a → wp F (mret a) Q.
Proof. done. Qed.

Lemma wp_bind F m (f : A → res B) (Q : B → Prop) :
  wp F m (λ a, wp F (f a) Q) → wp F (m ≫= f) Q.
Proof. by destruct m. Qed.

Lemma wp_bind_inv F m (f : A → res B) (Q : B → Prop) :
  wp F (m ≫= f) Q → wp F m (λ a, wp F (f a) Q).
Proof. by destruct m. Qed.

Lemma wp_mono F m (P Q : A → Prop) :
  wp F m P → (∀ a, P a → Q a) → wp F m Q.
Proof. destruct m; simpl; auto. Qed.

Lemma wp_weaken (F G : fault → Prop) m (P Q : A → Prop) :
  wp F m P → (∀ f, F f → G f) → (∀ a, P a → Q a) → wp G m Q.
Proof. destruct m; simpl; auto. Qed.

Lemma wp_and F m (P Q : A → Prop) :
  wp F m P → wp F m Q → wp F m (λ a, P a ∧ Q a).
Proof. destruct m; simpl; auto. Qed.

(** The equation of the outcome, for a specification of its parts. *)
Lemma wp_with_eq F m (Q : A → Prop) : wp F m Q → wp F m (λ a, m = Ok a ∧ Q a).
Proof. destruct m; simpl; auto. Qed.

Lemma wp_any m (Q : A → Prop) : (∀ a, m = Ok a → Q a) → allows m Q.
Proof. destruct m; simpl; unfold any_fault; auto. Qed.

Lemma allows_Ok m (Q : A → Prop) a : allows m Q → m = Ok a → Q a.
Proof. by intros H ->. Qed.

Lemma ensures_Ok m (Q : A → Prop) : ensures m Q → ∃ a, m = Ok a ∧ Q a.
Proof. destruct m; [eauto | by intros []]. Qed.

Lemma ensures_allows m (P Q : A → Prop) :
  ensures m P → allows m Q → ensures m (λ a, P a ∧ Q a).
Proof. destruct m; simpl; auto. Qed.

Lemma bind_Ok a (f : A → res B) : Ok a ≫= f = f a.
Proof. done. Qed.

Lemma bind_assoc {C} m (f : A → res B) (g : B → res C) : (m ≫= f) ≫= g = m ≫= (λ a, f a ≫= g).
Proof. by destruct m. Qed.

Lemma bind_ext m (f g : A → res B) : (∀ a, f a = g a) → m ≫= f = m ≫= g.
Proof. destruct m; simpl; auto. Qed.

Lemma bind_step m (f : A → res B) a r : m = Ok a → f a = r → m ≫= f = r.
Proof. by intros ->. Qed.

Lemma bind_Ok_inv m (f : A → res B) b :
  m ≫= f = Ok b → ∃ a, m = Ok a ∧ f a = Ok b.
Proof. destruct m; [eauto | done]. Qed.
End outcomes.

(** A specification of the first three steps of a sequence. *)
Lemma wp_bind3 {A B C D} F (m : res A) (f : A → res B) (g : B → res C) (k : C → res D)
    (Q : D → Prop) :
  wp F (a ← m; b ← f a; g b) (λ c, wp F (k c) Q) → wp F (a ← m; b ← f a; c ← g b; k c) Q.
Proof. destruct m as [a|]; [|done]. simpl. destruct (f a) as [b|]; [|done]. apply wp_bind. Qed.

(** ** Machine integers and bytes *)

Lemma is_u_mod w z : 0 ≤ w → is_u w (z mod 2 ^ w).
Proof. intros. unfold is_u. apply Z.mod_pos_bound, Z.pow_pos_nonneg; lia. Qed.

Lemma u8_range z : is_u 8 (u8 z).
Proof. by apply is_u_mod. Qed.
Lemma u16_range z : is_u 16 (u16 z).
Proof. by apply is_u_mod. Qed.
Lemma u32_range z : is_u 32 (u32 z).
Proof. by apply is_u_mod. Qed.
Lemma u64_range z : is_u 64 (u64 z).
Proof. by apply is_u_mod. Qed.

Lemma u8_small z : is_u 8 z → u8 z = z.
Proof. apply Z.mod_small. Qed.
Lemma u16_small z : is_u 16 z → u16 z = z.
Proof. apply Z.mod_small. Qed.
Lemma u32_small z : is_u 32 z → u32 z = z.
Proof. apply Z.mod_small. Qed.
Lemma u64_small z : is_u 64 z → u64 z = z.
Proof. apply Z.mod_small. Qed.

Lemma land_le z m : 0 ≤ m → 0 ≤ Z.land z m ≤ m.
Proof.
  intros Hm. split; [apply Z.land_nonneg; lia|].
  pose proof (Zbitwise.Z.sub_land_same_l m z) as E.
  assert (0 ≤ Z.land m (Z.lnot z)) by (apply Z.land_nonneg; lia).
  rewrite (Z.land_comm z m). lia.
Qed.

Lemma is_u_land w z m : is_u w m → is_u w (Z.land z m).
Proof. unfold is_u. intros [? ?]. pose proof (land_le z m). lia. Qed.

Lemma log2_lt_u w z : 0 < w → is_u w z → Z.log2 z < w.
Proof.
  intros Hw [? ?]. destruct (decide (z = 0)) as [->|]; [done|].
  apply Z.log2_lt_pow2; lia.
Qed.

Lemma is_u_lor w a b : 0 < w → is_u w a → is_u w b → is_u w (Z.lor a b).
Proof.
  intros Hw Ha Hb. pose proof (log2_lt_u w a Hw Ha). pose proof (log2_lt_u w b Hw Hb).
  destruct Ha as [? _], Hb as [? _]. split; [by apply Z.lor_nonneg|].
  apply Z.log2_lt_cancel. rewrite Z.log2_lor, Z.log2_pow2 by lia. lia.
Qed.

Lemma is_u_weaken w w' z : is_u w z → 0 ≤ w ≤ w' → is_u w' z.
Proof.
  unfold is_u. intros [? ?] ?. split; [done|].
  apply Z.lt_le_trans with (2 ^ w); [done|]. apply Z.pow_le_mono_r; lia.
Qed.

Lemma is_u_b2z w b : 1 ≤ w → is_u w (b2z b).
Proof.
  intros. assert (2 ^ 1 ≤ 2 ^ w) by (apply Z.pow_le_mono_r; lia).
  unfold is_u, b2z. destruct b; lia.
Qed.

Lemma bytes_app p q : bytes (p ++ q) ↔ bytes p ∧ bytes q.
Proof. apply Forall_app. Qed.
Lemma bytes_take n p : bytes p → bytes (take n p).
Proof. apply Forall_take. Qed.
Lemma bytes_drop n p : bytes p → bytes (drop n p).
Proof. apply Forall_drop. Qed.
Lemma bytes_lookup p i b : bytes p → p !! i = Some b → is_byte b.
Proof. intros. by eapply Forall_lookup_1. Qed.
Lemma bytes_replicate n b : is_byte b → bytes (replicate n b).
Proof. by apply Forall_replicate. Qed.

Lemma bytes_str s : bytes (str s).
Proof.
  unfold str, bytes. apply Forall_fmap, Forall_true. intros a.
  unfold compose, is_u. pose proof (N_ascii_bounded a). lia.
Qed.

Lemma bytes_fmt_u z : bytes (fmt_u z).
Proof. apply bytes_str. Qed.

Lemma is_byte_hex_digit d : 0 ≤ d < 16 → is_byte (hex_digit d).
Proof. unfold hex_digit, is_u. destruct (d <? 10); lia. Qed.

Lemma bytes_fmt_hex n z : bytes (fmt_hex n z).
Proof.
  revert z. induction n as [|n IH]; intros z; simpl; [constructor|].
  apply bytes_app. split; [done|].
  constructor; [|constructor]. apply is_byte_hex_digit, Z.mod_pos_bound; lia.
Qed.

Lemma length_fmt_hex n z : length (fmt_hex n z) = n.
Proof.
  revert z. induction n as [|n IH]; intros z; simpl; [done|].
  rewrite length_app, IH. simpl. lia.
Qed.

(** ** Automation *)

Create HintDb pacsni discriminated.
#[export] Hint Resolve u8_range u16_range u32_range u64_range is_u_land
  bytes_take bytes_drop bytes_replicate bytes_str bytes_fmt_u bytes_fmt_hex : pacsni.
#[export] Hint Extern 1 (is_u _ (b2z _)) => (apply is_u_b2z; lia) : pacsni.
#[export] Hint Extern 1 (is_u _ _) => (unfold is_u; lia) : pacsni.
#[export] Hint Extern 1 (bytes (_ ++ _)) => (apply bytes_app; split) : pacsni.
#[export] Hint Extern 1 (bytes []) => constructor : pacsni.
#[export] Hint Extern 1 (bytes (_ :: _)) => constructor : pacsni.

(** Splits the boolean tests of the code; [lia] reads the equations. *)
Ltac case_test :=
  match goal with
  | |- context [if ?b then _ else _] =>
      lazymatch type of b with
      | bool => let E := fresh "E" in destruct b eqn:E
      end
  end.

(** Proves a closed decidable statement by evaluating it. *)
Ltac by_decide := apply (bool_decide_unpack _); vm_compute; exact I.

(** One step of symbolic execution of a goal [wp F m Q]. *)
Ltac wp_step :=
  lazymatch goal with
  | |- wp _ (_ ≫= _) _ => apply wp_bind
  | |- wp _ (mret _) _ => apply wp_ret
  | |- wp _ (Ok _) _ => apply wp_ret
  | |- wp _ (if _ then _ else _) _ => case_test
  | |- wp _ (let '(_, _) := ?p in _) _ => destruct p
  end.
Ltac wp_steps := repeat wp_step.
