(* ===== verification/CMemory.v ===== *)
(** * C objects, pointers and the library calls on them

    An object is the list of its bytes; a pointer into the packet buffer is
    either an offset into it or, for the [const u_char *] argument of a
    dissector, the list of the bytes from the pointer to the end of the
    object.  An access outside the list is the fault [OutOfBounds].  The
    host is little-endian, as the wire format of [PacketInfo] assumes. *)

From S2P Require Import Prelude.

(** [p + k] *)
Definition ptr_add (p : list Z) (k : Z) : list Z := drop (Z.to_nat k) p.

(** [p[i]] *)
Definition rd (p : list Z) (i : Z) : res Z :=
  if 0 <=? i then
    match p !! Z.to_nat i with Some b => Ok b | None => Fault OutOfBounds end
  else Fault OutOfBounds.

(** The source of [memcpy(_, p + off, n)]; [n] becomes a [size_t]. *)
Definition rd_bytes (p : list Z) (off n : Z) : res (list Z) :=
  if n <? 0 then Fault BadLength
  else if (0 <=? off) && (off + n <=? zlen p)
  then Ok (take (Z.to_nat n) (drop (Z.to_nat off) p))
  else Fault OutOfBounds.

(** Stores the bytes [src] from offset [off] of [dst]. *)
Definition blit (dst : list Z) (off : Z) (src : list Z) : res (list Z) :=
  if (0 <=? off) && (off + zlen src <=? zlen dst)
  then Ok (take (Z.to_nat off) dst ++ src ++ drop (Z.to_nat off + length src) dst)
  else Fault OutOfBounds.

(** [dst[i] = b] *)
Definition wr (dst : list Z) (i b : Z) : res (list Z) := blit dst i [b].

(** [memcpy(dst + doff, src + soff, n)] *)
Definition memcpy (dst : list Z) (doff : Z) (src : list Z) (soff n : Z) : res (list Z) :=
  s ← rd_bytes src soff n;
  blit dst doff s.

(** [*(uint16_t* )(p + off)] and [*(uint32_t* )(p + off)] *)
Definition load16 (p : list Z) (off : Z) : res Z :=
  b0 ← rd p off; b1 ← rd p (off + 1);
  mret (b0 + 2 ^ 8 * b1).
Definition load32 (p : list Z) (off : Z) : res Z :=
  w0 ← load16 p off; w1 ← load16 p (off + 2);
  mret (w0 + 2 ^ 16 * w1).

Definition ntohs (v : Z) : Z := v mod 2 ^ 8 * 2 ^ 8 + v / 2 ^ 8.
Definition ntohl (v : Z) : Z :=
  ntohs (v mod 2 ^ 16) * 2 ^ 16 + ntohs (v / 2 ^ 16).

(** The index of the first zero byte. *)
Fixpoint find_nul (p : list Z) : option nat :=
  match p with
  | [] => None
  | b :: p => if b =? 0 then Some O else S <$> find_nul p
  end.

(** [strlen(p)] *)
Definition strlen (p : list Z) : res Z :=
  match find_nul p with Some n => Ok (Z.of_nat n) | None => Fault OutOfBounds end.

(** The argument of ["%s"]. *)
Definition cstring (p : list Z) : res (list Z) :=
  n ← strlen p;
  mret (take (Z.to_nat n) p).

(** The argument of ["%.*s"] with precision [n]: at most [n] bytes are read. *)
Definition cstring_prec (n : nat) (p : list Z) : res (list Z) :=
  match find_nul (take n p) with
  | Some k => Ok (take k p)
  | None => if decide (n ≤ length p)%nat then Ok (take n p) else Fault OutOfBounds
  end.

(** [snprintf(buf + off, m, ...)] where the formatted text is [s]. *)
Definition snprintf (buf : list Z) (off m : Z) (s : list Z) : res (list Z) :=
  if m =? 0 then Ok buf
  else blit buf off (take (Z.to_nat (m - 1)) s ++ [0]).

(** [memcmp(p + off, s, strlen(s)) == 0] *)
Definition memcmp_eq (p : list Z) (off : Z) (s : list Z) : res bool :=
  b ← rd_bytes p off (zlen s);
  mret (bool_decide (b = s)).

(** Network byte order, for the frames of the round-trip theorems. *)
Definition be16 (v : Z) : list Z := [v / 2 ^ 8; v mod 2 ^ 8].
Definition be32 (v : Z) : list Z := be16 (v / 2 ^ 16) ++ be16 (v mod 2 ^ 16).

(** ** Reading *)

Section reading.
Context (F : fault → Prop).

Lemma rd_in p i : 0 ≤ i < zlen p → ∃ b, p !! Z.to_nat i = Some b ∧ rd p i = Ok b.
Proof.
  intros Hi. destruct (lookup_lt_is_Some_2 p (Z.to_nat i)) as [b Hb]; [lia|].
  exists b. unfold rd. rewrite Hb. by destruct (Z.leb_spec 0 i); [|lia].
Qed.

Lemma rd_Ok_inv p i b : rd p i = Ok b → 0 ≤ i < zlen p ∧ p !! Z.to_nat i = Some b.
Proof.
  unfold rd. destruct (Z.leb_spec 0 i); [|done].
  destruct (p !! _) eqn:E; [|done]. intros [= ->].
  apply lookup_lt_Some in E as ?. split; [lia|done].
Qed.

Lemma wp_rd p i (Q : Z → Prop) :
  0 ≤ i < zlen p → (∀ b, p !! Z.to_nat i = Some b → Q b) → wp F (rd p i) Q.
Proof. intros Hi HQ. destruct (rd_in p i Hi) as (b & Hb & ->). by apply HQ. Qed.

Lemma wp_rd_byte p i (Q : Z → Prop) :
  bytes p → 0 ≤ i < zlen p → (∀ b, is_byte b → Q b) → wp F (rd p i) Q.
Proof.
  intros Hp Hi HQ. apply wp_rd; [done|]. intros b Hb.
  by eapply HQ, bytes_lookup.
Qed.

Lemma wp_load16 p i (Q : Z → Prop) :
  bytes p → 0 ≤ i → i + 2 ≤ zlen p → (∀ v, is_u 16 v → Q v) → wp F (load16 p i) Q.
Proof.
  intros Hp Hi Hl HQ. unfold load16. wp_step.
  apply wp_rd_byte; [done|lia|]. intros b0 H0. wp_step.
  apply wp_rd_byte; [done|lia|]. intros b1 H1. wp_step.
  apply HQ. unfold is_u in *. lia.
Qed.

Lemma wp_load32 p i (Q : Z → Prop) :
  bytes p → 0 ≤ i → i + 4 ≤ zlen p → (∀ v, is_u 32 v → Q v) → wp F (load32 p i) Q.
Proof.
  intros Hp Hi Hl HQ. unfold load32. wp_step.
  apply wp_load16; [done|lia|lia|]. intros b0 H0. wp_step.
  apply wp_load16; [done|lia|lia|]. intros b1 H1. wp_step.
  apply HQ. unfold is_u in *. lia.
Qed.

Lemma wp_rd_bytes p off n (Q : list Z → Prop) :
  0 ≤ off → 0 ≤ n → off + n ≤ zlen p →
  (∀ s, s = take (Z.to_nat n) (drop (Z.to_nat off) p) → zlen s = n → Q s) →
  wp F (rd_bytes p off n) Q.
Proof.
  intros Ho Hn Hl HQ. unfold rd_bytes.
  repeat (case_test; [try lia|try lia]).
  apply wp_ret, HQ; [done|]. rewrite length_take, length_drop. lia.
Qed.
End reading.

Lemma allows_rd p i (Q : Z → Prop) :
  (∀ b, 0 ≤ i < zlen p → p !! Z.to_nat i = Some b → Q b) → allows (rd p i) Q.
Proof. intros HQ. apply wp_any. intros b [??]%rd_Ok_inv. auto. Qed.

Lemma allows_rd_byte p i (Q : Z → Prop) :
  bytes p → (∀ b, is_byte b → Q b) → allows (rd p i) Q.
Proof. intros Hp HQ. apply allows_rd. eauto using bytes_lookup. Qed.

Lemma bytes_rd_bytes p off n s : rd_bytes p off n = Ok s → bytes p → bytes s.
Proof.
  unfold rd_bytes. repeat case_test; intros [= <-]; auto with pacsni.
Qed.

Lemma rd_bytes_length p off n s : rd_bytes p off n = Ok s → zlen s = n.
Proof.
  unfold rd_bytes. repeat case_test; intros [= <-].
  rewrite length_take, length_drop. lia.
Qed.

(** ** Reading a concatenation *)

Lemma rd_app_l p q i : 0 ≤ i < zlen p → rd (p ++ q) i = rd p i.
Proof. intros ?. unfold rd. rewrite lookup_app_l by lia. done. Qed.

Lemma rd_app_r p q i : 0 ≤ i → rd (p ++ q) (zlen p + i) = rd q i.
Proof.
  intros ?. unfold rd. rewrite lookup_app_r by lia.
  replace (Z.to_nat (zlen p + i) - length p)%nat with (Z.to_nat i) by lia.
  by destruct (Z.leb_spec 0 (zlen p + i)), (Z.leb_spec 0 i); try lia.
Qed.

Lemma rd_ptr_add p k i : 0 ≤ k → 0 ≤ i → rd (ptr_add p k) i = rd p (k + i).
Proof.
  intros. unfold rd, ptr_add. rewrite lookup_drop.
  replace (Z.to_nat k + Z.to_nat i)%nat with (Z.to_nat (k + i)) by lia.
  by destruct (Z.leb_spec 0 (k + i)), (Z.leb_spec 0 i); try lia.
Qed.

Lemma length_ptr_add p k : 0 ≤ k ≤ zlen p → zlen (ptr_add p k) = zlen p - k.
Proof. intros. unfold ptr_add. rewrite length_drop. lia. Qed.

Lemma bytes_ptr_add p k : bytes p → bytes (ptr_add p k).
Proof. apply bytes_drop. Qed.

Lemma load16_app_r p q i : 0 ≤ i → load16 (p ++ q) (zlen p + i) = load16 q i.
Proof.
  intros. unfold load16. rewrite <- Z.add_assoc, !rd_app_r by lia. done.
Qed.

Lemma load16_be16 v q : load16 (be16 v ++ q) 0 = Ok (ntohs v).
Proof.
  transitivity (Ok (v / 2 ^ 8 + 2 ^ 8 * (v mod 2 ^ 8))); [done|].
  unfold ntohs. f_equal. lia.
Qed.

Lemma ntohs_invol v : is_u 16 v → ntohs (ntohs v) = v.
Proof.
  unfold is_u, ntohs. intros. Z.to_euclidean_division_equations. lia.
Qed.

Lemma ntohs_range v : is_u 16 v → is_u 16 (ntohs v).
Proof.
  unfold is_u, ntohs. intros. Z.to_euclidean_division_equations. lia.
Qed.

Lemma ntohl_range v : is_u 32 v → is_u 32 (ntohl v).
Proof.
  intros Hv. unfold ntohl.
  assert (is_u 16 (v mod 2 ^ 16)) as H1%ntohs_range by (apply is_u_mod; lia).
  assert (is_u 16 (v / 2 ^ 16)) as H2%ntohs_range.
  { unfold is_u in *. Z.to_euclidean_division_equations. lia. }
  unfold is_u in *. lia.
Qed.

Lemma load16_range p i v : load16 p i = Ok v → bytes p → is_u 16 v.
Proof.
  intros E Hp. revert E. unfold load16. intros (b0 & [_ ?]%rd_Ok_inv & Hv)%bind_Ok_inv.
  apply bind_Ok_inv in Hv as (b1 & [_ ?]%rd_Ok_inv & [= <-]).
  assert (is_byte b0) by eauto using bytes_lookup.
  assert (is_byte b1) by eauto using bytes_lookup.
  unfold is_u in *. lia.
Qed.

(** ** Writing *)

Lemma wp_blit F dst off src (Q : list Z → Prop) :
  0 ≤ off → off + zlen src ≤ zlen dst →
  (∀ r, r = take (Z.to_nat off) dst ++ src ++ drop (Z.to_nat off + length src) dst →
        length r = length dst → Q r) →
  wp F (blit dst off src) Q.
Proof.
  intros Ho Hl HQ. unfold blit. case_test; [|lia].
  apply wp_ret, HQ; [done|].
  rewrite !length_app, length_take, length_drop. lia.
Qed.

Lemma blit_length dst off src r : blit dst off src = Ok r → length r = length dst.
Proof.
  unfold blit. case_test; intros [= <-].
  rewrite !length_app, length_take, length_drop. lia.
Qed.

Lemma blit_bytes dst off src r :
  blit dst off src = Ok r → bytes dst → bytes src → bytes r.
Proof. unfold blit. case_test; intros [= <-] ??. auto with pacsni. Qed.

Lemma memcpy_length dst doff src soff n r :
  memcpy dst doff src soff n = Ok r → length r = length dst.
Proof. intros (s & _ & ?%blit_length)%bind_Ok_inv. done. Qed.

Lemma memcpy_bytes dst doff src soff n r :
  memcpy dst doff src soff n = Ok r → bytes dst → bytes src → bytes r.
Proof.
  intros (s & Hs & Hr)%bind_Ok_inv ??. eauto using bytes_rd_bytes, blit_bytes.
Qed.

Lemma wr_bytes dst i b r : wr dst i b = Ok r → bytes dst → is_byte b → bytes r.
Proof. intros. eapply blit_bytes; [done..|]. by constructor. Qed.

Lemma elem_of_wr dst i b r : wr dst i b = Ok r → b ∈ r.
Proof.
  unfold wr, blit. case_test; intros [= <-]. rewrite !elem_of_app. right. left.
Qed.

Lemma elem_of_blit dst off src r b :
  blit dst off src = Ok r → b ∈ src → b ∈ r.
Proof. unfold blit. case_test; intros [= <-]. rewrite !elem_of_app. tauto. Qed.

(** ** C strings *)

Lemma find_nul_Some p n :
  find_nul p = Some n ↔ p !! n = Some 0 ∧ 0 ∉ take n p.
Proof.
  revert n. induction p as [|b p IH]; intros n; simpl; [by split; [|intros [? _]]|].
  destruct (Z.eqb_spec b 0) as [->|Hb].
  - split; [by intros [= <-]; split; [|apply not_elem_of_nil]|].
    destruct n as [|n]; [done|]. intros [_ Hn]. destruct Hn. by left.
  - destruct n as [|n]; simpl.
    + split; [by destruct (find_nul p)|]. intros [[= ->] _]. done.
    + rewrite not_elem_of_cons, (fmap_Some S). split.
      * intros (k & [? ?]%IH & [= ->]). done.
      * intros [? [_ ?]]. exists n. split; [by apply IH|done].
Qed.

Lemma find_nul_is_Some p : 0 ∈ p → is_Some (find_nul p).
Proof.
  induction p as [|b p IH]; simpl; [by intros ?%elem_of_nil|].
  destruct (Z.eqb_spec b 0) as [->|Hb]; [eauto|].
  intros [?|?]%elem_of_cons; [congruence|]. by apply fmap_is_Some, IH.
Qed.

Lemma find_nul_lt p n : find_nul p = Some n → (n < length p)%nat.
Proof. intros [?%lookup_lt_Some _]%find_nul_Some. done. Qed.

Lemma find_nul_app s p : 0 ∉ s → find_nul (s ++ 0 :: p) = Some (length s).
Proof.
  intros Hs. apply find_nul_Some. split; [by apply list_lookup_middle|].
  by rewrite take_app_length.
Qed.

Lemma wp_strlen F p (Q : Z → Prop) :
  0 ∈ p → (∀ n, 0 ≤ n < zlen p → Q n) → wp F (strlen p) Q.
Proof.
  intros [n Hn]%find_nul_is_Some HQ. unfold strlen. rewrite Hn.
  apply find_nul_lt in Hn. apply HQ. lia.
Qed.

Lemma strlen_range p n : strlen p = Ok n → 0 ≤ n < zlen p.
Proof.
  unfold strlen. destruct (find_nul p) eqn:E; [|done]. intros [= <-].
  apply find_nul_lt in E. lia.
Qed.

Lemma wp_cstring F p (Q : list Z → Prop) :
  0 ∈ p → (∀ n, 0 ≤ n < zlen p → Q (take (Z.to_nat n) p)) → wp F (cstring p) Q.
Proof. intros Hp HQ. unfold cstring. wp_step. apply wp_strlen; auto. Qed.

Lemma cstring_app s p : 0 ∉ s → cstring (s ++ 0 :: p) = Ok s.
Proof.
  intros Hs. unfold cstring, strlen. rewrite find_nul_app by done.
  simpl. by rewrite Nat2Z.id, take_app_length.
Qed.

Lemma bytes_cstring p s : cstring p = Ok s → bytes p → bytes s.
Proof. intros (n & _ & [= <-])%bind_Ok_inv ?. auto with pacsni. Qed.

Lemma bytes_cstring_prec n p s : cstring_prec n p = Ok s → bytes p → bytes s.
Proof.
  unfold cstring_prec. destruct (find_nul _).
  - intros [= <-]. auto with pacsni.
  - case_decide; intros [= <-]. auto with pacsni.
Qed.

(** What every [snprintf] of the program does: it writes inside its window,
    and the window then holds a terminator. *)
Lemma wp_snprintf F buf off m s (Q : list Z → Prop) :
  0 ≤ off → 0 < m → off + m ≤ zlen buf →
  (∀ r, snprintf buf off m s = Ok r → length r = length buf → 0 ∈ r → Q r) →
  wp F (snprintf buf off m s) Q.
Proof.
  intros Ho Hm Hl HQ.
  assert (snprintf buf off m s = blit buf off (take (Z.to_nat (m - 1)) s ++ [0])) as E.
  { unfold snprintf. case_test; [lia|done]. }
  assert (zlen (take (Z.to_nat (m - 1)) s ++ [0]) ≤ m) as Hlen.
  { rewrite length_app, length_take. simpl. lia. }
  destruct (snprintf buf off m s) as [r|] eqn:Er.
  - apply HQ; [done| |].
    + eauto using blit_length.
    + eapply elem_of_blit; [done|]. apply elem_of_app. right. by apply list_elem_of_singleton.
  - revert E. unfold blit. case_test; [done|lia].
Qed.

Lemma snprintf_length buf off m s r : snprintf buf off m s = Ok r → length r = length buf.
Proof. unfold snprintf. case_test; [by intros [= <-]|]. apply blit_length. Qed.

Lemma snprintf_bytes buf off m s r :
  snprintf buf off m s = Ok r → bytes buf → bytes s → bytes r.
Proof.
  unfold snprintf. case_test; [by intros [= <-]|].
  intros ???. eapply blit_bytes; eauto with pacsni.
Qed.

(** The buffer after an [snprintf] at its start that is not truncated. *)
Lemma snprintf_fits buf m s :
  zlen s < m → m ≤ zlen buf →
  snprintf buf 0 m s = Ok (s ++ 0 :: drop (length s + 1) buf).
Proof.
  intros Hs Hm. unfold snprintf. case_test; [lia|].
  rewrite take_ge by lia. unfold blit. rewrite length_app. simpl.
  case_test; [by rewrite <- (assoc_L (++))|]. exfalso; lia.
Qed.

#[export] Hint Resolve bytes_rd_bytes blit_bytes wr_bytes memcpy_bytes snprintf_bytes
  bytes_cstring bytes_cstring_prec bytes_ptr_add load16_range ntohs_range
  ntohl_range : pacsni.

(** ** Symbolic execution *)

Lemma wp_memcpy F dst doff src soff n (Q : list Z → Prop) :
  0 ≤ doff → 0 ≤ n → doff + n ≤ zlen dst → 0 ≤ soff → soff + n ≤ zlen src →
  (∀ r, memcpy dst doff src soff n = Ok r → length r = length dst → Q r) →
  wp F (memcpy dst doff src soff n) Q.
Proof.
  intros ????? HQ. destruct (memcpy dst doff src soff n) as [r|f] eqn:E.
  - by eapply HQ, memcpy_length.
  - exfalso. revert E. unfold memcpy, rd_bytes.
    case_test; [lia|]. case_test; [|lia]. simpl. unfold blit.
    rewrite length_take, length_drop. case_test; [done|lia].
Qed.

Lemma wp_wr F dst i b (Q : list Z → Prop) :
  0 ≤ i < zlen dst →
  (∀ r, wr dst i b = Ok r → length r = length dst → Q r) → wp F (wr dst i b) Q.
Proof.
  intros Hi HQ. destruct (wr dst i b) as [r|f] eqn:E.
  - by eapply HQ, blit_length.
  - exfalso. revert E. unfold wr, blit. simpl. case_test; [done|lia].
Qed.

Lemma load16_inside p i v : load16 p i = Ok v → 0 ≤ i ∧ i + 2 ≤ zlen p.
Proof.
  unfold load16. intros (b0 & [? _]%rd_Ok_inv & (b1 & [? _]%rd_Ok_inv & _)%bind_Ok_inv)%bind_Ok_inv.
  lia.
Qed.

(** Removes the casts to [uint32_t] of values that fit. *)
Ltac u32_norm :=
  repeat match goal with
  | |- context [u32 ?z] => rewrite (u32_small z) by (unfold is_u; lia)
  end.

(** Records the range of a masked value. *)
Ltac land_bound :=
  match goal with
  | |- context [Z.land ?a ?m] =>
      lazymatch goal with
      | _ : 0 ≤ Z.land a m ≤ m |- _ => fail
      | _ => let H := fresh "Hland" in
             assert (0 ≤ Z.land a m ≤ m) as H by (apply land_le; lia)
      end
  end.

(** Records the range of the byte-swapped values of the goal. *)
Ltac ntohs_bounds :=
  repeat match goal with
  | |- context [ntohs ?v] =>
      lazymatch goal with
      | _ : 0 ≤ ntohs v < 2 ^ 16 |- _ => fail
      | _ => let H := fresh "Hntohs" in
             assert (0 ≤ ntohs v < 2 ^ 16) as H
               by (apply ntohs_range; unfold is_u; lia)
      end
  end.

(** Names a value that was read and keeps its range for [lia]. *)
Ltac intros_range := let H := fresh "Hr" in intros ? H; unfold is_u in H.

(** One access of a buffer whose bounds [lia] can establish. *)
Ltac mem_step :=
  first
  [ land_bound
  | progress u32_norm
  | wp_step
  | eapply wp_rd_byte; [eassumption | lia | intros_range]
  | eapply wp_load16; [eassumption | lia | lia | intros_range]
  | eapply wp_load32; [eassumption | lia | lia | intros_range]
  | eapply wp_memcpy; [lia | lia | simpl; lia | lia | lia | intros ? ? ?] ].
Ltac mem_steps := repeat mem_step.

(** ** Reading behind a prefix *)

Lemma rd_cons_0 b p : rd (b :: p) 0 = Ok b.
Proof. done. Qed.

Lemma rd_cons_1 a b p : rd (a :: b :: p) 1 = Ok b.
Proof. done. Qed.

Lemma rd_app_0 p q : rd (p ++ q) (zlen p) = rd q 0.
Proof. rewrite <- (rd_app_r p q 0) by lia. f_equal. lia. Qed.

Lemma load16_app_0 p q : load16 (p ++ q) (zlen p) = load16 q 0.
Proof. rewrite <- (load16_app_r p q 0) by lia. f_equal. lia. Qed.

Lemma rd_at P p q i : P = p ++ q → i = zlen p → rd P i = rd q 0.
Proof. intros -> ->. apply rd_app_0. Qed.

Lemma load16_at P p v q i : P = p ++ be16 v ++ q → i = zlen p → load16 P i = Ok (ntohs v).
Proof. intros -> ->. rewrite load16_app_0. apply load16_be16. Qed.

Lemma load32_app_r p q i : 0 ≤ i → load32 (p ++ q) (zlen p + i) = load32 q i.
Proof.
  intros. unfold load32. rewrite <- Z.add_assoc, !load16_app_r by lia. done.
Qed.

Lemma load32_app_0 p q : load32 (p ++ q) (zlen p) = load32 q 0.
Proof. rewrite <- (load32_app_r p q 0) by lia. f_equal. lia. Qed.

Lemma rd_bytes_app_r p q i n :
  0 ≤ i → rd_bytes (p ++ q) (zlen p + i) n = rd_bytes q i n.
Proof.
  intros. unfold rd_bytes. rewrite length_app, drop_app_ge by lia.
  replace (Z.to_nat (zlen p + i) - length p)%nat with (Z.to_nat i) by lia.
  replace ((0 <=? zlen p + i) && (zlen p + i + n <=? Z.of_nat (length p + length q)))
    with ((0 <=? i) && (i + n <=? zlen q)) by lia.
  done.
Qed.

Lemma memcpy_app_r dst doff p q i n :
  0 ≤ i → memcpy dst doff (p ++ q) (zlen p + i) n = memcpy dst doff q i n.
Proof. intros. unfold memcpy. by rewrite rd_bytes_app_r. Qed.

Lemma length_be16 v : length (be16 v) = 2%nat.
Proof. done. Qed.

Lemma bytes_be16 v : is_u 16 v → bytes (be16 v).
Proof.
  unfold is_u. intros. repeat constructor; unfold is_u;
    Z.to_euclidean_division_equations; lia.
Qed.

Lemma load16_skip_be16 v q : load16 (be16 v ++ q) 2 = load16 q 0.
Proof. change 2 with (zlen (be16 v) + 0) at 1. by rewrite load16_app_r. Qed.

Lemma load32_be32 v q : load32 (be32 v ++ q) 0 = Ok (ntohl v).
Proof.
  unfold load32, be32. rewrite <- (assoc_L (++)), load16_be16. cbn [mbind res_bind].
  change (0 + 2) with 2. rewrite load16_skip_be16, load16_be16. cbn [mbind res_bind mret res_ret].
  unfold ntohl. f_equal. lia.
Qed.

Lemma word_halves v : is_u 32 v → is_u 16 (v / 2 ^ 16) ∧ is_u 16 (v mod 2 ^ 16).
Proof. unfold is_u. intros. Z.to_euclidean_division_equations. lia. Qed.

Lemma ntohl_invol v : is_u 32 v → ntohl (ntohl v) = v.
Proof.
  intros [Hh Hl]%word_halves.
  pose proof (ntohs_range _ Hh) as Hb. pose proof (ntohs_range _ Hl) as Ha.
  unfold ntohl at 1. unfold is_u in Ha, Hb.
  assert (ntohl v / 2 ^ 16 = ntohs (v mod 2 ^ 16)) as ->.
  { unfold ntohl. rewrite Z.div_add_l, Z.div_small; lia. }
  assert (ntohl v mod 2 ^ 16 = ntohs (v / 2 ^ 16)) as ->.
  { unfold ntohl. rewrite Z.add_comm, Z.mod_add, Z.mod_small; lia. }
  rewrite !ntohs_invol by done. pose proof (Z.div_mod v (2 ^ 16)). lia.
Qed.

Create Rewrite HintDb behind.
#[export] Hint Rewrite rd_app_0 load16_app_0 load32_app_0 : behind.
#[export] Hint Rewrite rd_app_r load16_app_r load32_app_r memcpy_app_r
  using lia : behind.

(** Copying a whole middle segment to the start of an object. *)
Lemma memcpy_segment dst p s q off n :
  off = zlen p → n = zlen s → n ≤ zlen dst →
  memcpy dst 0 (p ++ s ++ q) off n = Ok (s ++ drop (length s) dst).
Proof.
  intros -> -> Hn. unfold memcpy, rd_bytes. case_test; [lia|].
  rewrite !length_app. case_test; [|lia]. cbn [mbind res_bind].
  rewrite !Nat2Z.id, drop_app_length, take_app_length.
  unfold blit. case_test; [done|lia].
Qed.

(** ** Guarded specifications

    The dissectors trust a length they are given.  Their specifications hold
    for any class [F] of faults, under the guard that either the length is
    backed by the object or [F] admits every fault; one proof then gives both
    safety ([F := no_fault]) and type preservation ([F := any_fault]). *)

Definition guard (F : fault → Prop) (P : Prop) : Prop := (∀ f, F f) ∨ P.

Lemma guard_any P : guard any_fault P.
Proof. left. by intros []. Qed.

Lemma guard_mono F (P Q : Prop) : guard F P → (P → Q) → guard F Q.
Proof. intros [?|?] HPQ; [by left|right; auto]. Qed.

Lemma guard_and F (P Q : Prop) : guard F P → guard F Q → guard F (P ∧ Q).
Proof. intros [?|?] [?|?]; [by left..|by right]. Qed.

Section guarded.
Context (F : fault → Prop).

Lemma wp_any_fault {A} (m : res A) (Q : A → Prop) :
  (∀ f, F f) → (∀ a, m = Ok a → Q a) → wp F m Q.
Proof. intros ??. destruct m; simpl; auto. Qed.

Lemma wp_guard {A} (m : res A) (P : Prop) (Q : A → Prop) :
  guard F P → (P → ensures m (λ _, True)) → (∀ a, m = Ok a → Q a) → wp F m Q.
Proof.
  intros [HF|HP] Hm HQ; [by apply wp_any_fault|].
  destruct (ensures_Ok _ _ (Hm HP)) as (a & -> & _). by apply HQ.
Qed.

Lemma wp_rd_g p i (Q : Z → Prop) :
  bytes p → guard F (0 ≤ i < zlen p) → (∀ b, is_byte b → Q b) → wp F (rd p i) Q.
Proof.
  intros Hp Hg HQ. eapply wp_guard; [exact Hg| |].
  - intros. by apply wp_rd.
  - intros b [_ ?]%rd_Ok_inv. eauto using bytes_lookup.
Qed.

Lemma wp_load16_g p i (Q : Z → Prop) :
  bytes p → guard F (0 ≤ i ∧ i + 2 ≤ zlen p) → (∀ v, is_u 16 v → Q v) →
  wp F (load16 p i) Q.
Proof.
  intros Hp Hg HQ. eapply wp_guard; [exact Hg| |].
  - intros [??]. by apply wp_load16.
  - intros b ?%load16_range; auto.
Qed.

Lemma wp_load32_g p i (Q : Z → Prop) :
  bytes p → guard F (0 ≤ i ∧ i + 4 ≤ zlen p) → (∀ v, is_u 32 v → Q v) →
  wp F (load32 p i) Q.
Proof.
  intros Hp Hg HQ. eapply wp_guard; [exact Hg| |].
  - intros [??]. by apply wp_load32.
  - intros b (w0 & E0 & (w1 & E1 & [= <-])%bind_Ok_inv)%bind_Ok_inv. apply HQ.
    apply load16_range in E0, E1; [|done..]. unfold is_u in *. lia.
Qed.

Lemma wp_rd_bytes_g p off n (Q : list Z → Prop) :
  guard F (0 ≤ off ∧ 0 ≤ n ∧ off + n ≤ zlen p) →
  (∀ s, rd_bytes p off n = Ok s → Q s) → wp F (rd_bytes p off n) Q.
Proof.
  intros Hg HQ. eapply wp_guard; [exact Hg| |done].
  intros (?&?&?). by apply wp_rd_bytes.
Qed.

Lemma wp_memcpy_g dst doff src soff n (Q : list Z → Prop) :
  guard F (0 ≤ doff ∧ 0 ≤ n ∧ doff + n ≤ zlen dst ∧ 0 ≤ soff ∧ soff + n ≤ zlen src) →
  (∀ r, memcpy dst doff src soff n = Ok r → length r = length dst → Q r) →
  wp F (memcpy dst doff src soff n) Q.
Proof.
  intros Hg HQ. eapply wp_guard; [exact Hg| |eauto using memcpy_length].
  intros (?&?&?&?&?). by apply wp_memcpy.
Qed.

Lemma wp_wr_g dst i b (Q : list Z → Prop) :
  guard F (0 ≤ i < zlen dst) →
  (∀ r, wr dst i b = Ok r → length r = length dst → Q r) → wp F (wr dst i b) Q.
Proof.
  intros Hg HQ. eapply wp_guard; [exact Hg| |eauto using blit_length].
  intros. by apply wp_wr.
Qed.

Lemma wp_memcmp_eq_g p off s (Q : bool → Prop) :
  guard F (0 ≤ off ∧ off + zlen s ≤ zlen p) → (∀ b, Q b) → wp F (memcmp_eq p off s) Q.
Proof.
  intros Hg HQ. unfold memcmp_eq. wp_step. apply wp_rd_bytes_g.
  - eapply guard_mono; [exact Hg|]. lia.
  - intros. apply wp_ret, HQ.
Qed.
End guarded.

Ltac guarded :=
  lazymatch goal with
  | |- guard any_fault _ => apply guard_any
  | H : guard ?F _ |- guard ?F _ => eapply guard_mono; [exact H | cbv beta; rewrite ?length_replicate; lia]
  | |- guard _ _ => right; lia
  end.

(** One access whose bounds follow from the guard in scope. *)
Ltac g_step :=
  first
  [ land_bound
  | progress ntohs_bounds
  | progress u32_norm
  | wp_step
  | eapply wp_rd_g; [solve [auto with pacsni] | guarded | intros_range]
  | eapply wp_load16_g; [solve [auto with pacsni] | guarded | intros_range]
  | eapply wp_load32_g; [solve [auto with pacsni] | guarded | intros_range]
  | eapply wp_memcpy_g; [guarded | intros ? ? ?]
  | eapply wp_rd_bytes_g; [guarded | intros ? ?]
  | eapply wp_memcmp_eq_g; [guarded | intros ?]
  | eapply wp_wr_g; [guarded | intros ? ? ?] ].
Ltac g_steps := repeat g_step.

(** ** Text buffers: what every dissector does to its output buffer *)

Definition text_ok (out r : list Z) : Prop :=
  length r = length out ∧ bytes r ∧ (0 ∈ out → 0 ∈ r).

Lemma text_ok_refl out : bytes out → text_ok out out.
Proof. by repeat split. Qed.

Lemma text_ok_trans a b c : text_ok a b → text_ok b c → text_ok a c.
Proof. intros (?&?&?) (?&?&?). repeat split; auto; congruence. Qed.

Lemma wp_snprintf_text F out m s (Q : list Z → Prop) :
  bytes out → bytes s → 0 < m ≤ zlen out →
  (∀ r, text_ok out r → 0 ∈ r → Q r) → wp F (snprintf out 0 m s) Q.
Proof.
  intros Ho Hs Hm HQ. apply wp_snprintf; [lia|lia|lia|].
  intros r Hr ? ?. apply HQ; [|done]. repeat split; [done| |done].
  eapply snprintf_bytes; eauto.
Qed.

Lemma text_ok_wr_nul out r i r' :
  wr r i 0 = Ok r' → length r = length out → bytes r → text_ok out r'.
Proof.
  intros Hr ? ?. repeat split.
  - erewrite blit_length; done.
  - eapply wr_bytes; [done..|]. auto with pacsni.
  - intros _. by eapply elem_of_wr.
Qed.

#[export] Hint Resolve text_ok_refl text_ok_wr_nul : pacsni.

(** ** Appending to a zeroed buffer *)

Lemma wr_append s c t b : wr (s ++ c :: t) (zlen s) b = Ok ((s ++ [b]) ++ t).
Proof.
  unfold wr, blit. rewrite length_app. simpl. case_test; [|exfalso; lia].
  rewrite Nat2Z.id, take_app_length, <- (assoc_L (++)). simpl.
  do 3 f_equal. rewrite drop_app_ge by lia. by replace (_ + 1 - _)%nat with 1%nat by lia.
Qed.

Lemma cstring_terminated s t : 0 ∉ s → cstring ((s ++ [0]) ++ t) = Ok s.
Proof. intros. rewrite <- (assoc_L (++)). by apply cstring_app. Qed.

(** [memcpy(dst, p, n); dst[n] = 0], on a whole middle segment. *)
Lemma copy_terminated dst p w q off n :
  off = zlen p → n = zlen w → n < zlen dst →
  memcpy dst 0 (p ++ w ++ q) off n ≫= (λ d, wr d n 0)
  = Ok (w ++ 0 :: drop (S (length w)) dst).
Proof.
  intros Ho -> Hn. rewrite memcpy_segment by lia. cbn [mbind res_bind].
  destruct (drop (length w) dst) as [|c t] eqn:Ed.
  { apply (f_equal length) in Ed. rewrite length_drop in Ed. simpl in Ed. lia. }
  rewrite wr_append, <- (assoc_L (++)). simpl. do 2 f_equal.
  rewrite <- Nat.add_1_r, <- drop_drop, Ed. done.
Qed.

(** ** The C string that [snprintf] leaves *)

Lemma snprintf_cstring buf m s :
  0 ∉ s → 0 < m ≤ zlen buf → ∃ r, snprintf buf 0 m s = Ok r ∧
    cstring r = Ok (take (Z.to_nat (m - 1)) s) ∧ length r = length buf.
Proof.
  intros Hs Hm. set (w := take (Z.to_nat (m - 1)) s).
  assert (snprintf buf 0 m s = blit buf 0 (w ++ [0])) as ->.
  { unfold snprintf. case_test; [lia|done]. }
  assert (zlen w ≤ m - 1) by (unfold w; rewrite length_take; lia).
  unfold blit. case_test; [|rewrite length_app in E; simpl in E; lia].
  eexists. split; [done|]. simpl. rewrite <- (assoc_L (++)). split.
  - apply cstring_app. intros (k & ? & _)%elem_of_take. by eapply Hs, list_elem_of_lookup_2.
  - rewrite length_app. simpl. rewrite length_drop, length_app. simpl in *. lia.
Qed.

(** An append that fits. *)
Lemma snprintf_append s t m w :
  zlen w < m → zlen w ≤ zlen t →
  snprintf (s ++ 0 :: t) (zlen s) m w = Ok (s ++ w ++ 0 :: drop (length w) t).
Proof.
  intros Hm Ht. unfold snprintf. case_test; [lia|]. rewrite take_ge by lia.
  unfold blit. rewrite !length_app. simpl. case_test; [|exfalso; lia].
  rewrite Nat2Z.id, take_app_length, <- (assoc_L (++)). simpl.
  do 4 f_equal. rewrite drop_app_ge by lia.
  by replace (length s + (length w + 1) - length s)%nat with (S (length w)) by lia.
Qed.

Lemma cstring_append s w t : 0 ∉ s → 0 ∉ w → cstring (s ++ w ++ 0 :: t) = Ok (s ++ w).
Proof.
  intros. rewrite (assoc_L (++)). apply cstring_app. rewrite elem_of_app. tauto.
Qed.

(** ** Objects extended at their end

    An access that succeeds has the same result in a longer object. *)

Lemma rd_extend p q i b : rd p i = Ok b → rd (p ++ q) i = Ok b.
Proof.
  intros [Hi Hb]%rd_Ok_inv. unfold rd. case_test; [|lia].
  by rewrite (lookup_app_l_Some _ _ _ _ Hb).
Qed.

Lemma load16_extend p q i v : load16 p i = Ok v → load16 (p ++ q) i = Ok v.
Proof.
  unfold load16. intros (b0 & H0 & (b1 & H1 & [= <-])%bind_Ok_inv)%bind_Ok_inv.
  by rewrite (rd_extend _ _ _ _ H0), bind_Ok, (rd_extend _ _ _ _ H1).
Qed.

Lemma load32_extend p q i v : load32 p i = Ok v → load32 (p ++ q) i = Ok v.
Proof.
  unfold load32. intros (b0 & H0 & (b1 & H1 & [= <-])%bind_Ok_inv)%bind_Ok_inv.
  by rewrite (load16_extend _ _ _ _ H0), bind_Ok, (load16_extend _ _ _ _ H1).
Qed.

Lemma memcpy_extend dst doff p q i n r :
  memcpy dst doff p i n = Ok r → memcpy dst doff (p ++ q) i n = Ok r.
Proof.
  unfold memcpy. intros (s & Hs & Hr)%bind_Ok_inv. revert Hs. unfold rd_bytes.
  case_test; [done|]. case_test; [|done]. intros [= Hs]. rewrite length_app.
  case_test; [|lia]. rewrite drop_app_le by lia.
  rewrite take_app_le by (rewrite length_drop; lia). by rewrite Hs, bind_Ok.
Qed.

(** Replays on the extended object a computation that succeeded. *)
Ltac extend_step :=
  match goal with
  | H : _ ≫= _ = Ok _ |- _ =>
      let x := fresh "x" in let E := fresh "Hx" in
      apply bind_Ok_inv in H as (x & E & H);
      eapply bind_step;
      [ first [ exact (rd_extend _ _ _ _ E) | exact (load16_extend _ _ _ _ E)
              | exact (load32_extend _ _ _ _ E) | exact (memcpy_extend _ _ _ _ _ _ _ E) ]
      | cbv beta zeta in H |- * ]
  | H : context [if ?b then _ else _] |- context [if ?b then _ else _] =>
      lazymatch type of b with bool => destruct b eqn:? end
  end.
Ltac extend := repeat extend_step; done.
