(* ===== verification/PacketTypes.v ===== *)
(** * The data types of [cpp/packet_types.h] and [cpp/protocol_dissectors.h]

    [PacketInfo] is the fixed-size record that is sent to the packet
    service; the other records are the results of the layer parsers.  A
    pointer into the packet buffer is an offset from its first byte. *)

From S2P Require Import Prelude CMemory.

Definition MAX_PAYLOAD_SIZE : Z := 256.

(** [n] zero bytes *)
Abbreviation zeros n := (replicate n 0).

(** ** [struct PacketInfo]

    Integer fields are integers of the declared width; [char] and [uint8_t]
    arrays are lists of bytes.  [tcp_sack_edges] is the 32 bytes of its
    eight [uint32_t], because the program only copies them. *)

Record PacketInfo := mkPacketInfo {
    timestamp : Z;
    src_ip : list Z;
    dst_ip : list Z;
    src_port : Z;
    dst_port : Z;
    protocol : Z;
    has_tcp_ao : Z;
    tcp_flags : Z;
    l3_offset : Z;
    l4_offset : Z;
    tcp_seq : Z;
    tcp_ack : Z;
    icmp_type : Z;
    icmp_code : Z;
    delta_time : Z;
    vlan_id : Z;
    ip_ttl : Z;
    ip_tos : Z;
    tcp_win : Z;
    ip_id : Z;
    is_ipv6 : Z;
    is_fragment : Z;
    tcp_mss : Z;
    tcp_ws : Z;
    ipv6_ext_count : Z;
    ipv6_flow : Z;
    wire_len : Z;
    tcp_ts_val : Z;
    tcp_ts_ecr : Z;
    tcp_sack : Z;
    tcp_rtt : Z;
    vxlan_vni : Z;
    entropy_scaled : Z;
    ntp_stratum : Z;
    ntp_mode : Z;
    igmp_type : Z;
    igmp_group : list Z;
    lldp_chassis : list Z;
    lldp_port : list Z;
    tcp_sack_edges : list Z;
    top_byte : Z;
    top_byte_freq : Z;
    pad : list Z;
    payload_len : Z;
    src_mac : list Z;
    dst_mac : list Z;
    dns_query : list Z;
    tls_sni : list Z;
    extra_info : list Z;
    app_layer_info : list Z;
    payload : list Z;
    final_pad : list Z
  }.

(** The record rebuilt from its fields, from which the assignments
    [info.f = v] are generated. *)
Definition eta (i : PacketInfo) : PacketInfo :=
  mkPacketInfo (timestamp i) (src_ip i) (dst_ip i) (src_port i) (dst_port i) (protocol i)
    (has_tcp_ao i) (tcp_flags i) (l3_offset i) (l4_offset i) (tcp_seq i)
    (tcp_ack i) (icmp_type i) (icmp_code i) (delta_time i) (vlan_id i)
    (ip_ttl i) (ip_tos i) (tcp_win i) (ip_id i) (is_ipv6 i) (is_fragment i)
    (tcp_mss i) (tcp_ws i) (ipv6_ext_count i) (ipv6_flow i) (wire_len i)
    (tcp_ts_val i) (tcp_ts_ecr i) (tcp_sack i) (tcp_rtt i) (vxlan_vni i)
    (entropy_scaled i) (ntp_stratum i) (ntp_mode i) (igmp_type i)
    (igmp_group i) (lldp_chassis i) (lldp_port i) (tcp_sack_edges i)
    (top_byte i) (top_byte_freq i) (pad i) (payload_len i) (src_mac i)
    (dst_mac i) (dns_query i) (tls_sni i) (extra_info i) (app_layer_info i)
    (payload i) (final_pad i).

Ltac setter f v i :=
  let t := eval cbv beta delta [eta] in (eta i) in
  match (eval pattern (f i) in t) with
  | ?g _ => let u := eval cbv beta in (g v) in exact u
  end.

Definition set_timestamp v i := ltac:(setter timestamp v i).
Definition set_src_ip v i := ltac:(setter src_ip v i).
Definition set_dst_ip v i := ltac:(setter dst_ip v i).
Definition set_src_port v i := ltac:(setter src_port v i).
Definition set_dst_port v i := ltac:(setter dst_port v i).
Definition set_protocol v i := ltac:(setter protocol v i).
Definition set_has_tcp_ao v i := ltac:(setter has_tcp_ao v i).
Definition set_tcp_flags v i := ltac:(setter tcp_flags v i).
Definition set_l3_offset v i := ltac:(setter l3_offset v i).
Definition set_l4_offset v i := ltac:(setter l4_offset v i).
Definition set_tcp_seq v i := ltac:(setter tcp_seq v i).
Definition set_tcp_ack v i := ltac:(setter tcp_ack v i).
Definition set_icmp_type v i := ltac:(setter icmp_type v i).
Definition set_icmp_code v i := ltac:(setter icmp_code v i).
Definition set_delta_time v i := ltac:(setter delta_time v i).
Definition set_vlan_id v i := ltac:(setter vlan_id v i).
Definition set_ip_ttl v i := ltac:(setter ip_ttl v i).
Definition set_ip_tos v i := ltac:(setter ip_tos v i).
Definition set_tcp_win v i := ltac:(setter tcp_win v i).
Definition set_ip_id v i := ltac:(setter ip_id v i).
Definition set_is_ipv6 v i := ltac:(setter is_ipv6 v i).
Definition set_is_fragment v i := ltac:(setter is_fragment v i).
Definition set_tcp_mss v i := ltac:(setter tcp_mss v i).
Definition set_tcp_ws v i := ltac:(setter tcp_ws v i).
Definition set_ipv6_ext_count v i := ltac:(setter ipv6_ext_count v i).
Definition set_ipv6_flow v i := ltac:(setter ipv6_flow v i).
Definition set_wire_len v i := ltac:(setter wire_len v i).
Definition set_tcp_ts_val v i := ltac:(setter tcp_ts_val v i).
Definition set_tcp_ts_ecr v i := ltac:(setter tcp_ts_ecr v i).
Definition set_tcp_sack v i := ltac:(setter tcp_sack v i).
Definition set_tcp_rtt v i := ltac:(setter tcp_rtt v i).
Definition set_vxlan_vni v i := ltac:(setter vxlan_vni v i).
Definition set_entropy_scaled v i := ltac:(setter entropy_scaled v i).
Definition set_ntp_stratum v i := ltac:(setter ntp_stratum v i).
Definition set_ntp_mode v i := ltac:(setter ntp_mode v i).
Definition set_igmp_type v i := ltac:(setter igmp_type v i).
Definition set_igmp_group v i := ltac:(setter igmp_group v i).
Definition set_lldp_chassis v i := ltac:(setter lldp_chassis v i).
Definition set_lldp_port v i := ltac:(setter lldp_port v i).
Definition set_tcp_sack_edges v i := ltac:(setter tcp_sack_edges v i).
Definition set_top_byte v i := ltac:(setter top_byte v i).
Definition set_top_byte_freq v i := ltac:(setter top_byte_freq v i).
Definition set_pad v i := ltac:(setter pad v i).
Definition set_payload_len v i := ltac:(setter payload_len v i).
Definition set_src_mac v i := ltac:(setter src_mac v i).
Definition set_dst_mac v i := ltac:(setter dst_mac v i).
Definition set_dns_query v i := ltac:(setter dns_query v i).
Definition set_tls_sni v i := ltac:(setter tls_sni v i).
Definition set_extra_info v i := ltac:(setter extra_info v i).
Definition set_app_layer_info v i := ltac:(setter app_layer_info v i).
Definition set_payload v i := ltac:(setter payload v i).
Definition set_final_pad v i := ltac:(setter final_pad v i).

(** [memset(&info, 0, sizeof(info))] *)
Definition zero_info : PacketInfo := {|
    timestamp := 0;
    src_ip := zeros 16;
    dst_ip := zeros 16;
    src_port := 0;
    dst_port := 0;
    protocol := 0;
    has_tcp_ao := 0;
    tcp_flags := 0;
    l3_offset := 0;
    l4_offset := 0;
    tcp_seq := 0;
    tcp_ack := 0;
    icmp_type := 0;
    icmp_code := 0;
    delta_time := 0;
    vlan_id := 0;
    ip_ttl := 0;
    ip_tos := 0;
    tcp_win := 0;
    ip_id := 0;
    is_ipv6 := 0;
    is_fragment := 0;
    tcp_mss := 0;
    tcp_ws := 0;
    ipv6_ext_count := 0;
    ipv6_flow := 0;
    wire_len := 0;
    tcp_ts_val := 0;
    tcp_ts_ecr := 0;
    tcp_sack := 0;
    tcp_rtt := 0;
    vxlan_vni := 0;
    entropy_scaled := 0;
    ntp_stratum := 0;
    ntp_mode := 0;
    igmp_type := 0;
    igmp_group := zeros 4;
    lldp_chassis := zeros 32;
    lldp_port := zeros 32;
    tcp_sack_edges := zeros 32;
    top_byte := 0;
    top_byte_freq := 0;
    pad := zeros 151;
    payload_len := 0;
    src_mac := zeros 6;
    dst_mac := zeros 6;
    dns_query := zeros 64;
    tls_sni := zeros 64;
    extra_info := zeros 128;
    app_layer_info := zeros 128;
    payload := zeros 256;
    final_pad := zeros 8
  |}.

(** The record without the fields that only the application dissectors and
    the TCP option parser write: what the capture itself determines. *)
Definition core (i : PacketInfo) : PacketInfo :=
  set_extra_info [] (set_app_layer_info [] (set_dns_query []
    (set_ntp_stratum 0 (set_ntp_mode 0 (set_igmp_type 0 (set_igmp_group []
    (set_lldp_chassis [] (set_lldp_port [] (set_vxlan_vni 0
    (set_tcp_mss 0 (set_tcp_ws 0 (set_tcp_sack 0 (set_tcp_sack_edges []
    (set_tcp_ts_val 0 (set_tcp_ts_ecr 0 (set_has_tcp_ao 0 i)))))))))))))))).

(** ** The parsers' results *)

Record EthernetInfo := mkEthernetInfo {
    eth_header : Z;        (** the frame's start *)
    eth_header_len : Z;
    eth_ether_type : Z;
    eth_vlan_id : Z
  }.

Record IpInfo := mkIpInfo {
    ipi_header : Z;        (** the IP header's start *)
    ipi_header_len : Z;
    ipi_src_ip : list Z;
    ipi_dst_ip : list Z;
    ipi_protocol : Z;
    ipi_ttl : Z;
    ipi_tos : Z;
    ipi_id : Z;
    ipi_is_ipv6 : bool;
    ipi_is_fragment : bool
  }.

Record TransportInfo := mkTransportInfo {
    t_src_port : Z;
    t_dst_port : Z;
    t_seq : Z;
    t_ack : Z;
    t_window : Z;
    t_flags : Z;
    t_mss : Z;
    t_ws : Z;
    t_has_ao : bool;
    t_payload_ptr : option Z;   (** [None] is the null pointer *)
    t_payload_len : Z
  }.

(** [memset(&t, 0, sizeof(t))] *)
Definition zero_transport : TransportInfo :=
  mkTransportInfo 0 0 0 0 0 0 0 0 false None 0.

(** ** Captured frames *)

(** [struct pcap_pkthdr]: the time stamp, the captured length, the length
    on the wire. *)
Record pcap_pkthdr := mkPkthdr {
    ts_sec : Z;
    ts_usec : Z;
    caplen : Z;
    wire : Z
  }.

Record RawPacket := mkRawPacket {
    pkthdr : pcap_pkthdr;
    data : list Z;
    raw_delta_time : Z
  }.

(** Evaluates the assignments in a term and nothing else. *)
Ltac record_simpl :=
  cbv beta iota delta [
    timestamp src_ip dst_ip src_port dst_port protocol has_tcp_ao tcp_flags l3_offset
    l4_offset tcp_seq tcp_ack icmp_type icmp_code delta_time vlan_id ip_ttl ip_tos
    tcp_win ip_id is_ipv6 is_fragment tcp_mss tcp_ws ipv6_ext_count ipv6_flow wire_len
    tcp_ts_val tcp_ts_ecr tcp_sack tcp_rtt vxlan_vni entropy_scaled ntp_stratum ntp_mode
    igmp_type igmp_group lldp_chassis lldp_port tcp_sack_edges top_byte top_byte_freq
    pad payload_len src_mac dst_mac dns_query tls_sni extra_info app_layer_info payload
    final_pad set_timestamp set_src_ip set_dst_ip set_src_port set_dst_port set_protocol
    set_has_tcp_ao set_tcp_flags set_l3_offset set_l4_offset set_tcp_seq set_tcp_ack
    set_icmp_type set_icmp_code set_delta_time set_vlan_id set_ip_ttl set_ip_tos
    set_tcp_win set_ip_id set_is_ipv6 set_is_fragment set_tcp_mss set_tcp_ws
    set_ipv6_ext_count set_ipv6_flow set_wire_len set_tcp_ts_val set_tcp_ts_ecr
    set_tcp_sack set_tcp_rtt set_vxlan_vni set_entropy_scaled set_ntp_stratum
    set_ntp_mode set_igmp_type set_igmp_group set_lldp_chassis set_lldp_port
    set_tcp_sack_edges set_top_byte set_top_byte_freq set_pad set_payload_len
    set_src_mac set_dst_mac set_dns_query set_tls_sni set_extra_info set_app_layer_info
    set_payload set_final_pad zero_info core].

(** ** Well-formedness: every field holds a value of its C type *)

Definition is_array (n : nat) (p : list Z) : Prop := length p = n ∧ bytes p.

Record wf_info (i : PacketInfo) : Prop := mk_wf_info {
    wf_timestamp : is_u 64 (timestamp i);
    wf_src_ip : is_array 16 (src_ip i);
    wf_dst_ip : is_array 16 (dst_ip i);
    wf_src_port : is_u 16 (src_port i);
    wf_dst_port : is_u 16 (dst_port i);
    wf_protocol : is_u 8 (protocol i);
    wf_has_tcp_ao : is_u 8 (has_tcp_ao i);
    wf_tcp_flags : is_u 8 (tcp_flags i);
    wf_l3_offset : is_u 8 (l3_offset i);
    wf_l4_offset : is_u 8 (l4_offset i);
    wf_tcp_seq : is_u 32 (tcp_seq i);
    wf_tcp_ack : is_u 32 (tcp_ack i);
    wf_icmp_type : is_u 8 (icmp_type i);
    wf_icmp_code : is_u 8 (icmp_code i);
    wf_delta_time : is_u 32 (delta_time i);
    wf_vlan_id : is_u 16 (vlan_id i);
    wf_ip_ttl : is_u 8 (ip_ttl i);
    wf_ip_tos : is_u 8 (ip_tos i);
    wf_tcp_win : is_u 16 (tcp_win i);
    wf_ip_id : is_u 16 (ip_id i);
    wf_is_ipv6 : is_u 8 (is_ipv6 i);
    wf_is_fragment : is_u 8 (is_fragment i);
    wf_tcp_mss : is_u 16 (tcp_mss i);
    wf_tcp_ws : is_u 8 (tcp_ws i);
    wf_ipv6_ext_count : is_u 8 (ipv6_ext_count i);
    wf_ipv6_flow : is_u 32 (ipv6_flow i);
    wf_wire_len : is_u 32 (wire_len i);
    wf_tcp_ts_val : is_u 32 (tcp_ts_val i);
    wf_tcp_ts_ecr : is_u 32 (tcp_ts_ecr i);
    wf_tcp_sack : is_u 8 (tcp_sack i);
    wf_tcp_rtt : is_u 32 (tcp_rtt i);
    wf_vxlan_vni : is_u 32 (vxlan_vni i);
    wf_entropy_scaled : is_u 32 (entropy_scaled i);
    wf_ntp_stratum : is_u 8 (ntp_stratum i);
    wf_ntp_mode : is_u 8 (ntp_mode i);
    wf_igmp_type : is_u 8 (igmp_type i);
    wf_igmp_group : is_array 4 (igmp_group i);
    wf_lldp_chassis : is_array 32 (lldp_chassis i);
    wf_lldp_port : is_array 32 (lldp_port i);
    wf_tcp_sack_edges : is_array 32 (tcp_sack_edges i);
    wf_top_byte : is_u 8 (top_byte i);
    wf_top_byte_freq : is_u 8 (top_byte_freq i);
    wf_pad : is_array 151 (pad i);
    wf_payload_len : is_u 16 (payload_len i);
    wf_src_mac : is_array 6 (src_mac i);
    wf_dst_mac : is_array 6 (dst_mac i);
    wf_dns_query : is_array 64 (dns_query i);
    wf_tls_sni : is_array 64 (tls_sni i);
    wf_extra_info : is_array 128 (extra_info i);
    wf_app_layer_info : is_array 128 (app_layer_info i);
    wf_payload : is_array 256 (payload i);
    wf_final_pad : is_array 8 (final_pad i)
  }.

(** What an application dissector may do to the record. *)
Definition info_ok (i i' : PacketInfo) : Prop := wf_info i' ∧ core i' = core i.

(** A packet of the raw queue.  libpcap captures at most its snapshot length,
    so the captured length is far below [2 ^ 31]; it is not bounded by the
    size of [data]. *)
Record wf_raw (r : RawPacket) : Prop := mk_wf_raw {
    wf_caplen : 0 ≤ caplen (pkthdr r) < 2 ^ 31;
    wf_wire : is_u 32 (wire (pkthdr r));
    wf_data : is_array 256 (data r);
    wf_raw_delta : is_u 32 (raw_delta_time r)
  }.

Lemma is_array_zeros n : is_array n (zeros n).
Proof. split; [apply length_replicate | auto with pacsni]. Qed.
Lemma is_array_bytes n p : is_array n p → bytes p.
Proof. by intros []. Qed.
Lemma is_array_length n p : is_array n p → length p = n.
Proof. by intros []. Qed.
Lemma is_array_blit n p off s r :
  blit p off s = Ok r → is_array n p → bytes s → is_array n r.
Proof. intros E [<- ?] ?. split; eauto using blit_length, blit_bytes. Qed.
Lemma is_array_memcpy n p doff s soff k r :
  memcpy p doff s soff k = Ok r → is_array n p → bytes s → is_array n r.
Proof. intros E [<- ?] ?. split; eauto using memcpy_length, memcpy_bytes. Qed.
Lemma is_array_snprintf n p off m s r :
  snprintf p off m s = Ok r → is_array n p → bytes s → is_array n r.
Proof. intros E [<- ?] ?. split; eauto using snprintf_length, snprintf_bytes. Qed.
Lemma is_array_wr n p off b r :
  wr p off b = Ok r → is_array n p → is_byte b → is_array n r.
Proof. intros. eapply is_array_blit; [done..|]. by constructor. Qed.

Lemma wf_zero_info : wf_info zero_info.
Proof. constructor; try (unfold is_u; simpl; lia); apply is_array_zeros. Qed.

(** Assigning a well-typed value keeps the record well formed. *)
Ltac wf_setter := intros ? []; constructor; assumption.

Lemma wf_set_timestamp v i : is_u 64 v → wf_info i → wf_info (set_timestamp v i).
Proof. wf_setter. Qed.
Lemma wf_set_src_ip v i : is_array 16 v → wf_info i → wf_info (set_src_ip v i).
Proof. wf_setter. Qed.
Lemma wf_set_dst_ip v i : is_array 16 v → wf_info i → wf_info (set_dst_ip v i).
Proof. wf_setter. Qed.
Lemma wf_set_src_port v i : is_u 16 v → wf_info i → wf_info (set_src_port v i).
Proof. wf_setter. Qed.
Lemma wf_set_dst_port v i : is_u 16 v → wf_info i → wf_info (set_dst_port v i).
Proof. wf_setter. Qed.
Lemma wf_set_protocol v i : is_u 8 v → wf_info i → wf_info (set_protocol v i).
Proof. wf_setter. Qed.
Lemma wf_set_has_tcp_ao v i : is_u 8 v → wf_info i → wf_info (set_has_tcp_ao v i).
Proof. wf_setter. Qed.
Lemma wf_set_tcp_flags v i : is_u 8 v → wf_info i → wf_info (set_tcp_flags v i).
Proof. wf_setter. Qed.
Lemma wf_set_l3_offset v i : is_u 8 v → wf_info i → wf_info (set_l3_offset v i).
Proof. wf_setter. Qed.
Lemma wf_set_l4_offset v i : is_u 8 v → wf_info i → wf_info (set_l4_offset v i).
Proof. wf_setter. Qed.
Lemma wf_set_tcp_seq v i : is_u 32 v → wf_info i → wf_info (set_tcp_seq v i).
Proof. wf_setter. Qed.
Lemma wf_set_tcp_ack v i : is_u 32 v → wf_info i → wf_info (set_tcp_ack v i).
Proof. wf_setter. Qed.
Lemma wf_set_icmp_type v i : is_u 8 v → wf_info i → wf_info (set_icmp_type v i).
Proof. wf_setter. Qed.
Lemma wf_set_icmp_code v i : is_u 8 v → wf_info i → wf_info (set_icmp_code v i).
Proof. wf_setter. Qed.
Lemma wf_set_delta_time v i : is_u 32 v → wf_info i → wf_info (set_delta_time v i).
Proof. wf_setter. Qed.
Lemma wf_set_vlan_id v i : is_u 16 v → wf_info i → wf_info (set_vlan_id v i).
Proof. wf_setter. Qed.
Lemma wf_set_ip_ttl v i : is_u 8 v → wf_info i → wf_info (set_ip_ttl v i).
Proof. wf_setter. Qed.
Lemma wf_set_ip_tos v i : is_u 8 v → wf_info i → wf_info (set_ip_tos v i).
Proof. wf_setter. Qed.
Lemma wf_set_tcp_win v i : is_u 16 v → wf_info i → wf_info (set_tcp_win v i).
Proof. wf_setter. Qed.
Lemma wf_set_ip_id v i : is_u 16 v → wf_info i → wf_info (set_ip_id v i).
Proof. wf_setter. Qed.
Lemma wf_set_is_ipv6 v i : is_u 8 v → wf_info i → wf_info (set_is_ipv6 v i).
Proof. wf_setter. Qed.
Lemma wf_set_is_fragment v i : is_u 8 v → wf_info i → wf_info (set_is_fragment v i).
Proof. wf_setter. Qed.
Lemma wf_set_tcp_mss v i : is_u 16 v → wf_info i → wf_info (set_tcp_mss v i).
Proof. wf_setter. Qed.
Lemma wf_set_tcp_ws v i : is_u 8 v → wf_info i → wf_info (set_tcp_ws v i).
Proof. wf_setter. Qed.
Lemma wf_set_ipv6_ext_count v i : is_u 8 v → wf_info i → wf_info (set_ipv6_ext_count v i).
Proof. wf_setter. Qed.
Lemma wf_set_ipv6_flow v i : is_u 32 v → wf_info i → wf_info (set_ipv6_flow v i).
Proof. wf_setter. Qed.
Lemma wf_set_wire_len v i : is_u 32 v → wf_info i → wf_info (set_wire_len v i).
Proof. wf_setter. Qed.
Lemma wf_set_tcp_ts_val v i : is_u 32 v → wf_info i → wf_info (set_tcp_ts_val v i).
Proof. wf_setter. Qed.
Lemma wf_set_tcp_ts_ecr v i : is_u 32 v → wf_info i → wf_info (set_tcp_ts_ecr v i).
Proof. wf_setter. Qed.
Lemma wf_set_tcp_sack v i : is_u 8 v → wf_info i → wf_info (set_tcp_sack v i).
Proof. wf_setter. Qed.
Lemma wf_set_tcp_rtt v i : is_u 32 v → wf_info i → wf_info (set_tcp_rtt v i).
Proof. wf_setter. Qed.
Lemma wf_set_vxlan_vni v i : is_u 32 v → wf_info i → wf_info (set_vxlan_vni v i).
Proof. wf_setter. Qed.
Lemma wf_set_entropy_scaled v i : is_u 32 v → wf_info i → wf_info (set_entropy_scaled v i).
Proof. wf_setter. Qed.
Lemma wf_set_ntp_stratum v i : is_u 8 v → wf_info i → wf_info (set_ntp_stratum v i).
Proof. wf_setter. Qed.
Lemma wf_set_ntp_mode v i : is_u 8 v → wf_info i → wf_info (set_ntp_mode v i).
Proof. wf_setter. Qed.
Lemma wf_set_igmp_type v i : is_u 8 v → wf_info i → wf_info (set_igmp_type v i).
Proof. wf_setter. Qed.
Lemma wf_set_igmp_group v i : is_array 4 v → wf_info i → wf_info (set_igmp_group v i).
Proof. wf_setter. Qed.
Lemma wf_set_lldp_chassis v i : is_array 32 v → wf_info i → wf_info (set_lldp_chassis v i).
Proof. wf_setter. Qed.
Lemma wf_set_lldp_port v i : is_array 32 v → wf_info i → wf_info (set_lldp_port v i).
Proof. wf_setter. Qed.
Lemma wf_set_tcp_sack_edges v i : is_array 32 v → wf_info i → wf_info (set_tcp_sack_edges v i).
Proof. wf_setter. Qed.
Lemma wf_set_top_byte v i : is_u 8 v → wf_info i → wf_info (set_top_byte v i).
Proof. wf_setter. Qed.
Lemma wf_set_top_byte_freq v i : is_u 8 v → wf_info i → wf_info (set_top_byte_freq v i).
Proof. wf_setter. Qed.
Lemma wf_set_pad v i : is_array 151 v → wf_info i → wf_info (set_pad v i).
Proof. wf_setter. Qed.
Lemma wf_set_payload_len v i : is_u 16 v → wf_info i → wf_info (set_payload_len v i).
Proof. wf_setter. Qed.
Lemma wf_set_src_mac v i : is_array 6 v → wf_info i → wf_info (set_src_mac v i).
Proof. wf_setter. Qed.
Lemma wf_set_dst_mac v i : is_array 6 v → wf_info i → wf_info (set_dst_mac v i).
Proof. wf_setter. Qed.
Lemma wf_set_dns_query v i : is_array 64 v → wf_info i → wf_info (set_dns_query v i).
Proof. wf_setter. Qed.
Lemma wf_set_tls_sni v i : is_array 64 v → wf_info i → wf_info (set_tls_sni v i).
Proof. wf_setter. Qed.
Lemma wf_set_extra_info v i : is_array 128 v → wf_info i → wf_info (set_extra_info v i).
Proof. wf_setter. Qed.
Lemma wf_set_app_layer_info v i : is_array 128 v → wf_info i → wf_info (set_app_layer_info v i).
Proof. wf_setter. Qed.
Lemma wf_set_payload v i : is_array 256 v → wf_info i → wf_info (set_payload v i).
Proof. wf_setter. Qed.
Lemma wf_set_final_pad v i : is_array 8 v → wf_info i → wf_info (set_final_pad v i).
Proof. wf_setter. Qed.

#[export] Hint Resolve is_array_zeros is_array_bytes is_array_blit
  is_array_memcpy is_array_snprintf is_array_wr : pacsni.
#[export] Hint Resolve wf_zero_info wf_set_timestamp wf_set_src_ip
  wf_set_dst_ip wf_set_src_port wf_set_dst_port wf_set_protocol
  wf_set_has_tcp_ao wf_set_tcp_flags wf_set_l3_offset wf_set_l4_offset
  wf_set_tcp_seq wf_set_tcp_ack wf_set_icmp_type wf_set_icmp_code
  wf_set_delta_time wf_set_vlan_id wf_set_ip_ttl wf_set_ip_tos wf_set_tcp_win
  wf_set_ip_id wf_set_is_ipv6 wf_set_is_fragment wf_set_tcp_mss wf_set_tcp_ws
  wf_set_ipv6_ext_count wf_set_ipv6_flow wf_set_wire_len wf_set_tcp_ts_val
  wf_set_tcp_ts_ecr wf_set_tcp_sack wf_set_tcp_rtt wf_set_vxlan_vni
  wf_set_entropy_scaled wf_set_ntp_stratum wf_set_ntp_mode wf_set_igmp_type
  wf_set_igmp_group wf_set_lldp_chassis wf_set_lldp_port wf_set_tcp_sack_edges
  wf_set_top_byte wf_set_top_byte_freq wf_set_pad wf_set_payload_len
  wf_set_src_mac wf_set_dst_mac wf_set_dns_query wf_set_tls_sni
  wf_set_extra_info wf_set_app_layer_info wf_set_payload wf_set_final_pad :
  pacsni.

#[export] Hint Resolve wf_timestamp wf_src_ip wf_dst_ip wf_src_port
  wf_dst_port wf_protocol wf_has_tcp_ao wf_tcp_flags wf_l3_offset wf_l4_offset
  wf_tcp_seq wf_tcp_ack wf_icmp_type wf_icmp_code wf_delta_time wf_vlan_id
  wf_ip_ttl wf_ip_tos wf_tcp_win wf_ip_id wf_is_ipv6 wf_is_fragment wf_tcp_mss
  wf_tcp_ws wf_ipv6_ext_count wf_ipv6_flow wf_wire_len wf_tcp_ts_val
  wf_tcp_ts_ecr wf_tcp_sack wf_tcp_rtt wf_vxlan_vni wf_entropy_scaled
  wf_ntp_stratum wf_ntp_mode wf_igmp_type wf_igmp_group wf_lldp_chassis
  wf_lldp_port wf_tcp_sack_edges wf_top_byte wf_top_byte_freq wf_pad
  wf_payload_len wf_src_mac wf_dst_mac wf_dns_query wf_tls_sni wf_extra_info
  wf_app_layer_info wf_payload wf_final_pad : pacsni.

Lemma info_ok_refl i : wf_info i → info_ok i i.
Proof. by split. Qed.

Lemma info_ok_trans i j k : info_ok i j → info_ok j k → info_ok i k.
Proof. intros [_ ?] [? ?]. split; [done|congruence]. Qed.

(** A text buffer of the record. *)
Lemma is_array_text n out r : is_array n out → text_ok out r → is_array n r.
Proof. intros [<- _] (? & ? & _). by split. Qed.

#[export] Hint Resolve info_ok_refl : pacsni.
