(* ===== verification/Layers.v ===== *)
(** * The layer parsers of [cpp/protocol_dissectors.cpp]

    [parse_ethernet_layer], [parse_ip_layer] and [parse_transport_layer],
    with the theorems that they never read past [caplen], that their results
    are well typed, and that they recover what a frame builder wrote. *)

From S2P Require Import Prelude CMemory PacketTypes.

(** ** Ethernet *)

Definition is_vlan (etype : Z) : bool := (etype =? 0x8100) || (etype =? 0x88a8).

(** The loop over 802.1Q tags: [(hlen, etype, v_id)]. *)
Fixpoint vlan_loop (fuel : nat) (packet : list Z) (caplen hlen etype v_id : Z)
    : res (Z * Z * Z) :=
  match fuel with
  | O => Fault OutOfFuel
  | S fuel =>
      if is_vlan etype && (u32 (hlen + 4) <=? caplen) then
        tci ← load16 packet hlen;
        ty ← load16 packet (hlen + 2);
        vlan_loop fuel packet caplen (hlen + 4) (ntohs ty) (Z.land (ntohs tci) 0x0FFF)
      else Ok (hlen, etype, v_id)
  end.

Definition parse_ethernet_layer (packet : list Z) (caplen : Z) : res (option EthernetInfo) :=
  if caplen <? 14 then Ok None else
  ty ← load16 packet 12;
  '(hlen, etype, v_id) ← vlan_loop (S (length packet)) packet caplen 14 (ntohs ty) 0;
  Ok (Some (mkEthernetInfo 0 hlen etype v_id)).

(** ** IPv4 and IPv6 *)

Definition parse_ipv4 (packet : list Z) (caplen eth_hlen : Z) : res (option IpInfo) :=
  if caplen <? u32 (eth_hlen + 20) then Ok None else
  b0 ← rd packet eth_hlen;
  let header_len := Z.land b0 0x0f * 4 in
  if (header_len <? 20) || (caplen <? u32 (eth_hlen + header_len)) then Ok None else
  src ← memcpy (zeros 16) 12 packet (eth_hlen + 12) 4;
  dst ← memcpy (zeros 16) 12 packet (eth_hlen + 16) 4;
  proto ← rd packet (eth_hlen + 9);
  ttl ← rd packet (eth_hlen + 8);
  tos ← rd packet (eth_hlen + 1);
  id ← load16 packet (eth_hlen + 4);
  off ← load16 packet (eth_hlen + 6);
  Ok (Some (mkIpInfo eth_hlen header_len src dst proto ttl tos (ntohs id) false
              (negb (Z.land (ntohs off) (Z.lor 0x2000 0x1fff) =? 0)))).

Definition parse_ipv6 (packet : list Z) (caplen eth_hlen : Z) : res (option IpInfo) :=
  if caplen <? u32 (eth_hlen + 40) then Ok None else
  src ← memcpy (zeros 16) 0 packet (eth_hlen + 8) 16;
  dst ← memcpy (zeros 16) 0 packet (eth_hlen + 24) 16;
  nxt ← rd packet (eth_hlen + 6);
  hlim ← rd packet (eth_hlen + 7);
  flow ← load32 packet eth_hlen;
  Ok (Some (mkIpInfo eth_hlen 40 src dst nxt hlim
              (Z.land (Z.shiftr (ntohl flow) 20) 0xFF) 0 true false)).

Definition parse_ip_layer (packet : list Z) (caplen eth_hlen : Z) : res (option IpInfo) :=
  if caplen <? u32 (eth_hlen + 1) then Ok None else
  b0 ← rd packet eth_hlen;
  let version := Z.land (Z.shiftr b0 4) 0x0f in
  if version =? 4 then parse_ipv4 packet caplen eth_hlen
  else if version =? 6 then parse_ipv6 packet caplen eth_hlen
  else Ok None.

(** ** TCP and UDP *)

Definition parse_tcp (packet : list Z) (caplen offset : Z) (ip_i : IpInfo)
    : res (option TransportInfo) :=
  if caplen <? u32 (offset + 20) then Ok None else
  b12 ← rd packet (offset + 12);
  let hlen := Z.land (Z.shiftr b12 4) 0x0f * 4 in
  if (hlen <? 20) || (caplen <? u32 (offset + hlen)) then Ok None else
  sp ← load16 packet offset;
  dp ← load16 packet (offset + 2);
  seq ← load32 packet (offset + 4);
  ack ← load32 packet (offset + 8);
  win ← load16 packet (offset + 14);
  flags ← rd packet (offset + 13);
  len ← load16 packet (ipi_header ip_i + 2);
  Ok (Some (mkTransportInfo (ntohs sp) (ntohs dp) (ntohl seq) (ntohl ack) (ntohs win)
              flags 0 0 false (Some (offset + hlen))
              (ntohs len - ipi_header_len ip_i - hlen))).

Definition parse_udp (packet : list Z) (caplen offset : Z) : res (option TransportInfo) :=
  if caplen <? u32 (offset + 8) then Ok None else
  sp ← load16 packet offset;
  dp ← load16 packet (offset + 2);
  len ← load16 packet (offset + 4);
  Ok (Some (mkTransportInfo (ntohs sp) (ntohs dp) 0 0 0 0 0 0 false
              (Some (offset + 8)) (ntohs len - 8))).

Definition parse_transport_layer (packet : list Z) (caplen eth_hlen : Z) (ip_i : IpInfo)
    : res (option TransportInfo) :=
  let offset := eth_hlen + ipi_header_len ip_i in
  if ipi_protocol ip_i =? 6 then parse_tcp packet caplen offset ip_i
  else if ipi_protocol ip_i =? 17 then parse_udp packet caplen offset
  else Ok (Some zero_transport).

(** ** Typing of the results *)

Record wf_ip (i : IpInfo) : Prop := mk_wf_ip {
    wf_ipi_len : 20 ≤ ipi_header_len i ≤ 60;
    wf_ipi_len4 : ipi_header_len i mod 4 = 0;
    wf_ipi_v6 : ipi_is_ipv6 i = true → ipi_header_len i = 40;
    wf_ipi_src : is_array 16 (ipi_src_ip i);
    wf_ipi_dst : is_array 16 (ipi_dst_ip i);
    wf_ipi_protocol : is_byte (ipi_protocol i);
    wf_ipi_ttl : is_byte (ipi_ttl i);
    wf_ipi_tos : is_byte (ipi_tos i);
    wf_ipi_id : is_u 16 (ipi_id i)
  }.

Record wf_transport (t : TransportInfo) : Prop := mk_wf_transport {
    wf_t_src_port : is_u 16 (t_src_port t);
    wf_t_dst_port : is_u 16 (t_dst_port t);
    wf_t_seq : is_u 32 (t_seq t);
    wf_t_ack : is_u 32 (t_ack t);
    wf_t_window : is_u 16 (t_window t);
    wf_t_flags : is_byte (t_flags t)
  }.

(** What the VLAN loop stops with: a header length of [14 + 4n] within the
    captured bytes, and no further complete tag. *)
Definition eth_result (caplen hlen etype v_id : Z) : Prop :=
  14 ≤ hlen ≤ caplen ∧ hlen mod 4 = 2 ∧ is_u 16 etype ∧ is_u 12 v_id ∧
  (is_vlan etype = true → caplen < hlen + 4).

(** ** The parsers stay inside the captured bytes

    The specifications are guarded: the accesses are in bounds if the
    captured length is backed by the buffer, and the results are well typed
    in any case. *)

Section safety.
Context (F : fault → Prop) (packet : list Z) (caplen : Z).
Context (Hpacket : bytes packet) (Hsmall : 0 ≤ caplen < 2 ^ 31).
Context (Hcaplen : guard F (caplen ≤ zlen packet)).

Lemma vlan_loop_spec fuel hlen etype v_id :
  14 ≤ hlen ≤ caplen → hlen mod 4 = 2 → is_u 16 etype → is_u 12 v_id →
  (Z.to_nat (zlen packet - hlen) < fuel)%nat →
  wp F (vlan_loop fuel packet caplen hlen etype v_id) (λ '(h, e, v), eth_result caplen h e v).
Proof.
  revert hlen etype v_id.
  induction fuel as [|fuel IH]; intros hlen etype v_id Hh Hmod He Hv Hfuel; [lia|].
  cbn [vlan_loop]. rewrite u32_small by (unfold is_u; lia). case_test.
  - wp_step. eapply wp_load16_g; [done|guarded|intros v1 Hv1].
    wp_step. eapply wp_guard; [exact Hcaplen| |].
    { intros. apply wp_load16; [done|lia|lia|done]. }
    intros v2 Hv2. pose proof (load16_range _ _ _ Hv2 Hpacket) as Hr2.
    apply load16_inside in Hv2 as [_ Hin]. apply IH.
    + lia.
    + rewrite <- Zplus_mod_idemp_l, Hmod. done.
    + by apply ntohs_range.
    + apply is_u_land. done.
    + lia.
  - apply wp_ret. repeat (split; [done|]). intros Hvlan. lia.
Qed.

Lemma parse_ethernet_layer_spec :
  wp F (parse_ethernet_layer packet caplen) (λ r,
  match r with
  | None => caplen < 14
  | Some e => eth_header e = 0 ∧
    eth_result caplen (eth_header_len e) (eth_ether_type e) (eth_vlan_id e)
  end).
Proof.
  unfold parse_ethernet_layer. wp_step; [apply wp_ret; lia|].
  wp_step. eapply wp_load16_g; [done|guarded|intros ty Hty].
  wp_step. eapply wp_mono.
  - apply vlan_loop_spec; [lia|done|by apply ntohs_range|done|lia].
  - intros [[hl et] vid] Hres. by apply wp_ret.
Qed.
End safety.

Section ip_safety.
Context (F : fault → Prop) (packet : list Z) (caplen eth_hlen : Z).
Context (Hpacket : bytes packet) (Hcaplen : guard F (caplen ≤ zlen packet)).
Context (Hsmall : caplen < 2 ^ 31) (Heth : 0 ≤ eth_hlen ≤ caplen).

Definition ip_result (r : option IpInfo) : Prop :=
  match r with
  | None => True
  | Some i => wf_ip i ∧ ipi_header i = eth_hlen ∧ eth_hlen + ipi_header_len i ≤ caplen
  end.

Lemma parse_ipv4_spec : wp F (parse_ipv4 packet caplen eth_hlen) ip_result.
Proof using All.
  unfold parse_ipv4. g_steps; try done. split; [|simpl; lia].
  constructor; simpl; eauto with pacsni; [lia|apply Z_mod_mult|done].
Qed.

Lemma parse_ipv6_spec : wp F (parse_ipv6 packet caplen eth_hlen) ip_result.
Proof using All.
  unfold parse_ipv6. g_steps; try done. split; [|simpl; lia].
  constructor; simpl; eauto with pacsni; [lia].
Qed.

Lemma parse_ip_layer_spec : wp F (parse_ip_layer packet caplen eth_hlen) ip_result.
Proof using All.
  unfold parse_ip_layer. g_steps; try done.
  - apply parse_ipv4_spec.
  - apply parse_ipv6_spec.
Qed.
End ip_safety.

Section transport_safety.
Context (F : fault → Prop) (packet : list Z) (caplen eth_hlen : Z) (ip_i : IpInfo).
Context (Hpacket : bytes packet) (Hcaplen : guard F (caplen ≤ zlen packet)).
Context (Hsmall : caplen < 2 ^ 31) (Heth : 0 ≤ eth_hlen).
Context (Hip : wf_ip ip_i) (Hhdr : ipi_header ip_i = eth_hlen).
Context (Hend : eth_hlen + ipi_header_len ip_i ≤ caplen).

(** A payload pointer is past the transport header and within the capture;
the payload length is only bounded by the 16-bit length field it was
computed from. *)
Definition transport_result (r : option TransportInfo) : Prop :=
  match r with
  | None => True
  | Some t => wf_transport t ∧
  - 2 ^ 16 < t_payload_len t < 2 ^ 16 ∧
  match t_payload_ptr t with
  | None => t = zero_transport
  | Some p => eth_hlen + ipi_header_len ip_i + 8 ≤ p ≤ caplen ∧
      (ipi_protocol ip_i = 6 →
       eth_hlen + ipi_header_len ip_i + 20 ≤ p ≤ eth_hlen + ipi_header_len ip_i + 60)
  end
  end.

Lemma parse_transport_layer_spec :
  wp F (parse_transport_layer packet caplen eth_hlen ip_i) transport_result.
Proof using All.
  pose proof (wf_ipi_len _ Hip).
  unfold parse_transport_layer, parse_tcp, parse_udp.
  g_steps; try done; unfold transport_result; simpl.
  - split; [constructor; simpl; auto with pacsni|]. ntohs_bounds. lia.
  - split; [constructor; simpl; auto with pacsni|]. ntohs_bounds. lia.
Qed.
End transport_safety.

(** The protocol of an IPv6 packet is the next-header byte. *)
Lemma parse_ip_layer_v6 packet caplen eth_hlen i :
  parse_ip_layer packet caplen eth_hlen = Ok (Some i) → ipi_is_ipv6 i = true →
  rd packet (ipi_header i + 6) = Ok (ipi_protocol i).
Proof.
  unfold parse_ip_layer, parse_ipv4, parse_ipv6. repeat case_test; try done;
    intros (b0 & _ & H)%bind_Ok_inv; revert H; repeat case_test; try done; intros H;
    repeat (apply bind_Ok_inv in H as (? & ? & H); revert H; repeat case_test; try done; intros H);
    by injection H as <-.
Qed.

(** ** The parsers read nothing but the captured bytes *)

Lemma vlan_loop_extend fuel k p q caplen hlen etype v r :
  vlan_loop fuel p caplen hlen etype v = Ok r →
  vlan_loop (fuel + k) (p ++ q) caplen hlen etype v = Ok r.
Proof.
  revert hlen etype v. induction fuel as [|fuel IH]; intros hlen etype v; [done|].
  cbn [vlan_loop Nat.add]. case_test; [|done]. intros H. repeat extend_step. by apply IH.
Qed.

Lemma parse_ethernet_layer_extend p q caplen r :
  parse_ethernet_layer p caplen = Ok r → parse_ethernet_layer (p ++ q) caplen = Ok r.
Proof.
  unfold parse_ethernet_layer. case_test; [done|]. intros H. extend_step.
  apply bind_Ok_inv in H as ([[hl et] vid] & Hv & H).
  rewrite length_app, <- Nat.add_succ_l. by rewrite (vlan_loop_extend _ _ _ _ _ _ _ _ _ Hv).
Qed.

Lemma parse_ip_layer_extend p q caplen h r :
  parse_ip_layer p caplen h = Ok r → parse_ip_layer (p ++ q) caplen h = Ok r.
Proof. unfold parse_ip_layer, parse_ipv4, parse_ipv6. intros H. extend. Qed.

Lemma parse_transport_layer_extend p q caplen h ip r :
  parse_transport_layer p caplen h ip = Ok r →
  parse_transport_layer (p ++ q) caplen h ip = Ok r.
Proof. unfold parse_transport_layer, parse_tcp, parse_udp. intros H. extend. Qed.
