(* ===== verification/Frames.v ===== *)
(** * Frame builders and the round trips of the layer parsers

    A specification of what the layer parsers are meant to invert: builders
    of Ethernet headers with any stack of VLAN tags, of IPv4 headers with
    options, and of TCP and UDP headers.  The round-trip lemmas say that a parser run
    on a built header recovers the fields it was built from. *)

From S2P Require Import Prelude CMemory PacketTypes Layers.

(** ** Builders *)

(** A tag is its protocol identifier and its control information. *)
Definition valid_tag (t : Z * Z) : Prop :=
  is_vlan t.1 = true ∧ is_u 16 t.1 ∧ is_u 16 t.2.

Definition first_type (tags : list (Z * Z)) (etype : Z) : Z :=
  match tags with [] => etype | t :: _ => t.1 end.

(** The bytes after the first type field. *)
Fixpoint after_type (tags : list (Z * Z)) (etype : Z) (rest : list Z) : list Z :=
  match tags with
  | [] => rest
  | t :: tags => be16 t.2 ++ be16 (first_type tags etype) ++ after_type tags etype rest
  end.

Definition build_eth (dst src : list Z) (tags : list (Z * Z)) (etype : Z)
    (rest : list Z) : list Z :=
  (dst ++ src) ++ be16 (first_type tags etype) ++ after_type tags etype rest.

Definition last_vid (v : Z) (tags : list (Z * Z)) : Z :=
  foldl (λ _ t, Z.land t.2 0x0FFF) v tags.

(** [opts] holds [n] 32-bit words of options. *)
Definition build_ipv4 (n tos len id frag ttl proto sum : Z) (src dst opts : list Z) : list Z :=
  [0x40 + (5 + n); tos] ++ be16 len ++ be16 id ++ be16 frag ++ [ttl; proto] ++
  be16 sum ++ src ++ dst ++ opts.

Definition build_tcp (n sp dp seq ack flags win sum urg : Z) (opts : list Z) : list Z :=
  be16 sp ++ be16 dp ++ be32 seq ++ be32 ack ++ [16 * (5 + n); flags] ++
  be16 win ++ be16 sum ++ be16 urg ++ opts.

Definition build_udp (sp dp len sum : Z) : list Z :=
  be16 sp ++ be16 dp ++ be16 len ++ be16 sum.

(** A TCP segment in an IPv4 packet in an Ethernet frame, field by field. *)
Record tcp_frame := mkTcpFrame {
    f_dst : list Z; f_src : list Z; f_tags : list (Z * Z);
    f_tos : Z; f_id : Z; f_frag : Z; f_ttl : Z; f_sum : Z;
    f_src_ip : list Z; f_dst_ip : list Z; f_words : Z; f_opts : list Z;
    f_sport : Z; f_dport : Z; f_seq : Z; f_ack : Z; f_flags : Z; f_win : Z;
    f_tcp_sum : Z; f_urg : Z; f_tcp_words : Z; f_tcp_opts : list Z;
    f_payload : list Z; f_trailer : list Z
  }.

Definition f_total_len (f : tcp_frame) : Z :=
  (20 + 4 * f_words f) + (20 + 4 * f_tcp_words f) + zlen (f_payload f).

Definition build_frame (f : tcp_frame) : list Z :=
  build_eth (f_dst f) (f_src f) (f_tags f) 0x0800
    (build_ipv4 (f_words f) (f_tos f) (f_total_len f) (f_id f) (f_frag f) (f_ttl f)
       6 (f_sum f) (f_src_ip f) (f_dst_ip f) (f_opts f) ++
     build_tcp (f_tcp_words f) (f_sport f) (f_dport f) (f_seq f) (f_ack f) (f_flags f)
       (f_win f) (f_tcp_sum f) (f_urg f) (f_tcp_opts f) ++
     f_payload f ++ f_trailer f).

(** The frame up to the payload. *)
Definition frame_headers (f : tcp_frame) : list Z :=
  build_eth (f_dst f) (f_src f) (f_tags f) 0x0800
    (build_ipv4 (f_words f) (f_tos f) (f_total_len f) (f_id f) (f_frag f) (f_ttl f)
       6 (f_sum f) (f_src_ip f) (f_dst_ip f) (f_opts f) ++
     build_tcp (f_tcp_words f) (f_sport f) (f_dport f) (f_seq f) (f_ack f) (f_flags f)
       (f_win f) (f_tcp_sum f) (f_urg f) (f_tcp_opts f)).

Record wf_frame (f : tcp_frame) : Prop := mk_wf_frame {
    wf_f_dst : length (f_dst f) = 6%nat;
    wf_f_src : length (f_src f) = 6%nat;
    wf_f_tags : Forall valid_tag (f_tags f);
    wf_f_id : is_u 16 (f_id f);
    wf_f_frag : is_u 16 (f_frag f);
    wf_f_sip : length (f_src_ip f) = 4%nat;
    wf_f_dip : length (f_dst_ip f) = 4%nat;
    wf_f_words : 0 ≤ f_words f ≤ 10;
    wf_f_opts : zlen (f_opts f) = 4 * f_words f;
    wf_f_sport : is_u 16 (f_sport f);
    wf_f_dport : is_u 16 (f_dport f);
    wf_f_seq : is_u 32 (f_seq f);
    wf_f_ack : is_u 32 (f_ack f);
    wf_f_win : is_u 16 (f_win f);
    wf_f_tcp_words : 0 ≤ f_tcp_words f ≤ 10;
    wf_f_tcp_opts : zlen (f_tcp_opts f) = 4 * f_tcp_words f;
    wf_f_total : is_u 16 (f_total_len f);
    wf_f_size : zlen (build_frame f) < 2 ^ 31
  }.

(** What the three parsers are to return on a built frame. *)
Definition frame_eth (f : tcp_frame) : EthernetInfo :=
  mkEthernetInfo 0 (14 + 4 * zlen (f_tags f)) 0x0800 (last_vid 0 (f_tags f)).

Definition frame_ip (f : tcp_frame) : IpInfo :=
  mkIpInfo (eth_header_len (frame_eth f)) (20 + 4 * f_words f)
    (zeros 12 ++ f_src_ip f) (zeros 12 ++ f_dst_ip f) 6 (f_ttl f) (f_tos f) (f_id f)
    false (negb (Z.land (f_frag f) 0x3fff =? 0)).

Definition frame_transport (f : tcp_frame) : TransportInfo :=
  mkTransportInfo (f_sport f) (f_dport f) (f_seq f) (f_ack f) (f_win f) (f_flags f) 0 0
    false
    (Some (eth_header_len (frame_eth f) + (20 + 4 * f_words f) + (20 + 4 * f_tcp_words f)))
    (zlen (f_payload f)).

(** ** Ethernet *)

Lemma last_vid_range tags v : is_u 12 v → is_u 12 (last_vid v tags).
Proof.
  revert v. induction tags as [|t tags IH]; intros v Hv; [done|].
  simpl. apply IH. by apply is_u_land.
Qed.

Lemma length_after_type tags etype rest :
  zlen (after_type tags etype rest) = 4 * zlen tags + zlen rest.
Proof.
  induction tags as [|t tags IH]; [simpl; lia|].
  cbn [after_type length]. rewrite !length_app, !length_be16. lia.
Qed.

Lemma vlan_loop_tags tags etype rest fuel pre v caplen :
  Forall valid_tag tags → is_vlan etype = false → is_u 16 etype →
  (length tags < fuel)%nat → zlen (pre ++ after_type tags etype rest) ≤ caplen < 2 ^ 31 →
  vlan_loop fuel (pre ++ after_type tags etype rest)
    caplen (zlen pre) (first_type tags etype) v
  = Ok (zlen pre + 4 * zlen tags, etype, last_vid v tags).
Proof.
  intros Htags Hety Hrng. revert fuel pre v.
  induction Htags as [|[tpid tci] tags (Hv & Hp & Hc) Htags IH];
    intros [|fuel] pre v Hfuel Hlen; [simpl in *; lia| |simpl in *; lia|]; cbn [vlan_loop].
  - simpl. rewrite Hety. simpl. repeat f_equal. lia.
  - cbn [first_type after_type fst snd] in *. rewrite Hv. simpl in Hv, Hp, Hc.
    rewrite !length_app, !length_be16 in Hlen.
    case_test; [|rewrite u32_small in E; unfold is_u; lia].
    autorewrite with behind. rewrite !load16_be16. cbn [mbind res_bind].
    assert (is_u 16 (first_type tags etype)) as Hft.
    { destruct Htags as [|? ? (? & ? & ?)]; done. }
    rewrite !ntohs_invol, !(assoc_L (++)) by done.
    replace (zlen pre + 4) with (zlen ((pre ++ be16 tci) ++ be16 (first_type tags etype)))
      by (rewrite !length_app, !length_be16; lia).
    rewrite IH; [|simpl in *; lia|].
    + rewrite !length_app, !length_be16. cbn [length]. do 3 f_equal. lia.
    + rewrite !length_app, !length_be16. lia.
Qed.

Lemma parse_build_eth dst src tags etype rest caplen :
  length dst = 6%nat → length src = 6%nat → Forall valid_tag tags →
  is_vlan etype = false → is_u 16 etype →
  zlen (build_eth dst src tags etype rest) ≤ caplen < 2 ^ 31 →
  parse_ethernet_layer (build_eth dst src tags etype rest) caplen
  = Ok (Some (mkEthernetInfo 0 (14 + 4 * zlen tags) etype (last_vid 0 tags))).
Proof.
  intros Hd Hs Htags Hety Hrng Hlen.
  assert (is_u 16 (first_type tags etype)) as Hft.
  { destruct Htags as [|? ? (? & ? & ?)]; done. }
  unfold parse_ethernet_layer.
  set (p := build_eth dst src tags etype rest) in *.
  assert (zlen p = 14 + zlen (after_type tags etype rest)) as Hp.
  { unfold p, build_eth. rewrite !length_app, length_be16. lia. }
  case_test; [lia|].
  assert (load16 p 12 = Ok (ntohs (first_type tags etype))) as ->.
  { unfold p, build_eth. replace 12 with (zlen (dst ++ src)) by (rewrite length_app; lia).
    by rewrite load16_app_0, load16_be16. }
  cbn [mbind res_bind]. rewrite ntohs_invol by done.
  assert (p = ((dst ++ src) ++ be16 (first_type tags etype)) ++ after_type tags etype rest)
    as Hp' by (unfold p, build_eth; by rewrite <- !(assoc_L (++))).
  replace 14 with (zlen ((dst ++ src) ++ be16 (first_type tags etype))) at 1
    by (rewrite !length_app, length_be16; lia).
  rewrite Hp' at 2. rewrite vlan_loop_tags; try done.
  - rewrite !length_app, length_be16. cbn [mbind res_bind]. do 3 f_equal. lia.
  - rewrite length_after_type in Hp. lia.
  - rewrite <- Hp'. done.
Qed.

(** ** IPv4 *)

(** The version and header-length nibbles of a first byte [16 v + k]. *)
Lemma nibbles v k : 0 ≤ v < 16 → 0 ≤ k < 16 →
  Z.land (Z.shiftr (16 * v + k) 4) 0x0f = v ∧ Z.land (16 * v + k) 0x0f = k.
Proof.
  intros. change 15 with (Z.ones 4). rewrite !Z.land_ones, Z.shiftr_div_pow2 by lia.
  Z.to_euclidean_division_equations. lia.
Qed.

Lemma length_build_ipv4 n tos len id frag ttl proto sum src dst opts :
  length src = 4%nat → length dst = 4%nat → zlen opts = 4 * n →
  zlen (build_ipv4 n tos len id frag ttl proto sum src dst opts) = 20 + 4 * n.
Proof.
  intros. unfold build_ipv4. rewrite !length_app, !length_be16. simpl. lia.
Qed.

Lemma parse_build_ipv4 pre n tos len id frag ttl proto sum src dst opts rest caplen :
  length src = 4%nat → length dst = 4%nat → 0 ≤ n ≤ 10 → zlen opts = 4 * n →
  is_u 16 id → is_u 16 frag →
  let p := pre ++ build_ipv4 n tos len id frag ttl proto sum src dst opts ++ rest in
  zlen p ≤ caplen < 2 ^ 31 →
  parse_ip_layer p caplen (zlen pre) =
    Ok (Some (mkIpInfo (zlen pre) (20 + 4 * n) (zeros 12 ++ src) (zeros 12 ++ dst)
                proto ttl tos id false (negb (Z.land frag 0x3fff =? 0)))).
Proof.
  intros Hs Hd Hn Ho Hid Hfrag p Hlen.
  pose proof (length_build_ipv4 n tos len id frag ttl proto sum src dst opts Hs Hd Ho) as Hl.
  assert (zlen p = zlen pre + (20 + 4 * n) + zlen rest) as Hp.
  { unfold p. rewrite !length_app. lia. }
  unfold parse_ip_layer, parse_ipv4. u32_norm. case_test; [lia|].
  unfold p. autorewrite with behind. fold p.
  destruct src as [|s0 [|s1 [|s2 [|s3 [|]]]]]; try done.
  destruct dst as [|d0 [|d1 [|d2 [|d3 [|]]]]]; try done.
  set (q := build_ipv4 _ _ _ _ _ _ _ _ _ _ _ ++ rest).
  change (rd q 0) with (Ok (16 * 4 + (5 + n))). cbn [mbind res_bind].
  destruct (nibbles 4 (5 + n)) as [-> ->]; [lia..|]. cbn [Z.eqb Pos.eqb].
  u32_norm. case_test; [lia|]. case_test; [lia|].
  change (load16 q 4) with (load16 (be16 id ++ drop 6 q) 0).
  change (load16 q 6) with (load16 (be16 frag ++ drop 8 q) 0).
  rewrite !load16_be16.
  assert (20 ≤ zlen q) as Hq.
  { unfold q. rewrite length_app. lia. }
  assert (∀ k a b c d, 0 ≤ k → k + 4 ≤ 20 → take 4 (drop (Z.to_nat k) q) = [a; b; c; d] →
    memcpy (zeros 16) 12 q k 4 = Ok (zeros 12 ++ [a; b; c; d])) as Hcopy.
  { intros k a b c d ?? Hk. unfold memcpy, rd_bytes. case_test; [lia|].
    case_test; [|lia]. change (Z.to_nat 4) with 4%nat. by rewrite Hk. }
  rewrite (Hcopy 12 s0 s1 s2 s3), (Hcopy 16 d0 d1 d2 d3) by (done || lia).
  change (rd q 9) with (Ok proto). change (rd q 8) with (Ok ttl).
  change (rd q 1) with (Ok tos). cbn [mbind res_bind].
  rewrite !ntohs_invol by done. do 3 f_equal. lia.
Qed.

(** ** TCP and UDP *)

Lemma length_build_tcp m sp dp seq ack flags win sum urg opts :
  zlen opts = 4 * m → zlen (build_tcp m sp dp seq ack flags win sum urg opts) = 20 + 4 * m.
Proof. intros. unfold build_tcp, be32. rewrite !length_app, !length_be16. simpl. lia. Qed.

Lemma parse_build_tcp pre ip_i eth_hlen total m sp dp seq ack flags win sum urg opts rest caplen :
  let p := pre ++ build_tcp m sp dp seq ack flags win sum urg opts ++ rest in
  0 ≤ m ≤ 10 → zlen opts = 4 * m → zlen p ≤ caplen < 2 ^ 31 →
  is_u 16 sp → is_u 16 dp → is_u 32 seq → is_u 32 ack → is_u 16 win → is_u 16 total →
  ipi_protocol ip_i = 6 → eth_hlen + ipi_header_len ip_i = zlen pre →
  load16 p (ipi_header ip_i + 2) = Ok (ntohs total) →
  parse_transport_layer p caplen eth_hlen ip_i =
    Ok (Some (mkTransportInfo sp dp seq ack win flags 0 0 false
                (Some (zlen pre + (20 + 4 * m)))
                (total - ipi_header_len ip_i - (20 + 4 * m)))).
Proof.
  intros p Hm Ho Hlen Hsp Hdp Hseq Hack Hwin Htot Hproto Hoff Hload.
  pose proof (length_build_tcp m sp dp seq ack flags win sum urg opts Ho) as Hl.
  assert (zlen p = zlen pre + (20 + 4 * m) + zlen rest) as Hp.
  { unfold p. rewrite !length_app. lia. }
  unfold parse_transport_layer. rewrite Hproto, Hoff. cbn [Z.eqb Pos.eqb].
  unfold parse_tcp. rewrite Hload. u32_norm. case_test; [lia|].
  unfold p. autorewrite with behind. fold p.
  set (q := build_tcp _ _ _ _ _ _ _ _ _ _ ++ rest).
  change (rd q 12) with (Ok (16 * (5 + m))). cbn [mbind res_bind].
  replace (16 * (5 + m)) with (16 * (5 + m) + 0) by lia.
  destruct (nibbles (5 + m) 0) as [-> _]; [lia..|].
  u32_norm. case_test; [lia|].
  change (load16 q 0) with (load16 (be16 sp ++ drop 2 q) 0).
  change (load16 q 2) with (load16 (be16 dp ++ drop 4 q) 0).
  change (load32 q 4) with (load32 (be32 seq ++ drop 8 q) 0).
  change (load32 q 8) with (load32 (be32 ack ++ drop 12 q) 0).
  change (load16 q 14) with (load16 (be16 win ++ drop 16 q) 0).
  change (rd q 13) with (Ok flags).
  rewrite !load16_be16, !load32_be32. cbn [mbind res_bind].
  rewrite !ntohs_invol, !ntohl_invol by done.
  do 3 f_equal; [f_equal|]; lia.
Qed.

Lemma parse_build_udp pre ip_i eth_hlen sp dp len sum rest :
  let p := pre ++ build_udp sp dp len sum ++ rest in
  zlen p < 2 ^ 31 → is_u 16 sp → is_u 16 dp → is_u 16 len →
  ipi_protocol ip_i = 17 → eth_hlen + ipi_header_len ip_i = zlen pre →
  parse_transport_layer p (zlen p) eth_hlen ip_i =
    Ok (Some (mkTransportInfo sp dp 0 0 0 0 0 0 false (Some (zlen pre + 8)) (len - 8))).
Proof.
  intros p Hlen Hsp Hdp Hl Hproto Hoff.
  assert (zlen p = zlen pre + 8 + zlen rest) as Hp.
  { unfold p, build_udp. rewrite !length_app, !length_be16. lia. }
  unfold parse_transport_layer. rewrite Hproto, Hoff. cbn [Z.eqb Pos.eqb].
  unfold parse_udp. u32_norm. case_test; [lia|].
  unfold p. autorewrite with behind. fold p.
  set (q := build_udp _ _ _ _ ++ rest).
  change (load16 q 0) with (load16 (be16 sp ++ drop 2 q) 0).
  change (load16 q 2) with (load16 (be16 dp ++ drop 4 q) 0).
  change (load16 q 4) with (load16 (be16 len ++ drop 6 q) 0).
  rewrite !load16_be16. cbn [mbind res_bind]. by rewrite !ntohs_invol.
Qed.

(** ** Whole frames *)

Section frame.
Context (f : tcp_frame) (Hf : wf_frame f).

(** The bytes before the IP header, and the segment after it. *)
Let eth_part : list Z :=
  (f_dst f ++ f_src f) ++ be16 (first_type (f_tags f) 0x0800) ++
  after_type (f_tags f) 0x0800 [].
Let ip_part : list Z :=
  build_ipv4 (f_words f) (f_tos f) (f_total_len f) (f_id f) (f_frag f) (f_ttl f)
  6 (f_sum f) (f_src_ip f) (f_dst_ip f) (f_opts f).
Let tcp_part : list Z :=
  build_tcp (f_tcp_words f) (f_sport f) (f_dport f) (f_seq f) (f_ack f) (f_flags f)
  (f_win f) (f_tcp_sum f) (f_urg f) (f_tcp_opts f).

Lemma after_type_app tags etype rest :
  after_type tags etype rest = after_type tags etype [] ++ rest.
Proof.
  induction tags as [|t tags IH]; [done|].
  cbn [after_type]. by rewrite IH, <- !(assoc_L (++)).
Qed.

Lemma frame_headers_split : frame_headers f = eth_part ++ ip_part ++ tcp_part.
Proof.
  unfold frame_headers, build_eth, eth_part.
  rewrite after_type_app. by rewrite <- !(assoc_L (++)).
Qed.

Lemma build_frame_headers : build_frame f = frame_headers f ++ f_payload f ++ f_trailer f.
Proof.
  rewrite frame_headers_split. unfold build_frame, build_eth, eth_part.
  rewrite after_type_app. by rewrite <- !(assoc_L (++)).
Qed.

Lemma length_eth_part : zlen eth_part = eth_header_len (frame_eth f).
Proof.
  destruct Hf. unfold eth_part. simpl.
  pose proof (length_after_type (f_tags f) 0x0800 []) as E.
  rewrite !length_app. simpl in *. lia.
Qed.

Lemma length_ip_part : zlen ip_part = 20 + 4 * f_words f.
Proof. destruct Hf. by apply length_build_ipv4. Qed.

Lemma length_tcp_part : zlen tcp_part = 20 + 4 * f_tcp_words f.
Proof. destruct Hf. by apply length_build_tcp. Qed.

Lemma length_frame_headers :
  zlen (frame_headers f)
  = eth_header_len (frame_eth f) + (20 + 4 * f_words f) + (20 + 4 * f_tcp_words f).
Proof.
  rewrite frame_headers_split, !length_app, !Nat2Z.inj_add, length_eth_part, length_ip_part,
    length_tcp_part. lia.
Qed.

(** The TCP header behind the IP header, and its options. *)
Lemma frame_headers_options : ∃ pre hdr, frame_headers f = pre ++ hdr ++ f_tcp_opts f ∧
  zlen pre = eth_header_len (frame_eth f) + (20 + 4 * f_words f) ∧ length hdr = 20%nat.
Proof.
  exists (eth_part ++ ip_part), (build_tcp (f_tcp_words f) (f_sport f) (f_dport f) (f_seq f)
    (f_ack f) (f_flags f) (f_win f) (f_tcp_sum f) (f_urg f) []). split_and!.
  - rewrite frame_headers_split, <- !(assoc_L (++)). unfold tcp_part, build_tcp.
    by rewrite <- !(assoc_L (++)).
  - rewrite length_app, Nat2Z.inj_add, length_eth_part, length_ip_part. lia.
  - done.
Qed.

Lemma length_build_frame :
  zlen (build_frame f)
  = 14 + 4 * zlen (f_tags f) + f_total_len f + zlen (f_trailer f).
Proof.
  rewrite build_frame_headers, !length_app, !Nat2Z.inj_add, length_frame_headers.
  unfold f_total_len. simpl. lia.
Qed.

Lemma frame_macs tail :
  take 6 (frame_headers f ++ tail) = f_dst f ∧ take 6 (drop 6 (frame_headers f ++ tail)) = f_src f.
Proof.
  destruct Hf. unfold frame_headers, build_eth. rewrite <- !(assoc_L (++)).
  rewrite (drop_app_length' (f_dst f)) by done.
  by rewrite !take_app_length' by done.
Qed.

Lemma frame_vid : is_u 12 (eth_vlan_id (frame_eth f)).
Proof. by apply last_vid_range. Qed.

(** *** The parsers on the headers and whatever follows them in the buffer *)

Section behind.
Context (tail : list Z) (caplen : Z).
Context (Hcap : zlen (frame_headers f ++ tail) ≤ caplen < 2 ^ 31).

Lemma headers_parse_eth : parse_ethernet_layer (frame_headers f ++ tail) caplen = Ok (Some (frame_eth f)).
Proof using Hf Hcap.
  assert (frame_headers f ++ tail = build_eth (f_dst f) (f_src f) (f_tags f) 0x0800
    ((ip_part ++ tcp_part) ++ tail)) as E.
  { rewrite frame_headers_split. unfold build_eth, eth_part.
    rewrite (after_type_app _ _ ((ip_part ++ tcp_part) ++ tail)). by rewrite <- !(assoc_L (++)). }
  rewrite E in *. destruct Hf. by apply parse_build_eth.
Qed.

Lemma headers_parse_ip :
  parse_ip_layer (frame_headers f ++ tail) caplen (eth_header_len (frame_eth f))
  = Ok (Some (frame_ip f)).
Proof using Hf Hcap.
  unfold frame_ip. rewrite <- length_eth_part, frame_headers_split, <- !(assoc_L (++)) in *.
  destruct Hf. by apply parse_build_ipv4.
Qed.

Lemma headers_parse_tcp :
  parse_transport_layer (frame_headers f ++ tail) caplen
  (eth_header_len (frame_eth f)) (frame_ip f) = Ok (Some (frame_transport f)).
Proof using Hf Hcap.
  assert (load16 (frame_headers f ++ tail) (eth_header_len (frame_eth f) + 2)
    = Ok (ntohs (f_total_len f))) as Hload.
  { rewrite <- length_eth_part, frame_headers_split, <- !(assoc_L (++)), load16_app_r by lia.
    unfold ip_part, build_ipv4. rewrite <- !(assoc_L (++)).
    change (load16 (be16 (f_total_len f) ++
      (be16 (f_id f) ++ be16 (f_frag f) ++ [f_ttl f; 6] ++ be16 (f_sum f) ++
      f_src_ip f ++ f_dst_ip f ++ f_opts f ++ tcp_part ++ tail)) 0
      = Ok (ntohs (f_total_len f))).
    apply load16_be16. }
  assert (frame_headers f ++ tail = (eth_part ++ ip_part) ++ tcp_part ++ tail) as E.
  { rewrite frame_headers_split. by rewrite <- !(assoc_L (++)). }
  rewrite E in *. destruct Hf. etransitivity.
  - apply (parse_build_tcp (eth_part ++ ip_part) (frame_ip f) _ (f_total_len f));
      try done. by rewrite length_app, Nat2Z.inj_add, length_eth_part, length_ip_part.
  - rewrite length_app, Nat2Z.inj_add, length_eth_part, length_ip_part.
    unfold frame_transport, f_total_len, frame_ip. simpl. repeat f_equal; lia.
Qed.

Lemma headers_payload :
  ptr_add (frame_headers f ++ tail)
  (eth_header_len (frame_eth f) + (20 + 4 * f_words f) + (20 + 4 * f_tcp_words f)) = tail.
Proof using Hf.
  rewrite <- length_frame_headers. unfold ptr_add. by rewrite Nat2Z.id, drop_app_length.
Qed.
End behind.

Lemma frame_parse_eth :
  parse_ethernet_layer (build_frame f) (zlen (build_frame f)) = Ok (Some (frame_eth f)).
Proof.
  pose proof (wf_f_size _ Hf). rewrite build_frame_headers in *. by apply headers_parse_eth.
Qed.

Lemma frame_parse_ip :
  parse_ip_layer (build_frame f) (zlen (build_frame f)) (eth_header_len (frame_eth f))
  = Ok (Some (frame_ip f)).
Proof.
  pose proof (wf_f_size _ Hf). rewrite build_frame_headers in *. by apply headers_parse_ip.
Qed.

Lemma frame_parse_tcp :
  parse_transport_layer (build_frame f) (zlen (build_frame f))
  (eth_header_len (frame_eth f)) (frame_ip f) = Ok (Some (frame_transport f)).
Proof.
  pose proof (wf_f_size _ Hf). rewrite build_frame_headers in *. by apply headers_parse_tcp.
Qed.

Lemma frame_payload :
  ptr_add (build_frame f)
  (eth_header_len (frame_eth f) + (20 + 4 * f_words f) + (20 + 4 * f_tcp_words f))
  = f_payload f ++ f_trailer f.
Proof. rewrite build_frame_headers. apply headers_payload. Qed.
End frame.

(** C9. On an Ethernet frame with any stack of VLAN tags that carries an IPv4
    packet (any options) with a TCP segment (any options), the three layer
    parsers recover every field, and the payload pointer and length they
    report select exactly the segment's payload. *)
Theorem parse_frame_roundtrip (f : tcp_frame) (Hf : wf_frame f) :
  let p := build_frame f in
  parse_ethernet_layer p (zlen p) = Ok (Some (frame_eth f)) ∧
  parse_ip_layer p (zlen p) (eth_header_len (frame_eth f)) = Ok (Some (frame_ip f)) ∧
  parse_transport_layer p (zlen p) (eth_header_len (frame_eth f)) (frame_ip f)
    = Ok (Some (frame_transport f)) ∧
  (∃ ptr, t_payload_ptr (frame_transport f) = Some ptr ∧
     take (Z.to_nat (t_payload_len (frame_transport f))) (ptr_add p ptr) = f_payload f).
Proof.
  split; [by apply frame_parse_eth|]. split; [by apply frame_parse_ip|].
  split; [by apply frame_parse_tcp|].
  eexists. split; [done|]. rewrite frame_payload by done.
  simpl. by rewrite Nat2Z.id, take_app_length.
Qed.

(** A tagged frame with IP and TCP options. *)
Definition sample_frame : tcp_frame := {|
    f_dst := [0; 1; 2; 3; 4; 5]; f_src := [6; 7; 8; 9; 10; 11];
    f_tags := [(0x88a8, 0x0001); (0x8100, 0x2005)];
    f_tos := 0; f_id := 77; f_frag := 0x4000; f_ttl := 64; f_sum := 0;
    f_src_ip := [10; 0; 0; 1]; f_dst_ip := [10; 0; 0; 2]; f_words := 1; f_opts := [1; 1; 1; 0];
    f_sport := 22; f_dport := 40000; f_seq := 1000; f_ack := 2000; f_flags := 0x18;
    f_win := 502; f_tcp_sum := 0; f_urg := 0; f_tcp_words := 1; f_tcp_opts := [2; 4; 5; 180];
    f_payload := [104; 105]; f_trailer := [0; 0]
  |}.

Lemma parse_frame_roundtrip_witness :
  wf_frame sample_frame ∧
  let p := build_frame sample_frame in
  parse_ethernet_layer p (zlen p) = Ok (Some (frame_eth sample_frame)) ∧
  parse_ip_layer p (zlen p) (eth_header_len (frame_eth sample_frame))
    = Ok (Some (frame_ip sample_frame)) ∧
  parse_transport_layer p (zlen p) (eth_header_len (frame_eth sample_frame))
    (frame_ip sample_frame) = Ok (Some (frame_transport sample_frame)) ∧
  (∃ ptr, t_payload_ptr (frame_transport sample_frame) = Some ptr ∧
     take (Z.to_nat (t_payload_len (frame_transport sample_frame))) (ptr_add p ptr)
     = f_payload sample_frame).
Proof.
  assert (wf_frame sample_frame) as H by (constructor; by_decide).
  split; [exact H|]. exact (parse_frame_roundtrip sample_frame H).
Defined.

