(* ===== verification/TcpOptions.v ===== *)
(** * TCP options and TCP anomalies

    The two option parsers ([parse_tcp_options_extended] of
    [cpp/protocol_dissectors.cpp] and [parse_tcp_options] of
    [cpp/packet_capture.cpp]) and [check_tcp_anomalies]. *)

From Stdlib Require Import String.
From S2P Require Import Prelude CMemory PacketTypes.

(** ** The extended parser *)

(** The chain of [if]s on one option with kind [kind] and length [l] at [k]. *)
Definition apply_option (opts : list Z) (k kind l : Z) (i : PacketInfo) : res PacketInfo :=
  if (kind =? 2) && (l =? 4) then
    v ← load16 opts (k + 2); Ok (set_tcp_mss (ntohs v) i)
  else if (kind =? 3) && (l =? 3) then
    v ← rd opts (k + 2); Ok (set_tcp_ws v i)
  else if (kind =? 4) && (l =? 2) then Ok (set_tcp_sack 1 i)
  else if (kind =? 5) && (10 <=? l) then
    let blocks := Z.min ((l - 2) / 8) 4 in
    e ← memcpy (tcp_sack_edges i) 0 opts (k + 2) (blocks * 8);
    Ok (set_tcp_sack_edges e i)
  else if (kind =? 8) && (l =? 10) then
    v ← load32 opts (k + 2);
    e ← load32 opts (k + 6);
    Ok (set_tcp_ts_ecr (ntohl e) (set_tcp_ts_val (ntohl v) i))
  else if kind =? 29 then Ok (set_has_tcp_ao 1 i)
  else Ok i.

Fixpoint ext_options_loop (fuel : nat) (opts : list Z) (len k : Z) (i : PacketInfo)
    : res PacketInfo :=
  match fuel with
  | O => Fault OutOfFuel
  | S fuel =>
      if k <? len then
        kind ← rd opts k;
        if kind =? 0 then Ok i
        else if kind =? 1 then ext_options_loop fuel opts len (k + 1) i
        else if len <=? k + 1 then Ok i
        else
          l ← rd opts (k + 1);
          if (l <? 2) || (len <? k + l) then Ok i
          else
            i ← apply_option opts k kind l i;
            ext_options_loop fuel opts len (k + l) i
      else Ok i
  end.

Definition parse_tcp_options_extended (p : list Z) (o h : Z) (i : PacketInfo) : res PacketInfo :=
  if h <=? 20 then Ok i else
  let opts := ptr_add p (o + 20) in
  let len := h - 20 in
  ext_options_loop (S (Z.to_nat len)) opts len 0 i.

(** ** The parser into [TransportInfo] *)

Definition set_t_mss (v : Z) (t : TransportInfo) : TransportInfo :=
  let 'mkTransportInfo sp dp sq ak w fl _ ws ao pp pl := t in
  mkTransportInfo sp dp sq ak w fl v ws ao pp pl.
Definition set_t_ws (v : Z) (t : TransportInfo) : TransportInfo :=
  let 'mkTransportInfo sp dp sq ak w fl mss _ ao pp pl := t in
  mkTransportInfo sp dp sq ak w fl mss v ao pp pl.
Definition set_t_has_ao (v : bool) (t : TransportInfo) : TransportInfo :=
  let 'mkTransportInfo sp dp sq ak w fl mss ws _ pp pl := t in
  mkTransportInfo sp dp sq ak w fl mss ws v pp pl.

Definition apply_basic_option (options : list Z) (i kind len : Z) (t : TransportInfo)
    : res TransportInfo :=
  if (kind =? 2) && (len =? 4) then
    v ← load16 options (i + 2); Ok (set_t_mss (ntohs v) t)
  else if (kind =? 3) && (len =? 3) then
    v ← rd options (i + 2); Ok (set_t_ws v t)
  else if kind =? 29 then Ok (set_t_has_ao true t)
  else Ok t.

Fixpoint basic_options_loop (fuel : nat) (options : list Z) (opt_len i : Z)
    (t : TransportInfo) : res TransportInfo :=
  match fuel with
  | O => Fault OutOfFuel
  | S fuel =>
      if i <? opt_len then
        kind ← rd options i;
        if kind =? 0 then Ok t
        else if kind =? 1 then basic_options_loop fuel options opt_len (i + 1) t
        else if opt_len <=? i + 1 then Ok t
        else
          len ← rd options (i + 1);
          if (len <? 2) || (opt_len <? i + len) then Ok t
          else
            t ← apply_basic_option options i kind len t;
            basic_options_loop fuel options opt_len (i + len) t
      else Ok t
  end.

Definition parse_tcp_options (packet : list Z) (offset tcp_hlen : Z) (t : TransportInfo)
    : res TransportInfo :=
  if tcp_hlen <=? 20 then Ok t else
  let options := ptr_add packet (offset + 20) in
  let opt_len := tcp_hlen - 20 in
  basic_options_loop (S (Z.to_nat opt_len)) options opt_len 0 t.

(** ** Anomalies *)

(** [x & mask] as a condition. *)
Definition flag (x mask : Z) : bool := negb (Z.land x mask =? 0).

Definition check_tcp_anomalies (i : PacketInfo) (t : TransportInfo) : res PacketInfo :=
  let sfr := Z.lor 0x02 (Z.lor 0x01 0x04) in
  if (t_window t =? 0) && flag (t_flags t) 0x10 && negb (flag (t_flags t) sfr) then
    x ← snprintf (extra_info i) 0 128 (str "TCP ZeroWindow");
    Ok (set_extra_info x i)
  else if (payload_len i =? 1) && (u32 (t_seq t + 1) =? tcp_seq i)
          && negb (flag (t_flags t) sfr) then
    x ← snprintf (extra_info i) 0 128 (str "TCP Keep-Alive");
    Ok (set_extra_info x i)
  else Ok i.

(** ** The option list as data

    The options of RFC 9293, 7323, 2018 and 5925 that the parser knows, and
    any other option as its kind and body. *)

Inductive tcp_option :=
  | ONop
  | OMss (mss : Z)
  | OWs (shift : Z)
  | OSackPermitted
  | OSack (blocks : list Z)
  | OTimestamp (val ecr : Z)
  | OAo (body : list Z)
  | OOther (kind : Z) (body : list Z).

#[export] Instance tcp_option_eq_dec : EqDecision tcp_option.
Proof. solve_decision. Defined.

Definition encode_option (o : tcp_option) : list Z :=
  match o with
  | ONop => [1]
  | OMss mss => [2; 4] ++ be16 mss
  | OWs s => [3; 3; s]
  | OSackPermitted => [4; 2]
  | OSack b => [5; 2 + zlen b] ++ b
  | OTimestamp v e => [8; 10] ++ be32 v ++ be32 e
  | OAo b => [29; 2 + zlen b] ++ b
  | OOther k b => [k; 2 + zlen b] ++ b
  end.

Definition encode_options (os : list tcp_option) : list Z :=
  concat (encode_option <$> os).

Definition valid_option (o : tcp_option) : Prop :=
  match o with
  | ONop | OSackPermitted => True
  | OMss mss => is_u 16 mss
  | OWs s => is_byte s
  | OSack b => ∃ n, (1 ≤ n ≤ 4)%nat ∧ length b = (8 * n)%nat
  | OTimestamp v e => is_u 32 v ∧ is_u 32 e
  | OAo b => zlen b ≤ 253
  | OOther k b => 1 < k ∧ (k ∉ [2; 3; 4; 5; 8; 29]) ∧ zlen b ≤ 253
  end.

(** What an option means for the record. *)
Definition option_effect (i : PacketInfo) (o : tcp_option) : PacketInfo :=
  match o with
  | ONop | OOther _ _ => i
  | OMss mss => set_tcp_mss mss i
  | OWs s => set_tcp_ws s i
  | OSackPermitted => set_tcp_sack 1 i
  | OSack b => set_tcp_sack_edges (b ++ drop (length b) (tcp_sack_edges i)) i
  | OTimestamp v e => set_tcp_ts_ecr e (set_tcp_ts_val v i)
  | OAo _ => set_has_tcp_ao 1 i
  end.

(** The record without what options can set. *)
Definition without_options (i : PacketInfo) : PacketInfo :=
  set_tcp_mss 0 (set_tcp_ws 0 (set_tcp_sack 0 (set_tcp_sack_edges []
    (set_tcp_ts_val 0 (set_tcp_ts_ecr 0 (set_has_tcp_ao 0 i)))))).

(** The two parsers' results for the same options. *)
Definition options_agree (t : TransportInfo) (i : PacketInfo) : Prop :=
  t_mss t = tcp_mss i ∧ t_ws t = tcp_ws i ∧ t_has_ao t = negb (has_tcp_ao i =? 0).

(** ** Safety and termination *)

Section safety.
Context (F : fault → Prop) (opts : list Z) (len : Z).
Context (Hopts : bytes opts) (Hlen : guard F (len ≤ zlen opts)).

Lemma apply_option_spec k kind l i :
  0 ≤ k → 2 ≤ l → k + l ≤ len → wf_info i →
  wp F (apply_option opts k kind l i)
  (λ i', wf_info i' ∧ without_options i' = without_options i).
Proof.
  intros Hk Hl Hkl Hi. unfold apply_option.
  assert (0 ≤ Z.min ((l - 2) / 8) 4 ∧ Z.min ((l - 2) / 8) 4 * 8 ≤ l - 2) as [??].
  { Z.to_euclidean_division_equations. lia. }
  assert (zlen (tcp_sack_edges i) = 32) as Hsack.
  { destruct (wf_tcp_sack_edges _ Hi). lia. }
  g_steps; (split; [|done]); eauto 6 with pacsni.
Qed.

Lemma ext_options_loop_spec fuel k i :
  0 ≤ k → wf_info i → (Z.to_nat (len - k) < fuel)%nat →
  wp F (ext_options_loop fuel opts len k i)
  (λ i', wf_info i' ∧ without_options i' = without_options i).
Proof.
  revert k i. induction fuel as [|fuel IH]; intros k i Hk Hi Hfuel; [lia|].
  cbn [ext_options_loop]. g_steps; try done.
  - apply IH; [lia|done|lia].
  - eapply wp_mono; [apply apply_option_spec; [lia|lia|lia|done]|].
    intros i' [Hi' Heq]. eapply wp_mono; [apply IH; [lia|done|lia]|].
    intros i'' [? ?]. split; [done|congruence].
Qed.
End safety.

Lemma parse_tcp_options_extended_spec F p o h i :
  bytes p → 0 ≤ o → guard F (o + h ≤ zlen p) → wf_info i →
  wp F (parse_tcp_options_extended p o h i)
    (λ i', wf_info i' ∧ without_options i' = without_options i).
Proof.
  intros Hp Ho Hh Hi. unfold parse_tcp_options_extended. case_test; [by apply wp_ret|].
  apply ext_options_loop_spec; auto with pacsni; [|lia|lia].
  eapply guard_mono; [exact Hh|]. intros. rewrite length_ptr_add; lia.
Qed.

(** ** Round trip *)

Lemma encode_option_kind o :
  valid_option o → o ≠ ONop → ∃ kind tl,
    encode_option o = kind :: zlen (encode_option o) :: tl ∧ kind ≠ 0 ∧ kind ≠ 1.
Proof.
  intros Hv Ho. destruct o as [|mss|s| |b|v e|b|k b]; [done|..];
    [ exists 2, (be16 mss) | exists 3, [s] | exists 4, [] | exists 5, b
    | exists 8, (be32 v ++ be32 e) | exists 29, b | exists k, b ];
    simpl in Hv; (split; [|lia]); simpl; repeat f_equal; lia.
Qed.

(** One encoded option has its effect. *)
Lemma apply_encoded_option o pre q i kind :
  valid_option o → o ≠ ONop → length (tcp_sack_edges i) = 32%nat →
  head (encode_option o) = Some kind →
  apply_option (pre ++ encode_option o ++ q) (zlen pre) kind (zlen (encode_option o)) i
  = Ok (option_effect i o).
Proof.
  intros Hv Ho Hi Hkind. unfold apply_option.
  autorewrite with behind.
  destruct o as [|mss|s| |b|v e|b|k b]; [done|..];
    simpl in Hkind; injection Hkind as <-; simpl in Hv.
  - change (load16 _ 2) with (load16 (be16 mss ++ q) 0).
    rewrite load16_be16. simpl. by rewrite ntohs_invol.
  - done.
  - done.
  - destruct Hv as (n & Hn & Hb).
    assert (zlen (encode_option (OSack b)) = 2 + 8 * Z.of_nat n) as -> by (simpl; lia).
    cbn [Z.eqb Pos.eqb andb]. case_test; [|lia].
    replace (Z.min ((2 + 8 * Z.of_nat n - 2) / 8) 4 * 8) with (zlen b)
      by (Z.to_euclidean_division_equations; lia).
    change (encode_option (OSack b) ++ q) with ([5; 2 + zlen b] ++ b ++ q).
    rewrite memcpy_segment by (simpl; lia). done.
  - change (load32 _ 2) with (load32 (be32 v ++ be32 e ++ q) 0).
    change (load32 _ 6) with (load32 (be32 e ++ q) 0).
    rewrite !load32_be32. simpl. rewrite !ntohl_invol by tauto. done.
  - done.
  - destruct Hv as (H1 & Hk & _).
    repeat (apply not_elem_of_cons in Hk as [? Hk]).
    repeat (case_test; [exfalso; lia|]). done.
Qed.

Lemma length_option_effect i o :
  valid_option o → length (tcp_sack_edges i) = 32%nat →
  length (tcp_sack_edges (option_effect i o)) = 32%nat.
Proof.
  intros Hv Hi. destruct o; try done. simpl in *. destruct Hv as (n & ? & ?).
  rewrite length_app, length_drop. lia.
Qed.

Lemma ext_options_loop_encode os pre pad rest fuel i :
  pad = [] ∨ head pad = Some 0 → Forall valid_option os → length (tcp_sack_edges i) = 32%nat →
  (length os < fuel)%nat →
  ext_options_loop fuel (pre ++ encode_options os ++ pad ++ rest)
    (zlen pre + (zlen (encode_options os) + zlen pad)) (zlen pre) i
  = Ok (foldl option_effect i os).
Proof.
  intros Hpad Hos. revert pre fuel i.
  induction Hos as [|o os Ho Hos IH]; intros pre [|fuel] i Hi Hfuel;
    simpl in Hfuel; try lia; cbn [ext_options_loop].
  { destruct Hpad as [->|Hpad]; [simpl; case_test; [lia|done]|].
    destruct pad as [|b pad]; [done|]. injection Hpad as ->.
    simpl. case_test; [|done]. by rewrite rd_app_0. }
  change (encode_options (o :: os)) with (encode_option o ++ encode_options os).
  rewrite <- (assoc_L (++)), length_app, Nat2Z.inj_add.
  set (n := zlen (encode_option o)).
  assert (∀ i', length (tcp_sack_edges i') = 32%nat →
    ext_options_loop fuel (pre ++ encode_option o ++ encode_options os ++ pad ++ rest)
      (zlen pre + (n + zlen (encode_options os) + zlen pad)) (zlen pre + n) i'
    = Ok (foldl option_effect i' os)) as Hnext.
  { intros i' Hi'. rewrite (assoc_L (++)).
    replace (zlen pre + n) with (zlen (pre ++ encode_option o))
      by (rewrite length_app; lia).
    rewrite <- (IH (pre ++ encode_option o) fuel i') by (done || lia).
    f_equal. rewrite length_app. lia. }
  destruct (decide (o = ONop)) as [->|Hne].
  { case_test; [|simpl in *; lia]. autorewrite with behind.
    cbn [encode_option app]. rewrite rd_cons_0. cbn [mbind res_bind Z.eqb Pos.eqb].
    by apply Hnext. }
  destruct (encode_option_kind o Ho Hne) as (kind & tl & Hoe & Hk0 & Hk1).
  assert (2 ≤ n) by (unfold n; rewrite Hoe; simpl; lia).
  case_test; [|lia].
  assert (∀ q, rd (pre ++ encode_option o ++ q) (zlen pre) = Ok kind) as ->
    by (intros; by rewrite rd_app_0, Hoe).
  assert (∀ q, rd (pre ++ encode_option o ++ q) (zlen pre + 1) = Ok n) as ->
    by (intros; by rewrite rd_app_r, Hoe).
  cbn [mbind res_bind].
  case_test; [lia|]. case_test; [lia|]. case_test; [lia|]. case_test; [lia|].
  unfold n at 1. rewrite apply_encoded_option; [|done..|by rewrite Hoe].
  cbn [mbind res_bind]. rewrite Hnext by (by apply length_option_effect). done.
Qed.

Lemma length_encode_options os :
  Forall valid_option os → (length os ≤ length (encode_options os))%nat.
Proof.
  induction 1 as [|o os Ho _ IH]; [done|].
  change (encode_options (o :: os)) with (encode_option o ++ encode_options os).
  rewrite length_app. destruct o; simpl in *; lia.
Qed.

(** ** The two parsers agree *)

Lemma apply_option_agree opts k kind l t i i' :
  options_agree t i → apply_option opts k kind l i = Ok i' →
  ∃ t', apply_basic_option opts k kind l t = Ok t' ∧ options_agree t' i'.
Proof.
  intros (Hm & Hw & Ha). unfold apply_option, apply_basic_option.
  destruct t; simpl in *.
  repeat case_test; try (exfalso; lia); intros Hi;
    repeat match goal with
    | H : _ ≫= _ = Ok _ |- _ => apply bind_Ok_inv in H as (? & -> & H)
    | H : _ ≫= _ = Ok _ |- _ => apply bind_Ok_inv in H as (? & ? & H)
    end; simplify_eq; eexists; (split; [done|]); done.
Qed.

Lemma options_loops_agree fuel opts len k t i i' :
  options_agree t i → ext_options_loop fuel opts len k i = Ok i' →
  ∃ t', basic_options_loop fuel opts len k t = Ok t' ∧ options_agree t' i'.
Proof.
  revert k t i. induction fuel as [|fuel IH]; intros k t i Hti; [done|].
  cbn [ext_options_loop basic_options_loop]. case_test; [|by intros [= <-]; eauto].
  intros (kind & -> & H)%bind_Ok_inv. revert H. cbn [mbind res_bind].
  case_test; [by intros [= <-]; eauto|]. case_test; [by apply IH|].
  case_test; [by intros [= <-]; eauto|].
  intros (l & -> & H)%bind_Ok_inv. revert H. cbn [mbind res_bind].
  case_test; [by intros [= <-]; eauto|].
  intros (j & Hj & H)%bind_Ok_inv.
  destruct (apply_option_agree _ _ _ _ t _ _ Hti Hj) as (t' & -> & Ht'). eauto.
Qed.

(** The extended parser on encoded options. *)
Lemma parse_encoded_options (pre hdr pad rest : list Z) (os : list tcp_option)
    (i : PacketInfo) (Hhdr : length hdr = 20%nat) (Hos : Forall valid_option os)
    (Hpad : pad = [] ∨ head pad = Some 0) (Hi : wf_info i) :
  parse_tcp_options_extended (pre ++ hdr ++ encode_options os ++ pad ++ rest)
    (zlen pre) (20 + zlen (encode_options os ++ pad)) i
  = Ok (foldl option_effect i os).
Proof.
  unfold parse_tcp_options_extended. rewrite length_app, Nat2Z.inj_add.
  destruct (wf_tcp_sack_edges _ Hi) as [Hlen _].
  pose proof (length_encode_options os Hos) as Hle.
  case_test.
  { destruct os as [|o os]; [done|]. simpl in Hle. lia. }
  assert (ptr_add (pre ++ hdr ++ encode_options os ++ pad ++ rest) (zlen pre + 20)
          = encode_options os ++ pad ++ rest) as ->.
  { unfold ptr_add. rewrite (assoc_L (++)). apply drop_app_length'.
    rewrite length_app. lia. }
  pose proof (ext_options_loop_encode os [] pad rest) as H. simpl in H.
  replace (20 + _ - 20) with (zlen (encode_options os) + zlen pad) by lia.
  apply H; [done..|lia].
Qed.

(** ** Properties *)

(** On a header that ends inside the packet the option parser terminates
    without an access outside it, whatever the option bytes are, and it
    changes nothing but the option fields of a well-formed record. *)
Theorem tcp_options_safe (p : list Z) (o h : Z) (i : PacketInfo)
    (Hp : bytes p) (Ho : 0 ≤ o) (Hh : o + h ≤ zlen p) (Hi : wf_info i) :
  ensures (parse_tcp_options_extended p o h i)
    (λ i', wf_info i' ∧ without_options i' = without_options i).
Proof. apply parse_tcp_options_extended_spec; auto. by right. Qed.

Lemma tcp_options_safe_witness :
  wf_info zero_info ∧
  ensures (parse_tcp_options_extended (zeros 20 ++ [2; 4; 5; 180; 8; 200; 1; 1]) 0 28 zero_info)
    (λ i', wf_info i' ∧ without_options i' = without_options zero_info).
Proof.
  split; [exact wf_zero_info|].
  apply (tcp_options_safe (zeros 20 ++ [2; 4; 5; 180; 8; 200; 1; 1]) 0 28 zero_info);
    [by_decide|lia|simpl; lia|exact wf_zero_info].
Defined.


(** C28. Any list of options, encoded behind a 20-byte TCP header and closed
    by the header's end or by an end-of-options byte, is parsed to exactly
    the effects of those options, in order. *)
Theorem tcp_options_roundtrip (pre hdr pad rest : list Z) (os : list tcp_option)
    (i : PacketInfo) (Hhdr : length hdr = 20%nat) (Hos : Forall valid_option os)
    (Hpad : pad = [] ∨ head pad = Some 0) (Hi : wf_info i) :
  parse_tcp_options_extended (pre ++ hdr ++ encode_options os ++ pad ++ rest)
    (zlen pre) (20 + zlen (encode_options os ++ pad)) i
  = Ok (foldl option_effect i os).
Proof. by apply parse_encoded_options. Qed.

(** The options of a usual SYN segment. *)
Lemma tcp_options_roundtrip_witness :
  parse_tcp_options_extended
    ([9] ++ zeros 20 ++ encode_options [OMss 1460; OSackPermitted; OTimestamp 7 8; ONop; OWs 7]
     ++ [0] ++ [1; 2]) 1
    (20 + zlen (encode_options [OMss 1460; OSackPermitted; OTimestamp 7 8; ONop; OWs 7] ++ [0]))
    zero_info
  = Ok (foldl option_effect zero_info [OMss 1460; OSackPermitted; OTimestamp 7 8; ONop; OWs 7]).
Proof.
  apply (tcp_options_roundtrip [9] (zeros 20) [0] [1; 2]
    [OMss 1460; OSackPermitted; OTimestamp 7 8; ONop; OWs 7] zero_info);
    [reflexivity| |right; reflexivity|exact wf_zero_info].
  repeat constructor; by_decide.
Defined.


(** C29. The two option parsers of the program agree: whatever bytes the
    extended parser accepts, the basic one accepts, and they report the same
    segment size, window scale and authentication flag. *)
Theorem tcp_options_parsers_agree (p : list Z) (o h : Z) (t : TransportInfo)
    (i i' : PacketInfo) (Hti : options_agree t i)
    (Hok : parse_tcp_options_extended p o h i = Ok i') :
  ∃ t', parse_tcp_options p o h t = Ok t' ∧ options_agree t' i'.
Proof.
  revert Hok. unfold parse_tcp_options_extended, parse_tcp_options.
  case_test; [by intros [= <-]; eauto|]. by apply options_loops_agree.
Qed.

Lemma tcp_options_parsers_agree_witness :
  let p := zeros 20 ++ [2; 4; 5; 180] in
  parse_tcp_options_extended p 0 24 zero_info = Ok (set_tcp_mss 1460 zero_info) ∧
  ∃ t', parse_tcp_options p 0 24 zero_transport = Ok t' ∧
    options_agree t' (set_tcp_mss 1460 zero_info).
Proof.
  intros p. assert (parse_tcp_options_extended p 0 24 zero_info = Ok (set_tcp_mss 1460 zero_info))
    as H by (vm_compute; reflexivity).
  split; [exact H|].
  apply (tcp_options_parsers_agree p 0 24 zero_transport zero_info); [by repeat split|exact H].
Defined.

