(* ===== verification/Stats.v ===== *)
(** * Byte statistics of a captured frame

    [calculate_byte_stats] of [cpp/protocol_dissectors.cpp]: the most
    frequent byte and its share in percent. *)

From S2P Require Import Prelude CMemory PacketTypes.

(** One round of the loop, [n] rounds before the end: [(max_f, top_byte)]. *)
Fixpoint byte_stats_loop (n : nat) (d : list Z) (j : Z) (counts : list Z) (max_f top : Z)
    : res (Z * Z) :=
  match n with
  | O => Ok (max_f, top)
  | S n =>
      b ← rd d j;
      c ← rd counts b;
      let c := u32 (c + 1) in
      counts ← wr counts b c;
      if max_f <? c then byte_stats_loop n d (j + 1) counts c b
      else byte_stats_loop n d (j + 1) counts max_f top
  end.

Definition calculate_byte_stats (d : list Z) (l : Z) (i : PacketInfo) : res PacketInfo :=
  if l <=? 0 then Ok i else
  '(max_f, top) ← byte_stats_loop (Z.to_nat l) d 0 (zeros 256) 0 (top_byte i);
  Ok (set_top_byte_freq (u8 (u32 (max_f * 100) / l)) (set_top_byte top i)).

(** ** Specification *)

(** The number of occurrences of [b]. *)
Definition occ (b : Z) (d : list Z) : Z := zlen (filter (b =.) d).

(** [top] is a most frequent byte of [d], and it is the one that reaches the
    maximum first. *)
Definition is_top (top : Z) (d : list Z) : Prop :=
  (∀ b, occ b d ≤ occ top d) ∧
  ∃ k, occ top (take k d) = occ top d ∧ ∀ b, b ≠ top → occ b (take k d) < occ top d.

Lemma occ_nonneg b d : 0 ≤ occ b d ≤ zlen d.
Proof. unfold occ. pose proof (length_filter (b =.) d). lia. Qed.

Lemma occ_snoc b d c : occ b (d ++ [c]) = occ b d + (if decide (b = c) then 1 else 0).
Proof.
  unfold occ. rewrite filter_app, length_app, filter_cons.
  case_decide; simpl; lia.
Qed.

Lemma occ_take_le b d k : occ b (take k d) ≤ occ b d.
Proof.
  unfold occ. rewrite <- (take_drop k d) at 2. rewrite filter_app, length_app. lia.
Qed.

Lemma wr_lookup p i b r :
  wr p i b = Ok r → 0 ≤ i < zlen p ∧ r = <[Z.to_nat i := b]> p.
Proof.
  unfold wr, blit. case_test; intros [= <-]. simpl in E. split; [lia|].
  rewrite insert_take_drop by lia. simpl. do 3 f_equal. lia.
Qed.

(** ** The loop invariant *)

Section loop.
Context (d : list Z) (Hd : bytes d).

Record inv (j : nat) (counts : list Z) (max_f top : Z) : Prop := mk_inv {
  inv_len : length counts = 256%nat;
  inv_counts : ∀ b, is_byte b → counts !! Z.to_nat b = Some (occ b (take j d));
  inv_max : ∀ b, occ b (take j d) ≤ max_f;
  inv_top : occ top (take j d) = max_f;
  inv_byte : is_byte top;
  inv_first : ∃ k, (k ≤ j)%nat ∧ occ top (take k d) = max_f ∧
               ∀ b, b ≠ top → occ b (take k d) < max_f ∨ j = 0%nat
  }.

Lemma inv_start top : is_byte top → inv 0 (zeros 256) 0 top.
Proof.
  intros Ht. split; try done.
  - intros b Hb. apply lookup_replicate. unfold is_u in Hb. split; [done|lia].
  - exists 0%nat. split; [done|]. split; [done|]. by right.
Qed.

Lemma inv_step j counts max_f top b r :
  inv j counts max_f top → d !! j = Some b →
  r = <[Z.to_nat b := occ b (take (S j) d)]> counts →
  if max_f <? occ b (take (S j) d) then inv (S j) r (occ b (take (S j) d)) b
  else inv (S j) r max_f top.
Proof.
  intros [Hl Hc Hm Ht Hb (k & Hk & Hk1 & Hk2)] Hj ->.
  pose proof (take_S_r d j b Hj) as ES.
  assert (∀ x, occ x (take (S j) d) = occ x (take j d) + if decide (x = b) then 1 else 0)
    as Hocc by (intros; rewrite ES; apply occ_snoc).
  assert (is_byte b) as Hbb by eauto using bytes_lookup.
  assert (∀ x, is_byte x → <[Z.to_nat b:=occ b (take (S j) d)]> counts !! Z.to_nat x
    = Some (occ x (take (S j) d))) as Hcounts.
  { intros x Hx. destruct (decide (x = b)) as [->|Hne].
    - apply list_lookup_insert_eq. unfold is_u in Hbb. lia.
    - rewrite list_lookup_insert_ne by (unfold is_u in *; lia).
      rewrite Hc, Hocc, decide_False by done. f_equal. lia. }
  pose proof (occ_nonneg b (take j d)) as Hb0.
  pose proof (Hocc b) as Hob. rewrite decide_True in Hob by done.
  case_test; split; try done; rewrite ?length_insert; try done.
  - intros x. rewrite Hocc. pose proof (Hm x). case_decide; [by subst; lia|lia].
  - exists (S j). repeat split; [lia|]. intros x Hx. left.
    rewrite Hocc, decide_False by done. pose proof (Hm x). lia.
  - intros x. rewrite Hocc. pose proof (Hm x). case_decide; [by subst; lia|lia].
  - rewrite Hocc. case_decide; [by subst; lia|lia].
  - exists k. split; [lia|]. split; [done|]. intros x Hx.
    destruct (Hk2 x Hx) as [?| ->]; [by left|]. exfalso.
    rewrite take_0 in Ht, Hob. unfold occ in *. simpl in *. lia.
Qed.

Lemma byte_stats_loop_spec n j counts max_f top :
  inv j counts max_f top → (j + n ≤ length d)%nat → Z.of_nat (j + n) < 2 ^ 32 →
  ensures (byte_stats_loop n d (Z.of_nat j) counts max_f top)
  (λ '(m, t), ∃ c, inv (j + n) c m t).
Proof.
  revert j counts max_f top.
  induction n as [|n IH]; intros j counts max_f top Hinv Hj Hsmall; simpl.
  { exists counts. by rewrite Nat.add_0_r. }
  wp_step. apply wp_rd; [lia|]. intros b Hb. rewrite Nat2Z.id in Hb.
  pose proof (bytes_lookup _ _ _ Hd Hb) as Hbb.
  pose proof (inv_len _ _ _ _ Hinv). unfold is_u in Hbb.
  wp_step. apply wp_rd; [lia|]. intros c Hc.
  rewrite (inv_counts _ _ _ _ Hinv) in Hc by done. injection Hc as <-.
  assert (u32 (occ b (take j d) + 1) = occ b (take (S j) d)) as ->.
  { rewrite (take_S_r d j b Hb), occ_snoc, decide_True by done.
  apply u32_small. pose proof (occ_nonneg b (take j d)). rewrite length_take in *.
  unfold is_u. lia. }
  wp_step. apply wp_wr; [lia|]. intros r [_ Hr]%wr_lookup _.
  pose proof (inv_step j counts max_f top b r Hinv Hb Hr) as Hnext.
  replace (Z.of_nat j + 1) with (Z.of_nat (S j)) by lia.
  rewrite <- Nat.add_succ_comm.
  case_test; apply IH; (done || lia).
Qed.

Lemma inv_is_top j counts max_f top :
  (0 < j)%nat → inv j counts max_f top →
  is_top top (take j d) ∧ max_f = occ top (take j d).
Proof.
  intros Hj [_ _ Hm Ht _ (k & Hk & Hk1 & Hk2)].
  split; [|done]. split; [intros; rewrite Ht; apply Hm|].
  exists k. rewrite Ht, take_take, Nat.min_l by done. split; [done|].
  intros b Hb. destruct (Hk2 b Hb); [done|lia].
Qed.
End loop.

Lemma is_top_share d top : is_top top d → 0 < zlen d → 0 ≤ occ top d * 100 / zlen d ≤ 100.
Proof.
  intros _ Hl. pose proof (occ_nonneg top d).
  split; [apply Z.div_pos; lia|]. apply Z.div_le_upper_bound; lia.
Qed.

Lemma calculate_byte_stats_spec d l i :
  bytes d → 0 ≤ l ≤ 2 ^ 24 → l ≤ zlen d → is_byte (top_byte i) →
  ensures (calculate_byte_stats d l i) (λ i',
    if l =? 0 then i' = i
    else ∃ top, let frame := take (Z.to_nat l) d in
      is_top top frame ∧ is_byte top ∧
      i' = set_top_byte_freq (occ top frame * 100 / l) (set_top_byte top i)).
Proof.
  intros Hd Hl Hlen Htop. unfold calculate_byte_stats.
  case_test; [replace (l =? 0) with true by lia; by apply wp_ret|].
  replace (l =? 0) with false by lia.
  set (frame := take (Z.to_nat l) d).
  assert (zlen frame = l) as Hframe by (unfold frame; rewrite length_take; lia).
  pose proof (byte_stats_loop_spec d Hd) as Hloop.
  wp_step. eapply wp_mono.
  - apply (Hloop (Z.to_nat l) 0%nat); [|lia|lia]. by apply inv_start.
  - intros [m t] (c & Hc). pose proof (inv_byte _ _ _ _ _ Hc) as Htb.
    apply inv_is_top in Hc as [Ht ->]; [|lia].
    pose proof (is_top_share frame t Ht ltac:(lia)) as Hshare.
    pose proof (occ_nonneg t frame). rewrite Hframe in Hshare.
    apply wp_ret. exists t. split; [done|]. split; [done|].
    change (take (0 + Z.to_nat l) d) with frame.
    rewrite u32_small by (unfold is_u; lia).
    rewrite u8_small by (unfold is_u; lia). done.
Qed.

(** On the captured bytes of a frame the statistics loop stays in bounds
    and reports a most frequent byte, the first one to reach the maximal
    count, with its share in percent, which does not exceed 100. *)
Theorem byte_stats_correct (d : list Z) (l : Z) (i : PacketInfo)
    (Hd : bytes d) (Hl : 0 < l ≤ 256) (Hlen : l ≤ zlen d) (Htop : is_byte (top_byte i)) :
  ensures (calculate_byte_stats d l i) (λ i', let frame := take (Z.to_nat l) d in
    is_top (top_byte i') frame ∧
    top_byte_freq i' = occ (top_byte i') frame * 100 / l ∧
    0 ≤ top_byte_freq i' ≤ 100 ∧
    i' = set_top_byte_freq (top_byte_freq i') (set_top_byte (top_byte i') i)).
Proof.
  eapply wp_mono; [apply calculate_byte_stats_spec; (done || lia)|].
  intros i'. cbv beta. case_test; [lia|]. intros (top & Ht & _ & ->). simpl.
  pose proof (is_top_share _ _ Ht) as Hs. rewrite length_take in Hs.
  replace (Z.of_nat (Z.to_nat l `min` length d)) with l in Hs by lia.
  split; [done|]. split; [done|]. split; [apply Hs; lia|done].
Qed.

(** The frame [01 02 02 01 01]: byte 1 occurs in 60 percent. *)
Lemma byte_stats_correct_witness :
  bytes [1; 2; 2; 1; 1] ∧
  ensures (calculate_byte_stats [1; 2; 2; 1; 1] 5 zero_info) (λ i',
    is_top (top_byte i') [1; 2; 2; 1; 1] ∧
    top_byte_freq i' = occ (top_byte i') [1; 2; 2; 1; 1] * 100 / 5 ∧
    0 ≤ top_byte_freq i' ≤ 100 ∧
    i' = set_top_byte_freq (top_byte_freq i') (set_top_byte (top_byte i') zero_info)).
Proof.
  assert (bytes [1; 2; 2; 1; 1]) as H by by_decide.
  split; [exact H|].
  apply (byte_stats_correct [1; 2; 2; 1; 1] 5 zero_info H); [lia | simpl; lia | done].
Defined.
