(* ===== verification/Entropy.v ===== *)
(** * Byte entropy of a captured frame

    [calculate_entropy_scaled] of [cpp/protocol_dissectors.cpp].  The code
    computes in [double] and calls the C library's [log2]; both are operations
    of an interface, [Double], and what the program relies on is stated as
    its laws, [DoubleLaws].  [EntropyReal] instantiates the interface with
    the real numbers, and [fixed_double] below with fixed-point numbers that
    can be evaluated. *)

From S2P Require Import Prelude CMemory PacketTypes Stats.

(** ** The interface: the operations on [double] that the code uses *)

Class Double (D : Type) := {
    dbl_of_int : Z → D;
    dbl_sub : D → D → D;
    dbl_mul : D → D → D;
    dbl_div : D → D → D;
    dbl_log2 : D → D;
    dbl_to_u32 : D → res Z   (** the cast to [uint32_t] *)
  }.

Section entropy.
Context {D : Type} `{!Double D}.

(** [for (int i = 0; i < l; i++) f[d[i]]++;] *)
Fixpoint histogram_loop (n : nat) (d : list Z) (i : Z) (f : list Z) : res (list Z) :=
  match n with
  | O => Ok f
  | S n =>
  b ← rd d i;
  c ← rd f b;
  f ← wr f b (c + 1);
  histogram_loop n d (i + 1) f
  end.

(** [e -= p * log2(p)] with [p = (double)f[i] / l] *)
Definition entropy_term (c l : Z) (e : D) : D :=
  let p := dbl_div (dbl_of_int c) (dbl_of_int l) in
  dbl_sub e (dbl_mul p (dbl_log2 p)).

Fixpoint entropy_loop (n : nat) (f : list Z) (l i : Z) (e : D) : res D :=
  match n with
  | O => Ok e
  | S n =>
  c ← rd f i;
  entropy_loop n f l (i + 1) (if 0 <? c then entropy_term c l e else e)
  end.

Definition calculate_entropy_scaled (d : list Z) (l : Z) : res Z :=
  if l <=? 0 then Ok 0 else
  f ← histogram_loop (Z.to_nat l) d 0 (zeros 256);
  e ← entropy_loop 256 f l 0 (dbl_of_int 0);
  dbl_to_u32 (dbl_mul e (dbl_of_int 1000)).
End entropy.

(** ** What the program relies on

    [acc e n]: the accumulator [e] is finite and between 0 and [n].  Each
    term [- p * log2(p)] of a probability is between 0 and 1, and the scaled
    sum fits its target type. *)
Class DoubleLaws (D : Type) `{Double D} := {
    acc : D → Z → Prop;
    acc_zero : acc (dbl_of_int 0) 0;
    acc_term e n c l :
      acc e n → 0 ≤ n < 256 → 0 < c ≤ l → l ≤ 256 → acc (entropy_term c l e) (n + 1);
    acc_weaken e n : acc e n → acc e (n + 1);
    acc_cast e n :
      acc e n → 0 ≤ n ≤ 256 →
      ensures (dbl_to_u32 (dbl_mul e (dbl_of_int 1000))) (λ v, 0 ≤ v ≤ 1000 * n)
  }.

(** The sum over the byte values, as a fold over the counts of a frame. *)
Definition entropy_step {D} `{Double D} (frame : list Z) (l : Z) (e : D) (b : Z) : D :=
  let c := occ b frame in if 0 <? c then entropy_term c l e else e.
Definition entropy_sum {D} `{Double D} (frame : list Z) : D :=
  foldl (entropy_step frame (zlen frame)) (dbl_of_int 0) (seqZ 0 256).

(** ** The histogram *)

Section histogram.
Context (d : list Z) (Hd : bytes d).

(** [f] counts the first [j] bytes. *)
Definition counts (j : nat) (f : list Z) : Prop :=
  length f = 256%nat ∧ ∀ b, is_byte b → f !! Z.to_nat b = Some (occ b (take j d)).

Lemma counts_start : counts 0 (zeros 256).
Proof.
  split; [done|]. intros b Hb. apply lookup_replicate. unfold is_u in Hb.
  split; [done|lia].
Qed.

Lemma histogram_loop_spec F n j f :
  counts j f → guard F (j + n ≤ length d)%nat →
  wp F (histogram_loop n d (Z.of_nat j) f)
  (λ r, counts (j + n) r ∧ (n = 0 ∨ j + n ≤ length d)%nat).
Proof.
  revert j f. induction n as [|n IH]; intros j f [Hl Hc] Hg; simpl.
  { rewrite Nat.add_0_r. split; [done|by left]. }
  wp_step. eapply wp_guard; [exact Hg| |].
  { intros. apply wp_rd; [lia|done]. }
  intros b [Hj Hb]%rd_Ok_inv. rewrite Nat2Z.id in Hb.
  pose proof (bytes_lookup _ _ _ Hd Hb) as Hbb. unfold is_u in Hbb.
  wp_step. apply wp_rd; [lia|]. intros c Hcc. rewrite Hc in Hcc by done.
  injection Hcc as <-. wp_step. apply wp_wr; [lia|]. intros r [_ ->]%wr_lookup _.
  replace (Z.of_nat j + 1) with (Z.of_nat (S j)) by lia.
  rewrite <- Nat.add_succ_comm. eapply wp_mono; [apply IH|].
  - split; [by rewrite length_insert|]. intros x Hx.
    rewrite (take_S_r d j b Hb), occ_snoc. destruct (decide (x = b)) as [->|Hne].
    + apply list_lookup_insert_eq. lia.
    + unfold is_u in Hx. rewrite list_lookup_insert_ne by lia.
      rewrite Hc by done. f_equal. lia.
  - eapply guard_mono; [exact Hg|]. lia.
  - intros r [? ?]. split; [done|lia].
Qed.
End histogram.

Section sum.
Context {D : Type} `{!Double D} (d : list Z).

Lemma entropy_loop_fold n f l i e j :
  counts d j f → 0 ≤ i → i + Z.of_nat n ≤ 256 →
  entropy_loop n f l i e
  = Ok (foldl (entropy_step (take j d) l) e (seqZ i (Z.of_nat n))).
Proof.
  intros [Hl Hc]. revert i e. induction n as [|n IH]; intros i e Hi Hn; [done|].
  cbn [entropy_loop]. rewrite seqZ_cons by lia. cbn [foldl].
  destruct (rd_in f i) as (c & Hlook & ->); [lia|].
  rewrite Hc in Hlook by (unfold is_u; lia). injection Hlook as <-.
  cbn [mbind res_bind]. rewrite IH by lia.
  by replace (Z.pred (Z.of_nat (S n))) with (Z.of_nat n) by lia.
Qed.

(** The code computes the sum over the byte values of the frame. *)
Lemma calculate_entropy_scaled_sum l :
  bytes d → 0 < l ≤ zlen d →
  calculate_entropy_scaled d l
  = dbl_to_u32 (dbl_mul (entropy_sum (take (Z.to_nat l) d)) (dbl_of_int 1000)).
Proof.
  intros Hd Hl. unfold calculate_entropy_scaled. case_test; [lia|].
  destruct (ensures_Ok _ _ (histogram_loop_spec d Hd no_fault (Z.to_nat l) 0 (zeros 256)
  (counts_start d) ltac:(right; lia))) as (f & Hf & Hcounts & _).
  change (Z.of_nat 0) with 0 in Hf. rewrite Hf, bind_Ok.
  rewrite (entropy_loop_fold _ _ _ _ _ _ Hcounts), bind_Ok by lia.
  unfold entropy_sum. rewrite length_take.
  replace (Z.of_nat 256) with 256 by reflexivity.
  replace (Z.of_nat (Z.to_nat l `min` length d)) with l by lia. reflexivity.
Qed.
End sum.

(** ** The result is bounded *)

Section bounded.
Context {D : Type} `{DoubleLaws D}.

Lemma acc_sum frame l bs n e :
  acc e n → 0 ≤ n → n + zlen bs ≤ 256 → zlen frame ≤ l → l ≤ 256 →
  acc (foldl (entropy_step frame l) e bs) (n + zlen bs).
Proof.
  revert n e. induction bs as [|b bs IH]; intros n e He Hn Hbs Hf Hl.
  { by rewrite Z.add_0_r. }
  cbn [foldl length] in *.
  replace (n + Z.of_nat (S (length bs))) with (n + 1 + zlen bs) by lia.
  pose proof (occ_nonneg b frame). apply IH; try lia.
  unfold entropy_step. cbv zeta. case_test; [apply acc_term; (done || lia)|by apply acc_weaken].
Qed.

Lemma calculate_entropy_scaled_spec F d l :
  bytes d → l ≤ 256 → guard F (l ≤ zlen d) →
  wp F (calculate_entropy_scaled d l) (is_u 32).
Proof.
  intros Hd Hl Hg.
  destruct (decide (l ≤ 0)).
  { unfold calculate_entropy_scaled. case_test; [|lia]. by apply wp_ret. }
  destruct (decide (l ≤ zlen d)) as [Hle|Hgt].
  - rewrite calculate_entropy_scaled_sum by (done || lia).
    eapply wp_weaken; [apply acc_cast| |].
    + apply (acc_sum (take (Z.to_nat l) d) _ (seqZ 0 256) 0); [apply acc_zero|..];
        rewrite ?length_seqZ, ?length_take; lia.
    + rewrite length_seqZ. lia.
    + by intros f [].
    + intros v. rewrite length_seqZ. unfold is_u. lia.
  - destruct Hg as [HF|]; [|lia]. unfold calculate_entropy_scaled. case_test; [lia|].
    wp_step. eapply wp_mono; [apply (histogram_loop_spec d Hd F _ 0 (zeros 256))|].
    + apply counts_start.
    + by left.
    + intros f [_ Hf]. exfalso. lia.
Qed.
End bounded.

(** ** A concrete instance: fixed-point numbers

    Multiples of [2 ^ -16]; the logarithm is rounded to an integer. *)

Definition fixed_one : Z := 2 ^ 16.

#[export] Instance fixed_double : Double Z := {
    dbl_of_int n := n * fixed_one;
    dbl_sub a b := a - b;
    dbl_mul a b := a * b / fixed_one;
    dbl_div a b := a * fixed_one / b;
    dbl_log2 a := (16 - Z.log2 (fixed_one * fixed_one / a)) * fixed_one;
    dbl_to_u32 a := let v := a / fixed_one in
                    if (0 <=? v) && (v <? 2 ^ 32) then Ok v else Fault BadConversion
  }.

Lemma fixed_term p :
  0 < p ≤ fixed_one → 0 ≤ p * (Z.log2 (fixed_one * fixed_one / p) - 16) ≤ fixed_one.
Proof.
  intros Hp. set (q := fixed_one * fixed_one / p). unfold fixed_one in *.
  assert (2 ^ 16 ≤ q) by (apply Z.div_le_lower_bound; lia).
  assert (p * q ≤ 2 ^ 32) by (apply Z.mul_div_le; lia).
  assert (16 ≤ Z.log2 q) by (apply Z.log2_le_pow2; lia).
  set (k := Z.log2 q - 16).
  assert (2 ^ (k + 16) ≤ q) as Hk.
  { unfold k. rewrite Z.sub_add. apply Z.log2_spec. lia. }
  rewrite Z.pow_add_r in Hk by lia.
  assert (k < 2 ^ k) by (apply Z.pow_gt_lin_r; lia). nia.
Qed.

#[export] Instance fixed_laws : DoubleLaws Z.
Proof.
  refine {| acc e n := 0 ≤ e ≤ n * fixed_one |}.
  - done.
  - intros e n c l [He0 He] Hn Hc Hl. unfold entropy_term. simpl.
    set (p := c * fixed_one * fixed_one / (l * fixed_one)).
    assert (0 < p ≤ fixed_one).
    { unfold p. rewrite Z.div_mul_cancel_r by (unfold fixed_one; lia). split.
      - apply Z.div_str_pos. unfold fixed_one. lia.
      - apply Z.div_le_upper_bound; unfold fixed_one; lia. }
    pose proof (fixed_term p ltac:(done)) as Ht.
    rewrite Z.mul_assoc, Z.div_mul by (unfold fixed_one; lia). lia.
  - intros e n [He0 He]. unfold fixed_one in *. lia.
  - intros e n [He0 He] Hn. simpl.
    rewrite Z.mul_assoc, Z.div_mul by (unfold fixed_one; lia).
    assert (0 ≤ e * 1000 / fixed_one ≤ 1000 * n) as Hv.
    { unfold fixed_one in *. split; [apply Z.div_pos; lia|apply Z.div_le_upper_bound; lia]. }
    case_test; [done|lia].
Defined.
