(* ===== verification/EntropyReal.v ===== *)
(** * Byte entropy over the real numbers

    The instance of [Entropy] that computes exactly: the value the code
    approximates, and its bounds. *)

From Stdlib Require Import Reals Lra.
From S2P Require Import Prelude CMemory PacketTypes Stats Entropy.

(** [std::log2] *)
Definition log2 (x : R) : R := (ln x / ln 2)%R.

#[export] Instance real_double : Double R := {
    dbl_of_int := IZR;
    dbl_sub := Rminus;
    dbl_mul := Rmult;
    dbl_div := Rdiv;
    dbl_log2 := log2;
    dbl_to_u32 x :=
      let v := Int_part x in
      if (0 <=? v) && (v <? 2 ^ 32) then Ok v else Fault BadConversion
  }.

#[local] Open Scope R_scope.

(** Shannon's term, in bits. *)
Definition shannon (p : R) : R := - (p * log2 p).

Lemma div_nonneg a b : 0 <= a → 0 < b → 0 <= a / b.
Proof. intros. unfold Rdiv. apply Rmult_le_pos; [done|]. left. by apply Rinv_0_lt_compat. Qed.

Lemma ln2_pos : 0 < ln 2.
Proof. rewrite <- ln_1. apply ln_increasing; lra. Qed.

(** The inequality behind every bound: [ln x <= x - 1]. *)
Lemma ln_le_sub x : 0 < x → ln x <= x - 1.
Proof.
  intros Hx. destruct (Req_dec x 1) as [->|Hne]; [rewrite ln_1; lra|].
  assert (exp (ln x) = x) as E by (by apply exp_ln).
  assert (ln x ≠ 0) as Hl.
  { intros H0. apply Hne. rewrite <- E, H0. apply exp_0. }
  pose proof (exp_ineq1 (ln x) Hl). lra.
Qed.

(** Gibbs' inequality for one term. *)
Lemma shannon_gibbs p n :
  0 < p → 0 < n → shannon p <= p * log2 n + (/ n - p) / ln 2.
Proof.
  intros Hp Hn. unfold shannon, log2. pose proof ln2_pos as H2.
  assert (0 < / (p * n)) as Hpn by (apply Rinv_0_lt_compat; nra).
  pose proof (ln_le_sub _ Hpn) as Hl.
  rewrite ln_Rinv, ln_mult in Hl by nra.
  assert (- ln p - ln n <= / (p * n) - 1) as Hl' by lra.
  apply (Rmult_le_compat_l p) in Hl'; [|lra].
  replace (p * (/ (p * n) - 1)) with (/ n - p) in Hl' by (field; lra).
  apply (Rmult_le_reg_r (ln 2)); [done|].
  unfold Rdiv. rewrite Rmult_plus_distr_r, !Rmult_assoc.
  replace (p * (ln n * / ln 2) * ln 2) with (p * ln n) by (field; lra).
  replace (- (p * (ln p * / ln 2)) * ln 2) with (- (p * ln p)) by (field; lra).
  rewrite Rinv_l by lra. nra.
Qed.

Lemma shannon_nonneg p : 0 < p <= 1 → 0 <= shannon p.
Proof.
  intros [Hp H1]. unfold shannon, log2. pose proof ln2_pos.
  assert (ln p <= 0).
  { pose proof (ln_le_sub p Hp). lra. }
  assert (0 <= / ln 2) by (left; by apply Rinv_0_lt_compat).
  unfold Rdiv. assert (0 <= p * (- ln p) * / ln 2) by (apply Rmult_le_pos; [nra|done]). nra.
Qed.

(** One term is at most one bit: Gibbs' inequality at [n = 2]. *)
Lemma shannon_le_1 p : 0 < p <= 1 → shannon p <= 1.
Proof.
  intros [Hp H1]. pose proof ln2_pos as H2.
  pose proof (shannon_gibbs p 2 Hp ltac:(lra)) as Hs.
  assert (log2 2 = 1) as E by (unfold log2; field; lra). rewrite E in Hs.
  assert (/ 2 <= ln 2).
  { pose proof (ln_le_sub (/ 2) ltac:(lra)) as Hh. rewrite ln_Rinv in Hh; lra. }
  eapply Rle_trans; [exact Hs|]. apply Rmult_le_reg_r with (ln 2); [done|].
  replace ((p * 1 + (/ 2 - p) / ln 2) * ln 2) with (p * ln 2 + (/ 2 - p)) by (field; lra).
  nra.
Qed.

Lemma log2_256 : log2 256 = 8.
Proof.
  unfold log2. replace 256 with (2 ^ 8) by lra. rewrite ln_pow by lra.
  pose proof ln2_pos. simpl INR. field. lra.
Qed.

(** ** The sum *)

(** The number of bytes of [frame] with a value in [bs]. *)
Definition occs (bs : list Z) (frame : list Z) : Z :=
  foldr (λ b s, (occ b frame + s)%Z) 0%Z bs.

Lemma occ_cons b x frame : (occ b (x :: frame) = (if decide (b = x) then 1 else 0) + occ b frame)%Z.
Proof. unfold occ. rewrite filter_cons. case_decide; simpl; lia. Qed.

Lemma occs_cons bs x frame :
  NoDup bs → (occs bs (x :: frame) = (if decide (x ∈ bs) then 1 else 0) + occs bs frame)%Z.
Proof.
  induction 1 as [|b bs Hb Hbs IH]; [done|].
  cbn [occs foldr]. fold (occs bs (x :: frame)). fold (occs bs frame).
  rewrite occ_cons, IH. destruct (decide (b = x)) as [->|Hne].
  - rewrite (decide_False (P := x ∈ bs)) by done. rewrite decide_True by left. lia.
  - rewrite (decide_ext (x ∈ b :: bs) (x ∈ bs)); [lia|].
    rewrite elem_of_cons. split; [by intros [?|?]|by right].
Qed.

Lemma occs_bytes frame : bytes frame → occs (seqZ 0 256) frame = zlen frame.
Proof.
  induction 1 as [|x frame Hx Hf IH].
  { assert (∀ bs, occs bs [] = 0%Z) as -> by (induction bs; done). done. }
  rewrite occs_cons, IH by apply NoDup_seqZ. rewrite decide_True.
  - cbn [length]. lia.
  - apply elem_of_seqZ. unfold is_u in Hx. lia.
Qed.

Section sum.
Context (frame : list Z) (n : Z) (Hn : (0 < n)%Z) (Hlen : zlen frame = n).

Definition prob (b : Z) : R := IZR (occ b frame) / IZR n.

Lemma n_pos : 0 < IZR n.
Proof using Hn. by apply IZR_lt. Qed.

Lemma prob_range b : 0 <= prob b <= 1.
Proof.
  pose proof (occ_nonneg b frame). unfold prob. pose proof n_pos. split.
  - apply div_nonneg; [apply IZR_le; lia|done].
  - apply Rmult_le_reg_r with (IZR n); [done|].
    unfold Rdiv. rewrite Rmult_assoc, Rinv_l by lra.
    rewrite Rmult_1_r, Rmult_1_l. apply IZR_le. lia.
Qed.

Lemma entropy_step_real e b :
  entropy_step frame n e b = e + if 0 <? occ b frame then shannon (prob b) else 0.
Proof.
  unfold entropy_step, entropy_term, shannon, prob. simpl. case_match; lra.
Qed.

(** One term against the uniform distribution on 256 values. *)
Lemma step_bound b :
  0 <= (if 0 <? occ b frame then shannon (prob b) else 0)
  <= prob b * 8 + (/ 256 - prob b) / ln 2.
Proof.
  pose proof (prob_range b). pose proof ln2_pos.
  destruct (Z.ltb_spec 0 (occ b frame)) as [Hb|Hb].
  - assert (0 < prob b).
    { unfold prob. apply Rdiv_lt_0_compat; [by apply IZR_lt|apply n_pos]. }
    split; [apply shannon_nonneg; lra|].
    pose proof (shannon_gibbs (prob b) 256 ltac:(done) ltac:(lra)) as H'.
    rewrite log2_256 in H'. lra.
  - assert (prob b = 0) as ->.
    { unfold prob. replace (occ b frame) with 0%Z by (pose proof (occ_nonneg b frame); lia).
      unfold Rdiv. lra. }
    assert (0 <= (/ 256 - 0) / ln 2) by (apply div_nonneg; lra). lra.
Qed.

Lemma entropy_fold_bound bs e :
  e <= foldl (entropy_step frame n) e bs
  <= e + IZR (occs bs frame) / IZR n * 8
   + (IZR (zlen bs) / 256 - IZR (occs bs frame) / IZR n) / ln 2.
Proof.
  pose proof n_pos. pose proof ln2_pos.
  revert e. induction bs as [|b bs IH]; intros e.
  { replace (IZR (occs [] frame)) with 0 by done. replace (IZR (zlen (@nil Z))) with 0 by done.
  cbn [foldl]. unfold Rdiv. split; lra. }
  cbn [foldl]. destruct (IH (entropy_step frame n e b)) as [Hlo Hhi].
  rewrite entropy_step_real in *. pose proof (step_bound b) as [Hb0 Hb8].
  split; [lra|]. eapply Rle_trans; [exact Hhi|].
  cbn [occs foldr length]. fold (occs bs frame).
  replace (Z.of_nat (S (length bs))) with (1 + zlen bs)%Z by lia.
  rewrite !plus_IZR. unfold prob, Rdiv in *. lra.
Qed.

Lemma entropy_fold_constant bs e :
  (∀ b, b ∈ bs → occ b frame = 0%Z ∨ occ b frame = n) →
  foldl (entropy_step frame n) e bs = e.
Proof.
  pose proof n_pos. revert e. induction bs as [|b bs IH]; intros e Hbs; [done|].
  cbn [foldl]. rewrite IH by (intros; apply Hbs; by right).
  rewrite entropy_step_real. destruct (Hbs b ltac:(left)) as [E|E].
  - rewrite E. simpl. lra.
  - case_match; [|lra]. unfold shannon, prob, log2. rewrite E.
    unfold Rdiv. rewrite Rinv_r by lra. rewrite ln_1. lra.
Qed.
End sum.

(** The Shannon entropy of the byte values of a frame, in bits. *)
Definition shannon_entropy (frame : list Z) : R :=
  foldr (λ b s, (if 0 <? occ b frame then shannon (prob frame (zlen frame) b) else 0) + s)
        0 (seqZ 0 256).

Lemma foldl_entropy_step frame n bs e :
  foldl (entropy_step frame n) e bs
  = e + foldr (λ b s, (if 0 <? occ b frame then shannon (prob frame n b) else 0) + s) 0 bs.
Proof.
  revert e. induction bs as [|b bs IH]; intros e; cbn [foldl foldr]; [lra|].
  rewrite IH, entropy_step_real. lra.
Qed.

Lemma entropy_sum_shannon frame : entropy_sum frame = shannon_entropy frame.
Proof. unfold entropy_sum. rewrite foldl_entropy_step. simpl dbl_of_int. apply Rplus_0_l. Qed.

Lemma shannon_entropy_bounds frame :
  bytes frame → (0 < zlen frame)%Z → 0 <= shannon_entropy frame <= 8.
Proof.
  intros Hf Hn. rewrite <- entropy_sum_shannon. unfold entropy_sum.
  pose proof (entropy_fold_bound frame _ Hn eq_refl (seqZ 0 256) (dbl_of_int 0)) as [H0 H8].
  simpl dbl_of_int in *. split; [done|]. eapply Rle_trans; [exact H8|].
  rewrite occs_bytes, length_seqZ by done. change (Z.of_nat (Z.to_nat 256)) with 256%Z.
  pose proof (n_pos _ Hn). unfold Rdiv. rewrite !Rinv_r by lra. lra.
Qed.

Lemma shannon_entropy_constant frame c :
  (0 < zlen frame)%Z → (∀ b, b ∈ frame → b = c) → shannon_entropy frame = 0.
Proof.
  intros Hn Hc. rewrite <- entropy_sum_shannon. unfold entropy_sum.
  apply entropy_fold_constant; [done|]. intros b _. unfold occ.
  destruct (decide (b = c)) as [->|Hne].
  - right. f_equal. f_equal. clear Hn. induction frame as [|x fr IH]; [done|].
    rewrite filter_cons, decide_True by (symmetry; apply Hc; left).
    f_equal. apply IH. intros; apply Hc; by right.
  - left. replace (filter (b =.) frame) with (@nil Z); [done|].
    clear Hn. induction frame as [|x fr IH]; [done|].
    rewrite filter_cons, decide_False.
    + apply IH. intros; apply Hc; by right.
    + intros ->. apply Hne, Hc. left.
Qed.

(** ** Properties *)

(** C30. Computed exactly, the scaled entropy of a captured frame is the
    integer part of a thousand times the Shannon entropy of its byte values;
    it fits its type, lies between 0 and 8000, and is 0 when all bytes are
    equal. *)
Theorem entropy_is_shannon (d : list Z) (l : Z) (Hd : bytes d) (Hl : (0 < l <= zlen d)%Z) :
  let frame := take (Z.to_nat l) d in
  ensures (calculate_entropy_scaled d l) (λ v,
    v = Int_part (1000 * shannon_entropy frame) ∧ (0 <= v <= 8000)%Z ∧
    ∀ c, (∀ b, b ∈ frame → b = c) → v = 0%Z).
Proof.
  intros frame. rewrite calculate_entropy_scaled_sum by done. fold frame.
  rewrite entropy_sum_shannon. simpl dbl_mul. simpl dbl_of_int.
  assert (bytes frame) as Hf by (by apply bytes_take).
  assert (0 < zlen frame)%Z as Hn by (unfold frame; rewrite length_take; lia).
  pose proof (shannon_entropy_bounds frame Hf Hn) as [H0 H8].
  rewrite (Rmult_comm _ 1000). set (x := 1000 * shannon_entropy frame) in *.
  destruct (base_Int_part x) as [Hi1 Hi2].
  assert (0 <= Int_part x <= 8000)%Z as Hi.
  { split.
    - apply Z.lt_succ_r. apply lt_IZR. rewrite succ_IZR. unfold x in *. lra.
    - apply le_IZR. unfold x in *. lra. }
  simpl dbl_to_u32. unfold dbl_to_u32, real_double. cbv zeta.
  case_test; [|lia]. split; [done|]. split; [done|]. intros c Hc.
  unfold x in *. rewrite (shannon_entropy_constant frame c Hn Hc), Rmult_0_r in *.
  assert (Int_part 0 < 1)%Z; [|lia]. apply lt_IZR. lra.
Qed.

Lemma entropy_is_shannon_witness :
  let frame := take (Z.to_nat 3) [7; 7; 7; 9]%Z in
  ensures (calculate_entropy_scaled [7; 7; 7; 9]%Z 3) (λ v,
    v = Int_part (1000 * shannon_entropy frame) ∧ (0 <= v <= 8000)%Z ∧
    ∀ c, (∀ b, b ∈ frame → b = c) → v = 0%Z).
Proof.
  apply (entropy_is_shannon [7; 7; 7; 9]%Z 3); [by_decide|simpl; lia].
Defined.


(** The interface's laws hold of the real numbers. *)
#[export] Instance real_laws : DoubleLaws R.
Proof.
  refine {| acc e n := 0 <= e <= IZR n |}.
  - simpl. lra.
  - intros e n c l [H0 He] Hn Hc Hl. unfold entropy_term. simpl.
    assert (0 < IZR c / IZR l <= 1) as Hp.
    { split; [apply Rdiv_lt_0_compat; apply IZR_lt; lia|].
      assert (0 < IZR l) by (apply IZR_lt; lia). assert (IZR c <= IZR l) by (apply IZR_le; lia).
      apply Rmult_le_reg_r with (IZR l); [done|]. unfold Rdiv.
      rewrite Rmult_assoc, Rinv_l; lra. }
    set (p := IZR c / IZR l) in *. rewrite plus_IZR.
    pose proof (shannon_nonneg p Hp) as Hs0. pose proof (shannon_le_1 p Hp) as Hs1.
    unfold shannon in *. lra.
  - intros e n [H0 He]. rewrite plus_IZR. lra.
  - intros e n [H0 He] Hn. simpl. destruct (base_Int_part (e * 1000)) as [Hi1 Hi2].
    assert (0 <= Int_part (e * 1000) <= 1000 * n)%Z as Hi.
    { split.
      - apply Z.lt_succ_r, lt_IZR. rewrite succ_IZR. lra.
      - apply le_IZR. rewrite mult_IZR. lra. }
    case_test; [done|lia].
Qed.
