(* ===== verification/NameDissectors.v ===== *)
(** * Name extraction: DNS questions and TLS server names

    [dissect_dns] and [dissect_tls_sni] of [cpp/protocol_dissectors.cpp]. *)

From S2P Require Import Prelude CMemory PacketTypes.

(** ** [dissect_dns] *)

(** The copy of one label, [n] bytes of it left: [(pos, out_pos, out)]. *)
Fixpoint copy_label (n : nat) (data : list Z) (dlen out_max pos out_pos : Z) (out : list Z)
    : res (Z * Z * list Z) :=
  match n with
  | O => Ok (pos, out_pos, out)
  | S n =>
      if (pos <? dlen) && (out_pos <? out_max - 1) then
        c ← rd data pos;
        out ← wr out out_pos c;
        copy_label n data dlen out_max (pos + 1) (out_pos + 1) out
      else Ok (pos, out_pos, out)
  end.

Fixpoint dns_loop (fuel : nat) (data : list Z) (dlen out_max pos out_pos : Z) (out : list Z)
    : res (Z * list Z) :=
  match fuel with
  | O => Fault OutOfFuel
  | S fuel =>
      if (pos <? dlen) && (out_pos <? out_max - 1) then
        label_len ← rd data pos;
        if (label_len =? 0) || (63 <? label_len) then Ok (out_pos, out) else
        '(pos, out_pos, out) ←
          copy_label (Z.to_nat label_len) data dlen out_max (pos + 1) out_pos out;
        if out_pos <? out_max - 1 then
          out ← wr out out_pos 46;
          dns_loop fuel data dlen out_max pos (out_pos + 1) out
        else dns_loop fuel data dlen out_max pos out_pos out
      else Ok (out_pos, out)
  end.

Definition dissect_dns (payload : list Z) (len : Z) (out : list Z) (out_max : Z)
    : res (list Z) :=
  if len <? 12 then Ok out else
  let data := ptr_add payload 12 in
  '(out_pos, out) ← dns_loop (S (Z.to_nat len)) data (len - 12) out_max 0 0 out;
  if 0 <? out_pos then
    c ← rd out (out_pos - 1);
    wr out (out_pos - (if c =? 46 then 1 else 0)) 0
  else Ok out.

(** ** [dissect_tls_sni] *)

(** The walk over the extensions; [Some] is the early return. *)
Fixpoint sni_loop (fuel : nat) (payload : list Z) (ext_end out_max pos : Z) (out : list Z)
    : res (list Z) :=
  match fuel with
  | O => Fault OutOfFuel
  | S fuel =>
      if pos + 4 <=? ext_end then
        ty ← load16 payload pos;
        el ← load16 payload (pos + 2);
        let pos := pos + 4 in
        if (ntohs ty =? 0) && (pos + 5 <=? ext_end) then
          nl ← load16 payload (pos + 3);
          let name_len := ntohs nl in
          if pos + 5 + name_len <=? ext_end then
            let actual_copy := Z.min name_len (out_max - 1) in
            out ← memcpy out 0 payload (pos + 5) actual_copy;
            wr out actual_copy 0
          else sni_loop fuel payload ext_end out_max (pos + ntohs el) out
        else sni_loop fuel payload ext_end out_max (pos + ntohs el) out
      else Ok out
  end.

Definition dissect_tls_sni (payload : list Z) (len : Z) (out : list Z) (out_max : Z)
    : res (list Z) :=
  if len <? 43 then Ok out else
  b0 ← rd payload 0;
  if negb (b0 =? 0x16) then Ok out else
  b5 ← rd payload 5;
  if negb (b5 =? 0x01) then Ok out else
  let pos := 5 + 38 in
  sid_len ← rd payload pos;
  let pos := pos + 1 + sid_len in
  if len <=? pos + 2 then Ok out else
  cs_len ← load16 payload pos;
  let pos := pos + 2 + ntohs cs_len in
  if len <=? pos + 1 then Ok out else
  comp_len ← rd payload pos;
  let pos := pos + 1 + comp_len in
  if len <=? pos + 2 then Ok out else
  tl ← load16 payload pos;
  let pos := pos + 2 in
  let ext_end := Z.min (pos + ntohs tl) len in
  sni_loop (S (Z.to_nat len)) payload ext_end out_max pos out.

(** ** Specifications of what is parsed *)

(** A domain name on the wire, and the text the dissector writes for it. *)
Definition encode_qname (labels : list (list Z)) : list Z :=
  concat ((λ l, zlen l :: l) <$> labels) ++ [0].
Definition dotted (labels : list (list Z)) : list Z :=
  concat ((λ l, l ++ [46]) <$> labels).
Definition valid_label (l : list Z) : Prop := 1 ≤ zlen l ≤ 63 ∧ bytes l.

(** The final dot is replaced by the terminator. *)
Definition strip_dot (s : list Z) : list Z :=
  match last s with Some 46 => take (length s - 1) s | _ => s end.

(** A TLS extension, the server-name extension, and a ClientHello record
    with the fields the dissector walks over; [head] is its first 43 bytes. *)
Definition encode_ext (e : Z * list Z) : list Z := be16 e.1 ++ be16 (zlen e.2) ++ e.2.
Definition encode_exts (es : list (Z * list Z)) : list Z := concat (encode_ext <$> es).
Definition encode_sni (name : list Z) : list Z :=
  encode_ext (0, be16 (zlen name + 3) ++ [0] ++ be16 (zlen name) ++ name).
Definition client_hello (head sid cs comp : list Z) (exts : list Z) : list Z :=
  head ++ [zlen sid] ++ sid ++ be16 (zlen cs) ++ cs ++ [zlen comp] ++ comp ++
  be16 (zlen exts) ++ exts.

(** ** Safety *)

Section dns_safety.
Context (F : fault → Prop) (data : list Z) (dlen out_max : Z).
Context (Hdata : bytes data) (Hsafe : guard F (dlen ≤ zlen data)).

(** Progress of a writer from [out_pos] in [out] to [o] in [r]. *)
Definition advanced (out_pos : Z) (out : list Z) (o : Z) (r : list Z) : Prop :=
  out_pos ≤ o ≤ out_max - 1 ∧ length r = length out ∧ bytes r ∧ (o = out_pos → r = out).

Lemma copy_label_spec n pos out_pos out :
  bytes out → 1 ≤ out_max ≤ zlen out → 0 ≤ pos → 0 ≤ out_pos ≤ out_max - 1 →
  wp F (copy_label n data dlen out_max pos out_pos out)
  (λ '(p, o, r), pos ≤ p ∧ advanced out_pos out o r).
Proof.
  revert pos out_pos out.
  induction n as [|n IH]; intros pos out_pos out Ho Hm Hp Hop; cbn [copy_label].
  { apply wp_ret. repeat split; (done || lia). }
  g_steps.
  - eapply wp_mono; [apply IH; [eauto with pacsni|lia..]|].
    intros [[p' o'] r'] (?&?&?&?&?). repeat split; (done || lia).
  - repeat split; (done || lia).
Qed.

Lemma dns_loop_spec fuel pos out_pos out :
  bytes out → 1 ≤ out_max ≤ zlen out → 0 ≤ pos → 0 ≤ out_pos ≤ out_max - 1 →
  (Z.to_nat (dlen - pos) < fuel)%nat →
  wp F (dns_loop fuel data dlen out_max pos out_pos out)
  (λ '(o, r), advanced out_pos out o r).
Proof.
  revert pos out_pos out.
  induction fuel as [|fuel IH]; intros pos out_pos out Ho Hm Hp Hop Hf; [lia|].
  cbn [dns_loop]. g_steps; [repeat split; (done || lia)| |repeat split; (done || lia)].
  eapply wp_mono; [apply copy_label_spec; (done || lia)|].
  intros [[p o] r] (Hpp & Ho1 & Hr1 & Hr2 & Hr3). g_steps.
  - eapply wp_mono; [apply IH; [eauto with pacsni|lia..]|].
    intros [o' r'] (?&?&?&?). repeat split; (done || lia).
  - eapply wp_mono; [apply IH; (done || lia)|].
    intros [o' r'] (?&?&?&Heq). repeat split; try (done || lia).
Qed.
End dns_safety.

Lemma dissect_dns_spec F payload len out out_max :
  bytes payload → guard F (len ≤ zlen payload) → bytes out → 1 ≤ out_max ≤ zlen out →
  wp F (dissect_dns payload len out out_max) (text_ok out).
Proof.
  intros Hp Hsafe Ho Hm. unfold dissect_dns. case_test; [by apply wp_ret, text_ok_refl|].
  assert (guard F (len - 12 ≤ zlen (ptr_add payload 12))).
  { eapply guard_mono; [exact Hsafe|]. intros. rewrite length_ptr_add; lia. }
  wp_step. eapply wp_mono; [apply dns_loop_spec; auto with pacsni; lia|].
  intros [o r] (?&?&?&Hor). case_test; [|rewrite Hor by lia; by apply text_ok_refl].
  wp_step. apply wp_rd; [lia|]. intros c Hc. case_test; apply wp_wr;
    try lia; intros r' Hr' ?; repeat split; try congruence;
    eauto using elem_of_wr with pacsni.
Qed.

(** ** DNS round trip *)

Section dns_roundtrip.
Context (dlen : Z).

Lemma copy_label_exact l pre post s k :
  zlen (pre ++ l) ≤ dlen →
  copy_label (length l) (pre ++ l ++ post) dlen (zlen s + 1 + Z.of_nat k)
  (zlen pre) (zlen s) (s ++ zeros (S k))
  = Ok (zlen pre + Z.of_nat (length l `min` k), zlen (s ++ take k l),
    (s ++ take k l) ++ zeros (S (k - length l))).
Proof.
  revert pre s k. induction l as [|b l IH]; intros pre s k Hl; cbn [copy_label length].
  { rewrite take_nil, app_nil_r. simpl. repeat f_equal; lia. }
  rewrite length_app in Hl. simpl in Hl.
  destruct k as [|k].
  { rewrite take_0, app_nil_r. case_test; [exfalso; lia|]. simpl. repeat f_equal. lia. }
  case_test; [|exfalso; lia].
  rewrite rd_app_0. change (rd ((b :: l) ++ post) 0) with (Ok b). cbn [mbind res_bind].
  rewrite replicate_S, wr_append. cbn [mbind res_bind].
  pose proof (IH (pre ++ [b]) (s ++ [b]) k) as H.
  rewrite !length_app, <- !(assoc_L (++)) in H. simpl in H.
  rewrite (Nat2Z.inj_add (length pre)), (Nat2Z.inj_add (length s)) in H.
  change (Z.of_nat 1) with 1 in H.
  replace (zlen s + 1 + 1 + Z.of_nat k) with (zlen s + 1 + Z.of_nat (S k)) in H by lia.
  rewrite <- (assoc_L (++)). simpl. rewrite H by lia. rewrite <- (assoc_L (++)). simpl.
  apply f_equal, f_equal2; [apply f_equal2; [lia|]|done].
  rewrite !length_app. simpl. lia.
Qed.

Lemma encode_qname_cons l labels :
  encode_qname (l :: labels) = zlen l :: l ++ encode_qname labels.
Proof. unfold encode_qname. simpl. by rewrite <- (assoc_L (++)). Qed.

Lemma take_dotted_fit l labels k :
  (length l < S k)%nat →
  take (S k) (dotted (l :: labels)) = (l ++ [46]) ++ take (k - length l) (dotted labels).
Proof.
  intros. change (dotted (l :: labels)) with ((l ++ [46]) ++ dotted labels).
  rewrite take_app_ge by (rewrite length_app; simpl; lia).
  do 2 f_equal. rewrite length_app. simpl. lia.
Qed.

Lemma take_dotted_cut l labels k :
  (S k ≤ length l)%nat → take (S k) (dotted (l :: labels)) = take (S k) l.
Proof.
  intros. change (dotted (l :: labels)) with ((l ++ [46]) ++ dotted labels).
  by rewrite <- (assoc_L (++)), take_app_le.
Qed.

Lemma dns_loop_full fuel data out_max pos out_pos out :
  out_max - 1 ≤ out_pos →
  dns_loop (S fuel) data dlen out_max pos out_pos out = Ok (out_pos, out).
Proof. intros. cbn [dns_loop]. by case_test; [exfalso; lia|]. Qed.

Lemma dns_loop_exact labels pre post fuel s k :
  Forall valid_label labels → (length labels < fuel)%nat →
  zlen (pre ++ encode_qname labels) ≤ dlen →
  let w := take k (dotted labels) in
  dns_loop fuel (pre ++ encode_qname labels ++ post) dlen (zlen s + 1 + Z.of_nat k)
  (zlen pre) (zlen s) (s ++ zeros (S k))
  = Ok (zlen (s ++ w), (s ++ w) ++ zeros (S (k - length w))).
Proof.
  intros Hl. revert pre fuel s k.
  induction Hl as [|l labels [Hl Hlb] Hls IH]; intros pre [|fuel] s k Hf Hd w;
    simpl in Hf; try lia; cbn [dns_loop].
  { unfold w. change (dotted []) with (@nil Z). rewrite take_nil, app_nil_r, Nat.sub_0_r.
    case_test; [|done]. by rewrite rd_app_0. }
  rewrite encode_qname_cons in *. rewrite !length_app in Hd. simpl in Hd.
  rewrite length_app in Hd.
  assert (dotted (l :: labels) = (l ++ [46]) ++ dotted labels) as Hdot by done.
  destruct k as [|k].
  { unfold w. rewrite take_0, app_nil_r. case_test; [exfalso; lia|done]. }
  case_test; [|exfalso; lia].
  rewrite rd_app_0. cbn [app]. rewrite rd_cons_0. cbn [mbind res_bind].
  case_test; [exfalso; lia|]. rewrite Nat2Z.id.
  pose proof (copy_label_exact l (pre ++ [zlen l]) (encode_qname labels ++ post) s (S k)) as Hc.
  rewrite !length_app, <- !(assoc_L (++)), (Nat2Z.inj_add (length pre)) in Hc. simpl in Hc.
  change (Z.of_nat 1) with 1 in Hc.
  rewrite <- (assoc_L (++)). simpl. rewrite Hc by lia. cbn [mbind res_bind]. clear Hc.
  destruct (decide (length l < S k)%nat) as [Hfit|Hcut].
  - rewrite take_ge by lia. case_test; [|exfalso; lia].
    pose proof (take_dotted_fit l labels k Hfit) as Hw. fold w in Hw. rewrite Hw.
    replace (S k - length l)%nat with (S (k - length l)) by lia.
    simpl. rewrite <- !length_app, (assoc_L (++) s l), wr_append.
    cbn [mbind res_bind].
    replace (pre ++ zlen l :: l ++ encode_qname labels ++ post)
      with ((pre ++ zlen l :: l) ++ encode_qname labels ++ post)
      by (by rewrite <- (assoc_L (++))).
    replace (zlen s + 1 + Z.of_nat (S k))
      with (zlen ((s ++ l) ++ [46]) + 1 + Z.of_nat (k - length l))
      by (rewrite !length_app; simpl; lia).
    replace (zlen pre + 1 + Z.of_nat (length l `min` S k))
      with (zlen (pre ++ zlen l :: l)) by (rewrite length_app; simpl; lia).
    replace (zlen (s ++ l) + 1) with (zlen ((s ++ l) ++ [46]))
      by (rewrite !length_app; simpl; lia).
    change (0 :: zeros (k - length l)) with (zeros (S (k - length l))).
    rewrite IH by (rewrite ?length_app; simpl; lia).
    rewrite !(assoc_L (++)). do 4 f_equal. rewrite !length_app. simpl. do 2 f_equal. lia.
  - case_test; [exfalso; rewrite length_take in *; lia|].
    destruct fuel as [|fuel]; [lia|].
    rewrite dns_loop_full by (rewrite length_take; lia).
    unfold w. rewrite take_dotted_cut by lia.
    rewrite <- (assoc_L (++)), length_app, length_take.
    replace (S k - S k `min` length l)%nat with (S k - length l)%nat by lia. done.
Qed.
End dns_roundtrip.

Lemma length_encode_qname labels :
  Forall valid_label labels → (length labels < length (encode_qname labels))%nat.
Proof.
  induction 1 as [|l labels Hl _ IH]; [simpl; lia|].
  rewrite encode_qname_cons. simpl. rewrite length_app. lia.
Qed.

Lemma strip_dot_snoc u c : strip_dot (u ++ [c]) = if c =? 46 then u else u ++ [c].
Proof.
  unfold strip_dot. rewrite last_snoc. destruct (Z.eqb_spec c 46) as [->|Hc].
  - rewrite length_app. cbn [length]. by rewrite Nat.add_sub, take_app_length.
  - destruct c as [|c|c]; try done. do 6 (destruct c as [c|c|]; try done).
Qed.

Lemma length_strip_dot s : (length (strip_dot s) <= length s)%nat.
Proof.
  destruct (decide (s = [])) as [->|Hs]; [done|]. destruct (exists_last Hs) as (u & c & ->).
  rewrite strip_dot_snoc. case_test; [rewrite length_app; lia|done].
Qed.

Lemma strip_dot_elem x s : x ∈ strip_dot s → x ∈ s.
Proof.
  destruct (decide (s = [])) as [->|Hs]; [done|]. destruct (exists_last Hs) as (u & c & ->).
  rewrite strip_dot_snoc, elem_of_app. case_test; [by left|by apply elem_of_app].
Qed.

(** Terminating the text, over its final dot if it has one. *)
Lemma terminate_text s n :
  s ≠ [] →
  (c ← rd (s ++ zeros (S n)) (zlen s - 1);
   wr (s ++ zeros (S n)) (zlen s - (if c =? 46 then 1 else 0)) 0)
  = Ok (strip_dot s ++ zeros (length s + S n - length (strip_dot s))).
Proof.
  intros Hs. destruct (exists_last Hs) as (u & c & ->). rewrite strip_dot_snoc.
  rewrite length_app. cbn [length].
  replace (Z.of_nat (length u + 1) - 1) with (zlen u) by lia.
  rewrite <- (assoc_L (++)) at 1. rewrite rd_app_0. cbn [app]. rewrite rd_cons_0.
  cbn [mbind res_bind]. change (zeros (S n)) with (0 :: zeros n).
  destruct (Z.eqb_spec c 46) as [->|Hc].
  - replace (Z.of_nat (length u + 1) - 1) with (zlen u) by lia.
    rewrite <- (assoc_L (++)). cbn [app]. rewrite wr_append. rewrite <- (assoc_L (++)).
    replace (length u + 1 + S n - length u)%nat with (S (S n)) by lia. done.
  - replace (Z.of_nat (length u + 1) - 0) with (zlen (u ++ [c]))
      by (rewrite length_app; simpl; lia).
    rewrite wr_append. rewrite <- (assoc_L (++) (u ++ [c])).
    rewrite length_app. cbn [length].
    by replace (length u + 1 + S n - (length u + 1))%nat with (S n) by lia.
Qed.

(** The whole buffer after a name was written. *)
Lemma dissect_dns_array labels hdr rest len k :
  length hdr = 12%nat → Forall valid_label labels →
  zlen (hdr ++ encode_qname labels) ≤ len →
  let name := strip_dot (take k (dotted labels)) in
  dissect_dns (hdr ++ encode_qname labels ++ rest) len (zeros (S k)) (Z.of_nat (S k)) =
    Ok (name ++ zeros (S k - length name)).
Proof.
  intros Hh Hls Hlen. cbn zeta. set (w := take k (dotted labels)).
  rewrite length_app in Hlen. unfold dissect_dns.
  case_test; [exfalso; lia|].
  replace (ptr_add _ 12) with ([] ++ encode_qname labels ++ rest).
  2:{ unfold ptr_add. rewrite drop_app_length'; [done|lia]. }
  pose proof (length_encode_qname labels Hls).
  pose proof (dns_loop_exact (len - 12) labels [] rest (S (Z.to_nat len)) [] k Hls) as Hloop.
  cbv zeta in Hloop. fold w in Hloop. cbn [app] in Hloop.
  change (zlen []) with 0 in Hloop.
  replace (0 + 1 + Z.of_nat k) with (Z.of_nat (S k)) in Hloop by lia.
  cbn [app]. rewrite Hloop by lia. cbn [mbind res_bind]. clear Hloop.
  assert (length w <= k)%nat as Hw by (unfold w; rewrite length_take; lia).
  case_test.
  - assert (w ≠ []) as Hne by (by intros Hnil; rewrite Hnil in E0).
    rewrite terminate_text by done. do 3 f_equal. lia.
  - destruct w; [|simpl in *; lia]. change (strip_dot []) with (@nil Z). cbn [length app].
    by rewrite !Nat.sub_0_r.
Qed.

Lemma dissect_dns_exact labels hdr rest len k :
  length hdr = 12%nat → Forall valid_label labels →
  zlen (hdr ++ encode_qname labels) ≤ len →
  let w := take k (dotted labels) in
  0 ∉ w →
  ∃ r, dissect_dns (hdr ++ encode_qname labels ++ rest) len (zeros (S k)) (Z.of_nat (S k))
       = Ok r ∧ cstring r = Ok (strip_dot w).
Proof.
  intros Hh Hls Hlen w Hw. eexists. split; [by apply dissect_dns_array|]. fold w.
  assert (length (strip_dot w) <= k)%nat as Hl.
  { assert (length w <= k)%nat by (unfold w; rewrite length_take; lia).
    pose proof (length_strip_dot w). lia. }
  replace (S k - length (strip_dot w))%nat with (S (k - length (strip_dot w))) by lia.
  change (zeros (S ?n)) with (0 :: zeros n). rewrite cstring_app; [done|].
  intros Hin. by apply strip_dot_elem in Hin.
Qed.

(** ** TLS server names *)

Lemma sni_loop_spec F payload ext_end out_max fuel pos out :
  bytes payload → guard F (ext_end ≤ zlen payload) → 0 ≤ pos →
  bytes out → 1 ≤ out_max ≤ zlen out → (Z.to_nat (ext_end - pos) < fuel)%nat →
  wp F (sni_loop fuel payload ext_end out_max pos out) (text_ok out).
Proof.
  intros Hp Hsafe Hpos Ho Hm. revert pos Hpos.
  induction fuel as [|fuel IH]; intros pos Hpos Hf; [lia|].
  cbn [sni_loop]. g_steps; [|apply IH; lia..|by apply text_ok_refl].
  eapply text_ok_wr_nul; [done|done|]. eauto with pacsni.
Qed.

Lemma dissect_tls_sni_spec F payload len out out_max :
  bytes payload → guard F (44 ≤ zlen payload ∧ len ≤ zlen payload) →
  bytes out → 1 ≤ out_max ≤ zlen out →
  wp F (dissect_tls_sni payload len out out_max) (text_ok out).
Proof.
  intros Hp Hsafe Ho Hm. unfold dissect_tls_sni. g_steps; auto with pacsni.
  apply sni_loop_spec; auto with pacsni; [guarded|lia|lia].
Qed.

Lemma length_encode_ext e : zlen (encode_ext e) = 4 + zlen e.2.
Proof. unfold encode_ext. rewrite !length_app, !length_be16. lia. Qed.

Lemma load_ext pre e q :
  load16 (pre ++ encode_ext e ++ q) (zlen pre) = Ok (ntohs e.1) ∧
  load16 (pre ++ encode_ext e ++ q) (zlen pre + 2) = Ok (ntohs (zlen e.2)).
Proof.
  unfold encode_ext. rewrite load16_app_0, load16_app_r, <- !(assoc_L (++)) by lia.
  by rewrite load16_skip_be16, !load16_be16.
Qed.

(** The bytes the dissector skips before the name. *)
Definition sni_head (name : list Z) : list Z :=
  be16 0 ++ be16 (zlen name + 5) ++ be16 (zlen name + 3) ++ [0] ++ be16 (zlen name).

Lemma encode_sni_split name : encode_sni name = sni_head name ++ name.
Proof.
  unfold encode_sni, encode_ext, sni_head. cbn [fst snd].
  replace (zlen (be16 (zlen name + 3) ++ [0] ++ be16 (zlen name) ++ name))
    with (zlen name + 5) by (rewrite !length_app, !length_be16; simpl; lia).
  by rewrite <- !(assoc_L (++)).
Qed.

Lemma length_sni_head name : zlen (sni_head name) = 9.
Proof. done. Qed.

Lemma sni_loop_hit name pre rest fuel out out_max ext_end :
  zlen name + 5 < 2 ^ 16 → 1 ≤ out_max ≤ zlen out →
  zlen (pre ++ encode_sni name) ≤ ext_end →
  let w := take (Z.to_nat (out_max - 1)) name in
  sni_loop (S fuel) (pre ++ encode_sni name ++ rest) ext_end out_max (zlen pre) out
  = Ok (w ++ 0 :: drop (S (length w)) out).
Proof.
  intros Hname Hm Hend w. cbn [sni_loop].
  rewrite encode_sni_split, !length_app, !Nat2Z.inj_add, length_sni_head in Hend.
  case_test; [|exfalso; lia].
  destruct (load_ext pre (0, be16 (zlen name + 3) ++ [0] ++ be16 (zlen name) ++ name) rest)
    as [H0 H1].
  change (encode_ext _) with (encode_sni name) in H0, H1. rewrite H0, H1.
  cbn [mbind res_bind fst]. clear H0 H1. change (ntohs (ntohs 0)) with 0.
  case_test; [|exfalso; lia].
  rewrite encode_sni_split, <- (assoc_L (++)).
  assert (∀ q, load16 (pre ++ sni_head name ++ q) (zlen pre + 4 + 3)
               = Ok (ntohs (zlen name))) as ->.
  { intros q. rewrite <- Z.add_assoc, load16_app_r by lia.
    change (load16 (be16 (zlen name) ++ q) 0 = Ok (ntohs (zlen name))).
    apply load16_be16. }
  cbn [mbind res_bind]. rewrite ntohs_invol by (unfold is_u; lia).
  case_test; [|exfalso; lia].
  assert (name ++ rest = w ++ (drop (Z.to_nat (out_max - 1)) name ++ rest)) as ->
    by (unfold w; by rewrite (assoc_L (++)), take_drop).
  rewrite (assoc_L (++) pre).
  assert (zlen w = zlen name `min` (out_max - 1)) as Hw
    by (unfold w; rewrite length_take; lia).
  rewrite <- Hw. apply copy_terminated; rewrite ?length_app; simpl; lia.
Qed.

Lemma sni_loop_exact before name pre rest fuel out out_max ext_end :
  Forall (λ e, is_u 16 e.1 ∧ e.1 ≠ 0 ∧ is_u 16 (zlen e.2)) before →
  zlen name + 5 < 2 ^ 16 → 1 ≤ out_max ≤ zlen out →
  zlen (pre ++ encode_exts before ++ encode_sni name) ≤ ext_end →
  (length before < fuel)%nat →
  let w := take (Z.to_nat (out_max - 1)) name in
  sni_loop fuel (pre ++ encode_exts before ++ encode_sni name ++ rest) ext_end out_max
    (zlen pre) out = Ok (w ++ 0 :: drop (S (length w)) out).
Proof.
  intros Hb Hname Hm. revert pre fuel.
  induction Hb as [|e before (Hty & Hnz & Hlen) Hb IH];
    intros pre [|fuel] Hend Hf; try (simpl in Hf; lia).
  { by apply sni_loop_hit. }
  change (encode_exts (e :: before)) with (encode_ext e ++ encode_exts before) in *.
  rewrite <- (assoc_L (++)) in *. cbn [sni_loop].
  destruct (load_ext pre e (encode_exts before ++ encode_sni name ++ rest)) as [-> ->].
  cbn [mbind res_bind]. rewrite !ntohs_invol by done.
  pose proof (length_encode_ext e) as He.
  case_test; [|exfalso; rewrite !length_app in Hend; lia].
  case_test; [exfalso; lia|].
  replace (zlen pre + 4 + zlen e.2) with (zlen (pre ++ encode_ext e))
    by (rewrite length_app; lia).
  rewrite (assoc_L (++) pre) in *. apply IH; [done|simpl in Hf; lia].
Qed.

Section client_hello.
Context (hd sid cs comp exts rest : list Z).
Context (Hhd : length hd = 43%nat).
Let P := client_hello hd sid cs comp exts ++ rest.
Let a1 := hd ++ [zlen sid] ++ sid.
Let a2 := a1 ++ be16 (zlen cs) ++ cs.
Let a3 := a2 ++ [zlen comp] ++ comp.

Lemma hello_lengths :
  zlen a1 = 44 + zlen sid ∧ zlen a2 = 46 + zlen sid + zlen cs ∧
  zlen a3 = 47 + zlen sid + zlen cs + zlen comp ∧
  zlen (client_hello hd sid cs comp exts) = 49 + zlen sid + zlen cs + zlen comp + zlen exts.
Proof.
  unfold a3, a2, a1, client_hello. rewrite !length_app, !length_be16. simpl. lia.
Qed.

Lemma hello_head i : 0 ≤ i < 43 → rd P i = rd hd i.
Proof.
  intros. unfold P, client_hello. rewrite <- (assoc_L (++)). apply rd_app_l. lia.
Qed.

Lemma hello_sid : rd P 43 = Ok (zlen sid).
Proof.
  unfold P, client_hello. rewrite <- (assoc_L (++)).
  erewrite (rd_at _ hd); [|done|lia]. done.
Qed.

Lemma hello_cs : load16 P (44 + zlen sid) = Ok (ntohs (zlen cs)).
Proof.
  destruct hello_lengths as (E & _). eapply (load16_at _ a1); [|done].
  unfold P, client_hello, a1. by rewrite <- !(assoc_L (++)).
Qed.

Lemma hello_comp : rd P (46 + zlen sid + zlen cs) = Ok (zlen comp).
Proof.
  destruct hello_lengths as (_ & E & _). erewrite (rd_at _ a2); [..|done].
  - by rewrite rd_cons_0.
  - unfold P, client_hello, a2, a1. by rewrite <- !(assoc_L (++)).
Qed.

Lemma hello_exts : load16 P (47 + zlen sid + zlen cs + zlen comp) = Ok (ntohs (zlen exts)).
Proof.
  destruct hello_lengths as (_ & _ & E & _). eapply (load16_at _ a3); [|done].
  unfold P, client_hello, a3, a2, a1. by rewrite <- !(assoc_L (++)).
Qed.

Lemma hello_split : P = (a3 ++ be16 (zlen exts)) ++ exts ++ rest.
Proof. unfold P, client_hello, a3, a2, a1. by rewrite <- !(assoc_L (++)). Qed.

Lemma hello_walk out out_max :
  rd hd 0 = Ok 0x16 → rd hd 5 = Ok 0x01 →
  is_u 16 (zlen cs) → is_u 16 (zlen exts) → 9 ≤ zlen exts →
  let len := zlen (client_hello hd sid cs comp exts) in
  dissect_tls_sni P len out out_max =
  sni_loop (S (Z.to_nat len)) ((a3 ++ be16 (zlen exts)) ++ exts ++ rest) len out_max
  (zlen (a3 ++ be16 (zlen exts))) out.
Proof.
  intros H0 H5 Hcs Hex Hpos len. destruct hello_lengths as (_ & _ & L3 & Ln). fold len in Ln.
  unfold dissect_tls_sni. case_test; [exfalso; lia|].
  rewrite (hello_head 0), (hello_head 5), H0, H5 by lia. cbn [mbind res_bind negb Z.eqb Pos.eqb].
  change (5 + 38) with 43. rewrite hello_sid. cbn [mbind res_bind].
  case_test; [exfalso; lia|].
  change (43 + 1) with 44. rewrite hello_cs. cbn [mbind res_bind].
  rewrite ntohs_invol by done. case_test; [exfalso; lia|].
  replace (44 + zlen sid + 2 + zlen cs) with (46 + zlen sid + zlen cs) by lia.
  rewrite hello_comp. cbn [mbind res_bind]. case_test; [exfalso; lia|].
  replace (46 + zlen sid + zlen cs + 1 + zlen comp)
  with (47 + zlen sid + zlen cs + zlen comp) by lia.
  rewrite hello_exts. cbn [mbind res_bind]. rewrite ntohs_invol by done.
  rewrite <- hello_split, length_app, length_be16.
  replace (Z.min _ len) with len by lia. f_equal. lia.
Qed.
End client_hello.

Lemma dissect_tls_sni_exact hd sid cs comp before name after rest out out_max :
  let exts := encode_exts before ++ encode_sni name ++ after in
  let p := client_hello hd sid cs comp exts in
  length hd = 43%nat → rd hd 0 = Ok 0x16 → rd hd 5 = Ok 0x01 →
  is_u 16 (zlen cs) → is_u 16 (zlen exts) →
  Forall (λ e, is_u 16 e.1 ∧ e.1 ≠ 0 ∧ is_u 16 (zlen e.2)) before →
  1 ≤ out_max ≤ zlen out →
  let w := take (Z.to_nat (out_max - 1)) name in
  dissect_tls_sni (p ++ rest) (zlen p) out out_max = Ok (w ++ 0 :: drop (S (length w)) out).
Proof.
  intros exts p Hh H0 H5 Hcs Hexts Hb Hm w.
  assert (zlen exts = zlen (encode_exts before) + (9 + zlen name) + zlen after) as He.
  { unfold exts. rewrite !length_app, encode_sni_split, length_app.
    pose proof (length_sni_head name). lia. }
  assert (length before ≤ length (encode_exts before))%nat as Hbe.
  { clear. induction before as [|e before IH]; [done|].
    change (encode_exts (e :: before)) with (encode_ext e ++ encode_exts before).
    pose proof (length_encode_ext e). rewrite length_app. simpl. lia. }
  unfold is_u in Hexts.
  rewrite (hello_walk hd sid cs comp exts rest Hh) by (done || unfold is_u; lia).
  destruct (hello_lengths hd sid cs comp exts Hh) as (_ & _ & L3 & Ln).
  match goal with |- sni_loop _ (?x ++ _) _ _ _ _ = _ =>
    assert (zlen x = 49 + zlen sid + zlen cs + zlen comp) as Hx
      by (rewrite length_app, length_be16; lia);
    generalize dependent x
  end.
  intros x Hx.
  assert (exts ++ rest = encode_exts before ++ encode_sni name ++ (after ++ rest)) as ->
    by (unfold exts; by rewrite <- !(assoc_L (++))).
  apply sni_loop_exact; try (done || lia).
  rewrite !length_app, encode_sni_split, length_app.
  pose proof (length_sni_head name). lia.
Qed.

(** ** Properties *)

(** Whatever its bytes are, a DNS payload whose length is backed by the
    buffer is parsed without an access outside the payload or the output
    buffer, in finitely many steps, and the output stays a C string. *)
Theorem dissect_dns_safe (payload : list Z) (len : Z) (out : list Z) (out_max : Z)
    (Hp : bytes payload) (Hlen : len ≤ zlen payload)
    (Ho : bytes out) (Hm : 1 ≤ out_max ≤ zlen out) :
  ensures (dissect_dns payload len out out_max) (text_ok out).
Proof. apply dissect_dns_spec; auto. by right. Qed.

Lemma dissect_dns_safe_witness :
  ensures (dissect_dns (zeros 12 ++ [63; 97; 98]) 15 (zeros 64) 64) (text_ok (zeros 64)).
Proof.
  apply (dissect_dns_safe (zeros 12 ++ [63; 97; 98]) 15 (zeros 64) 64);
    [by_decide|simpl; lia|by_decide|simpl; lia].
Defined.


(** On a DNS message whose first name has the given labels the dissector
    writes the labels separated by dots, cut at the capacity of the buffer,
    and without the final dot. *)
Theorem dissect_dns_roundtrip (labels : list (list Z)) (hdr rest : list Z) (len : Z) (k : nat)
    (Hh : length hdr = 12%nat) (Hls : Forall valid_label labels)
    (Hlen : zlen (hdr ++ encode_qname labels) ≤ len)
    (Hnul : 0 ∉ take k (dotted labels)) :
  ∃ r, dissect_dns (hdr ++ encode_qname labels ++ rest) len (zeros (S k)) (Z.of_nat (S k))
       = Ok r ∧ cstring r = Ok (strip_dot (take k (dotted labels))).
Proof. by apply dissect_dns_exact. Qed.

(** A question for ab.c, in the program's buffer of 64 bytes. *)
Lemma dissect_dns_roundtrip_witness :
  strip_dot (take 63 (dotted [[97; 98]; [99]])) = [97; 98; 46; 99] ∧
  ∃ r, dissect_dns (zeros 12 ++ encode_qname [[97; 98]; [99]] ++ [0; 1; 0; 1]) 22 (zeros 64)
         (Z.of_nat 64) = Ok r ∧
    cstring r = Ok (strip_dot (take 63 (dotted [[97; 98]; [99]]))).
Proof.
  split; [reflexivity|].
  apply (dissect_dns_roundtrip [[97; 98]; [99]] (zeros 12) [0; 1; 0; 1] 22 63);
    [reflexivity| |simpl; lia|by_decide].
  repeat constructor; by_decide.
Defined.


(** On a ClientHello, whatever its session id, cipher suites and
    compression methods and whatever extensions precede the server name, the
    dissector copies the server name, cut at the capacity of the buffer and
    terminated. *)
Theorem dissect_tls_sni_roundtrip (hd sid cs comp : list Z) (before : list (Z * list Z))
    (name after rest out : list Z) (out_max : Z)
    (Hh : length hd = 43%nat) (H0 : rd hd 0 = Ok 0x16) (H5 : rd hd 5 = Ok 0x01)
    (Hcs : is_u 16 (zlen cs))
    (Hexts : is_u 16 (zlen (encode_exts before ++ encode_sni name ++ after)))
    (Hb : Forall (λ e, is_u 16 e.1 ∧ e.1 ≠ 0 ∧ is_u 16 (zlen e.2)) before)
    (Hm : 1 ≤ out_max ≤ zlen out) :
  let p := client_hello hd sid cs comp (encode_exts before ++ encode_sni name ++ after) in
  let w := take (Z.to_nat (out_max - 1)) name in
  dissect_tls_sni (p ++ rest) (zlen p) out out_max = Ok (w ++ 0 :: drop (S (length w)) out).
Proof. by apply dissect_tls_sni_exact. Qed.

(** A ClientHello for ab.c with one extension before the server name. *)
Definition sample_hello_head : list Z := [0x16; 3; 1; 0; 100; 1] ++ zeros 37.

Lemma dissect_tls_sni_roundtrip_witness :
  let p := client_hello sample_hello_head (zeros 32) [0x13; 1] [0]
             (encode_exts [(10, [0; 2; 0; 29])] ++ encode_sni [97; 98; 46; 99] ++ [0; 43; 0; 0]) in
  dissect_tls_sni (p ++ []) (zlen p) (zeros 64) 64
  = Ok ([97; 98; 46; 99] ++ 0 :: drop 5 (zeros 64)).
Proof.
  apply (dissect_tls_sni_roundtrip sample_hello_head (zeros 32) [0x13; 1] [0]
    [(10, [0; 2; 0; 29])] [97; 98; 46; 99] [0; 43; 0; 0] [] (zeros 64) 64);
    [reflexivity|reflexivity|reflexivity|by_decide|by_decide| |simpl; lia].
  repeat constructor; by_decide.
Defined.


(** The length test of the TLS dissector is one byte short: on a handshake
    record of exactly the 43 bytes it asks for, it reads byte 43, which is
    past the record. *)
Theorem dissect_tls_sni_overread (p out : list Z) (Hlen : length p = 43%nat)
    (H0 : rd p 0 = Ok 0x16) (H5 : rd p 5 = Ok 0x01) :
  dissect_tls_sni p 43 out 64 = Fault OutOfBounds.
Proof.
  unfold dissect_tls_sni. rewrite H0, H5. cbn [Z.ltb Z.compare Pos.compare
    Pos.compare_cont mbind res_bind negb Z.eqb Pos.eqb].
  unfold rd. rewrite lookup_ge_None_2; [done|]. change (5 + 38) with 43. lia.
Qed.

Lemma dissect_tls_sni_overread_witness :
  dissect_tls_sni ([0x16; 3; 1; 0; 38; 1] ++ zeros 37) 43 (zeros 64) 64 = Fault OutOfBounds.
Proof. apply dissect_tls_sni_overread; reflexivity. Defined.

