(* ===== verification/TextDissectors.v ===== *)
(** * The dissectors that write a line of text

    [memmem], [dissect_http], [dissect_dhcp], [dissect_ntp],
    [dissect_ntp_core], [dissect_lldp], [dissect_igmp] and [dissect_vxlan] of
    [cpp/protocol_dissectors.cpp], and the dissectors of
    [cpp/packet_capture.cpp].  A function with an output parameter
    [char* o, int m] returns the new contents of the buffer [o]. *)

From Stdlib Require Import String.
From S2P Require Import Prelude CMemory PacketTypes.

(** ** HTTP *)

(** [n] rounds of the search, from index [i]. *)
Fixpoint memmem_loop (n : nat) (h needle : list Z) (i : Z) : res (option Z) :=
  match n with
  | O => Ok None
  | S n =>
      eq ← memcmp_eq h i needle;
      if (eq : bool) then Ok (Some i) else memmem_loop n h needle (i + 1)
  end.

(** The index of the first occurrence; [None] is the null pointer. *)
Definition memmem (h : list Z) (hlen : Z) (needle : list Z) : res (option Z) :=
  if zlen needle =? 0 then Ok (Some 0)
  else if hlen <? zlen needle then Ok None
  else memmem_loop (Z.to_nat (hlen - zlen needle + 1)) h needle 0.

(** [while (c < l && c < m - 1 && p[c] != '\r' && p[c] != '\n')] *)
Fixpoint copy_line (fuel : nat) (p : list Z) (l m c : Z) (o : list Z) : res (Z * list Z) :=
  match fuel with
  | O => Fault OutOfFuel
  | S fuel =>
      if (c <? l) && (c <? m - 1) then
        b ← rd p c;
        if negb (b =? 13) && negb (b =? 10) then
          o ← wr o c b;
          copy_line fuel p l m (c + 1) o
        else Ok (c, o)
      else Ok (c, o)
  end.

Definition http_methods : list (list Z) :=
  [str "GET "; str "POST "; str "PUT "; str "DELETE "; str "HEAD "; str "OPTIONS "].

(** ["\r\nHost: "] *)
Definition host_header : list Z := [13; 10] ++ str "Host: ".

(** The body of the [if] for the method that matched. *)
Definition http_line (p : list Z) (l : Z) (o : list Z) (m : Z) : res (list Z) :=
  '(c, o) ← copy_line (S (Z.to_nat l)) p l m 0 o;
  o ← wr o c 0;
  hp ← memmem p l host_header;
  match hp with
  | None => Ok o
  | Some k =>
      n ← strlen o;
      host ← cstring_prec 32 (ptr_add p (k + 8));
      snprintf o n (u64 (m - n)) (str " [Host: " ++ host ++ str "]")
  end.

Fixpoint http_methods_loop (ms : list (list Z)) (p : list Z) (l : Z) (o : list Z) (m : Z)
    : res (list Z) :=
  match ms with
  | [] => Ok o
  | method :: ms =>
      if zlen method <? l then
        eq ← memcmp_eq p 0 method;
        if (eq : bool) then http_line p l o m else http_methods_loop ms p l o m
      else http_methods_loop ms p l o m
  end.

Definition dissect_http (p : list Z) (l : Z) (o : list Z) (m : Z) : res (list Z) :=
  if l <? 10 then Ok o else http_methods_loop http_methods p l o m.

(** ** DHCP *)

Definition dhcp_types : list (list Z) :=
  [str "?"; str "DISCOVER"; str "OFFER"; str "REQUEST"; str "DECLINE"; str "ACK";
   str "NAK"; str "RELEASE"; str "INFORM"].

(** [ts[t]] *)
Definition nth_text (ts : list (list Z)) (t : Z) : res (list Z) :=
  match ts !! Z.to_nat t with Some s => Ok s | None => Fault OutOfBounds end.

Fixpoint dhcp_loop (fuel : nat) (opts : list Z) (olen i : Z) (o : list Z) (m : Z)
    : res (list Z) :=
  match fuel with
  | O => Fault OutOfFuel
  | S fuel =>
      if i <? olen then
        c ← rd opts i;
        let i := i + 1 in
        if c =? 255 then Ok o
        else if c =? 0 then dhcp_loop fuel opts olen i o m
        else if olen <=? i then Ok o
        else
          len ← rd opts i;
          let i := i + 1 in
          if olen <? i + len then Ok o
          else if (c =? 53) && (len =? 1) then
            t ← rd opts i;
            if (0 <? t) && (t <? 9) then
              name ← nth_text dhcp_types t;
              snprintf o 0 m (str "DHCP " ++ name)
            else Ok o
          else dhcp_loop fuel opts olen (i + len) o m
      else Ok o
  end.

Definition dissect_dhcp (p : list Z) (l : Z) (o : list Z) (m : Z) : res (list Z) :=
  if l <? 240 then Ok o else
  c0 ← rd p 236;
  if negb (c0 =? 0x63) then Ok o else
  c1 ← rd p 237;
  if negb (c1 =? 0x82) then Ok o else
  c2 ← rd p 238;
  if negb (c2 =? 0x53) then Ok o else
  c3 ← rd p 239;
  if negb (c3 =? 0x63) then Ok o else
  dhcp_loop (S (Z.to_nat l)) (ptr_add p 240) (l - 240) 0 o m.

(** ** NTP *)

Definition ntp_modes : list (list Z) :=
  [str "Res"; str "SymA"; str "SymP"; str "Cli"; str "Srv"; str "Bcast"; str "Ctrl";
   str "Priv"].

Definition dissect_ntp (p : list Z) (l : Z) (i : PacketInfo) : res PacketInfo :=
  if l <? 48 then Ok i else
  b0 ← rd p 0;
  let i := set_ntp_mode (Z.land b0 0x07) i in
  b1 ← rd p 1;
  let i := set_ntp_stratum b1 i in
  mode ← nth_text ntp_modes (ntp_mode i mod 8);
  a ← snprintf (app_layer_info i) 0 128
        (str "NTP " ++ mode ++ str " (Stratum " ++ fmt_u (ntp_stratum i) ++ str ")");
  Ok (set_app_layer_info a i).

Definition dissect_ntp_core (p : list Z) (l : Z) (i : PacketInfo) : res PacketInfo :=
  if l <? 48 then Ok i else
  b0 ← rd p 0;
  let mode := Z.land b0 0x07 in
  stratum ← rd p 1;
  name ← nth_text ntp_modes (mode mod 8);
  n ← strlen (app_layer_info i);
  a ← snprintf (app_layer_info i) n (u64 (128 - n))
        (str " [Mode: " ++ name ++ str ", Stratum: " ++ fmt_u stratum ++ str "]");
  Ok (set_app_layer_info a i).

(** ** LLDP *)

(** The copy of one identifier TLV into a 32-byte array. *)
Definition lldp_copy (dst p : list Z) (o len : Z) : res (list Z) :=
  let sl := Z.min (len - 1) 31 in
  dst ← memcpy dst 0 p (o + 1) sl;
  wr dst sl 0.

Fixpoint lldp_loop (fuel : nat) (p : list Z) (l o : Z) (i : PacketInfo) : res PacketInfo :=
  match fuel with
  | O => Fault OutOfFuel
  | S fuel =>
      if o + 2 <=? l then
        v ← load16 p o;
        let tlv := ntohs v in
        let type := Z.shiftr tlv 9 in
        let len := Z.land tlv 0x01FF in
        let o := o + 2 in
        if l <? o + len then Ok i
        else if type =? 1 then
          c ← lldp_copy (lldp_chassis i) p o len;
          lldp_loop fuel p l (o + len) (set_lldp_chassis c i)
        else if type =? 2 then
          c ← lldp_copy (lldp_port i) p o len;
          lldp_loop fuel p l (o + len) (set_lldp_port c i)
        else if type =? 0 then Ok i
        else lldp_loop fuel p l (o + len) i
      else Ok i
  end.

Definition dissect_lldp (p : list Z) (l : Z) (i : PacketInfo) : res PacketInfo :=
  i ← lldp_loop (S (Z.to_nat l)) p l 0 i;
  c ← cstring (lldp_chassis i);
  q ← cstring (lldp_port i);
  a ← snprintf (app_layer_info i) 0 128 (str "LLDP " ++ c ++ str "/" ++ q);
  Ok (set_app_layer_info a i).

(** ** IGMP and VXLAN *)

Definition igmp_name (t : Z) : list Z :=
  if t =? 0x11 then str "Query" else if t =? 0x12 then str "v1 Report"
  else if t =? 0x16 then str "v2 Report" else if t =? 0x17 then str "v2 Leave"
  else if t =? 0x22 then str "v3 Report" else str "?".

(** ["%u.%u.%u.%u"] of four bytes *)
Definition dotted_quad (g : list Z) : list Z :=
  match g with
  | [a; b; c; d] => fmt_u a ++ str "." ++ fmt_u b ++ str "." ++ fmt_u c ++ str "." ++ fmt_u d
  | _ => []
  end.

Definition dissect_igmp (p : list Z) (l : Z) (i : PacketInfo) : res PacketInfo :=
  if l <? 8 then Ok i else
  t ← rd p 0;
  let i := set_igmp_type t i in
  g ← memcpy (igmp_group i) 0 p 4 4;
  let i := set_igmp_group g i in
  x ← snprintf (extra_info i) 0 128
        (str "IGMP " ++ igmp_name t ++ str " Group " ++ dotted_quad g);
  Ok (set_extra_info x i).

Definition dissect_vxlan (p : list Z) (l : Z) (i : PacketInfo) : res PacketInfo :=
  if l <? 8 then Ok i else
  b4 ← rd p 4;
  b5 ← rd p 5;
  b6 ← rd p 6;
  let i := set_vxlan_vni (Z.lor (Z.lor (Z.shiftl b4 16) (Z.shiftl b5 8)) b6) i in
  a ← snprintf (app_layer_info i) 0 128 (str "VXLAN VNI: " ++ fmt_u (vxlan_vni i));
  Ok (set_app_layer_info a i).

(** ** [cpp/packet_capture.cpp]: application protocols over TCP *)

(** [l > k && memcmp(p, s, 4) == 0] *)
Definition starts_with (p : list Z) (l k : Z) (s : list Z) : res bool :=
  if k <? l then memcmp_eq p 0 s else Ok false.

(** [a || b], where [b] runs only if [a] is false *)
Definition or_else (a b : res bool) : res bool :=
  x ← a; if (x : bool) then Ok true else b.

Definition dissect_app_common (p : list Z) (l : Z) (o : list Z) (m : Z) : res (list Z) :=
  if l <? 4 then Ok o else
  ssh ← starts_with p l 7 (str "SSH-");
  if (ssh : bool) then
    '(c, o) ← copy_line (S (Z.to_nat l)) p l m 0 o;
    wr o c 0
  else
  smtp ← or_else (starts_with p l 4 (str "220 "))
           (or_else (starts_with p l 4 (str "HELO")) (starts_with p l 4 (str "EHLO")));
  if (smtp : bool) then snprintf o 0 m (str "SMTP Control") else
  ftp ← or_else (starts_with p l 4 (str "USER"))
          (or_else (starts_with p l 4 (str "PASS")) (starts_with p l 4 (str "220 ")));
  if (ftp : bool) then snprintf o 0 m (str "FTP Control") else
  b0 ← rd p 0;
  telnet ← (if b0 =? 0xff then b1 ← rd p 1; Ok (b1 =? 0xfb) else Ok false);
  if (telnet : bool) then snprintf o 0 m (str "Telnet Negotiation")
  else if (Z.land b0 0xc0 =? 0x80) && (12 <? l) then snprintf o 0 m (str "QUIC Long Header")
  else Ok o.

(** ** ICMP and neighbour discovery *)

Definition icmp_reasons : list (list Z) :=
  [str "Net"; str "Host"; str "Proto"; str "Port"; str "Frag"; str "SrcRoute";
   str "DestNet"; str "DestHost"].

Definition check_icmp_unreachable (t c : Z) (o : list Z) (m : Z) : res (list Z) :=
  if t =? 3 then
    if c <? 8 then
      r ← nth_text icmp_reasons c;
      snprintf o 0 m (str "ICMP Unreachable: " ++ r)
    else Ok o
  else Ok o.

Definition icmp_text (t c : Z) : list Z :=
  if t =? 0 then str "Echo Reply"
  else if t =? 3 then
    if c =? 0 then str "Net Unreachable" else if c =? 1 then str "Host Unreachable"
    else if c =? 2 then str "Proto Unreachable" else if c =? 3 then str "Port Unreachable"
    else if c =? 4 then str "Frag Required (DF set)" else str "Dest Unreachable"
  else if t =? 8 then str "Echo Request"
  else if t =? 11 then str "Time Exceeded (TTL)"
  else str "ICMP Info".

Definition dissect_icmp_details (t c : Z) (o : list Z) (m : Z) : res (list Z) :=
  snprintf o 0 m (icmp_text t c).

Definition icmp6_text (t : Z) : list Z :=
  if t =? 128 then str "Echo Request" else if t =? 129 then str "Echo Reply"
  else if t =? 1 then str "Dest Unreachable" else if t =? 2 then str "Packet Too Big"
  else if t =? 3 then str "Time Exceeded" else if t =? 133 then str "Router Solicit"
  else if t =? 134 then str "Router Advert" else if t =? 135 then str "Neighbor Solicit"
  else if t =? 136 then str "Neighbor Advert" else str "ICMPv6 Info".

Definition dissect_icmp6_details (t c : Z) (o : list Z) (m : Z) : res (list Z) :=
  snprintf o 0 m (icmp6_text t).

Definition dissect_nd (p : list Z) (l : Z) (o : list Z) (m : Z) : res (list Z) :=
  if l <? 8 then Ok o else
  t ← rd p 0;
  if t =? 135 then snprintf o 0 m (str "ND Neighbor Solicitation")
  else if t =? 136 then snprintf o 0 m (str "ND Neighbor Advertisement")
  else if t =? 133 then snprintf o 0 m (str "ND Router Solicitation")
  else if t =? 134 then snprintf o 0 m (str "ND Router Advertisement")
  else Ok o.

(** ** OSPF, STP and GRE *)

Definition ospf_types : list (list Z) :=
  [str "?"; str "Hello"; str "DbDesc"; str "LSReq"; str "LSUpdate"; str "LSAck"].

Definition dissect_ospf (p : list Z) (l : Z) (o : list Z) (m : Z) : res (list Z) :=
  if l <? 24 then Ok o else
  type ← rd p 1;
  if (0 <? type) && (type <? 6) then
    v ← rd p 0;
    name ← nth_text ospf_types type;
    snprintf o 0 m (str "OSPFv" ++ fmt_u v ++ str " " ++ name)
  else Ok o.

Definition dissect_stp (p : list Z) (l : Z) (o : list Z) (m : Z) : res (list Z) :=
  if l <? 35 then Ok o else
  type ← rd p 4;
  snprintf o 0 m (str "STP " ++ (if type =? 0x00 then str "Config"
                                 else if type =? 0x80 then str "TCN" else str "BPDU")).

Definition dissect_gre (p : list Z) (l : Z) (o : list Z) (m : Z) : res (list Z) :=
  if l <? 4 then Ok o else
  v ← load16 p 2;
  snprintf o 0 m (str "GRE Tunnel (Inner: 0x" ++ fmt_hex 4 (ntohs v) ++ str ")").

(** ** Memory search *)

(** [needle] occurs in [h] at [k]. *)
Definition occurs_at (needle h : list Z) (k : Z) : Prop :=
  0 ≤ k ∧ take (length needle) (drop (Z.to_nat k) h) = needle.

Lemma memcmp_eq_spec F p off s :
  guard F (0 ≤ off ∧ off + zlen s ≤ zlen p) → 0 ≤ off →
  wp F (memcmp_eq p off s) (λ b, b = true ↔ occurs_at s p off).
Proof.
  intros Hg Ho. unfold memcmp_eq. wp_step. apply wp_rd_bytes_g.
  { eapply guard_mono; [exact Hg|lia]. }
  intros b Hb. apply wp_ret. revert Hb. unfold rd_bytes.
  repeat case_test; intros [= <-]. rewrite Nat2Z.id, bool_decide_eq_true.
  unfold occurs_at. split; [by split|by intros [_ ?]].
Qed.

Lemma memmem_loop_spec F h needle hlen n i :
  guard F (hlen ≤ zlen h) → 0 ≤ i → i + Z.of_nat n + zlen needle ≤ hlen + 1 →
  wp F (memmem_loop n h needle i) (λ r,
    match r with
    | Some k => i ≤ k ∧ k + zlen needle ≤ hlen ∧ occurs_at needle h k ∧
                ∀ j, i ≤ j < k → ¬ occurs_at needle h j
    | None => ∀ j, i ≤ j < i + Z.of_nat n → ¬ occurs_at needle h j
    end).
Proof.
  intros Hg. revert i. induction n as [|n IH]; intros i Hi Hn; cbn [memmem_loop].
  { apply wp_ret. lia. }
  wp_step. eapply wp_mono; [apply memcmp_eq_spec; [|done]|].
  { eapply guard_mono; [exact Hg|lia]. }
  intros [|] Hb.
  { apply wp_ret. repeat split; try lia; by apply Hb. }
  assert (¬ occurs_at needle h i) as Hno by (intros Ho%Hb; done).
  eapply wp_mono; [apply IH; lia|]. intros [k|] Hk.
  - destruct Hk as (?&?&?&Hk). split; [lia|]. split; [done|]. split; [done|]. intros j Hj.
    destruct (decide (j = i)) as [->|]; [done|apply Hk; lia].
  - intros j Hj. destruct (decide (j = i)) as [->|]; [done|apply Hk; lia].
Qed.

Lemma memmem_spec F h hlen needle :
  guard F (hlen ≤ zlen h) →
  wp F (memmem h hlen needle) (λ r,
    match r with
    | Some k => k + zlen needle ≤ Z.max 0 hlen ∧ occurs_at needle h k ∧
                ∀ j, 0 ≤ j < k → ¬ occurs_at needle h j
    | None => ∀ j, j + zlen needle ≤ hlen → ¬ occurs_at needle h j
    end).
Proof.
  intros Hg. unfold memmem. case_test.
  { apply wp_ret. destruct needle; [|simpl in *; lia]. simpl.
    split; [lia|]. split; [done|lia]. }
  case_test.
  { apply wp_ret. intros j Hj [? _]. lia. }
  eapply wp_mono; [apply (memmem_loop_spec F h needle hlen); [done|lia|lia]|].
  intros [k|].
  - intros (?&?&?&?). split; [lia|]. split; [done|]. intros. auto with lia.
  - intros Hk j Hj. destruct (decide (0 ≤ j)); [apply Hk; lia|]. intros [? _]. lia.
Qed.

(** The first occurrence, and a search that finds none. *)
Definition first_at (needle h : list Z) (k : Z) : Prop :=
  occurs_at needle h k ∧ ∀ j, 0 ≤ j < k → ¬ occurs_at needle h j.

Lemma occurs_at_inside needle h k : needle ≠ [] → occurs_at needle h k → 0 ≤ k ∧ k + zlen needle ≤ zlen h.
Proof.
  intros Hn [Hk E]. apply (f_equal length) in E. rewrite length_take, length_drop in E.
  destruct needle; [done|]. cbn [length] in *. lia.
Qed.

Lemma memcmp_eq_inside p off s :
  0 ≤ off → off + zlen s ≤ zlen p →
  memcmp_eq p off s = Ok (bool_decide (take (length s) (drop (Z.to_nat off) p) = s)).
Proof.
  intros Ho Hl. unfold memcmp_eq, rd_bytes. case_test; [lia|]. case_test; [|lia].
  cbn [mbind res_bind mret res_ret]. by rewrite Nat2Z.id.
Qed.

Lemma memmem_loop_first n h needle i k :
  0 ≤ i ≤ k → k < i + Z.of_nat n → k + zlen needle ≤ zlen h → occurs_at needle h k →
  (∀ j, i ≤ j < k → ¬ occurs_at needle h j) → memmem_loop n h needle i = Ok (Some k).
Proof.
  revert i. induction n as [|n IH]; intros i Hi Hn Hk Hoc Hno; [lia|]. cbn [memmem_loop].
  rewrite memcmp_eq_inside by lia. cbn [mbind res_bind]. case_bool_decide as E.
  - destruct (decide (i = k)) as [->|Hne]; [done|]. exfalso. apply (Hno i); [lia|]. by split; [lia|].
  - assert (i ≠ k) by (intros ->; by destruct Hoc).
    apply IH; try lia; [done|]. intros j Hj. apply Hno. lia.
Qed.

Lemma memmem_first h hlen needle k :
  needle ≠ [] → first_at needle h k → k + zlen needle ≤ hlen → memmem h hlen needle = Ok (Some k).
Proof.
  intros Hne [Hoc Hno] Hk. pose proof (occurs_at_inside needle h k Hne Hoc). unfold memmem.
  case_test; [destruct needle; [done|simpl in *; lia]|]. case_test; [lia|].
  apply memmem_loop_first; (done || lia).
Qed.

(** A search beyond the object reads beyond the object. *)
Lemma memmem_loop_beyond n h needle i :
  0 ≤ i → zlen h < i + Z.of_nat n + zlen needle - 1 →
  (∀ j, i ≤ j → ¬ occurs_at needle h j) → (0 < n)%nat → memmem_loop n h needle i = Fault OutOfBounds.
Proof.
  revert i. induction n as [|n IH]; intros i Hi Hn Hno Hpos; [lia|]. cbn [memmem_loop].
  destruct (decide (i + zlen needle ≤ zlen h)) as [Hin|Hout].
  - rewrite memcmp_eq_inside by lia. cbn [mbind res_bind]. case_bool_decide as E.
    { exfalso. apply (Hno i); [lia|]. by split. }
    apply IH; try lia. intros j Hj. apply Hno. lia.
  - unfold memcmp_eq, rd_bytes. case_test; [lia|]. case_test; [lia|]. done.
Qed.

Lemma memmem_beyond h hlen needle :
  needle ≠ [] → zlen needle ≤ hlen → zlen h < hlen → (∀ j, ¬ occurs_at needle h j) →
  memmem h hlen needle = Fault OutOfBounds.
Proof.
  intros Hne Hl Hh Hno. assert (0 < zlen needle) by (destruct needle; [done|simpl; lia]). unfold memmem.
  case_test; [lia|]. case_test; [lia|]. apply memmem_loop_beyond; (lia || intros; apply Hno).
Qed.

(** ** Output buffers *)

Lemma wp_nth_text F ts t (Q : list Z → Prop) :
  0 ≤ t < zlen ts → Forall bytes ts → (∀ s, bytes s → Q s) → wp F (nth_text ts t) Q.
Proof.
  intros Ht Hb HQ. unfold nth_text.
  destruct (lookup_lt_is_Some_2 ts (Z.to_nat t)) as [s Hs]; [lia|].
  rewrite Hs. apply HQ. by eapply Forall_lookup_1.
Qed.

Ltac texts := repeat (constructor; [by auto with pacsni|]); constructor.

(** [snprintf] into a buffer whose size is the second argument. *)
Lemma wp_text F out m s :
  bytes out → bytes s → 0 < m ≤ zlen out → wp F (snprintf out 0 m s) (text_ok out).
Proof. intros. by apply wp_snprintf_text. Qed.

Lemma copy_line_spec F p l m fuel c o :
  bytes p → guard F (Z.min l (m - 1) ≤ zlen p) → bytes o → 1 ≤ m ≤ zlen o → 0 ≤ c ≤ m - 1 →
  (Z.to_nat (l - c) < fuel)%nat →
  wp F (copy_line fuel p l m c o) (λ '(c', o'),
    0 ≤ c' ≤ m - 1 ∧ length o' = length o ∧ bytes o').
Proof.
  intros Hp Hg. revert c o.
  induction fuel as [|fuel IH]; intros c o Ho Hm Hc Hf; [lia|].
  cbn [copy_line]. g_steps; try (repeat split; (done || lia)).
  eapply wp_mono; [apply IH; [eauto with pacsni|lia..]|].
  intros [c' o'] (?&?&?). repeat split; (done || lia).
Qed.

(** The text written so far, and the room after it. *)
Lemma wr_nul_strlen o c r : wr o c 0 = Ok r → ∃ n, strlen r = Ok n ∧ 0 ≤ n ≤ c ∧ 0 ∈ r.
Proof.
  intros Hr. pose proof (elem_of_wr _ _ _ _ Hr) as Hin.
  destruct (find_nul_is_Some r Hin) as [n Hn].
  exists (Z.of_nat n). unfold strlen. rewrite Hn. split; [done|]. split; [|done].
  split; [lia|]. apply find_nul_Some in Hn as [_ Hnot].
  destruct (decide (Z.of_nat n ≤ c)) as [|Hgt]; [done|]. exfalso. apply Hnot.
  revert Hr. unfold wr, blit. case_test; intros [= <-].
  rewrite take_app_ge by (rewrite length_take; lia).
  apply elem_of_app. right. rewrite length_take.
  replace (n - _)%nat with (S (n - S (Z.to_nat c))) by lia. left.
Qed.

Lemma wp_append F o m n s :
  bytes o → bytes s → 0 ≤ n < m → m ≤ zlen o → m < 2 ^ 64 →
  wp F (snprintf o n (u64 (m - n)) s) (text_ok o).
Proof.
  intros Ho Hs Hn Hm Hsz. rewrite u64_small by (unfold is_u; lia).
  apply wp_snprintf; [lia|lia|lia|]. intros r Hr ??.
  repeat split; [done| |done]. by eapply snprintf_bytes.
Qed.

Lemma wp_cstring_prec_g F n p (Q : list Z → Prop) :
  bytes p → guard F (Z.of_nat n ≤ zlen p) → (∀ s, bytes s → Q s) →
  wp F (cstring_prec n p) Q.
Proof.
  intros Hp Hg HQ. eapply wp_guard; [exact Hg| |].
  - intros. unfold cstring_prec. destruct (find_nul _); [done|].
    case_decide; [done|lia].
  - intros s Hs. by eapply HQ, bytes_cstring_prec.
Qed.

Ltac text_step := apply wp_text; [done | auto 10 with pacsni | lia].

(** *** What an HTTP payload needs

    [p] holds the bytes of the payload that are in the buffer, [l] is its length
    on the wire, which may be larger. *)

(** The payload starts with a method. *)
Definition is_request (p : list Z) (l : Z) : Prop :=
  10 ≤ l ∧ ∃ me, me ∈ http_methods ∧ zlen me < l ∧ me `prefix_of` p.

(** The 32 bytes behind a Host header at [k] are in the buffer, or the value ends
    at a zero byte. *)
Definition value_room (p : list Z) (k : Z) : Prop :=
  k + 40 ≤ zlen p ∨ 0 ∈ ptr_add p (k + 8).

(** The search for the Host header and the copy of its value end in the buffer. *)
Definition host_ends (p : list Z) (l : Z) : Prop :=
  (∃ k, first_at host_header p k ∧ k + 8 ≤ l ∧ value_room p k) ∨
  (l ≤ zlen p ∧ ∀ k, occurs_at host_header p k → l < k + 8).

Definition http_room (p : list Z) (l : Z) : Prop :=
  Z.min l 127 ≤ zlen p ∧ (is_request p l → host_ends p l).

(** ** Safety of the dissectors that write a buffer *)

Section buffers.
Context (F : fault → Prop) (p : list Z) (l : Z) (o : list Z) (m : Z).
Context (Hp : bytes p) (Ho : bytes o) (Hm : 1 ≤ m ≤ zlen o) (Hsz : m < 2 ^ 64).

Lemma wp_cstring_value k (Q : list Z → Prop) :
  0 ≤ k → k + 8 ≤ zlen p → guard F (value_room p k) → (∀ s, bytes s → Q s) →
  wp F (cstring_prec 32 (ptr_add p (k + 8))) Q.
Proof.
  intros Hk Hk8 Hg HQ. eapply wp_guard; [exact Hg| |].
  - intros Hr. unfold cstring_prec. destruct (find_nul _) eqn:E; [done|]. case_decide as Hd; [done|].
    pose proof (length_ptr_add p (k + 8) ltac:(lia)) as Hl. destruct Hr as [Hr|Hr]; [lia|].
    rewrite take_ge in E by lia. destruct (find_nul_is_Some _ Hr) as [? E']. congruence.
  - intros s Hs. eapply HQ, bytes_cstring_prec; [exact Hs|]. by apply bytes_ptr_add.
Qed.

Lemma http_line_spec :
  guard F (Z.min l (m - 1) ≤ zlen p ∧ host_ends p l) → 0 ≤ l → wp F (http_line p l o m) (text_ok o).
Proof.
  intros Hg Hl. unfold http_line.
  assert (guard F (Z.min l (m - 1) ≤ zlen p)) by (eapply guard_mono; [exact Hg|by intros []]).
  wp_step. eapply wp_mono; [by apply copy_line_spec; (done || lia)|].
  intros [c o1] (?&?&?). wp_step. apply wp_wr; [lia|]. intros o2 Ho2 ?.
  assert (bytes o2) by eauto with pacsni.
  assert (text_ok o o2) by (eapply text_ok_wr_nul; [done|congruence|done]).
  wp_step. apply (wp_mono _ _ (λ hp, match hp with None => True | Some k =>
    occurs_at host_header p k ∧ guard F (value_room p k) end)).
  { destruct Hg as [HF|[_ [(k & Hf & Hkl & Hr)|[Hlp Hno]]]].
    - eapply wp_mono; [by apply (memmem_spec F p l host_header); left|].
      intros [k|]; [|done]. intros (_ & ? & _). split; [done|by left].
    - rewrite (memmem_first p l host_header k) by done. split; [apply Hf|by right].
    - eapply wp_mono; [by apply (memmem_spec F p l host_header); right|].
      intros [k|]; [|done]. change (zlen host_header) with 8. intros (Hk & Hoc & _).
      apply Hno in Hoc as ?. lia. }
  intros [k|]; [|by intros _; apply wp_ret]. intros [Hoc Hr].
  pose proof (occurs_at_inside host_header p k ltac:(done) Hoc) as [Hk0 Hk].
  change (zlen host_header) with 8 in Hk.
  destruct (wr_nul_strlen _ _ _ Ho2) as (n & -> & ? & ?). wp_step. apply wp_ret.
  wp_step. apply wp_cstring_value; [done..|].
  intros host Hhost. eapply wp_mono; [apply wp_append; try done; try lia|].
  - auto with pacsni.
  - intros r Hr'. by eapply text_ok_trans.
Qed.

Lemma http_methods_loop_spec ms :
  ms ⊆ http_methods → 13 ≤ m → 10 ≤ l →
  guard F (Z.min l (m - 1) ≤ zlen p ∧ (is_request p l → host_ends p l)) →
  wp F (http_methods_loop ms p l o m) (text_ok o).
Proof.
  intros Hms Hm' Hl Hg. induction ms as [|me ms IH]; cbn [http_methods_loop].
  { by apply wp_ret, text_ok_refl. }
  assert (zlen me ≤ 8) as Hme.
  { assert (me ∈ http_methods) as Hin by (apply Hms; by left).
    assert (Forall (λ me, zlen me ≤ 8) http_methods) as Hall by by_decide.
    by apply (proj1 (Forall_forall _ _) Hall). }
  assert (wp F (http_methods_loop ms p l o m) (text_ok o)) as Hnext.
  { apply IH. intros x Hx. apply Hms. by right. }
  case_test; [|done]. wp_step. eapply wp_mono; [apply wp_with_eq, memcmp_eq_spec; [|done]|].
  { eapply guard_mono; [exact Hg|]. intros [? _]. lia. }
  intros [|] [Heq Hb]; [|done]. apply http_line_spec; [|lia].
  eapply guard_mono; [exact Hg|]. intros [Hmin Hreq]. split; [done|]. apply Hreq.
  split; [done|]. exists me. split; [apply Hms; by left|]. split; [lia|].
  destruct (proj1 Hb eq_refl) as [_ <-]. change (drop (Z.to_nat 0) p) with p. eexists. symmetry. apply take_drop.
Qed.

Lemma dissect_http_spec :
  m = 128 → guard F (http_room p l) → wp F (dissect_http p l o m) (text_ok o).
Proof.
  intros Em Hg. unfold dissect_http. case_test; [by apply wp_ret, text_ok_refl|].
  apply http_methods_loop_spec; [done|lia|lia|]. eapply guard_mono; [exact Hg|].
  intros [? ?]. split; [lia|done].
Qed.

Lemma dhcp_loop_spec fuel olen i :
  guard F (olen ≤ zlen p) → 0 ≤ i → (Z.to_nat (olen - i) < fuel)%nat →
  wp F (dhcp_loop fuel p olen i o m) (text_ok o).
Proof.
  intros Hg. revert i. induction fuel as [|fuel IH]; intros i Hi Hf; [lia|].
  cbn [dhcp_loop]. g_steps; try (by apply text_ok_refl); try (apply IH; lia).
  apply wp_nth_text; [simpl; lia|unfold dhcp_types; texts|].
  intros s Hs. text_step.
Qed.

Lemma dissect_ospf_spec :
  guard F (l ≤ zlen p) → wp F (dissect_ospf p l o m) (text_ok o).
Proof.
  intros Hg. unfold dissect_ospf. g_steps; auto with pacsni.
  apply wp_nth_text; [simpl; lia|unfold ospf_types; texts|].
  intros s Hs. text_step.
Qed.

Lemma dissect_stp_spec :
  guard F (l ≤ zlen p) → wp F (dissect_stp p l o m) (text_ok o).
Proof.
  intros Hg. unfold dissect_stp. g_steps; auto with pacsni.
  apply wp_text; [done| |lia]. apply bytes_app. split; [auto with pacsni|].
  repeat case_test; auto with pacsni.
Qed.

Lemma dissect_gre_spec :
  guard F (l ≤ zlen p) → wp F (dissect_gre p l o m) (text_ok o).
Proof.
  intros Hg. unfold dissect_gre. g_steps; auto with pacsni.
  text_step.
Qed.

Lemma dissect_nd_spec : guard F (l ≤ zlen p) → wp F (dissect_nd p l o m) (text_ok o).
Proof.
  intros Hg. unfold dissect_nd. g_steps; auto with pacsni; text_step.
Qed.

Lemma icmp_details_spec t c : wp F (dissect_icmp_details t c o m) (text_ok o).
Proof.
  apply wp_text; [done| |lia]. unfold icmp_text. repeat case_test; auto with pacsni.
Qed.

Lemma icmp6_details_spec t c : wp F (dissect_icmp6_details t c o m) (text_ok o).
Proof.
  apply wp_text; [done| |lia]. unfold icmp6_text. repeat case_test; auto with pacsni.
Qed.

Lemma icmp_unreachable_spec t c :
  0 ≤ c → wp F (check_icmp_unreachable t c o m) (text_ok o).
Proof.
  intros Hc. unfold check_icmp_unreachable. g_steps; auto with pacsni.
  apply wp_nth_text; [simpl; lia|unfold icmp_reasons; texts|].
  intros s Hs. text_step.
Qed.

Lemma starts_with_spec k s (Q : bool → Prop) :
  guard F (Z.min l (k + 1) ≤ zlen p) → zlen s ≤ k → (∀ b, Q b) → wp F (starts_with p l k s) Q.
Proof. intros Hg Hs HQ. unfold starts_with. g_steps; auto. Qed.

Lemma or_else_spec a b (Q : bool → Prop) :
  wp F a (λ _, True) → wp F b (λ _, True) → (∀ x, Q x) → wp F (or_else a b) Q.
Proof.
  intros Ha Hb HQ. unfold or_else. wp_step. eapply wp_mono; [exact Ha|].
  intros [|] _; [by apply wp_ret|]. eapply wp_mono; [exact Hb|]. auto.
Qed.

Lemma dissect_app_common_spec :
  guard F (Z.min l (Z.max 13 (m - 1)) ≤ zlen p) → wp F (dissect_app_common p l o m) (text_ok o).
Proof.
  intros Hg. unfold dissect_app_common. case_test; [by apply wp_ret, text_ok_refl|].
  assert (∀ k, k ≤ 12 → guard F (Z.min l (k + 1) ≤ zlen p)) as Hk.
  { intros k Hk. eapply guard_mono; [exact Hg|lia]. }
  wp_step. apply starts_with_spec; [by apply Hk|simpl; lia|]. intros [|].
  { wp_step. eapply wp_mono; [apply copy_line_spec; try (done || lia)|].
  { eapply guard_mono; [exact Hg|lia]. }
  intros [c o1] (?&?&?). apply wp_wr; [lia|]. intros o2 Ho2 ?.
  eapply text_ok_wr_nul; [done|congruence|done]. }
  do 2 (wp_step; apply or_else_spec;
  [ by apply starts_with_spec; [apply Hk|..]
  | by apply or_else_spec; [apply starts_with_spec; [apply Hk|..]..|]
  | intros [|]; [text_step|] ]).
  g_steps; auto with pacsni; text_step.
Qed.
End buffers.

Lemma dissect_dhcp_spec F p l o m :
  bytes p → bytes o → 1 ≤ m ≤ zlen o → guard F (l ≤ zlen p) →
  wp F (dissect_dhcp p l o m) (text_ok o).
Proof.
  intros Hp Ho Hm Hg. unfold dissect_dhcp. g_steps; auto with pacsni.
  apply dhcp_loop_spec; [auto with pacsni|done|done| |lia|lia].
  eapply guard_mono; [exact Hg|]. intros. rewrite length_ptr_add; lia.
Qed.

(** ** Typing of the dissectors that write the record *)

Lemma wf_set_text_app i a :
  wf_info i → text_ok (app_layer_info i) a → wf_info (set_app_layer_info a i).
Proof. intros Hi Ha. apply wf_set_app_layer_info; [|done]. eauto using is_array_text with pacsni. Qed.

Lemma wf_set_text_extra i a :
  wf_info i → text_ok (extra_info i) a → wf_info (set_extra_info a i).
Proof. intros Hi Ha. apply wf_set_extra_info; [|done]. eauto using is_array_text with pacsni. Qed.

Lemma info_app_bounds i :
  wf_info i → bytes (app_layer_info i) ∧ zlen (app_layer_info i) = 128.
Proof. intros Hi. destruct (wf_app_layer_info _ Hi) as [-> ?]. done. Qed.

Lemma info_extra_bounds i :
  wf_info i → bytes (extra_info i) ∧ zlen (extra_info i) = 128.
Proof. intros Hi. destruct (wf_extra_info _ Hi) as [-> ?]. done. Qed.

Section records.
Context (F : fault → Prop) (p : list Z) (l : Z) (i : PacketInfo).
Context (Hp : bytes p) (Hi : wf_info i).

Lemma wp_app_text j s :
  wf_info j → core j = core i → bytes s →
  wp F (a ← snprintf (app_layer_info j) 0 128 s; Ok (set_app_layer_info a j))
  (λ i', info_ok i i' ∧ 0 ∈ app_layer_info i').
Proof.
  intros Hj Hc Hs. destruct (info_app_bounds j Hj). wp_step.
  apply wp_snprintf_text; [done|done|lia|]. intros r Hr Hnul.
  apply wp_ret. split; [|done]. split; [by apply wf_set_text_app|].
  transitivity (core j); done.
Qed.

Lemma wp_extra_text j s :
  wf_info j → core j = core i → bytes s →
  wp F (a ← snprintf (extra_info j) 0 128 s; Ok (set_extra_info a j)) (info_ok i).
Proof.
  intros Hj Hc Hs. destruct (info_extra_bounds j Hj). wp_step.
  apply wp_snprintf_text; [done|done|lia|]. intros r Hr _.
  apply wp_ret. split; [by apply wf_set_text_extra|]. transitivity (core j); done.
Qed.

Lemma dissect_ntp_spec :
  guard F (l ≤ zlen p) →
  wp F (dissect_ntp p l i) (λ i', info_ok i i' ∧ (0 ∈ app_layer_info i → 0 ∈ app_layer_info i')).
Proof.
  intros Hg. unfold dissect_ntp. g_steps; [by auto with pacsni|].
  apply wp_nth_text; [by apply Z.mod_pos_bound|unfold ntp_modes; texts|].
  intros mode Hmode. eapply wp_mono.
  - apply (wp_app_text (set_ntp_stratum b0 (set_ntp_mode (Z.land b 7) i)));
      [|done|auto 10 with pacsni].
    apply wf_set_ntp_stratum, wf_set_ntp_mode; auto with pacsni.
  - intros i' [? ?]. done.
Qed.

Lemma dissect_ntp_core_spec :
  guard F (l ≤ zlen p ∧ 0 ∈ app_layer_info i) →
  wp F (dissect_ntp_core p l i) (info_ok i).
Proof.
  intros Hg. unfold dissect_ntp_core. g_steps; [by auto with pacsni|].
  apply wp_nth_text; [by apply Z.mod_pos_bound|unfold ntp_modes; texts|].
  intros mode Hmode. destruct (info_app_bounds i Hi) as [? Hlen]. wp_step.
  eapply (wp_guard _ _ _ _ Hg).
  - intros [_ ?]. by apply wp_strlen.
  - intros n Hn%strlen_range.
    rewrite Hlen in Hn. wp_step.
    eapply wp_mono; [apply wp_append; first [done|lia|auto 10 with pacsni]|].
    intros r Htext. apply wp_ret. split; [by apply wf_set_text_app|done].
Qed.

Lemma dissect_igmp_spec : guard F (l ≤ zlen p) → wp F (dissect_igmp p l i) (info_ok i).
Proof.
  intros Hg. unfold dissect_igmp. g_step; [by apply wp_ret; auto with pacsni|].
  destruct (wf_igmp_group _ Hi) as [Hgl Hgb]. g_step. g_step.
  cbv zeta. wp_step. apply wp_memcpy_g.
  { eapply guard_mono; [exact Hg|]. simpl. lia. }
  intros g Hgr Hl. apply wp_extra_text.
  - apply wf_set_igmp_group; [|apply wf_set_igmp_type; auto with pacsni].
    simpl in *. eauto with pacsni.
  - done.
  - repeat (apply bytes_app; split); auto with pacsni.
    + unfold igmp_name. repeat case_test; auto with pacsni.
    + unfold dotted_quad. repeat case_match; auto 10 with pacsni.
Qed.

Lemma dissect_vxlan_spec : guard F (Z.min l 8 ≤ zlen p) → wp F (dissect_vxlan p l i) (info_ok i).
Proof.
  intros Hg. unfold dissect_vxlan. g_step; [by apply wp_ret; auto with pacsni|].
  g_step. g_step. g_step. g_step. g_step. g_step.
  assert (is_u 32 (Z.lor (Z.lor (Z.shiftl b 16) (Z.shiftl b0 8)) b1)) as Hv.
  { rewrite !Z.shiftl_mul_pow2 by lia.
  repeat apply is_u_lor; unfold is_u; lia. }
  eapply wp_mono; [apply wp_app_text; [|done|auto 10 with pacsni]|by intros i' [? _]].
  apply wf_set_vxlan_vni; auto with pacsni.
Qed.
End records.
