(* ===== verification/TextRoundtrips.v ===== *)
(** * What the text dissectors write

    Encoders of the messages the dissectors of [TextDissectors] read, and
    the theorems that relate the text they write to what was encoded. *)

From Stdlib Require Import String.
From S2P Require Import Prelude CMemory PacketTypes TextDissectors.

(** ** Encoders *)

(** A DHCP option: [None] is a pad byte. *)
Definition encode_dhcp_option (e : option (Z * list Z)) : list Z :=
  match e with None => [0] | Some (k, body) => k :: zlen body :: body end.
Definition encode_dhcp_options (es : list (option (Z * list Z))) : list Z :=
  concat (encode_dhcp_option <$> es).
Definition valid_dhcp_option (e : option (Z * list Z)) : Prop :=
  match e with None => True | Some (k, _) => k ∉ [0; 53; 255] end.

Definition dhcp_magic : list Z := [0x63; 0x82; 0x53; 0x63].

(** An LLDP information element: seven bits of type, nine of length. *)
Definition encode_tlv (t : Z * list Z) : list Z :=
  be16 (t.1 * 2 ^ 9 + zlen t.2) ++ t.2.
Definition encode_tlvs (ts : list (Z * list Z)) : list Z := concat (encode_tlv <$> ts).
Definition valid_tlv (t : Z * list Z) : Prop := 3 ≤ t.1 < 2 ^ 7 ∧ zlen t.2 < 2 ^ 9.

(** A text put together from literals and pieces without a zero byte. *)
Ltac no_nul :=
  rewrite !elem_of_app; let H := fresh in intros H;
  repeat match goal with E : _ ∨ _ |- _ => destruct E as [E|E] end;
  try done; match goal with E : 0 ∈ str _ |- _ => revert E; by_decide end.

(** ** DHCP *)

Lemma dhcp_types_text t name :
  dhcp_types !! Z.to_nat t = Some name → 0 ∉ str "DHCP " ++ name.
Proof.
  intros Hn. assert (Forall (λ n, 0 ∉ str "DHCP " ++ n) dhcp_types) as Hall by by_decide.
  by eapply Forall_lookup_1 in Hall.
Qed.

Lemma dhcp_loop_message es pre t rest fuel olen o m name :
  Forall valid_dhcp_option es → 0 < t < 9 → dhcp_types !! Z.to_nat t = Some name →
  zlen pre + zlen (encode_dhcp_options es) + 3 ≤ olen → (length es < fuel)%nat →
  dhcp_loop fuel (pre ++ encode_dhcp_options es ++ [53; 1; t] ++ rest) olen (zlen pre) o m
  = snprintf o 0 m (str "DHCP " ++ name).
Proof.
  intros Hes Ht Hname. revert pre fuel.
  induction Hes as [|e es He Hes IH]; intros pre [|fuel] Hl Hf; simpl in Hf; try lia;
    cbn [dhcp_loop].
  { simpl in *. case_test; [|lia]. rewrite rd_app_0, rd_app_r by lia.
    cbn [app]. rewrite rd_cons_0, rd_cons_1. cbn [mbind res_bind].
    simpl. case_test; [lia|]. case_test; [lia|].
    replace (zlen pre + 1 + 1) with (zlen pre + 2) by lia. rewrite rd_app_r by lia.
    simpl. case_test; [|lia]. unfold nth_text. by rewrite Hname. }
  assert (∀ q, q = encode_dhcp_option e →
    dhcp_loop fuel (pre ++ (q ++ encode_dhcp_options es) ++ [53; 1; t] ++ rest) olen
      (zlen pre + zlen q) o m = snprintf o 0 m (str "DHCP " ++ name)) as Hnext.
  { intros q ->. change (encode_dhcp_options (e :: es))
      with (encode_dhcp_option e ++ encode_dhcp_options es) in Hl.
    rewrite length_app in Hl. rewrite <- (IH (pre ++ encode_dhcp_option e) fuel)
      by (rewrite ?length_app; lia).
    rewrite length_app, <- !(assoc_L (++)). f_equal. lia. }
  change (encode_dhcp_options (e :: es))
    with (encode_dhcp_option e ++ encode_dhcp_options es) in *.
  rewrite length_app in Hl.
  destruct e as [[k body]|]; cbn [encode_dhcp_option] in *.
  - simpl in Hl, He. do 3 (apply not_elem_of_cons in He as [? He]).
    specialize (Hnext _ eq_refl). rewrite <- Hnext.
    case_test; [|lia]. rewrite rd_app_0, rd_app_r by lia. cbn [app]. rewrite rd_cons_0, rd_cons_1. cbn [mbind res_bind].
    repeat (case_test; [exfalso; lia|]).
    f_equal. simpl. lia.
  - specialize (Hnext [0] eq_refl). change (zlen [0]) with 1 in *. rewrite <- Hnext.
    case_test; [|lia]. rewrite rd_app_0. cbn [app]. by rewrite rd_cons_0.
Qed.

Lemma length_encode_dhcp_options es : (length es ≤ length (encode_dhcp_options es))%nat.
Proof.
  induction es as [|e es IH]; [done|].
  change (encode_dhcp_options (e :: es))
    with (encode_dhcp_option e ++ encode_dhcp_options es).
  rewrite length_app. destruct e as [[k body]|]; simpl; lia.
Qed.

(** ** LLDP *)

Lemma tlv_fields ty len :
  0 ≤ len < 2 ^ 9 → Z.shiftr (ty * 2 ^ 9 + len) 9 = ty ∧ Z.land (ty * 2 ^ 9 + len) 0x01FF = len.
Proof.
  intros Hl. split.
  - rewrite Z.shiftr_div_pow2 by lia. rewrite Z.div_add_l by lia. rewrite Z.div_small; lia.
  - change 0x01FF with (Z.ones 9). rewrite Z.land_ones by lia.
    rewrite Z.add_comm, Z.mod_add by lia. by apply Z.mod_small.
Qed.

Lemma lldp_copy_exact dst pre sub id q len :
  len = zlen (sub :: id) → 32 ≤ zlen dst →
  let w := take 31 id in
  lldp_copy dst (pre ++ (sub :: id) ++ q) (zlen pre) len
  = Ok (w ++ 0 :: drop (S (length w)) dst).
Proof.
  intros -> Hd w. unfold lldp_copy.
  assert (Z.min (zlen (sub :: id) - 1) 31 = zlen w) as ->.
  { unfold w. rewrite length_take. cbn [length]. lia. }
  assert (pre ++ (sub :: id) ++ q = (pre ++ [sub]) ++ w ++ (drop 31 id ++ q)) as ->.
  { rewrite <- !(assoc_L (++)). unfold w. simpl. by rewrite (assoc_L (++)), take_drop. }
  apply copy_terminated; [rewrite length_app; simpl; lia|done|].
  unfold w. rewrite length_take. lia.
Qed.

(** One step of the loop over a type-length-value element. *)
Lemma lldp_loop_step fuel pre ty body q l i :
  is_u 7 ty → zlen body < 2 ^ 9 → zlen pre + 2 + zlen body ≤ l →
  lldp_loop (S fuel) (pre ++ encode_tlv (ty, body) ++ q) l (zlen pre) i
  = if ty =? 0 then Ok i else
    i' ← (if ty =? 1 then
            c ← lldp_copy (lldp_chassis i) (pre ++ encode_tlv (ty, body) ++ q)
                  (zlen pre + 2) (zlen body);
            Ok (set_lldp_chassis c i)
          else if ty =? 2 then
            c ← lldp_copy (lldp_port i) (pre ++ encode_tlv (ty, body) ++ q)
                  (zlen pre + 2) (zlen body);
            Ok (set_lldp_port c i)
          else Ok i);
    lldp_loop fuel (pre ++ encode_tlv (ty, body) ++ q) l
      (zlen pre + zlen (encode_tlv (ty, body))) i'.
Proof.
  intros Hty Hb Hl. cbn [lldp_loop]. case_test; [|lia].
  assert (load16 (pre ++ encode_tlv (ty, body) ++ q) (zlen pre)
          = Ok (ntohs (ty * 2 ^ 9 + zlen body))) as ->.
  { rewrite load16_app_0. unfold encode_tlv. simpl fst. simpl snd.
    rewrite <- (assoc_L (++)). apply load16_be16. }
  cbn [mbind res_bind]. rewrite ntohs_invol by (unfold is_u in *; lia).
  destruct (tlv_fields ty (zlen body)) as [-> ->]; [lia|].
  case_test; [lia|].
  assert (zlen (encode_tlv (ty, body)) = 2 + zlen body) as ->
    by (unfold encode_tlv; rewrite length_app, length_be16; simpl; lia).
  rewrite Z.add_assoc.
  destruct (Z.eqb_spec ty 1) as [->|]; [by destruct (lldp_copy _ _ _ _)|].
  destruct (Z.eqb_spec ty 2) as [->|]; [by destruct (lldp_copy _ _ _ _)|].
  by case_test.
Qed.

Lemma lldp_loop_others ts pre stop rest fuel l i :
  Forall valid_tlv ts → stop = [] ∨ stop = [0; 0] →
  l = zlen (pre ++ encode_tlvs ts ++ stop) → (length ts + 1 < fuel)%nat →
  lldp_loop fuel (pre ++ encode_tlvs ts ++ stop ++ rest) l (zlen pre) i = Ok i.
Proof.
  intros Hts Hstop. revert pre fuel.
  induction Hts as [|[ty body] ts [Hty Hb] Hts IH]; intros pre fuel -> Hf;
    destruct fuel as [|fuel]; simpl in Hf; try lia.
  { destruct Hstop as [->| ->].
    - cbn [lldp_loop]. rewrite !length_app. simpl. by case_test; [lia|].
    - change (encode_tlvs [] ++ [0; 0] ++ rest) with (encode_tlv (0, []) ++ rest).
      rewrite lldp_loop_step; [done|done|done|]. rewrite !length_app. simpl. lia. }
  change (encode_tlvs ((ty, body) :: ts)) with (encode_tlv (ty, body) ++ encode_tlvs ts).
  simpl in Hty, Hb. rewrite <- (assoc_L (++)).
  rewrite lldp_loop_step; [|unfold is_u; lia|done|].
  2:{ unfold encode_tlv. rewrite !length_app, length_be16. simpl. lia. }
  repeat (case_test; [exfalso; lia|]). cbn [mbind res_bind].
  rewrite (assoc_L (++) pre).
  replace (zlen pre + zlen (encode_tlv (ty, body))) with (zlen (pre ++ encode_tlv (ty, body)))
    by (rewrite length_app; lia).
  apply IH; [|lia]. change (encode_tlvs ((ty, body) :: ts)) with (encode_tlv (ty, body) ++ encode_tlvs ts).
  by rewrite <- !(assoc_L (++)).
Qed.

Lemma length_encode_tlvs ts : (2 * length ts ≤ length (encode_tlvs ts))%nat.
Proof.
  induction ts as [|t ts IH]; [done|].
  change (encode_tlvs (t :: ts)) with (encode_tlv t ++ encode_tlvs ts).
  unfold encode_tlv. rewrite !length_app, length_be16. simpl. lia.
Qed.

Lemma encode_tlv_length t : zlen (encode_tlv t) = 2 + zlen t.2.
Proof. unfold encode_tlv. rewrite length_app, length_be16. lia. Qed.

(** One identifier element, copied. *)
Lemma lldp_copy_tlv dst pre ty sub id q :
  32 ≤ zlen dst → let w := take 31 id in
  lldp_copy dst (pre ++ encode_tlv (ty, sub :: id) ++ q) (zlen pre + 2) (zlen (sub :: id))
  = Ok (w ++ 0 :: drop (S (length w)) dst).
Proof.
  intros Hd w. unfold encode_tlv. cbn [fst snd].
  set (hd := be16 _). rewrite <- (assoc_L (++) hd), (assoc_L (++) pre).
  replace (zlen pre + 2) with (zlen (pre ++ hd)) by (rewrite length_app; simpl; lia).
  by apply lldp_copy_exact.
Qed.

Lemma lldp_loop_message s1 chassis s2 port ts stop rest fuel i :
  zlen (s1 :: chassis) < 2 ^ 9 → zlen (s2 :: port) < 2 ^ 9 →
  Forall valid_tlv ts → stop = [] ∨ stop = [0; 0] →
  32 ≤ zlen (lldp_chassis i) → 32 ≤ zlen (lldp_port i) →
  let c := take 31 chassis in let q := take 31 port in
  let p := encode_tlv (1, s1 :: chassis) ++ encode_tlv (2, s2 :: port) ++
           encode_tlvs ts ++ stop in
  (length ts + 3 < fuel)%nat →
  lldp_loop fuel (p ++ rest) (zlen p) 0 i
  = Ok (set_lldp_port (q ++ 0 :: drop (S (length q)) (lldp_port i))
         (set_lldp_chassis (c ++ 0 :: drop (S (length c)) (lldp_chassis i)) i)).
Proof.
  intros Hc Hq Hts Hstop Hic Hip c q p Hf.
  destruct fuel as [|[|fuel]]; try lia.
  pose proof (encode_tlv_length (1, s1 :: chassis)) as L1.
  pose proof (encode_tlv_length (2, s2 :: port)) as L2. simpl snd in L1, L2.
  assert (zlen p = zlen (encode_tlv (1, s1 :: chassis)) + zlen (encode_tlv (2, s2 :: port))
    + zlen (encode_tlvs ts ++ stop)) as Hp.
  { unfold p. rewrite !length_app. lia. }
  set (t1 := encode_tlv (1, s1 :: chassis)) in *.
  set (t2 := encode_tlv (2, s2 :: port)) in *.
  unfold p at 1. rewrite <- !(assoc_L (++)).
  change (t1 ++ t2 ++ encode_tlvs ts ++ stop ++ rest)
    with ([] ++ t1 ++ t2 ++ encode_tlvs ts ++ stop ++ rest).
  change 0 with (zlen (@nil Z)) at 1. unfold t1.
  rewrite lldp_loop_step by (done || lia || (change (zlen (@nil Z)) with 0; lia)). cbn [Z.eqb Pos.eqb].
  rewrite lldp_copy_tlv by done. cbn [mbind res_bind]. fold t1.
  change ([] ++ ?x) with x. rewrite Z.add_0_l. unfold t2.
  rewrite lldp_loop_step by (done || lia). cbn [Z.eqb Pos.eqb].
  rewrite lldp_copy_tlv by done. cbn [mbind res_bind]. fold t2.
  rewrite (assoc_L (++) t1). replace (zlen t1 + zlen t2) with (zlen (t1 ++ t2))
    by (rewrite length_app; lia).
  apply lldp_loop_others; [done|done| |lia].
  unfold p. by rewrite <- !(assoc_L (++)).
Qed.

(** ** Lines of text *)

Definition no_crlf (w : list Z) : Prop := (13 ∉ w) ∧ (10 ∉ w).

(** [w] is the part of a line that is copied: all of it, up to a byte
    that ends the line, or as much as the lengths [l] and [m] allow. *)
Definition line_end (w q : list Z) (l m : Z) : Prop :=
  (zlen w = l) ∨ (zlen w = m - 1) ∨ head q = Some 13 ∨ head q = Some 10.

Lemma copy_line_exact w pre q t l m fuel :
  no_crlf w → line_end (pre ++ w) q l m → zlen (pre ++ w) ≤ l →
  zlen (pre ++ w) ≤ m - 1 → l ≤ zlen (pre ++ w ++ q) → zlen w ≤ zlen t →
  (length w < fuel)%nat →
  copy_line fuel (pre ++ w ++ q) l m (zlen pre) (pre ++ t)
  = Ok (zlen (pre ++ w), pre ++ w ++ drop (length w) t).
Proof.
  intros [H13 H10]. revert pre t fuel.
  induction w as [|b w IH]; intros pre t [|fuel] Hend Hl Hm Hlen Ht Hf;
    simpl in Hf; try lia; cbn [copy_line].
  - rewrite app_nil_r in *. cbn [app length drop]. case_test; [|done].
    destruct Hend as [?|[?|Hq]]; [lia|lia|].
    rewrite rd_app_0. destruct q as [|b q]; [by destruct Hq|].
    rewrite rd_cons_0. cbn [mbind res_bind].
    case_test; [|done]. destruct Hq as [[= ->]|[= ->]]; done.
  - apply not_elem_of_cons in H13 as [? ?], H10 as [? ?].
    rewrite length_app in Hl, Hm. cbn [length] in Hl, Hm, Ht.
    case_test; [|lia]. rewrite rd_app_0. cbn [app]. rewrite rd_cons_0.
    cbn [mbind res_bind]. case_test; [|lia].
    destruct t as [|c t]; [simpl in Ht; lia|]. rewrite wr_append. cbn [mbind res_bind].
    replace (zlen pre + 1) with (zlen (pre ++ [b])) by (rewrite length_app; simpl; lia).
    change (b :: w ++ q) with ([b] ++ w ++ q) in *. rewrite (assoc_L (++) pre [b]).
    assert (pre ++ b :: w = (pre ++ [b]) ++ w) as E' by (by rewrite <- (assoc_L (++))).
    rewrite E' in *. cbn [length] in Ht.
    rewrite IH; try done; try lia.
    + by rewrite <- !(assoc_L (++)).
    + rewrite !length_app. simpl. lia.
    + rewrite !length_app. simpl. lia.
    + by rewrite <- !(assoc_L (++)).
Qed.

(** The copy from the start of the line. *)
Lemma copy_line_start w q o l m fuel :
  no_crlf w → line_end w q l m → zlen w ≤ l → zlen w < m ≤ zlen o →
  l ≤ zlen (w ++ q) → (length w < fuel)%nat →
  copy_line fuel (w ++ q) l m 0 o = Ok (zlen w, w ++ drop (length w) o) ∧
  wr (w ++ drop (length w) o) (zlen w) 0 = Ok (w ++ 0 :: drop (S (length w)) o).
Proof.
  intros Hw He Hl Hm Hlen Hf. split.
  - change 0 with (zlen (@nil Z)). change (w ++ q) with ([] ++ w ++ q).
    change o with ([] ++ o) at 1. rewrite copy_line_exact; try done; simpl; lia.
  - destruct (drop (length w) o) as [|c t] eqn:Ed.
    { apply (f_equal length) in Ed. rewrite length_drop in Ed. simpl in Ed. lia. }
    rewrite wr_append, <- (assoc_L (++)). simpl. do 2 f_equal.
    by rewrite <- Nat.add_1_r, <- drop_drop, Ed.
Qed.

(** ** HTTP *)

Lemma memcmp_eq_prefix s q : memcmp_eq (s ++ q) 0 s = Ok true.
Proof.
  unfold memcmp_eq, rd_bytes. case_test; [lia|].
  rewrite length_app. case_test; [|lia]. cbn [mbind res_bind].
  change (drop (Z.to_nat 0) (s ++ q)) with (s ++ q).
  rewrite Nat2Z.id, take_app_length. by rewrite bool_decide_true.
Qed.

Lemma memcmp_eq_total p s : zlen s ≤ zlen p → ∃ b, memcmp_eq p 0 s = Ok b.
Proof.
  intros Hl. unfold memcmp_eq, rd_bytes. case_test; [lia|]. case_test; [|lia].
  by eexists.
Qed.

Lemma http_methods_loop_hit ms me p l o m :
  me ∈ ms → zlen me < l → l ≤ zlen p → memcmp_eq p 0 me = Ok true →
  http_methods_loop ms p l o m = http_line p l o m.
Proof.
  intros Hin Hme Hl Heq. induction ms as [|m' ms IH]; [by apply elem_of_nil in Hin|].
  cbn [http_methods_loop]. apply elem_of_cons in Hin as [<-|Hin].
  - case_test; [|lia]. by rewrite Heq.
  - case_test; [|auto].
    destruct (memcmp_eq_total p m') as [[|] ->]; [lia|done|]. by apply IH.
Qed.

(** The bytes of [h ++ s ++ t] at [h] are [s], and nothing of the shape of
    [s] starts inside [h] when [h] does not hold the first byte of [s]. *)
Lemma occurs_at_app h s t : occurs_at s (h ++ s ++ t) (zlen h).
Proof.
  split; [lia|]. by rewrite Nat2Z.id, drop_app_length, take_app_length.
Qed.

Lemma occurs_at_head c s h t j : c ∉ h → occurs_at (c :: s) (h ++ t) j → zlen h ≤ j.
Proof.
  intros Hc [Hj Ho]. destruct (decide (zlen h ≤ j)) as [|Hlt]; [done|]. exfalso.
  rewrite drop_app_le in Ho by lia. destruct (drop (Z.to_nat j) h) as [|b r] eqn:Ed.
  - apply (f_equal length) in Ed. rewrite length_drop in Ed. simpl in Ed. lia.
  - injection Ho as -> _. apply Hc, (list_elem_of_lookup_2 _ (Z.to_nat j)).
    rewrite <- (Nat.add_0_r (Z.to_nat j)), <- lookup_drop, Ed. done.
Qed.

(** The search finds the first header line after a request line. *)
Lemma memmem_after h c s t l :
  c ∉ h → zlen h + zlen (c :: s) ≤ l → l ≤ zlen (h ++ (c :: s) ++ t) →
  memmem (h ++ (c :: s) ++ t) l (c :: s) = Ok (Some (zlen h)).
Proof.
  intros Hc Hl Hlen.
  destruct (ensures_Ok _ _ (memmem_spec no_fault (h ++ (c :: s) ++ t) l (c :: s)
    ltac:(by right))) as ([k|] & -> & Hk).
  - destruct Hk as (_ & Ho & Hfirst). apply occurs_at_head in Ho; [|done].
    destruct (decide (k = zlen h)) as [->|]; [done|]. exfalso.
    apply (Hfirst (zlen h)); [lia|apply occurs_at_app].
  - exfalso. by apply (Hk (zlen h)), occurs_at_app.
Qed.

(** ** NTP *)

Lemma fmt_u_byte z : is_byte z → zlen (fmt_u z) ≤ 3 ∧ 0 ∉ fmt_u z.
Proof.
  intros Hz.
  assert (Forall (λ k, zlen (fmt_u (Z.of_nat k)) ≤ 3 ∧ 0 ∉ fmt_u (Z.of_nat k)) (seq 0 256))
    as Hall by by_decide.
  apply (Forall_lookup_1 _ _ (Z.to_nat z) (Z.to_nat z)) in Hall.
  - unfold is_u in Hz. cbv beta in Hall. by rewrite Z2Nat.id in Hall by lia.
  - unfold is_u in Hz. apply lookup_seq. lia.
Qed.

Lemma ntp_mode_text b :
  ∃ name, nth_text ntp_modes (Z.land b 0x07 mod 8) = Ok name ∧
    ntp_modes !! Z.to_nat (b mod 8) = Some name ∧ zlen name ≤ 5 ∧ 0 ∉ name.
Proof.
  change 0x07 with (Z.ones 3). rewrite Z.land_ones by lia. change (2 ^ 3) with 8.
  rewrite Z.mod_mod by lia.
  pose proof (Z.mod_pos_bound b 8 ltac:(lia)) as Hb.
  assert (Forall (λ n, zlen n ≤ 5 ∧ 0 ∉ n) ntp_modes) as Hall by by_decide.
  destruct (lookup_lt_is_Some_2 ntp_modes (Z.to_nat (b mod 8))) as [name Hn];
    [change (length ntp_modes) with 8%nat; lia|].
  exists name. unfold nth_text. rewrite Hn. eapply Forall_lookup_1 in Hall; [|done].
  by destruct Hall.
Qed.

(** ** Properties *)

(** The search of the HTTP dissector is a correct substring search: on a
    haystack inside its buffer it returns the first occurrence of the needle
    that ends inside the haystack, or the null pointer if there is none. *)
Theorem memmem_first_occurrence (h : list Z) (hlen : Z) (needle : list Z)
    (Hlen : 0 ≤ hlen ≤ zlen h) :
  ensures (memmem h hlen needle) (λ r,
    match r with
    | Some k => k + zlen needle ≤ hlen ∧ occurs_at needle h k ∧ ∀ j, 0 ≤ j < k → ¬ occurs_at needle h j
    | None => ∀ j, j + zlen needle ≤ hlen → ¬ occurs_at needle h j
    end).
Proof.
  eapply wp_mono; [apply memmem_spec; right; lia|]. intros [k|]; [|done].
  intros (Hk & Ho & Hf). split; [lia|done].
Qed.

Lemma memmem_first_occurrence_witness :
  ensures (memmem [1; 2; 2; 3; 9] 4 [2; 3]) (λ r,
    match r with
    | Some k => k + 2 ≤ 4 ∧ occurs_at [2; 3] [1; 2; 2; 3; 9] k ∧
                ∀ j, 0 ≤ j < k → ¬ occurs_at [2; 3] [1; 2; 2; 3; 9] j
    | None => ∀ j, j + 2 ≤ 4 → ¬ occurs_at [2; 3] [1; 2; 2; 3; 9] j
    end).
Proof. apply (memmem_first_occurrence [1; 2; 2; 3; 9] 4 [2; 3]). simpl. lia. Defined.


(** C31. On a BOOTP message with the DHCP magic cookie, whatever options (other
    than the message type and the end marker) and pads precede the message
    type, the dissector writes the name of the message type. *)
Theorem dissect_dhcp_roundtrip (bootp : list Z) (before : list (option (Z * list Z)))
    (t : Z) (name rest : list Z) (l : Z) (o : list Z) (m : Z)
    (Hbootp : length bootp = 236%nat) (Hbefore : Forall valid_dhcp_option before)
    (Ht : 0 < t < 9) (Hname : dhcp_types !! Z.to_nat t = Some name)
    (Hl : 240 + zlen (encode_dhcp_options before) + 3 ≤ l) (Hm : 0 < m ≤ zlen o) :
  ∃ r, dissect_dhcp
         (bootp ++ dhcp_magic ++ encode_dhcp_options before ++ [53; 1; t] ++ rest) l o m = Ok r ∧
    cstring r = Ok (take (Z.to_nat (m - 1)) (str "DHCP " ++ name)) ∧ length r = length o.
Proof.
  set (msg := encode_dhcp_options before ++ [53; 1; t] ++ rest).
  assert (∀ k b, dhcp_magic !! k = Some b →
    rd (bootp ++ dhcp_magic ++ msg) (236 + Z.of_nat k) = Ok b) as Hrd.
  { intros k b Hk. replace 236 with (zlen bootp) by lia. rewrite rd_app_r by lia.
    unfold rd. case_test; [|lia]. by rewrite Nat2Z.id, (lookup_app_l_Some _ _ _ _ Hk). }
  unfold dissect_dhcp. case_test; [lia|].
  rewrite (Hrd 0%nat 0x63 eq_refl : rd _ 236 = _), (Hrd 1%nat 0x82 eq_refl : rd _ 237 = _),
    (Hrd 2%nat 0x53 eq_refl : rd _ 238 = _), (Hrd 3%nat 0x63 eq_refl : rd _ 239 = _).
  cbn [mbind res_bind negb Z.eqb Pos.eqb].
  assert (ptr_add (bootp ++ dhcp_magic ++ msg) 240 = [] ++ msg) as ->.
  { unfold ptr_add. rewrite (assoc_L (++)). apply drop_app_length'.
    rewrite length_app. simpl. lia. }
  pose proof (length_encode_dhcp_options before).
  change 0 with (zlen (@nil Z)) at 1. unfold msg.
  rewrite (dhcp_loop_message before [] t rest _ _ o m name) by (done || simpl; lia).
  apply snprintf_cstring; [by eapply dhcp_types_text|done].
Qed.

Lemma dissect_dhcp_roundtrip_witness :
  ∃ r, dissect_dhcp (zeros 236 ++ dhcp_magic ++ encode_dhcp_options [None; Some (61, [1; 2])] ++
                     [53; 1; 3] ++ [255]) 249 (zeros 128) 128 = Ok r ∧
    cstring r = Ok (take 127 (str "DHCP " ++ str "REQUEST")) ∧ length r = length (zeros 128).
Proof.
  apply (dissect_dhcp_roundtrip (zeros 236) [None; Some (61, [1; 2])] 3 (str "REQUEST") [255]
    249 (zeros 128) 128); [reflexivity| |lia|reflexivity|simpl; lia|simpl; lia].
  repeat constructor; by_decide.
Defined.


(** On an LLDP frame that starts with the two mandatory identifiers,
    whatever elements follow and whether or not an end element closes it, the
    dissector stores the two identifiers, cut at 31 bytes and without their
    subtype, and writes the line that names them; nothing else but these
    three fields changes. *)
Theorem dissect_lldp_roundtrip (s1 s2 : Z) (chassis port : list Z) (ts : list (Z * list Z))
    (stop rest : list Z) (i : PacketInfo)
    (Hc : zlen (s1 :: chassis) < 2 ^ 9) (Hq : zlen (s2 :: port) < 2 ^ 9)
    (Hcn : 0 ∉ take 31 chassis) (Hqn : 0 ∉ take 31 port)
    (Hts : Forall valid_tlv ts) (Hstop : stop = [] ∨ stop = [0; 0]) (Hi : wf_info i) :
  let p := encode_tlv (1, s1 :: chassis) ++ encode_tlv (2, s2 :: port) ++
           encode_tlvs ts ++ stop in
  ∃ i', dissect_lldp (p ++ rest) (zlen p) i = Ok i' ∧
    cstring (lldp_chassis i') = Ok (take 31 chassis) ∧
    cstring (lldp_port i') = Ok (take 31 port) ∧
    cstring (app_layer_info i')
      = Ok (str "LLDP " ++ take 31 chassis ++ str "/" ++ take 31 port) ∧
    i' = set_app_layer_info (app_layer_info i')
           (set_lldp_port (lldp_port i') (set_lldp_chassis (lldp_chassis i') i)).
Proof.
  intros p. unfold dissect_lldp.
  destruct (wf_lldp_chassis _ Hi) as [Hlc _], (wf_lldp_port _ Hi) as [Hlq _].
  destruct (wf_app_layer_info _ Hi) as [Hla _].
  unfold p. rewrite lldp_loop_message; try done; try lia.
  2:{ rewrite !length_app. pose proof (length_encode_tlvs ts).
      pose proof (encode_tlv_length (1, s1 :: chassis)).
      pose proof (encode_tlv_length (2, s2 :: port)). simpl in *. lia. }
  cbn [mbind res_bind set_lldp_port set_lldp_chassis lldp_chassis lldp_port app_layer_info].
  rewrite !cstring_app by done. cbn [mbind res_bind].
  set (w := str "LLDP " ++ take 31 chassis ++ str "/" ++ take 31 port).
  assert (0 ∉ w) as Hw.
  { unfold w. no_nul. }
  assert (zlen w < 128).
  { unfold w. rewrite !length_app, !length_take. simpl length at 1 3. lia. }
  rewrite snprintf_fits by lia. eexists. split; [done|].
  repeat (split; [by apply cstring_app|]). done.
Qed.

Lemma dissect_lldp_roundtrip_witness :
  let p := encode_tlv (1, 4 :: str "aa:bb") ++ encode_tlv (2, 5 :: str "eth0") ++
           encode_tlvs [(3, [0; 120])] ++ [0; 0] in
  ∃ i', dissect_lldp (p ++ [9]) (zlen p) zero_info = Ok i' ∧
    cstring (lldp_chassis i') = Ok (take 31 (str "aa:bb")) ∧
    cstring (lldp_port i') = Ok (take 31 (str "eth0")) ∧
    cstring (app_layer_info i')
      = Ok (str "LLDP " ++ take 31 (str "aa:bb") ++ str "/" ++ take 31 (str "eth0")) ∧
    i' = set_app_layer_info (app_layer_info i')
           (set_lldp_port (lldp_port i') (set_lldp_chassis (lldp_chassis i') zero_info)).
Proof.
  apply (dissect_lldp_roundtrip 4 5 (str "aa:bb") (str "eth0") [(3, [0; 120])] [0; 0] [9]
    zero_info); [by_decide|by_decide|by_decide|by_decide| |right; reflexivity|exact wf_zero_info].
  repeat constructor; by_decide.
Defined.


(** An identifier element of length zero makes the LLDP dissector copy a
    negative number of bytes, which is a huge [size_t]. *)
Theorem dissect_lldp_empty_identifier (ty : Z) (q : list Z) (l : Z) (i : PacketInfo)
    (Hty : ty = 1 ∨ ty = 2) (Hl : 2 ≤ l) :
  dissect_lldp (encode_tlv (ty, []) ++ q) l i = Fault BadLength.
Proof.
  unfold dissect_lldp. change (encode_tlv (ty, []) ++ q) with ([] ++ encode_tlv (ty, []) ++ q).
  change 0 with (zlen (@nil Z)) at 1.
  rewrite lldp_loop_step; [|unfold is_u; lia|done|simpl; lia].
  by destruct Hty as [->| ->].
Qed.

Lemma dissect_lldp_empty_identifier_witness :
  dissect_lldp (encode_tlv (1, []) ++ zeros 44) 46 zero_info = Fault BadLength.
Proof. apply (dissect_lldp_empty_identifier 1 (zeros 44) 46 zero_info); lia. Defined.


(** On an HTTP request without a Host header the dissector writes the
    request line, cut at the capacity of the buffer. *)
Theorem dissect_http_request_line (me line rest o : list Z) (l m : Z)
    (Hme : me ∈ http_methods) (Hpre : me `prefix_of` line) (Hline : no_crlf line)
    (H0 : 0 ∉ line) (Hl : 10 ≤ l ≤ zlen (line ++ 13 :: rest)) (Hmin : zlen line < l)
    (Hml : zlen me < zlen line) (Hm : 1 ≤ m ≤ zlen o)
    (Hhost : memmem (line ++ 13 :: rest) l host_header = Ok None) :
  ∃ r, dissect_http (line ++ 13 :: rest) l o m = Ok r ∧
    cstring r = Ok (take (Z.to_nat (m - 1)) line).
Proof.
  unfold dissect_http. case_test; [lia|].
  rewrite (http_methods_loop_hit _ me); [|done|lia|lia|].
  2:{ destruct Hpre as [tl ->]. rewrite <- (assoc_L (++)). apply memcmp_eq_prefix. }
  unfold http_line. set (w := take (Z.to_nat (m - 1)) line).
  set (q := drop (Z.to_nat (m - 1)) line ++ 13 :: rest).
  assert (line ++ 13 :: rest = w ++ q) as Hp
    by (unfold w, q; by rewrite (assoc_L (++)), take_drop).
  assert (Forall (λ b, b ∈ line) w) as Hw.
  { unfold w. apply Forall_take, Forall_forall. done. }
  rewrite Forall_forall in Hw.
  assert (zlen w ≤ zlen line ∧ zlen w ≤ m - 1) as [??].
  { unfold w. rewrite length_take. lia. }
  rewrite Hp in *.
  destruct (copy_line_start w q o l m (S (Z.to_nat l))) as [-> Hwr]; try lia.
  { destruct Hline. split; auto. }
  { unfold line_end. destruct (decide (m - 1 ≤ zlen line)) as [Hle|Hgt].
    - right. left. unfold w. rewrite length_take. lia.
    - right. right. left. unfold q. rewrite drop_ge by lia. done. }
  cbn [mbind res_bind]. rewrite Hwr. cbn [mbind res_bind]. rewrite Hhost.
  eexists. split; [done|]. apply cstring_app. auto.
Qed.

Lemma dissect_http_request_line_witness :
  ∃ r, dissect_http (str "GET /a HTTP/1.1" ++ 13 :: [10; 13; 10]) 19 (zeros 128) 128 = Ok r ∧
    cstring r = Ok (take 127 (str "GET /a HTTP/1.1")).
Proof.
  apply (dissect_http_request_line (str "GET ") (str "GET /a HTTP/1.1") [10; 13; 10]
    (zeros 128) 19 128);
    [by_decide|by_decide|split; by_decide|by_decide|by_decide|by_decide|by_decide|by_decide|].
  vm_compute. reflexivity.
Defined.


(** When a Host header directly follows the request line, the dissector
    appends the 32 bytes after it: the value is not ended by the end of its
    header line, so the bytes of the next lines are part of the text. *)
Theorem dissect_http_host (me line after o : list Z) (l m : Z)
    (Hme : me ∈ http_methods) (Hpre : me `prefix_of` line) (Hline : no_crlf line)
    (H0 : 0 ∉ line) (Hl : 10 ≤ l ≤ zlen (line ++ host_header ++ after))
    (Hmin : zlen line + 8 ≤ l) (Hafter : 32 ≤ zlen after) (Hafter0 : 0 ∉ take 32 after)
    (Hm : zlen line + 41 < m) (Hmo : m = zlen o) (Hm64 : m < 2 ^ 64) :
  ∃ r, dissect_http (line ++ host_header ++ after) l o m = Ok r ∧
    cstring r = Ok (line ++ str " [Host: " ++ take 32 after ++ str "]").
Proof.
  unfold dissect_http. case_test; [lia|].
  assert (zlen me ≤ zlen line) by (apply prefix_length in Hpre; lia).
  rewrite (http_methods_loop_hit _ me); [|done|lia|lia|].
  2:{ destruct Hpre as [tl ->]. rewrite <- (assoc_L (++)). apply memcmp_eq_prefix. }
  unfold http_line.
  destruct (copy_line_start line (host_header ++ after) o l m (S (Z.to_nat l)))
    as [-> Hwr]; try done; try lia.
  { by right; right; left. }
  cbn [mbind res_bind]. rewrite Hwr. cbn [mbind res_bind].
  change host_header with (13 :: (10 :: str "Host: ")) in *. destruct Hline as [H13 _].
  rewrite (memmem_after line 13 (10 :: str "Host: ")); [|done|simpl; lia|lia].
  set (t := drop (S (length line)) o).
  assert (strlen (line ++ 0 :: t) = Ok (zlen line)) as Hstr
    by (unfold strlen; by rewrite find_nul_app).
  rewrite Hstr. cbn [mbind res_bind].
  assert (ptr_add (line ++ (13 :: 10 :: str "Host: ") ++ after) (zlen line + 8) = after) as ->.
  { unfold ptr_add. rewrite (assoc_L (++)). apply drop_app_length'. rewrite length_app. simpl. lia. }
  set (host := take 32 after) in *.
  assert (cstring_prec 32 after = Ok host) as ->.
  { unfold cstring_prec. fold host. destruct (find_nul host) eqn:E1.
    - exfalso. apply Hafter0. apply find_nul_Some in E1 as [? _].
      by eapply list_elem_of_lookup_2.
    - rewrite decide_True by lia. done. }
  assert (zlen t = m - 1 - zlen line) as Ht by (unfold t; rewrite length_drop; lia).
  assert (zlen host = 32) by (unfold host; rewrite length_take; lia).
  assert (zlen (str " [Host: " ++ host ++ str "]") = 41) as Hw
    by (rewrite !length_app; simpl; lia).
  cbn [mbind res_bind]. rewrite u64_small by (unfold is_u; lia).
  rewrite snprintf_append by lia. eexists. split; [done|].
  apply cstring_append; [done|]. no_nul.
Qed.

(** The Connection header is part of the host that is reported. *)
Lemma dissect_http_host_witness :
  let after := str "a.example" ++ [13; 10] ++ str "Connection: close" ++ [13; 10; 13; 10] in
  ∃ r, dissect_http (str "GET /a HTTP/1.1" ++ host_header ++ after) 50 (zeros 128) 128 = Ok r ∧
    cstring r = Ok (str "GET /a HTTP/1.1" ++ str " [Host: " ++ take 32 after ++ str "]").
Proof.
  apply (dissect_http_host (str "GET ") (str "GET /a HTTP/1.1")
    (str "a.example" ++ [13; 10] ++ str "Connection: close" ++ [13; 10; 13; 10])
    (zeros 128) 50 128);
    [by_decide|by_decide|split; by_decide|by_decide|by_decide|by_decide|by_decide|by_decide
    |by_decide|reflexivity|lia].
Defined.


(** With fewer than 32 bytes and no zero byte after the Host header, the
    dissector reads past the packet: a request that ends in its Host header,
    as short requests do. *)
Theorem dissect_http_host_overread (me line after o : list Z) (m : Z)
    (Hme : me ∈ http_methods) (Hpre : me `prefix_of` line) (Hline : no_crlf line)
    (H0 : 0 ∉ line) (Hl : 10 ≤ zlen (line ++ host_header ++ after))
    (Hafter : zlen after < 32) (Hafter0 : 0 ∉ after) (Hm : zlen line < m ≤ zlen o) :
  dissect_http (line ++ host_header ++ after) (zlen (line ++ host_header ++ after)) o m
  = Fault OutOfBounds.
Proof.
  assert (zlen (line ++ host_header ++ after) = zlen line + 8 + zlen after) as HL
    by (rewrite !length_app; simpl; lia).
  rewrite HL in *. unfold dissect_http. case_test; [lia|].
  assert (zlen me ≤ zlen line) by (apply prefix_length in Hpre; lia).
  rewrite (http_methods_loop_hit _ me); [|done|lia|lia|].
  2:{ destruct Hpre as [tl ->]. rewrite <- (assoc_L (++)). apply memcmp_eq_prefix. }
  unfold http_line.
  destruct (copy_line_start line (host_header ++ after) o (zlen line + 8 + zlen after) m
    (S (Z.to_nat (zlen line + 8 + zlen after)))) as [-> Hwr]; try done; try lia.
  { by right; right; left. }
  cbn [mbind res_bind]. rewrite Hwr. cbn [mbind res_bind].
  change host_header with (13 :: (10 :: str "Host: ")) in *. destruct Hline as [H13 _].
  rewrite (memmem_after line 13 (10 :: str "Host: ")); [|done|simpl; lia|lia].
  assert (strlen (line ++ 0 :: drop (S (length line)) o) = Ok (zlen line)) as Hstr
    by (unfold strlen; by rewrite find_nul_app).
  rewrite Hstr. cbn [mbind res_bind].
  assert (ptr_add (line ++ (13 :: 10 :: str "Host: ") ++ after) (zlen line + 8) = after) as ->.
  { unfold ptr_add. rewrite (assoc_L (++)). apply drop_app_length'. rewrite length_app. simpl. lia. }
  assert (cstring_prec 32 after = Fault OutOfBounds) as ->; [|done].
  unfold cstring_prec. rewrite take_ge by lia. destruct (find_nul after) eqn:E1.
  - exfalso. apply Hafter0. apply find_nul_Some in E1 as [? _]. by eapply list_elem_of_lookup_2.
  - by rewrite decide_False by lia.
Qed.

Lemma dissect_http_host_overread_witness :
  dissect_http (str "GET /a HTTP/1.0" ++ host_header ++ str "a.example" ++ [13; 10; 13; 10])
    (zlen (str "GET /a HTTP/1.0" ++ host_header ++ str "a.example" ++ [13; 10; 13; 10]))
    (zeros 128) 128 = Fault OutOfBounds.
Proof.
  apply (dissect_http_host_overread (str "GET ") (str "GET /a HTTP/1.0")
    (str "a.example" ++ [13; 10; 13; 10]) (zeros 128) 128);
    [by_decide|by_decide|split; by_decide|by_decide|by_decide|by_decide|by_decide|by_decide].
Defined.


(** On an NTP packet the two NTP dissectors, which the program runs one
    after the other, leave the mode and the stratum in the record and a line
    that names both twice. *)
Theorem dissect_ntp_twice (b0 b1 : Z) (rest : list Z) (l : Z) (name : list Z) (i : PacketInfo)
    (Hb : is_byte b1) (Hl : 48 ≤ l) (Hname : ntp_modes !! Z.to_nat (b0 mod 8) = Some name)
    (Hi : wf_info i) :
  ∃ a, (i ← dissect_ntp (b0 :: b1 :: rest) l i; dissect_ntp_core (b0 :: b1 :: rest) l i)
       = Ok (set_app_layer_info a (set_ntp_stratum b1 (set_ntp_mode (b0 mod 8) i))) ∧
    cstring a = Ok (str "NTP " ++ name ++ str " (Stratum " ++ fmt_u b1 ++ str ")" ++
                    str " [Mode: " ++ name ++ str ", Stratum: " ++ fmt_u b1 ++ str "]").
Proof.
  destruct (ntp_mode_text b0) as (name' & Hnth & Hn' & Hlen & H0). simplify_eq.
  destruct (fmt_u_byte b1 Hb) as [Hf Hf0]. destruct (wf_app_layer_info _ Hi) as [Ha _].
  unfold dissect_ntp, dissect_ntp_core. case_test; [lia|].
  rewrite rd_cons_0, rd_cons_1. cbn [mbind res_bind].
  cbn [set_ntp_stratum set_ntp_mode ntp_mode ntp_stratum app_layer_info].
  rewrite Hnth. cbn [mbind res_bind].
  set (w1 := str "NTP " ++ name ++ str " (Stratum " ++ fmt_u b1 ++ str ")").
  set (w2 := str " [Mode: " ++ name ++ str ", Stratum: " ++ fmt_u b1 ++ str "]").
  assert (zlen w1 ≤ 23) by (unfold w1; rewrite !length_app; simpl; lia).
  assert (zlen w2 ≤ 29) by (unfold w2; rewrite !length_app; simpl; lia).
  assert ((0 ∉ w1) ∧ (0 ∉ w2)) as [Hw1 Hw2].
  { unfold w1, w2. split; no_nul. }
  rewrite snprintf_fits by lia. cbn [mbind res_bind set_app_layer_info app_layer_info].
  set (t := drop (length w1 + 1) (app_layer_info i)).
  assert (strlen (w1 ++ 0 :: t) = Ok (zlen w1)) as Hstr
    by (unfold strlen; by rewrite find_nul_app).
  unfold strlen in *. rewrite Hstr. cbn [mbind res_bind].
  rewrite u64_small by (unfold is_u; lia).
  rewrite snprintf_append by (unfold t; rewrite ?length_drop; lia).
  cbn [mbind res_bind]. eexists. split.
  - change 0x07 with (Z.ones 3). rewrite Z.land_ones by lia. done.
  - rewrite cstring_append by done. unfold w1. by rewrite <- !(assoc_L (++)).
Qed.

Lemma dissect_ntp_twice_witness :
  ∃ a, (i ← dissect_ntp (0x23 :: 2 :: zeros 46) 48 zero_info;
        dissect_ntp_core (0x23 :: 2 :: zeros 46) 48 i)
       = Ok (set_app_layer_info a (set_ntp_stratum 2 (set_ntp_mode (0x23 mod 8) zero_info))) ∧
    cstring a = Ok (str "NTP " ++ str "Cli" ++ str " (Stratum " ++ fmt_u 2 ++ str ")" ++
                    str " [Mode: " ++ str "Cli" ++ str ", Stratum: " ++ fmt_u 2 ++ str "]").
Proof.
  apply (dissect_ntp_twice 0x23 2 (zeros 46) 48 (str "Cli") zero_info);
    [by_decide|lia|reflexivity|exact wf_zero_info].
Defined.


(** The dissector of SSH banners copies the first line of the stream, up
    to its end of line or to the capacity of the buffer. *)
Theorem dissect_ssh_banner (line rest o : list Z) (m : Z)
    (Hpre : str "SSH-" `prefix_of` line) (Hline : no_crlf line) (H0 : 0 ∉ line)
    (Hl : 8 ≤ zlen line) (Hm : 1 ≤ m ≤ zlen o) :
  let p := line ++ 13 :: rest in
  ∃ r, dissect_app_common p (zlen p) o m = Ok r ∧
    cstring r = Ok (take (Z.to_nat (m - 1)) line).
Proof.
  intros p. set (w := take (Z.to_nat (m - 1)) line).
  set (q := drop (Z.to_nat (m - 1)) line ++ 13 :: rest).
  assert (p = w ++ q) as Hp by (unfold p, w, q; by rewrite (assoc_L (++)), take_drop).
  assert (zlen p = zlen line + 1 + zlen rest) as HL
    by (unfold p; rewrite length_app; simpl; lia).
  assert (memcmp_eq p 0 (str "SSH-") = Ok true) as Hssh.
  { unfold p. destruct Hpre as [tl ->]. rewrite <- (assoc_L (++)). apply memcmp_eq_prefix. }
  assert (∀ b, b ∈ w → b ∈ line) as Hw.
  { intros b (k & ? & _)%elem_of_take. by eapply list_elem_of_lookup_2. }
  assert (zlen w ≤ zlen line ∧ zlen w ≤ m - 1) as [??] by (unfold w; rewrite length_take; lia).
  assert (starts_with p (zlen p) 7 (str "SSH-") = Ok true) as Hssh'.
  { unfold starts_with. case_test; [done|lia]. }
  unfold dissect_app_common. case_test; [lia|]. rewrite Hssh'. cbn [mbind res_bind].
  destruct (copy_line_start w q o (zlen p) m (S (Z.to_nat (zlen p)))) as [Hc Hwr]; try lia.
  { destruct Hline. split; auto. }
  { unfold line_end. destruct (decide (m - 1 ≤ zlen line)) as [Hle|Hgt].
    - right. left. unfold w. rewrite length_take. lia.
    - right. right. left. unfold q. by rewrite drop_ge by lia. }
  { rewrite <- Hp. lia. }
  rewrite <- Hp in Hc. rewrite Hc. cbn [mbind res_bind]. rewrite Hwr.
  eexists. split; [reflexivity|]. apply cstring_app. auto.
Qed.

Lemma dissect_ssh_banner_witness :
  ∃ r, dissect_app_common (str "SSH-2.0-x" ++ 13 :: [10; 0]) 12 (zeros 128) 128 = Ok r ∧
    cstring r = Ok (take 127 (str "SSH-2.0-x")).
Proof.
  apply (dissect_ssh_banner (str "SSH-2.0-x") [10; 0] (zeros 128) 128);
    [by_decide|split; by_decide|by_decide|by_decide|by_decide].
Defined.


(** Whatever its bytes are, a payload whose length is backed by the buffer
    is handled by the dissectors that write a text buffer (DHCP, application
    banners, neighbour discovery, OSPF, STP, GRE) without an access outside
    the payload or the text buffer, in finitely many steps, and the text
    buffer stays a C string. *)
Theorem text_dissectors_safe (p : list Z) (l : Z) (o : list Z) (m : Z)
    (d : list Z → Z → list Z → Z → res (list Z))
    (Hp : bytes p) (Hl : l ≤ zlen p) (Ho : bytes o) (Hm : 1 ≤ m ≤ zlen o)
    (Hd : d ∈ [dissect_dhcp; dissect_app_common; dissect_nd; dissect_ospf; dissect_stp;
               dissect_gre]) :
  ensures (d p l o m) (text_ok o).
Proof.
  assert (guard no_fault (l ≤ zlen p)) as Hg by (by right).
  repeat (apply elem_of_cons in Hd as [->|Hd]); [..|by apply elem_of_nil in Hd].
  - by apply dissect_dhcp_spec.
  - apply dissect_app_common_spec; [done..|]. eapply guard_mono; [exact Hg|lia].
  - by apply dissect_nd_spec.
  - by apply dissect_ospf_spec.
  - by apply dissect_stp_spec.
  - by apply dissect_gre_spec.
Qed.

Lemma text_dissectors_safe_witness :
  ensures (dissect_ospf (2 :: 1 :: zeros 22) 24 (zeros 128) 128) (text_ok (zeros 128)).
Proof.
  apply (text_dissectors_safe (2 :: 1 :: zeros 22) 24 (zeros 128) 128 dissect_ospf);
    [by_decide|by_decide|by_decide|by_decide|].
  do 3 right. left.
Defined.


(** The STP dissector reads the byte at offset 4, the second byte of the
    protocol identifier that follows the three bytes of the LLC header: every
    BPDU, topology change notifications included, is named a configuration
    message. *)
Theorem dissect_stp_always_config (llc : list Z) (version type : Z) (rest o : list Z)
    (l m : Z) (Hllc : length llc = 3%nat) (Hl : 35 ≤ l) (Hm : 11 ≤ m ≤ zlen o) :
  ∃ r, dissect_stp (llc ++ [0; 0; version; type] ++ rest) l o m = Ok r ∧
    cstring r = Ok (str "STP Config").
Proof.
  unfold dissect_stp. case_test; [lia|]. replace 4 with (zlen llc + 1) by lia.
  rewrite rd_app_r by lia. cbn [app]. rewrite rd_cons_1. cbn [mbind res_bind].
  destruct (snprintf_cstring o m (str "STP Config")) as (r & Hr & Hc & _).
  - by_decide.
  - lia.
  - exists r. split; [done|]. rewrite Hc, take_ge; [done|]. simpl. lia.
Qed.

(** A topology change notification, of type 0x80. *)
Lemma dissect_stp_always_config_witness :
  ∃ r, dissect_stp ([0x42; 0x42; 3] ++ [0; 0; 0; 0x80] ++ zeros 39) 46 (zeros 128) 128 = Ok r ∧
    cstring r = Ok (str "STP Config").
Proof.
  apply (dissect_stp_always_config [0x42; 0x42; 3] 0 0x80 (zeros 39) (zeros 128) 46 128);
    [reflexivity|lia|simpl; lia].
Defined.

