(* ===== verification/Capture.v ===== *)
(** * The dissection of one captured packet

    [dissect_raw_packet] of [cpp/packet_capture.cpp], in the pieces of its
    body, and [packet_handler], the callback that copies a frame into a raw
    packet.  The entropy is computed over the operations of [Double]. *)

From Stdlib Require Import String.
From S2P Require Import Prelude CMemory PacketTypes Layers TcpOptions Stats Entropy.
From S2P Require Import NameDissectors TextDissectors.

(** ** The fixed fields *)

(** [tv_sec * 1000000LL + tv_usec] as a [uint64_t] *)
Definition timestamp_of (h : pcap_pkthdr) : Z := u64 (ts_sec h * 1000000 + ts_usec h).

Definition set_header (raw : RawPacket) (e : EthernetInfo) (i : PacketInfo) : res PacketInfo :=
  let i := set_timestamp (timestamp_of (pkthdr raw)) i in
  let i := set_delta_time (raw_delta_time raw) i in
  src ← memcpy (src_mac i) 0 (data raw) (eth_header e + 6) 6;
  let i := set_src_mac src i in
  dst ← memcpy (dst_mac i) 0 (data raw) (eth_header e) 6;
  let i := set_dst_mac dst i in
  let i := set_l3_offset (u8 (eth_header_len e)) i in
  let i := set_vlan_id (eth_vlan_id e) i in
  Ok (set_wire_len (wire (pkthdr raw)) i).

(** ** IP *)

Definition set_ip (e : EthernetInfo) (ip : IpInfo) (i : PacketInfo) : res PacketInfo :=
  src ← memcpy (src_ip i) 0 (ipi_src_ip ip) 0 16;
  let i := set_src_ip src i in
  dst ← memcpy (dst_ip i) 0 (ipi_dst_ip ip) 0 16;
  let i := set_dst_ip dst i in
  let i := set_protocol (ipi_protocol ip) i in
  let i := set_l4_offset (u8 (eth_header_len e + ipi_header_len ip)) i in
  let i := set_ip_ttl (ipi_ttl ip) i in
  let i := set_ip_tos (ipi_tos ip) i in
  let i := set_ip_id (ipi_id ip) i in
  let i := set_is_ipv6 (b2z (ipi_is_ipv6 ip)) i in
  Ok (set_is_fragment (b2z (ipi_is_fragment ip)) i).

(** [while (info.ipv6_ext_count < 10)]: the record and the last [nxt]. *)
Fixpoint ipv6_ext_loop (fuel : nat) (packet : list Z) (caplen v6_off nxt : Z) (i : PacketInfo)
    : res (PacketInfo * Z) :=
  match fuel with
  | O => Fault OutOfFuel
  | S fuel =>
      if ipv6_ext_count i <? 10 then
        if (nxt =? 0) || (nxt =? 43) || (nxt =? 60) then
          if i32 caplen <? v6_off + 8 then Ok (i, nxt)
          else
            nxt ← rd packet v6_off;
            len ← rd packet (v6_off + 1);
            ipv6_ext_loop fuel packet caplen (v6_off + (len + 1) * 8) nxt
              (set_ipv6_ext_count (u8 (ipv6_ext_count i + 1)) i)
        else if nxt =? 44 then
          let i := set_is_fragment 1 i in
          nxt ← rd packet v6_off;
          ipv6_ext_loop fuel packet caplen (v6_off + 8) nxt
            (set_ipv6_ext_count (u8 (ipv6_ext_count i + 1)) i)
        else Ok (i, nxt)
      else Ok (i, nxt)
  end.

(** [if (info.is_ipv6) { ... }] *)
Definition dissect_ipv6 (packet : list Z) (caplen : Z) (ip : IpInfo) (i : PacketInfo)
    : res PacketInfo :=
  if is_ipv6 i =? 0 then Ok i else
  flow ← load32 packet (ipi_header ip);
  let i := set_ipv6_flow (Z.land (ntohl flow) 0x0FFFFF) i in
  nxt ← rd packet (ipi_header ip + 6);
  '(i, nxt) ← ipv6_ext_loop 11 packet caplen (l3_offset i + 40) nxt i;
  Ok (set_protocol nxt i).

Definition dissect_icmp (packet : list Z) (caplen : Z) (i : PacketInfo) : res PacketInfo :=
  if (protocol i =? 1) || (protocol i =? 58) then
    if (protocol i =? 1) && (u32 (l4_offset i + 8) <=? caplen) then
      t ← rd packet (l4_offset i);
      let i := set_icmp_type t i in
      c ← rd packet (l4_offset i + 1);
      let i := set_icmp_code c i in
      x ← dissect_icmp_details (icmp_type i) (icmp_code i) (extra_info i) 128;
      let i := set_extra_info x i in
      x ← check_icmp_unreachable (icmp_type i) (icmp_code i) (extra_info i) 128;
      Ok (set_extra_info x i)
    else if (protocol i =? 58) && (l4_offset i + 8 <=? caplen) then
      t ← rd packet (l4_offset i);
      let i := set_icmp_type t i in
      c ← rd packet (l4_offset i + 1);
      let i := set_icmp_code c i in
      x ← dissect_icmp6_details (icmp_type i) (icmp_code i) (extra_info i) 128;
      Ok (set_extra_info x i)
    else Ok i
  else Ok i.

(** ** Transport *)

(** The object a payload pointer points to; a null pointer has none. *)
Definition payload_at (packet : list Z) (t : TransportInfo) : list Z :=
  match t_payload_ptr t with Some k => ptr_add packet k | None => [] end.

Definition port_is (i : PacketInfo) (n : Z) : bool := (src_port i =? n) || (dst_port i =? n).

(** The chain of dissectors of a TCP payload. *)
Definition dissect_tcp_payload (packet : list Z) (t : TransportInfo) (i : PacketInfo)
    : res PacketInfo :=
  let p := payload_at packet t in
  let l := t_payload_len t in
  if bool_decide (is_Some (t_payload_ptr t)) && (0 <? l) then
    if port_is i 80 then
      x ← dissect_http p l (extra_info i) 128; Ok (set_extra_info x i)
    else if port_is i 4789 then dissect_vxlan p l i
    else
      c ← rd (tls_sni i) 0;
      if c =? 0 then
        x ← dissect_app_common p l (extra_info i) 128; Ok (set_extra_info x i)
      else
        x ← dissect_tls_sni p l (tls_sni i) 64; Ok (set_tls_sni x i)
  else Ok i.

Definition dissect_tcp (packet : list Z) (ip : IpInfo) (t : TransportInfo) (i : PacketInfo)
    : res PacketInfo :=
  let i := set_tcp_flags (t_flags t) i in
  let i := set_tcp_seq (t_seq t) i in
  let i := set_tcp_ack (t_ack t) i in
  let i := set_tcp_win (t_window t) i in
  let o := l3_offset i + ipi_header_len ip in
  i ← parse_tcp_options_extended packet o
        (match t_payload_ptr t with Some k => k - o | None => 20 end) i;
  i ← check_tcp_anomalies i t;
  dissect_tcp_payload packet t i.

Definition dissect_udp (packet : list Z) (t : TransportInfo) (i : PacketInfo) : res PacketInfo :=
  let p := payload_at packet t in
  let l := t_payload_len t in
  if port_is i 53 && bool_decide (is_Some (t_payload_ptr t)) then
    x ← dissect_dns p l (dns_query i) 64; Ok (set_dns_query x i)
  else if port_is i 67 || port_is i 68 then
    x ← dissect_dhcp p l (extra_info i) 128; Ok (set_extra_info x i)
  else if port_is i 123 then
    i ← dissect_ntp p l i;
    dissect_ntp_core p l i
  else Ok i.

(** [pkthdr->caplen - info.l4_offset], passed as an [int] *)
Definition rest_len (caplen off : Z) : Z := i32 (u32 (caplen - off)).

Definition dissect_ospf_info (packet : list Z) (caplen : Z) (i : PacketInfo) : res PacketInfo :=
  if protocol i =? 89 then
    x ← dissect_ospf (ptr_add packet (l4_offset i)) (rest_len caplen (l4_offset i))
          (extra_info i) 128;
    Ok (set_extra_info x i)
  else Ok i.

Definition dissect_gre_info (packet : list Z) (caplen : Z) (i : PacketInfo) : res PacketInfo :=
  if protocol i =? 47 then
    x ← dissect_gre (ptr_add packet (l4_offset i)) (rest_len caplen (l4_offset i))
          (extra_info i) 128;
    Ok (set_extra_info x i)
  else Ok i.

Definition dissect_igmp_info (packet : list Z) (caplen : Z) (i : PacketInfo) : res PacketInfo :=
  if protocol i =? 2 then
    dissect_igmp (ptr_add packet (l4_offset i)) (rest_len caplen (l4_offset i)) i
  else Ok i.

Definition dissect_transport (packet : list Z) (caplen : Z) (ip : IpInfo) (t : TransportInfo)
    (i : PacketInfo) : res PacketInfo :=
  let i := set_src_port (t_src_port t) i in
  let i := set_dst_port (t_dst_port t) i in
  i ← (if protocol i =? 6 then dissect_tcp packet ip t i
       else if protocol i =? 17 then dissect_udp packet t i
       else Ok i);
  i ← dissect_ospf_info packet caplen i;
  i ← dissect_gre_info packet caplen i;
  dissect_igmp_info packet caplen i.

(** [if (eth_info.ether_type == ETHERTYPE_IP || ... == 0x86DD) { ... }] *)
Definition dissect_ip (packet : list Z) (caplen : Z) (e : EthernetInfo) (i : PacketInfo)
    : res PacketInfo :=
  ip_info_opt ← parse_ip_layer packet caplen (eth_header_len e);
  match ip_info_opt with
  | None => Ok i
  | Some ip =>
      i ← set_ip e ip i;
      i ← dissect_ipv6 packet caplen ip i;
      i ← dissect_icmp packet caplen i;
      transport_info_opt ← parse_transport_layer packet caplen (eth_header_len e) ip;
      match transport_info_opt with
      | None => Ok i
      | Some t => dissect_transport packet caplen ip t i
      end
  end.

(** ** ARP, STP and the rest of the frame *)

Definition dissect_arp (packet : list Z) (caplen : Z) (e : EthernetInfo) (i : PacketInfo)
    : res PacketInfo :=
  let i := set_protocol 200 i in
  let hl := eth_header_len e in
  if u32 (hl + 28) <=? caplen then
    pro ← load16 packet (hl + 2);
    hln ← rd packet (hl + 4);
    pln ← rd packet (hl + 5);
    if (ntohs pro =? 0x0800) && (pln =? 4) then
      let arp_ptr := hl + 8 + 2 * hln in
      src ← memcpy (src_ip i) 12 packet arp_ptr 4;
      let i := set_src_ip src i in
      dst ← memcpy (dst_ip i) 12 packet (arp_ptr + 4 + hln) 4;
      Ok (set_dst_ip dst i)
    else Ok i
  else Ok i.

Definition stp_mac : list Z := [0x01; 0x80; 0xC2; 0x00; 0x00; 0x00].

Definition dissect_llc (packet : list Z) (caplen : Z) (e : EthernetInfo) (i : PacketInfo)
    : res PacketInfo :=
  dst ← rd_bytes packet (eth_header e) 6;
  if bool_decide (dst = stp_mac) then
    let i := set_protocol 202 i in
    x ← dissect_stp (ptr_add packet (eth_header_len e)) (rest_len caplen (eth_header_len e))
          (extra_info i) 128;
    Ok (set_extra_info x i)
  else Ok i.

(** The last statements of [dissect_raw_packet]: the copy of the frame. *)
Definition capture_frame `{Double D} (packet : list Z) (caplen : Z) (i : PacketInfo)
    : res PacketInfo :=
  let capture_len := if caplen <? MAX_PAYLOAD_SIZE then caplen else MAX_PAYLOAD_SIZE in
  let i := set_payload_len (u16 capture_len) i in
  n ← calculate_entropy_scaled packet capture_len;
  let i := set_entropy_scaled n i in
  i ← calculate_byte_stats packet capture_len i;
  p ← memcpy (payload i) 0 packet 0 capture_len;
  Ok (set_payload p i).

Definition dissect_raw_packet `{Double D} (raw : RawPacket) (info : PacketInfo)
    : res PacketInfo :=
  let packet := data raw in
  let len := caplen (pkthdr raw) in
  eth_info_opt ← parse_ethernet_layer packet len;
  match eth_info_opt with
  | None => Ok info
  | Some e =>
      let ty := eth_ether_type e in
      i ← set_header raw e zero_info;
      if (ty =? 0x0800) || (ty =? 0x86DD) then
        i ← dissect_ip packet len e i; capture_frame packet len i
      else if ty =? 0x0806 then
        i ← dissect_arp packet len e i; capture_frame packet len i
      else if ty <=? 1500 then
        i ← dissect_llc packet len e i; capture_frame packet len i
      else if ty =? 0x88cc then
        i ← dissect_lldp (ptr_add packet (eth_header_len e)) (rest_len len (eth_header_len e)) i;
        capture_frame packet len i
      else Ok i
  end.

(** ** The capture callback *)

(** [static struct timeval last_ts] *)
Record timeval := mkTimeval { tv_sec : Z; tv_usec : Z }.

Definition delta_of (last : timeval) (h : pcap_pkthdr) : Z :=
  if tv_sec last =? 0 then 0
  else u32 ((ts_sec h - tv_sec last) * 1000000 + (ts_usec h - tv_usec last)).

(** The raw packet that [packet_handler] pushes, and the new [last_ts];
    [raw_data] is the uninitialised array of the local variable [raw]. *)
Definition make_raw (raw_data : list Z) (last : timeval) (h : pcap_pkthdr) (packet : list Z)
    : res (RawPacket * timeval) :=
  let n := if caplen h <? MAX_PAYLOAD_SIZE then caplen h else MAX_PAYLOAD_SIZE in
  d ← memcpy raw_data 0 packet 0 n;
  Ok (mkRawPacket h d (delta_of last h), mkTimeval (ts_sec h) (ts_usec h)).

(** ** Frame conditions

    [header i] is what only [set_header] writes, with the two fields the rest
    of the dissection relies on: no later step touches it. *)
Definition header (i : PacketInfo) :=
  (timestamp i, delta_time i, src_mac i, dst_mac i, l3_offset i, vlan_id i, wire_len i, tls_sni i,
   payload i, pad i, final_pad i, tcp_rtt i).

Definition header_ok (i i' : PacketInfo) : Prop := wf_info i' ∧ header i' = header i.

(** A dissector that keeps the core keeps the header. *)
Lemma core_header i i' : core i' = core i → header i' = header i.
Proof.
  intros E. change (header (core i') = header (core i)). by rewrite E.
Qed.

Lemma info_ok_header i i' : info_ok i i' → header_ok i i'.
Proof. intros [? ?]. split; [done|by apply core_header]. Qed.

Lemma header_ok_trans i j k : header_ok i j → header_ok j k → header_ok i k.
Proof. intros [_ ?] [? ?]. split; [done|congruence]. Qed.

Lemma memcpy_full dst src n :
  zlen src = n → zlen dst = n → memcpy dst 0 src 0 n = Ok src.
Proof.
  intros Hs Hd. unfold memcpy, rd_bytes. case_test; [lia|]. case_test; [|lia].
  cbn [mbind res_bind]. rewrite take_ge by (rewrite length_drop; lia).
  unfold blit. change (drop (Z.to_nat 0) src) with src. case_test; [|lia].
  rewrite drop_ge by lia. by rewrite app_nil_r.
Qed.

(** ** The fixed fields *)

Definition header_of (raw : RawPacket) (e : EthernetInfo) : PacketInfo :=
  set_wire_len (wire (pkthdr raw)) (set_vlan_id (eth_vlan_id e)
    (set_l3_offset (u8 (eth_header_len e))
    (set_dst_mac (take 6 (data raw)) (set_src_mac (take 6 (drop 6 (data raw)))
    (set_delta_time (raw_delta_time raw) (set_timestamp (timestamp_of (pkthdr raw))
    zero_info)))))).

Lemma set_header_eq raw e :
  wf_raw raw → eth_header e = 0 → set_header raw e zero_info = Ok (header_of raw e).
Proof.
  intros Hraw He. destruct (wf_data _ Hraw) as [Hl _]. unfold set_header. rewrite He.
  change (0 + 6) with 6. cbn [src_mac zero_info set_delta_time set_timestamp].
  assert (∀ k dst, (k = 0 ∨ k = 6) → length dst = 6%nat →
    memcpy dst 0 (data raw) k 6 = Ok (take 6 (drop (Z.to_nat k) (data raw)))) as Hm.
  { intros k dst Hk Hd. unfold memcpy, rd_bytes. case_test; [lia|].
    case_test; [|lia]. cbn [mbind res_bind]. unfold blit.
    rewrite length_take, length_drop. case_test; [|lia].
    change (take (Z.to_nat 0) dst) with (@nil Z). change (Z.to_nat 6) with 6%nat.
    rewrite (drop_ge dst) by lia.
    by rewrite app_nil_r. }
  rewrite Hm by (done || lia). cbn [mbind res_bind]. by rewrite Hm by (done || lia).
Qed.

Lemma wf_header_of raw e :
  wf_raw raw → is_u 12 (eth_vlan_id e) → wf_info (header_of raw e).
Proof.
  intros Hraw Hv. destruct (wf_data _ Hraw) as [Hl Hb].
  assert (is_u 16 (eth_vlan_id e)) by (eapply is_u_weaken; [done|lia]).
  assert (is_array 6 (take 6 (data raw)) ∧ is_array 6 (take 6 (drop 6 (data raw)))) as [??].
  { split; split; rewrite ?length_take, ?length_drop; auto with pacsni; lia. }
  pose proof (wf_raw_delta _ Hraw). pose proof (wf_wire _ Hraw).
  unfold header_of, timestamp_of. auto 12 with pacsni.
Qed.

(** ** IP *)

Definition ip_of (e : EthernetInfo) (ip : IpInfo) (i : PacketInfo) : PacketInfo :=
  set_is_fragment (b2z (ipi_is_fragment ip)) (set_is_ipv6 (b2z (ipi_is_ipv6 ip))
    (set_ip_id (ipi_id ip) (set_ip_tos (ipi_tos ip) (set_ip_ttl (ipi_ttl ip)
    (set_l4_offset (u8 (eth_header_len e + ipi_header_len ip))
    (set_protocol (ipi_protocol ip) (set_dst_ip (ipi_dst_ip ip)
    (set_src_ip (ipi_src_ip ip) i)))))))).

Lemma set_ip_eq e ip i : wf_ip ip → wf_info i → set_ip e ip i = Ok (ip_of e ip i).
Proof.
  intros Hip Hi. unfold set_ip.
  destruct (wf_ipi_src _ Hip), (wf_ipi_dst _ Hip), (wf_src_ip _ Hi), (wf_dst_ip _ Hi).
  rewrite memcpy_full by lia. cbn [mbind res_bind dst_ip set_src_ip].
  by rewrite memcpy_full by lia.
Qed.

Lemma wf_ip_of e ip i : wf_ip ip → wf_info i → wf_info (ip_of e ip i).
Proof. intros [] Hi. unfold ip_of. auto 15 with pacsni. Qed.

(** The record without what the IPv6 block writes. *)
Definition without_v6 (i : PacketInfo) : PacketInfo :=
  set_protocol 0 (set_ipv6_flow 0 (set_is_fragment 0 (set_ipv6_ext_count 0 i))).

Definition v6_ok (i i' : PacketInfo) : Prop := wf_info i' ∧ without_v6 i' = without_v6 i.

(** The walk over the extension headers, read by [ipv6_ext_loop] from
    [packet]: no Fragment header starts behind the end of the buffer.  (The
    other extension headers are tested against the captured length.) *)
Fixpoint fragments_inside (fuel : nat) (packet : list Z) (caplen v6_off nxt count : Z) : bool :=
  match fuel with
  | O => true
  | S fuel =>
      if count <? 10 then
        if (nxt =? 0) || (nxt =? 43) || (nxt =? 60) then
          if i32 caplen <? v6_off + 8 then true
          else
            match rd packet v6_off, rd packet (v6_off + 1) with
            | Ok nxt, Ok len =>
                fragments_inside fuel packet caplen (v6_off + (len + 1) * 8) nxt (count + 1)
            | _, _ => true
            end
        else if nxt =? 44 then
          match rd packet v6_off with
          | Ok nxt => fragments_inside fuel packet caplen (v6_off + 8) nxt (count + 1)
          | Fault _ => false
          end
        else true
      else true
  end.

Definition is_ext (nxt : Z) : Prop := nxt ∈ [0; 43; 44; 60].

Lemma ipv6_ext_loop_spec F packet caplen fuel v6_off nxt i :
  bytes packet → is_byte nxt → 0 ≤ v6_off → wf_info i → 0 ≤ caplen < 2 ^ 31 →
  guard F (caplen ≤ zlen packet ∧
    fragments_inside fuel packet caplen v6_off nxt (ipv6_ext_count i) = true) →
  (Z.to_nat (10 - ipv6_ext_count i) < fuel)%nat →
  wp F (ipv6_ext_loop fuel packet caplen v6_off nxt i)
    (λ '(i', n), v6_ok i i' ∧ is_byte n ∧ (¬ is_ext nxt → n = nxt)).
Proof.
  intros Hp. revert v6_off nxt i.
  induction fuel as [|fuel IH]; intros v6_off nxt i Hn Ho Hi Hcl Hg Hf; [lia|].
  cbn [ipv6_ext_loop fragments_inside] in *. case_test; [|by apply wp_ret].
  pose proof (wf_ipv6_ext_count _ Hi) as Hc. unfold is_u in Hc.
  assert (u8 (ipv6_ext_count i + 1) = ipv6_ext_count i + 1) as Hu by (apply u8_small; unfold is_u; lia).
  assert (i32 caplen = caplen) as E32 by (unfold i32; rewrite Z.mod_small; lia). rewrite E32 in *.
  assert (∀ off n i', is_byte n → 0 ≤ off → v6_ok i i' →
    ipv6_ext_count i' = u8 (ipv6_ext_count i + 1) → is_ext nxt →
    guard F (caplen ≤ zlen packet ∧
      fragments_inside fuel packet caplen off n (ipv6_ext_count i + 1) = true) →
    wp F (ipv6_ext_loop fuel packet caplen off n i')
      (λ '(i', n), v6_ok i i' ∧ is_byte n ∧ (¬ is_ext nxt → n = nxt))) as Hnext.
  { intros off n i' ?? [? Hw] E' Hext Hg'. rewrite Hu in E'.
    eapply wp_mono; [apply IH; [done|done|done|done|by rewrite E'|lia]|].
    intros [i'' n'] ([? ?] & ? & _). split; [|by split]. split; [done|congruence]. }
  case_test; [|case_test].
  - assert (is_ext nxt) by (unfold is_ext; rewrite !elem_of_cons; lia).
    case_test; [by apply wp_ret|].
    wp_step. eapply (wp_guard _ _ _ _ Hg). { intros [? _]. apply wp_rd; [lia|done]. }
    intros b Hb. pose proof (rd_Ok_inv _ _ _ Hb) as [_ Hlb]. pose proof (bytes_lookup _ _ _ Hp Hlb) as Hbb.
    wp_step. eapply (wp_guard _ _ _ _ Hg). { intros [? _]. apply wp_rd; [lia|done]. }
    intros len Hlen. pose proof (rd_Ok_inv _ _ _ Hlen) as [_ Hll].
    pose proof (bytes_lookup _ _ _ Hp Hll) as Hbl. unfold is_u in Hbl.
    apply Hnext; [done|lia|split; [auto with pacsni|done]|done|done|].
    eapply guard_mono; [exact Hg|]. intros [? Hfr]. split; [done|]. by rewrite Hb, Hlen in Hfr.
  - assert (is_ext nxt) by (unfold is_ext; rewrite !elem_of_cons; lia). cbv zeta.
    wp_step. eapply (wp_guard _ _ _ _ Hg).
    { intros [_ Hfr]. destruct (rd packet v6_off); [done|discriminate]. }
    intros b Hb. pose proof (rd_Ok_inv _ _ _ Hb) as [_ Hlb]. pose proof (bytes_lookup _ _ _ Hp Hlb) as Hbb.
    apply Hnext; [done|lia|split; [auto 10 with pacsni|done]|done|done|].
    eapply guard_mono; [exact Hg|]. intros [? Hfr]. split; [done|]. by rewrite Hb in Hfr.
  - by apply wp_ret.
Qed.

Lemma dissect_ipv6_spec F packet caplen ip i :
  bytes packet → wf_info i → wf_ip ip → 0 ≤ ipi_header ip →
  (is_ipv6 i ≠ 0 → rd packet (ipi_header ip + 6) = Ok (ipi_protocol ip)) →
  guard F (is_ipv6 i ≠ 0 → caplen ≤ zlen packet ∧ ipi_header ip + 40 ≤ caplen ∧
    fragments_inside 11 packet caplen (l3_offset i + 40) (ipi_protocol ip) 0 = true) →
  0 ≤ caplen < 2 ^ 31 → (is_ipv6 i ≠ 0 → ipv6_ext_count i = 0) →
  wp F (dissect_ipv6 packet caplen ip i) (λ i', v6_ok i i' ∧ (is_ipv6 i = 0 → i' = i) ∧
    (is_ipv6 i ≠ 0 → ¬ is_ext (ipi_protocol ip) → protocol i' = ipi_protocol ip)).
Proof.
  intros Hp Hi Hip Hh Hrd Hg Hcl Hcount. unfold dissect_ipv6.
  case_test; [apply wp_ret; split_and!; [by split|done|lia]|].
  assert (is_ipv6 i ≠ 0) as Hv6 by lia. specialize (Hcount Hv6). specialize (Hrd Hv6).
  assert (guard F (caplen ≤ zlen packet ∧ ipi_header ip + 40 ≤ caplen ∧
    fragments_inside 11 packet caplen (l3_offset i + 40) (ipi_protocol ip) 0 = true)) as Hg'.
  { eapply guard_mono; [exact Hg|]. intros H. by apply H. }
  wp_step. eapply wp_load32_g; [done|eapply guard_mono; [exact Hg'|lia]|]. intros flow Hflow.
  rewrite Hrd, bind_Ok. pose proof (wf_ipi_protocol _ Hip) as Hnb.
  assert (wf_info (set_ipv6_flow (Z.land (ntohl flow) 0x0FFFFF) i)) as Hi2 by auto with pacsni.
  cbv zeta. wp_step. eapply wp_mono; [apply ipv6_ext_loop_spec|].
  - done.
  - done.
  - pose proof (wf_l3_offset _ Hi) as Hl. unfold is_u in Hl.
    change (l3_offset (set_ipv6_flow _ i)) with (l3_offset i). lia.
  - done.
  - done.
  - eapply guard_mono; [exact Hg'|]. intros (?&?&Hx). split; [done|].
    change (ipv6_ext_count (set_ipv6_flow _ i)) with (ipv6_ext_count i). by rewrite Hcount.
  - change (ipv6_ext_count (set_ipv6_flow _ i)) with (ipv6_ext_count i). lia.
  - intros [i' n'] ([Hi' Hw] & Hn' & Hsame). apply wp_ret. split_and!.
    + split; [auto with pacsni|exact Hw].
    + done.
    + intros _. exact Hsame.
Qed.

(** ** Text fields *)

Lemma wp_set_extra F m i (Q : PacketInfo → Prop) :
  wf_info i → wp F m (text_ok (extra_info i)) →
  (∀ x, wf_info (set_extra_info x i) → Q (set_extra_info x i)) →
  wp F (x ← m; Ok (set_extra_info x i)) Q.
Proof.
  intros Hi Hm HQ. wp_step. eapply wp_mono; [exact Hm|]. intros x Hx. apply wp_ret, HQ.
  by apply wf_set_text_extra.
Qed.

Lemma wp_set_dns F m i (Q : PacketInfo → Prop) :
  wf_info i → wp F m (text_ok (dns_query i)) →
  (∀ x, wf_info (set_dns_query x i) → Q (set_dns_query x i)) →
  wp F (x ← m; Ok (set_dns_query x i)) Q.
Proof.
  intros Hi Hm HQ. wp_step. eapply wp_mono; [exact Hm|]. intros x Hx. apply wp_ret, HQ.
  apply wf_set_dns_query; [|done]. eapply is_array_text; [by apply wf_dns_query|done].
Qed.

Lemma info_dns_bounds i : wf_info i → bytes (dns_query i) ∧ zlen (dns_query i) = 64.
Proof. intros Hi. destruct (wf_dns_query _ Hi) as [-> ?]. done. Qed.

(** ** ICMP *)

Definition without_icmp (i : PacketInfo) : PacketInfo :=
  set_icmp_type 0 (set_icmp_code 0 (set_extra_info [] i)).

Lemma dissect_icmp_spec F packet caplen i :
  bytes packet → wf_info i → caplen < 2 ^ 31 → guard F (caplen ≤ zlen packet) →
  wp F (dissect_icmp packet caplen i) (λ i', wf_info i' ∧ without_icmp i' = without_icmp i).
Proof.
  intros Hp Hi Hc Hg. unfold dissect_icmp.
  pose proof (wf_l4_offset _ Hi) as Hl4. unfold is_u in Hl4.
  case_test; [|by apply wp_ret]. rewrite u32_small by (unfold is_u; lia).
  case_test; [|case_test; [|by apply wp_ret]].
  - wp_step. eapply wp_rd_g; [done|guarded|intros t Ht].
    cbv zeta. change (l4_offset (set_icmp_type t i)) with (l4_offset i). wp_step. eapply wp_rd_g; [done|guarded|intros c Hcc].
    set (j := set_icmp_code c (set_icmp_type t i)).
    assert (wf_info j) as Hj by (unfold j; auto with pacsni).
    destruct (info_extra_bounds j Hj) as [Hb Hl].
    change (wp F (x ← dissect_icmp_details (icmp_type j) (icmp_code j) (extra_info j) 128;
      x ← check_icmp_unreachable (icmp_type j) (icmp_code j) x 128;
      Ok (set_extra_info x j)) (λ i', wf_info i' ∧ without_icmp i' = without_icmp i)).
    wp_step. eapply wp_mono; [by apply icmp_details_spec; [|lia]|].
    intros x Hx. pose proof Hx as (Hxl & Hxb & _). wp_step.
    eapply wp_mono; [apply icmp_unreachable_spec; [done|lia|]|].
    { simpl. unfold is_u in Hcc. lia. }
    intros y Hy. apply wp_ret. split; [|done].
    apply wf_set_text_extra; [done|]. by eapply text_ok_trans.
  - wp_step. eapply wp_rd_g; [done|guarded|intros t Ht].
    cbv zeta. change (l4_offset (set_icmp_type t i)) with (l4_offset i). wp_step. eapply wp_rd_g; [done|guarded|intros c Hcc].
    set (j := set_icmp_code c (set_icmp_type t i)).
    assert (wf_info j) as Hj by (unfold j; auto with pacsni).
    destruct (info_extra_bounds j Hj) as [Hb Hl].
    apply wp_set_extra; [done| |done]. apply icmp6_details_spec; [done|lia].
Qed.

Lemma dissect_icmp_other packet caplen i :
  protocol i ∉ [1; 58] → dissect_icmp packet caplen i = Ok i.
Proof.
  intros Hn. do 2 (apply not_elem_of_cons in Hn as [? Hn]).
  unfold dissect_icmp. case_test; [lia|done].
Qed.

(** ** Payloads *)

(** The payload length claimed by the headers is backed by the buffer. *)
Definition honest (packet : list Z) (t : TransportInfo) (slack : Z) : Prop :=
  match t_payload_ptr t with
  | Some k => 0 ≤ k ∧ (0 < t_payload_len t → k + t_payload_len t + slack ≤ zlen packet)
  | None => t_payload_len t ≤ 0
  end.

Lemma bytes_payload packet t : bytes packet → bytes (payload_at packet t).
Proof. unfold payload_at. destruct (t_payload_ptr t); auto with pacsni. Qed.

Lemma honest_backed packet t slack :
  0 ≤ slack → honest packet t slack → t_payload_len t ≤ zlen (payload_at packet t).
Proof.
  unfold honest, payload_at. intros Hs. destruct (t_payload_ptr t) as [k|]; [|simpl; lia].
  intros [Hk Hl]. destruct (decide (0 < t_payload_len t)).
  - rewrite length_ptr_add; lia.
  - lia.
Qed.

Lemma honest_slack packet t slack :
  0 ≤ slack → 0 < t_payload_len t → is_Some (t_payload_ptr t) → honest packet t slack →
  t_payload_len t + slack ≤ zlen (payload_at packet t).
Proof.
  unfold honest, payload_at. intros Hs Hl [k ->] [Hk Hh]. rewrite length_ptr_add; lia.
Qed.

(** What the dissectors of a TCP payload read of it: at most 127 bytes, except
    that a request on port 80 is searched for its Host header. *)
Definition tcp_room (packet : list Z) (t : TransportInfo) (http : bool) : Prop :=
  match t_payload_ptr t with
  | Some k => 0 ≤ k ≤ zlen packet ∧
      let p := ptr_add packet k in let l := t_payload_len t in
      if http then http_room p l else Z.min l 127 ≤ zlen p
  | None => t_payload_len t ≤ 0
  end.

(** The record without what the dissectors of a TCP payload write. *)
Definition sans_texts (i : PacketInfo) : PacketInfo :=
  set_extra_info [] (set_app_layer_info [] (set_vxlan_vni 0 i)).

Definition texts_only (i j : PacketInfo) : Prop := wf_info j ∧ sans_texts j = sans_texts i.

Lemma sans_texts_core i j : sans_texts j = sans_texts i → core j = core i.
Proof. intros E. change (core (sans_texts j) = core (sans_texts i)). by rewrite E. Qed.

Lemma texts_only_ok i j : texts_only i j → info_ok i j.
Proof. intros [? ?]. split; [done|by apply sans_texts_core]. Qed.

Lemma texts_only_trans i j k : texts_only i j → texts_only j k → texts_only i k.
Proof. intros [_ ?] [? ?]. split; [done|congruence]. Qed.

Lemma dissect_vxlan_texts p l i : allows (dissect_vxlan p l i) (λ j, sans_texts j = sans_texts i).
Proof.
  apply wp_any. intros j. unfold dissect_vxlan. case_test; [by intros [= <-]|].
  intros (b4 & _ & H)%bind_Ok_inv. apply bind_Ok_inv in H as (b5 & _ & H).
  apply bind_Ok_inv in H as (b6 & _ & H). cbv zeta in H. by apply bind_Ok_inv in H as (a & _ & [= <-]).
Qed.

Section payloads.
Context (F : fault → Prop) (packet : list Z) (t : TransportInfo).
Context (Hp : bytes packet).

Lemma dissect_udp_spec i :
  wf_info i → guard F (honest packet t 0 ∧ 0 ∈ app_layer_info i) →
  wp F (dissect_udp packet t i) (info_ok i).
Proof.
  intros Hi Hg. pose proof (bytes_payload packet t Hp).
  assert (guard F (t_payload_len t ≤ zlen (payload_at packet t))) as Hg'.
  { eapply guard_mono; [exact Hg|]. intros [? _]. by eapply honest_backed. }
  destruct (info_extra_bounds i Hi), (info_dns_bounds i Hi).
  unfold dissect_udp. case_test; [|case_test; [|case_test]].
  - apply wp_set_dns; [done| |done]. apply dissect_dns_spec; [done|done|done|lia].
  - apply wp_set_extra; [done| |done]. by apply dissect_dhcp_spec; [| |lia|].
  - wp_step. eapply wp_mono; [by apply dissect_ntp_spec|]. intros j [Hj Hnul].
    eapply wp_mono; [apply dissect_ntp_core_spec; [done|by destruct Hj|]|].
    + destruct Hg as [?|[? ?]]; [by left|right]. split; [|auto].
      eapply honest_backed; [|done]. lia.
    + intros k Hk. by eapply info_ok_trans.
  - by apply wp_ret, info_ok_refl.
Qed.

Lemma dissect_tcp_payload_spec i :
  wf_info i → tls_sni i = zeros 64 → guard F (tcp_room packet t (port_is i 80)) →
  wp F (dissect_tcp_payload packet t i) (texts_only i).
Proof.
  intros Hi Htls Hg. pose proof (bytes_payload packet t Hp).
  destruct (info_extra_bounds i Hi).
  unfold dissect_tcp_payload. case_test; [|by apply wp_ret].
  apply andb_true_iff in E as [[k Hk]%bool_decide_eq_true Hl].
  unfold payload_at in *. rewrite Hk in *. unfold tcp_room in Hg. rewrite Hk in Hg.
  case_test; [|case_test].
  - apply wp_set_extra; [done| |done]. apply dissect_http_spec; [done|done|lia|done|done|].
    eapply guard_mono; [exact Hg|]. by intros [_ ?].
  - eapply wp_mono; [apply wp_with_eq, dissect_vxlan_spec; [done|done|]|].
    + eapply guard_mono; [exact Hg|]. intros [_ Hr]. cbv zeta in Hr. lia.
    + intros j [Hj [? _]]. split; [done|]. exact (allows_Ok _ _ _ (dissect_vxlan_texts _ _ _) Hj).
  - rewrite Htls. change (rd (zeros 64) 0) with (Ok 0). cbn [mbind res_bind Z.eqb].
    apply wp_set_extra; [done| |done]. apply dissect_app_common_spec; [done|done|lia|].
    eapply guard_mono; [exact Hg|]. intros [_ Hr]. cbv zeta in Hr. lia.
Qed.
End payloads.

(** ** Transport *)

Lemma without_options_core i j : without_options j = without_options i → core j = core i.
Proof.
  intros E. change (core (without_options j) = core (without_options i)). by rewrite E.
Qed.

Lemma check_tcp_anomalies_spec F t i : wf_info i → wp F (check_tcp_anomalies i t) (texts_only i).
Proof.
  intros Hi. unfold check_tcp_anomalies. destruct (info_extra_bounds i Hi).
  case_test; [|case_test; [|by apply wp_ret]].
  all: apply wp_set_extra; [done| |done]; apply wp_text; [done|auto with pacsni|lia].
Qed.

Definition tcp_of (t : TransportInfo) (i : PacketInfo) : PacketInfo :=
  set_tcp_win (t_window t) (set_tcp_ack (t_ack t) (set_tcp_seq (t_seq t)
    (set_tcp_flags (t_flags t) i))).

Definition ports_of (t : TransportInfo) (i : PacketInfo) : PacketInfo :=
  set_dst_port (t_dst_port t) (set_src_port (t_src_port t) i).

(** What the transport block determines of the record. *)
Definition transport_of (t : TransportInfo) (i : PacketInfo) : PacketInfo :=
  if protocol i =? 6 then tcp_of t (ports_of t i) else ports_of t i.

Lemma wf_tcp_of t i : wf_transport t → wf_info i → wf_info (tcp_of t i).
Proof. intros [] Hi. unfold tcp_of. auto 8 with pacsni. Qed.
Lemma wf_ports_of t i : wf_transport t → wf_info i → wf_info (ports_of t i).
Proof. intros [] Hi. unfold ports_of. auto 8 with pacsni. Qed.

Section transport.
Context (F : fault → Prop) (packet : list Z) (caplen : Z).
Context (Hp : bytes packet) (Hsmall : caplen < 2 ^ 31).

(** The part behind the options. *)
Lemma dissect_tcp_tail_spec t j :
  wf_info j → tls_sni j = zeros 64 → guard F (tcp_room packet t (port_is j 80)) →
  wp F (i ← check_tcp_anomalies j t; dissect_tcp_payload packet t i) (texts_only j).
Proof using Hp.
  intros Hj Htls Hg. wp_step.
  eapply wp_mono; [by apply check_tcp_anomalies_spec|]. intros j2 [Hj2 Hc2].
  assert (tls_sni j2 = zeros 64 ∧ port_is j2 80 = port_is j 80) as [Htls2 Hport].
  { change (tls_sni (sans_texts j2) = zeros 64 ∧ port_is (sans_texts j2) 80 = port_is j 80).
    rewrite Hc2. done. }
  eapply wp_mono; [apply dissect_tcp_payload_spec; [done|done|done|by rewrite Hport]|].
  intros j3 [? ?]. split; [done|congruence].
Qed.

Lemma dissect_tcp_spec ip t i :
  wf_info i → wf_transport t → wf_ip ip → tls_sni i = zeros 64 →
  guard F (tcp_room packet t (port_is i 80)) →
  wp F (dissect_tcp packet ip t i) (info_ok (tcp_of t i)).
Proof using Hp.
  intros Hi Ht Hip Htls Hg. unfold dissect_tcp. fold (tcp_of t i). cbv zeta.
  set (j := tcp_of t i). assert (wf_info j) as Hj by (by apply wf_tcp_of).
  change (set_tcp_win (t_window t) _) with j.
  pose proof (wf_l3_offset _ Hj) as Hl3. pose proof (wf_ipi_len _ Hip). unfold is_u in Hl3.
  wp_step. apply (wp_mono _ _ (info_ok j)).
  { unfold tcp_room in Hg. destruct (t_payload_ptr t) as [k|]; [|by apply wp_ret, info_ok_refl].
    eapply wp_mono; [apply parse_tcp_options_extended_spec; [done|lia| |done]|].
    - eapply guard_mono; [exact Hg|]. lia.
    - intros j' [? ?]. split; [done|by apply without_options_core]. }
  intros j1 [Hj1 Hc1].
  assert (tls_sni j1 = zeros 64 ∧ port_is j1 80 = port_is i 80) as [Htls1 Hport].
  { change (tls_sni (core j1) = zeros 64 ∧ port_is (core j1) 80 = port_is i 80). by rewrite Hc1. }
  eapply wp_mono; [apply dissect_tcp_tail_spec; [done|done|by rewrite Hport]|].
  intros j2 [? ?%sans_texts_core]. split; [done|congruence].
Qed.

(** The dissectors that look behind the IP header. *)
Definition l4_backed (i : PacketInfo) : Prop :=
  l4_offset i ≤ caplen ≤ zlen packet.

Lemma rest_len_backed off :
  0 ≤ off ≤ caplen → caplen ≤ zlen packet → rest_len caplen off ≤ zlen (ptr_add packet off).
Proof using Hsmall.
  intros Ho Hc. unfold rest_len. rewrite u32_small by (unfold is_u; lia).
  rewrite length_ptr_add by lia. unfold i32. rewrite Z.mod_small; lia.
Qed.

Lemma rest_len_guard i :
  wf_info i → guard F (l4_backed i) →
  guard F (rest_len caplen (l4_offset i) ≤ zlen (ptr_add packet (l4_offset i))).
Proof using Hsmall.
  intros Hi Hg. pose proof (wf_l4_offset _ Hi) as Hl. unfold is_u in Hl.
  eapply guard_mono; [exact Hg|]. intros [? ?]. apply rest_len_backed; lia.
Qed.

Lemma dissect_ospf_info_spec i :
  wf_info i → guard F (l4_backed i) → wp F (dissect_ospf_info packet caplen i) (info_ok i).
Proof using Hp Hsmall.
  intros Hi Hg. destruct (info_extra_bounds i Hi). unfold dissect_ospf_info.
  case_test; [|by apply wp_ret, info_ok_refl]. apply wp_set_extra; [done| |done].
  apply dissect_ospf_spec; [auto with pacsni|done|lia|by apply rest_len_guard].
Qed.

Lemma dissect_gre_info_spec i :
  wf_info i → guard F (l4_backed i) → wp F (dissect_gre_info packet caplen i) (info_ok i).
Proof using Hp Hsmall.
  intros Hi Hg. destruct (info_extra_bounds i Hi). unfold dissect_gre_info.
  case_test; [|by apply wp_ret, info_ok_refl]. apply wp_set_extra; [done| |done].
  apply dissect_gre_spec; [auto with pacsni|done|lia|by apply rest_len_guard].
Qed.

Lemma dissect_igmp_info_spec i :
  wf_info i → guard F (l4_backed i) → wp F (dissect_igmp_info packet caplen i) (info_ok i).
Proof using Hp Hsmall.
  intros Hi Hg. unfold dissect_igmp_info.
  case_test; [|by apply wp_ret, info_ok_refl].
  apply dissect_igmp_spec; [auto with pacsni|done|by apply rest_len_guard].
Qed.

Lemma l4_backed_core i j : core j = core i → l4_backed i → l4_backed j.
Proof. intros E. unfold l4_backed. by change (l4_offset j) with (l4_offset (core j)); rewrite E. Qed.

Lemma dissect_transport_spec ip t i :
  wf_info i → wf_transport t → wf_ip ip → tls_sni i = zeros 64 →
  guard F ((protocol i = 6 → tcp_room packet t (port_is (ports_of t i) 80)) ∧
       (protocol i = 17 → honest packet t 0) ∧ l4_backed i ∧ 0 ∈ app_layer_info i) →
  wp F (dissect_transport packet caplen ip t i) (info_ok (transport_of t i)).
Proof using Hp Hsmall.
  intros Hi Ht Hip Htls Hg. unfold dissect_transport. cbv zeta. fold (ports_of t i).
  change (set_dst_port (t_dst_port t) _) with (ports_of t i).
  set (j := ports_of t i). assert (wf_info j) as Hj by (by apply wf_ports_of).
  wp_step. apply (wp_mono _ _ (info_ok (transport_of t i))).
  { unfold transport_of. fold j. change (protocol j) with (protocol i).
    case_test; [|case_test; [|by apply wp_ret, info_ok_refl]].
    - apply dissect_tcp_spec; [done..|]. eapply guard_mono; [exact Hg|]. intros [Hr _]. apply Hr. lia.
    - apply dissect_udp_spec; [done|done|]. eapply guard_mono; [exact Hg|].
      intros (_ & Hh & _ & ?). split; [apply Hh; lia|done]. }
  intros j1 [Hj1 Hc1].
  assert (guard F (l4_backed j1)) as Hg1.
  { eapply guard_mono; [exact Hg|]. intros (_ & _ & ? & _).
    eapply l4_backed_core; [exact Hc1|]. unfold transport_of. by destruct (protocol i =? 6). }
  wp_step. eapply wp_mono; [by apply dissect_ospf_info_spec|]. intros j2 [Hj2 Hc2].
  assert (guard F (l4_backed j2)) as Hg2 by (by eapply guard_mono, l4_backed_core).
  wp_step. eapply wp_mono; [by apply dissect_gre_info_spec|]. intros j3 [Hj3 Hc3].
  assert (guard F (l4_backed j3)) as Hg3 by (by eapply guard_mono, l4_backed_core).
  eapply wp_mono; [by apply dissect_igmp_info_spec|]. intros j4 [Hj4 Hc4].
  split; [done|congruence].
Qed.
End transport.

(** ** IP packets *)

(** What the buffer must hold of an IP packet: the captured bytes; of an IPv6
    packet the Fragment headers; of a TCP payload what its dissectors read; and
    of a UDP payload the length its header claims. *)
Definition honest_ip (packet : list Z) (caplen : Z) (e : EthernetInfo) : Prop :=
  caplen ≤ zlen packet ∧
  ∀ ip, parse_ip_layer packet caplen (eth_header_len e) = Ok (Some ip) →
    (ipi_is_ipv6 ip = true →
      fragments_inside 11 packet caplen (eth_header_len e + 40) (ipi_protocol ip) 0 = true) ∧
    ∀ t, parse_transport_layer packet caplen (eth_header_len e) ip = Ok (Some t) →
      (ipi_protocol ip = 6 → tcp_room packet t ((t_src_port t =? 80) || (t_dst_port t =? 80))) ∧
      (ipi_protocol ip = 17 → honest packet t 0).

(** The state in which [dissect_ip] runs. *)
Record fresh (i : PacketInfo) : Prop := mk_fresh {
    fresh_wf : wf_info i;
    fresh_tls : tls_sni i = zeros 64;
    fresh_app : app_layer_info i = zeros 128;
    fresh_ext : ipv6_ext_count i = 0
  }.

Lemma fresh_header_of raw e :
  wf_raw raw → is_u 12 (eth_vlan_id e) → fresh (header_of raw e).
Proof. intros. split; [by apply wf_header_of|done..]. Qed.

(** What each block leaves alone, for the blocks that follow it. *)
Definition kept (i j : PacketInfo) : Prop :=
  header j = header i ∧ l4_offset j = l4_offset i ∧ app_layer_info j = app_layer_info i.

Lemma without_v6_kept i j : without_v6 j = without_v6 i → kept i j.
Proof.
  intros E. change (kept (without_v6 i) (without_v6 j)). by rewrite E.
Qed.

Lemma without_icmp_kept i j : without_icmp j = without_icmp i → kept i j.
Proof.
  intros E. change (kept (without_icmp i) (without_icmp j)). by rewrite E.
Qed.

Lemma kept_trans i j k : kept i j → kept j k → kept i k.
Proof. intros (?&?&?) (?&?&?). repeat split; congruence. Qed.

Lemma ip_of_keeps e ip i :
  header (ip_of e ip i) = header i ∧ app_layer_info (ip_of e ip i) = app_layer_info i ∧
  ipv6_ext_count (ip_of e ip i) = ipv6_ext_count i ∧
  is_ipv6 (ip_of e ip i) = b2z (ipi_is_ipv6 ip) ∧ protocol (ip_of e ip i) = ipi_protocol ip ∧
  l4_offset (ip_of e ip i) = u8 (eth_header_len e + ipi_header_len ip).
Proof. done. Qed.

Section ip.
Context (F : fault → Prop) (packet : list Z) (caplen : Z) (e : EthernetInfo).
Context (Hp : bytes packet) (Hsmall : caplen < 2 ^ 31).
Context (Heth : 14 ≤ eth_header_len e ≤ caplen).

Lemma l4_offset_bound ip i :
  wf_ip ip → eth_header_len e + ipi_header_len ip ≤ caplen →
  l4_offset (ip_of e ip i) ≤ caplen.
Proof using Heth.
  intros Hip Hle. destruct (ip_of_keeps e ip i) as (_&_&_&_&_&->). unfold u8.
  pose proof (wf_ipi_len _ Hip).
  pose proof (Z.mod_le (eth_header_len e + ipi_header_len ip) (2 ^ 8)). lia.
Qed.

(** The record between the IPv6 and ICMP blocks and the transport block. *)
Lemma before_transport_spec ip i :
  fresh i → wf_ip ip → ipi_header ip = eth_header_len e →
  eth_header_len e + ipi_header_len ip ≤ caplen →
  parse_ip_layer packet caplen (eth_header_len e) = Ok (Some ip) →
  guard F (l3_offset i = eth_header_len e ∧ honest_ip packet caplen e) →
  wp F (i ← set_ip e ip i; i ← dissect_ipv6 packet caplen ip i; dissect_icmp packet caplen i)
  (λ j, wf_info j ∧ kept (ip_of e ip i) j ∧
      (¬ is_ext (ipi_protocol ip) → protocol j = ipi_protocol ip) ∧
      (ipi_is_ipv6 ip = false → ipi_protocol ip ∉ [1; 58] → j = ip_of e ip i)).
Proof using Hp Hsmall Heth.
  intros [Hi Htls Happ Hext] Hip Hhdr Hend Hparse Hg.
  assert (guard F (caplen ≤ zlen packet)) as Hgc by (eapply guard_mono; [exact Hg|by intros (_ & [])]).
  rewrite set_ip_eq, bind_Ok by done. pose proof (wf_ip_of e ip i Hip Hi) as Hwf.
  destruct (ip_of_keeps e ip i) as (_ & _ & Hk3 & Hk4 & Hk5 & _).
  assert (l3_offset (ip_of e ip i) = l3_offset i) as Hk6 by done.
  generalize dependent (ip_of e ip i). intros j Hwf Hk3 Hk4 Hk5 Hk6.
  assert (is_ipv6 j ≠ 0 → ipi_is_ipv6 ip = true) as Hv.
  { rewrite Hk4. by destruct (ipi_is_ipv6 ip). }
  wp_step. eapply wp_mono; [apply dissect_ipv6_spec; try done|].
  - lia.
  - intros Hv6%Hv. by eapply parse_ip_layer_v6.
  - eapply guard_mono; [exact Hg|]. intros (Hl3 & Hc & Hh) Hv6%Hv. destruct (Hh ip Hparse) as [Hx _].
    pose proof (wf_ipi_v6 _ Hip Hv6). split; [lia|]. split; [lia|].
    rewrite Hk6, Hl3. by apply Hx.
  - lia.
  - congruence.
  - intros j1 ([Hj1 Hw1] & Heq1 & Hpr1).
    assert (ipi_is_ipv6 ip = false → j1 = j) as Hv4.
    { intros Hf. apply Heq1. by rewrite Hk4, Hf. }
    assert (¬ is_ext (ipi_protocol ip) → protocol j1 = ipi_protocol ip) as Hpr2.
    { intros Hx. destruct (decide (is_ipv6 j = 0)) as [Hz|Hz]; [by rewrite Heq1|by apply Hpr1]. }
    eapply wp_mono; [apply wp_with_eq; by apply dissect_icmp_spec|].
    intros j2 (Heq2 & Hj2 & Hw2). split; [done|]. split; [|split].
    + eapply kept_trans; [by apply without_v6_kept|by apply without_icmp_kept].
    + intros Hx. change (protocol (without_icmp j2) = ipi_protocol ip). rewrite Hw2. by apply Hpr2.
    + intros Hf Hpr. rewrite Hv4, dissect_icmp_other in Heq2 by (done || by rewrite Hk5).
      by injection Heq2.
Qed.

Lemma kept_app j k : kept j k → app_layer_info j = zeros 128 → 0 ∈ app_layer_info k.
Proof. intros (_ & _ & ->) ->. by left. Qed.

(** Only TCP and UDP have ports and payloads. *)
Lemma parse_transport_other ip :
  ipi_protocol ip ≠ 6 → ipi_protocol ip ≠ 17 →
  parse_transport_layer packet caplen (eth_header_len e) ip = Ok (Some zero_transport).
Proof using Type.
  intros H6 H17. unfold parse_transport_layer. case_test; [lia|]. case_test; [lia|done].
Qed.

Lemma dissect_ip_spec i :
  fresh i → guard F (l3_offset i = eth_header_len e ∧ honest_ip packet caplen e) →
  wp F (dissect_ip packet caplen e i) (header_ok i).
Proof using Hp Hsmall Heth.
  intros Hfresh Hg. unfold dissect_ip.
  assert (guard F (caplen ≤ zlen packet)) as Hgc by (eapply guard_mono; [exact Hg|by intros (_ & [])]).
  wp_step. eapply wp_mono; [apply wp_with_eq, parse_ip_layer_spec; try done; lia|].
  intros [ip|] [Hparse Hres]; [|by apply wp_ret; split; [destruct Hfresh|]].
  destruct Hres as (Hip & Hhdr & Hend).
  apply wp_bind3. eapply wp_mono; [by apply before_transport_spec|].
  intros j (Hj & Hk & Hpj & _). destruct (ip_of_keeps e ip i) as (Hh1 & Ha1 & _ & _ & _ & Hl1).
  pose proof (l4_offset_bound ip i Hip Hend) as Hl4.
  pose proof Hk as (Hh & Hl & Ha).
  wp_step. eapply wp_mono; [apply wp_with_eq, parse_transport_layer_spec; try done; lia|].
  intros [t|] [Htparse Htr]; [|apply wp_ret; split; [done|congruence]].
  destruct Htr as (Ht & _ & _).
  eapply wp_mono; [apply dissect_transport_spec; try done|].
  - assert (header j = header i) as E by congruence.
    destruct Hfresh as [_ Htls _ _]. unfold header in E. simplify_eq. congruence.
  - eapply guard_mono; [exact Hg|]. intros (_ & Hc & Hh'). destruct (Hh' ip Hparse) as [_ Hhon].
    destruct (Hhon t Htparse) as [H6 H17].
    assert (∀ n, n = 6 ∨ n = 17 → protocol j = n → ipi_protocol ip = n ∨ t = zero_transport) as Hcase.
    { intros n Hn E. destruct (decide (ipi_protocol ip = 6 ∨ ipi_protocol ip = 17)) as [Hd|Hd].
      - left. rewrite <-Hpj; [done|]. unfold is_ext. rewrite !elem_of_cons, elem_of_nil. lia.
      - right. rewrite parse_transport_other in Htparse by lia. by injection Htparse. }
    split; [|split; [|split]].
    + intros E. destruct (Hcase 6 ltac:(lia) E) as [E'| ->]; [by apply H6|]. by unfold tcp_room.
    + intros E. destruct (Hcase 17 ltac:(lia) E) as [E'| ->]; [by apply H17|]. by unfold honest.
    + split; [rewrite Hl; lia|done].
    + eapply kept_app; [done|]. rewrite Ha1. by destruct Hfresh.
  - intros k [Hk1 Hk2]. split; [done|]. apply core_header in Hk2. rewrite Hk2.
    assert (header (transport_of t j) = header j) as ->
      by (unfold transport_of; by destruct (protocol j =? 6)).
    congruence.
Qed.
End ip.

(** ** ARP, STP, LLDP *)

Section other.
Context (F : fault → Prop) (packet : list Z) (caplen : Z) (e : EthernetInfo).
Context (Hp : bytes packet) (Hsmall : caplen < 2 ^ 31).
Context (Heth : 14 ≤ eth_header_len e ≤ caplen).

(** The hardware address length of an ARP packet keeps the addresses the
code reads inside the buffer. *)
Definition honest_arp : Prop :=
  caplen ≤ zlen packet ∧
  ∀ hln, rd packet (eth_header_len e + 4) = Ok hln →
  eth_header_len e + 16 + 3 * hln ≤ zlen packet.

Lemma dissect_arp_spec i :
  wf_info i → guard F honest_arp → wp F (dissect_arp packet caplen e i) (header_ok i).
Proof using Hp Hsmall Heth.
  intros Hi Hg. unfold dissect_arp. cbv zeta. set (j := set_protocol 200 i).
  assert (wf_info j) as Hj by (unfold j; auto with pacsni).
  assert (guard F (caplen ≤ zlen packet)) as Hgc by (eapply guard_mono; [exact Hg|by intros []]).
  case_test; [|by apply wp_ret]. wp_step. eapply wp_load16_g; [done| |intros pro Hpro].
  { eapply guard_mono; [exact Hgc|]. pose proof (u32_range (eth_header_len e + 28)) as Hu.
    destruct (decide (eth_header_len e + 28 < 2 ^ 32)).
    - rewrite u32_small in E by (unfold is_u; lia). lia.
    - lia. }
  assert (eth_header_len e + 28 ≤ caplen) as Hend.
  { destruct (decide (eth_header_len e + 28 < 2 ^ 32)); [|lia].
    rewrite u32_small in E by (unfold is_u; lia). lia. }
  wp_step. eapply wp_guard; [exact Hg| |].
  { intros [? _]. apply wp_rd; [lia|done]. }
  intros hln Hhln. pose proof (rd_Ok_inv _ _ _ Hhln) as [_ Hlk].
  pose proof (bytes_lookup _ _ _ Hp Hlk) as Hb. unfold is_u in Hb.
  wp_step. eapply wp_rd_g; [done|guarded|intros pln Hpln].
  case_test; [|by apply wp_ret].
  destruct (wf_src_ip _ Hj) as [Hsl _], (wf_dst_ip _ Hj) as [Hdl _].
  assert (guard F (eth_header_len e + 16 + 3 * hln ≤ zlen packet)) as Hga.
  { eapply guard_mono; [exact Hg|]. intros [_ Hx]. auto. }
  wp_step. apply wp_memcpy_g.
  { eapply guard_mono; [exact Hga|]. rewrite Hsl. lia. }
  intros src Hsrc Hsrcl. wp_step. apply wp_memcpy_g.
  { eapply guard_mono; [exact Hga|]. change (dst_ip (set_src_ip src j)) with (dst_ip j).
    rewrite Hdl. lia. }
  intros dst Hdst Hdstl. apply wp_ret. split; [|done].
  assert (is_array 16 src) by (eapply is_array_memcpy; [done|by apply wf_src_ip|done]).
  assert (is_array 16 dst) by (eapply is_array_memcpy; [exact Hdst|exact (wf_dst_ip j Hj)|done]).
  auto with pacsni.
Qed.

Lemma dissect_llc_spec i :
  wf_info i → eth_header e = 0 → guard F (caplen ≤ zlen packet) →
  wp F (dissect_llc packet caplen e i) (header_ok i).
Proof using Hp Hsmall Heth.
  intros Hi He Hg. unfold dissect_llc. rewrite He. wp_step.
  eapply wp_rd_bytes_g; [guarded|intros dst Hdst].
  case_test; [|by apply wp_ret]. cbv zeta. set (j := set_protocol 202 i).
  assert (wf_info j) as Hj by (unfold j; auto with pacsni).
  destruct (info_extra_bounds j Hj). apply wp_set_extra; [done| |done].
  apply dissect_stp_spec; [auto with pacsni|done|lia|].
  eapply guard_mono; [exact Hg|]. intros. by apply rest_len_backed; [|lia|].
Qed.
End other.

(** *** LLDP *)

(** The elements the LLDP dissector reaches: none that names the chassis or the
    port is empty. *)
Fixpoint names_filled (fuel : nat) (p : list Z) (l o : Z) : bool :=
  match fuel with
  | O => true
  | S fuel =>
      if o + 2 <=? l then
        match load16 p o with
        | Ok v =>
            let type := Z.shiftr (ntohs v) 9 in
            let len := Z.land (ntohs v) 0x01FF in
            if (l <? o + 2 + len) || (type =? 0) then true
            else (negb ((type =? 1) || (type =? 2)) || (1 <=? len)) &&
              names_filled fuel p l (o + 2 + len)
        | Fault _ => true
        end
      else true
  end.

Section lldp.
Context (F : fault → Prop) (p : list Z) (l : Z).
Context (Hp : bytes p).

Lemma wp_lldp_copy n dst o len (Q : list Z → Prop) :
  is_array n dst → (32 ≤ n)%nat → 0 ≤ o → guard F (1 ≤ len ∧ o + len ≤ zlen p) →
  (∀ c, is_array n c → 0 ∈ c → Q c) → wp F (lldp_copy dst p o len) Q.
Proof using Hp.
  intros Hd Hn Ho Hg HQ. pose proof Hd as [Hl _]. unfold lldp_copy. cbv zeta. wp_step.
  apply wp_memcpy_g; [eapply guard_mono; [exact Hg|lia]|]. intros r Hr Hrl.
  apply wp_wr_g; [eapply guard_mono; [exact Hg|lia]|]. intros c Hc _.
  apply HQ; [|by eapply elem_of_wr]. eapply is_array_wr; [exact Hc|by eapply is_array_memcpy|done].
Qed.

(** Both names stay C strings. *)
Definition named (i : PacketInfo) : Prop := 0 ∈ lldp_chassis i ∧ 0 ∈ lldp_port i.

Lemma lldp_loop_spec fuel o i :
  wf_info i → named i → 0 ≤ o → (Z.to_nat (l - o) < fuel)%nat →
  guard F (l ≤ zlen p ∧ names_filled fuel p l o = true) →
  wp F (lldp_loop fuel p l o i)
    (λ j, info_ok i j ∧ named j ∧ app_layer_info j = app_layer_info i).
Proof using Hp.
  revert o i. induction fuel as [|fuel IH]; intros o i Hi Hn Ho Hf Hg; [lia|].
  cbn [lldp_loop names_filled] in *. case_test; [|by apply wp_ret].
  wp_step. eapply (wp_guard _ _ _ _ Hg). { intros [? _]. apply wp_load16; [done|lia|lia|done]. }
  intros v Hv. rewrite Hv in Hg. cbv zeta in *.
  assert (0 ≤ Z.land (ntohs v) 0x1FF ≤ 0x1FF) as Hlen by (apply land_le; lia).
  set (type := Z.shiftr (ntohs v) 9) in *. set (len := Z.land (ntohs v) 0x1FF) in *.
  case_test; [by apply wp_ret|]. cbn [orb] in Hg.
  assert (∀ i', info_ok i i' → named i' → app_layer_info i' = app_layer_info i → type ≠ 0 →
    wp F (lldp_loop fuel p l (o + 2 + len) i')
      (λ j, info_ok i j ∧ named j ∧ app_layer_info j = app_layer_info i)) as Hnext.
  { intros i' Hi' Hn' Ha' Hty. eapply wp_mono; [apply IH; [by destruct Hi'|done|lia|lia|]|].
    - eapply guard_mono; [exact Hg|]. intros [? Hfr]. split; [done|].
      destruct (Z.eqb_spec type 0); [done|]. by apply andb_true_iff in Hfr as [_ ?].
    - intros j (Hj & ? & Haj). split; [by eapply info_ok_trans|]. split; [done|congruence]. }
  assert (type = 1 ∨ type = 2 → guard F (1 ≤ len ∧ o + 2 + len ≤ zlen p)) as Hfill.
  { intros Hty. eapply guard_mono; [exact Hg|]. intros [? Hfr].
    destruct (Z.eqb_spec type 0); [lia|]. apply andb_true_iff in Hfr as [Hfr _]. lia. }
  case_test; [|case_test; [|case_test]].
  - wp_step. apply (wp_lldp_copy 32); [by apply wf_lldp_chassis|lia|lia|apply Hfill; lia|].
    intros c Hc H0. apply Hnext; [split; [by apply wf_set_lldp_chassis|done]|split; [done|apply Hn]|done|lia].
  - wp_step. apply (wp_lldp_copy 32); [by apply wf_lldp_port|lia|lia|apply Hfill; lia|].
    intros c Hc H0. apply Hnext; [split; [by apply wf_set_lldp_port|done]|split; [apply Hn|done]|done|lia].
  - by apply wp_ret.
  - apply Hnext; [by apply info_ok_refl|done|done|lia].
Qed.

Lemma dissect_lldp_spec i :
  wf_info i → named i →
  guard F (l ≤ zlen p ∧ names_filled (S (Z.to_nat l)) p l 0 = true) →
  wp F (dissect_lldp p l i) (info_ok i).
Proof using Hp.
  intros Hi Hn Hg. unfold dissect_lldp. wp_step.
  eapply wp_mono; [apply lldp_loop_spec; [done|done|lia|lia|done]|].
  intros j ([Hj Hc] & [Hc0 Hq0] & _). destruct (wf_lldp_chassis _ Hj), (wf_lldp_port _ Hj).
  wp_step. apply wp_cstring; [done|]. intros n _. wp_step. apply wp_cstring; [done|]. intros m _.
  eapply wp_mono; [apply (wp_app_text F i j); [done|done|]|by intros k [? _]].
  eauto 10 with pacsni.
Qed.
End lldp.

(** ** The copy of the frame *)

Section tail.
Context `{DoubleLaws D} (packet : list Z).
Context (Hp : bytes packet) (Hlen : length packet = 256%nat).

(** The copy is always in bounds; what it writes. *)
Lemma capture_frame_spec caplen i :
  0 < caplen → wf_info i →
  ensures (capture_frame packet caplen i) (λ j,
  let n := Z.min caplen 256 in let frame := take (Z.to_nat n) packet in
  wf_info j ∧ header j = header (set_payload (payload j) i) ∧ is_top (top_byte j) frame ∧
  calculate_entropy_scaled packet n = Ok (entropy_scaled j) ∧
  j = set_payload (frame ++ drop (Z.to_nat n) (payload i))
      (set_top_byte_freq (occ (top_byte j) frame * 100 / n) (set_top_byte (top_byte j)
      (set_entropy_scaled (entropy_scaled j) (set_payload_len n i))))).
Proof using All.
  intros Hc Hi. unfold capture_frame.
  assert ((if caplen <? MAX_PAYLOAD_SIZE then caplen else MAX_PAYLOAD_SIZE) = Z.min caplen 256)
  as -> by (unfold MAX_PAYLOAD_SIZE; case_test; lia).
  set (n := Z.min caplen 256). assert (0 < n ≤ 256) as Hn by lia. clearbody n. cbv zeta.
  rewrite u16_small by (unfold is_u; lia).
  set (j0 := set_payload_len n i).
  assert (wf_info j0) as Hj0 by (apply wf_set_payload_len; [unfold is_u; lia|done]).
  wp_step. eapply wp_mono; [apply wp_with_eq, calculate_entropy_scaled_spec; [done|lia|right; lia]|].
  intros v [Hv Hvr]. set (j1 := set_entropy_scaled v j0).
  assert (wf_info j1) as Hj1 by (unfold j1; auto with pacsni).
  wp_step. eapply wp_mono.
  { apply calculate_byte_stats_spec; [done|lia|lia|by apply wf_top_byte]. }
  intros j2. case_test; [lia|]. intros (top & Htop & Htb & ->).
  set (frame := take (Z.to_nat n) packet) in *.
  pose proof (is_top_share _ _ Htop) as Hs.
  assert (zlen frame = n) as Hfl by (unfold frame; rewrite length_take; lia).
  rewrite Hfl in Hs. specialize (Hs ltac:(lia)).
  set (j2 := set_top_byte_freq _ _).
  assert (wf_info j2) as Hj2.
  { unfold j2. apply wf_set_top_byte_freq; [unfold is_u; lia|]. by apply wf_set_top_byte. }
  change (payload j2) with (payload i). destruct (wf_payload _ Hi) as [Hpl Hpb].
  assert (memcpy (payload i) 0 packet 0 n = Ok (frame ++ drop (Z.to_nat n) (payload i))) as ->.
  { unfold memcpy, rd_bytes. case_test; [lia|]. case_test; [|lia].
  cbn [mbind res_bind]. change (drop (Z.to_nat 0) packet) with packet. fold frame.
  unfold blit. case_test; [|lia]. change (take (Z.to_nat 0) (payload i)) with (@nil Z).
  cbn [app]. do 3 f_equal. lia. }
  cbn [mbind res_bind]. apply wp_ret.
  split; [|split; [done|split; [exact Htop|by split]]].
  apply wf_set_payload; [|done]. split.
  - rewrite length_app, length_drop. lia.
  - apply bytes_app. split; [unfold frame; auto with pacsni|by apply bytes_drop].
Qed.

End tail.
