(* ===== verification/CaptureProps.v ===== *)
(** * Properties of the dissection of one packet

    What [dissect_raw_packet] guarantees for every packet, when it is free of
    faults, what it computes on a TCP frame, and where it differs from what
    its fields mean. *)

From Stdlib Require Import String.
From S2P Require Import Prelude CMemory PacketTypes Layers Frames TcpOptions Stats Entropy.
From S2P Require Import NameDissectors TextDissectors Capture.

(** ** The contract *)

Definition is_ip_type (ty : Z) : bool := (ty =? 0x0800) || (ty =? 0x86DD).

(** The frame types after which the frame itself is captured. *)
Definition known_type (ty : Z) : bool :=
  is_ip_type ty || (ty =? 0x0806) || (ty <=? 1500) || (ty =? 0x88cc).

(** What the copy of the frame leaves in the record. *)
Definition captured `{Double D} (raw : RawPacket) (j : PacketInfo) : Prop :=
  let n := Z.min (caplen (pkthdr raw)) 256 in
  let frame := take (Z.to_nat n) (data raw) in
  payload_len j = n ∧ payload j = frame ++ zeros (256 - length frame) ∧
  is_top (top_byte j) frame ∧ top_byte_freq j = occ (top_byte j) frame * 100 / n ∧
  calculate_entropy_scaled (data raw) n = Ok (entropy_scaled j).

(** The result, given what the Ethernet parser returned. *)
Definition dissected `{Double D} (raw : RawPacket) (info : PacketInfo) (j : PacketInfo) : Prop :=
  match parse_ethernet_layer (data raw) (caplen (pkthdr raw)) with
  | Ok (Some e) =>
      wf_info j ∧ header j = header (set_payload (payload j) (header_of raw e)) ∧
      if known_type (eth_ether_type e) then captured raw j else j = header_of raw e
  | _ => j = info
  end.

(** What the dissection reads is in the buffer: the frame fits; an IP packet and
    an ARP packet hold what their own length fields promise; an LLDP element that
    names the chassis or the port is not empty. *)
Definition honest_frame (raw : RawPacket) : Prop :=
  let n := caplen (pkthdr raw) in
  n ≤ 256 ∧ ∀ e, parse_ethernet_layer (data raw) n = Ok (Some e) →
    (is_ip_type (eth_ether_type e) = true → honest_ip (data raw) n e) ∧
    (eth_ether_type e = 0x0806 → honest_arp (data raw) n e) ∧
    (eth_ether_type e = 0x88cc →
      names_filled (S (Z.to_nat (n - eth_header_len e))) (ptr_add (data raw) (eth_header_len e))
        (n - eth_header_len e) 0 = true).

Lemma header_set_payload p i j :
  header i = header j → header (set_payload p i) = header (set_payload p j).
Proof. unfold header. cbn. congruence. Qed.

Section contract.
Context `{DoubleLaws D} (F : fault → Prop) (raw : RawPacket) (info : PacketInfo).
Context (Hraw : wf_raw raw) (Hg : guard F (honest_frame raw)).

Lemma capture_frame_dissected i e :
  header_ok (header_of raw e) i → 14 ≤ caplen (pkthdr raw) →
  wp F (capture_frame (data raw) (caplen (pkthdr raw)) i) (λ j,
  wf_info j ∧ header j = header (set_payload (payload j) (header_of raw e)) ∧ captured raw j).
Proof using D H H0 Hraw.
  intros [Hi Hh] Hc. destruct (wf_data _ Hraw) as [Hl Hb].
  eapply wp_weaken; [apply capture_frame_spec; [done|done|lia|done]|by intros ? []|].
  intros j (Hj & Hhj & Htop & Hent & Heq).
  assert (payload i = payload (header_of raw e)) as Hpay by (unfold header in Hh; congruence).
  change (payload (header_of raw e)) with (zeros 256) in Hpay.
  assert (header (set_payload (payload j) i)
      = header (set_payload (payload j) (header_of raw e))) as Hset.
  { by apply header_set_payload. }
  split; [done|]. split; [congruence|]. unfold captured. cbv zeta in *.
  set (n := Z.min (caplen (pkthdr raw)) 256) in *.
  set (frame := take (Z.to_nat n) (data raw)) in *.
  split; [by rewrite Heq|]. split; [|split; [done|split; [by rewrite Heq at 1|done]]].
  rewrite Heq. cbn [payload set_payload]. rewrite Hpay, drop_replicate.
  do 2 f_equal. unfold frame. rewrite length_take. lia.
Qed.

Lemma dissect_raw_packet_spec : wp F (dissect_raw_packet raw info) (dissected raw info).
Proof using All.
  destruct (wf_data _ Hraw) as [Hl Hb]. pose proof (wf_caplen _ Hraw) as Hc.
  unfold dissect_raw_packet, dissected. cbv zeta.
  assert (guard F (caplen (pkthdr raw) ≤ zlen (data raw))) as Hgc.
  { eapply guard_mono; [exact Hg|]. intros [? _]. lia. }
  wp_step. eapply wp_mono; [apply wp_with_eq, parse_ethernet_layer_spec; try done|].
  intros [e|] [Heq Hres]; [|by rewrite Heq]. rewrite Heq.
  destruct Hres as (He0 & Hhl & Hmod & Hty & Hvid & Hlast).
  rewrite set_header_eq, bind_Ok by done.
  pose proof (fresh_header_of raw e Hraw Hvid) as Hfresh.
  pose proof (fresh_wf _ Hfresh) as Hwf.
  assert (14 ≤ caplen (pkthdr raw)) as H14 by lia.
  assert (∀ m, wp F m (header_ok (header_of raw e)) → known_type (eth_ether_type e) = true →
    wp F (i ← m; capture_frame (data raw) (caplen (pkthdr raw)) i) (λ j,
    wf_info j ∧ header j = header (set_payload (payload j) (header_of raw e)) ∧
    if known_type (eth_ether_type e) then captured raw j else j = header_of raw e)) as Hfin.
  { intros m Hm Hk. wp_step. eapply wp_mono; [exact Hm|]. intros i Hi. rewrite Hk.
    by apply capture_frame_dissected. }
  unfold known_type, is_ip_type in *.
  case_test; [|case_test; [|case_test; [|case_test]]].
  - apply Hfin; [|lia]. apply dissect_ip_spec; [done|lia|lia|done|].
    eapply guard_mono; [exact Hg|]. intros [Hn Hh]. split; [|by apply (Hh e)].
    apply u8_small. unfold is_u. destruct (decide (eth_header_len e = 256)) as [E256|]; [|lia].
    by rewrite E256 in Hmod.
  - apply Hfin; [|lia]. apply dissect_arp_spec; [done|lia|lia|done|].
    eapply guard_mono; [exact Hg|]. intros [_ Hh]. apply (Hh e); [done|lia].
  - apply Hfin; [|lia]. by apply dissect_llc_spec; [|lia|lia| | |].
  - apply Hfin; [|lia]. eapply wp_mono; [apply dissect_lldp_spec|apply info_ok_header].
    + auto with pacsni.
    + done.
    + split; by left.
    + assert (rest_len (caplen (pkthdr raw)) (eth_header_len e) = caplen (pkthdr raw) - eth_header_len e) as ->.
      { unfold rest_len, i32. rewrite u32_small by (unfold is_u; lia). rewrite Z.mod_small; lia. }
      eapply guard_mono; [exact Hg|]. intros [Hn Hh]. rewrite length_ptr_add by lia.
      split; [lia|]. apply (Hh e Heq). lia.
  - apply wp_ret. split; [done|]. split; [done|]. by case_match; [lia|].
Qed.
End contract.

(** ** Frames in the buffer *)

(** The record without what the copy of the frame writes. *)
Definition uncaptured (j : PacketInfo) : PacketInfo :=
  set_payload (zeros 256) (set_top_byte_freq 0 (set_top_byte 0 (set_entropy_scaled 0
    (set_payload_len 0 j)))).

(** The buffer of the raw packet starts with the frame. *)
Definition holds_frame (raw : RawPacket) (p : list Z) : Prop :=
  caplen (pkthdr raw) = zlen p ∧ ∃ junk, data raw = p ++ junk.

(** ** Address Resolution Protocol *)

(** An Ethernet/IPv4 ARP packet (RFC 826). *)
Definition build_arp (op : Z) (sha spa tha tpa : list Z) : list Z :=
  be16 1 ++ be16 0x0800 ++ [6; 4] ++ be16 op ++ sha ++ spa ++ tha ++ tpa.

(** ** IPv6 *)

Definition build_ipv6 (tc flow plen nxt hlim : Z) (src dst : list Z) : list Z :=
  be32 (6 * 2 ^ 28 + tc * 2 ^ 20 + flow) ++ be16 plen ++ [nxt; hlim] ++ src ++ dst.

Definition ipv6_info (eth_hlen tc nxt hlim : Z) (src dst : list Z) : IpInfo :=
  mkIpInfo eth_hlen 40 src dst nxt hlim tc 0 true false.

(** ** Concrete packets *)

(** An SSH banner in a tagged frame with two TCP options. *)
Definition ssh_frame : tcp_frame := {|
    f_dst := [0; 1; 2; 3; 4; 5]; f_src := [6; 7; 8; 9; 10; 11]; f_tags := [(0x8100, 0x2005)];
    f_tos := 0; f_id := 77; f_frag := 0x4000; f_ttl := 64; f_sum := 0;
    f_src_ip := [10; 0; 0; 1]; f_dst_ip := [10; 0; 0; 2]; f_words := 0; f_opts := [];
    f_sport := 22; f_dport := 40000; f_seq := 1000; f_ack := 2000; f_flags := 0x18;
    f_win := 502; f_tcp_sum := 0; f_urg := 0; f_tcp_words := 1; f_tcp_opts := [2; 4; 5; 180];
    f_payload := str "SSH-2.0-OpenSSH" ++ [13; 10]; f_trailer := [0; 0]
  |}.

(** The raw packet that holds a frame, with zeros behind a short one. *)
Definition raw_of (p : list Z) : RawPacket :=
  mkRawPacket (mkPkthdr 1700000000 5 (zlen p) (zlen p))
    (take 256 (p ++ zeros 256)) 0.

Lemma wf_ssh_frame : wf_frame ssh_frame.
Proof. constructor; by_decide. Qed.

Lemma wf_ssh_raw : wf_raw (raw_of (build_frame ssh_frame)).
Proof. constructor; by_decide. Qed.

Lemma ssh_honest : honest_frame (raw_of (build_frame ssh_frame)).
Proof.
  split; [by_decide|]. intros e He. vm_compute in He. injection He as <-.
  split_and!; intros Ht; try (by vm_compute in Ht). split; [by_decide|].
  intros ip Hip. vm_compute in Hip. injection Hip as <-. split; [done|].
  intros t Htr. vm_compute in Htr. injection Htr as <-. split; [|done]. intros _. split; by_decide.
Qed.

(** An LLDP frame: chassis, port, time to live, end. *)
Definition lldp_frame : list Z :=
  [1; 0x80; 0xC2; 0; 0; 0x0E] ++ [6; 7; 8; 9; 10; 11] ++ be16 0x88cc ++
  be16 (1 * 512 + 4) ++ [7] ++ str "sw1" ++ be16 (2 * 512 + 5) ++ [7] ++ str "eth0" ++
  be16 (3 * 512 + 2) ++ be16 120 ++ be16 0.

Lemma wf_lldp_raw : wf_raw (raw_of lldp_frame).
Proof. constructor; by_decide. Qed.

Lemma lldp_honest : honest_frame (raw_of lldp_frame).
Proof.
  split; [by_decide|]. intros e He. vm_compute in He. injection He as <-.
  split_and!; intros Ht; [by vm_compute in Ht..|]. by vm_compute.
Qed.

(** ** Properties *)

(** C1. Whatever bytes were captured: if the dissection returns, its result is
    a well-typed record; a frame shorter than an Ethernet header leaves the
    caller's record as it was; the fields of the header, and the fields that
    no code writes, are those of the frame; a frame of a type the program
    knows is copied, at most 256 bytes of it, with its most frequent byte,
    that byte's share and its entropy, and any other frame yields the header
    fields alone. *)
Theorem dissect_raw_packet_contract `{DoubleLaws D} (raw : RawPacket) (info : PacketInfo)
    (Hraw : wf_raw raw) :
  allows (dissect_raw_packet raw info) (dissected raw info).
Proof. apply dissect_raw_packet_spec; [done|]. apply guard_any. Qed.

Lemma dissect_raw_packet_contract_witness :
  wf_raw (raw_of (build_frame ssh_frame)) ∧
  allows (dissect_raw_packet (raw_of (build_frame ssh_frame)) zero_info)
    (dissected (raw_of (build_frame ssh_frame)) zero_info).
Proof.
  split; [exact wf_ssh_raw|].
  exact (dissect_raw_packet_contract (raw_of (build_frame ssh_frame)) zero_info wf_ssh_raw).
Defined.


(** C6. If the buffer holds what the dissection reads, it returns: no access
    leaves the buffer, the record or a text field, no loop diverges and no cast
    overflows.  That is: the frame fits the 256 bytes; of an ARP packet, the
    addresses at the offsets its hardware length gives; of an IPv6 packet, the
    first byte of each Fragment header; of a UDP payload, its length; of a TCP
    payload, 127 bytes or all of it and, on port 80, of a payload that is a
    request, a Host header with 32 bytes or a zero byte behind it, or else the
    whole payload; and an LLDP element that names the chassis or the port is not
    empty. *)
Theorem dissect_raw_packet_safe `{DoubleLaws D} (raw : RawPacket) (info : PacketInfo)
    (Hraw : wf_raw raw) (Hhon : honest_frame raw) :
  ensures (dissect_raw_packet raw info) (dissected raw info).
Proof. apply dissect_raw_packet_spec; [done|]. by right. Qed.

(** The SSH banner, and an LLDP frame that names its chassis and its port. *)
Lemma dissect_raw_packet_safe_witness :
  honest_frame (raw_of (build_frame ssh_frame)) ∧
  ensures (dissect_raw_packet (raw_of (build_frame ssh_frame)) zero_info)
    (dissected (raw_of (build_frame ssh_frame)) zero_info) ∧
  honest_frame (raw_of lldp_frame) ∧
  ensures (dissect_raw_packet (raw_of lldp_frame) zero_info) (dissected (raw_of lldp_frame) zero_info).
Proof.
  split; [exact ssh_honest|]. split; [|split; [exact lldp_honest|]].
  - exact (dissect_raw_packet_safe (raw_of (build_frame ssh_frame)) zero_info wf_ssh_raw ssh_honest).
  - exact (dissect_raw_packet_safe (raw_of lldp_frame) zero_info wf_lldp_raw lldp_honest).
Defined.


(** The dissector of TLS server names is never used: it is guarded by a
    server name that is already there, so every dissected frame has an empty
    [tls_sni]. *)
Theorem tls_sni_never_written `{DoubleLaws D} (raw : RawPacket) (info : PacketInfo)
    (Hraw : wf_raw raw) (Hlen : 14 ≤ caplen (pkthdr raw)) :
  allows (dissect_raw_packet raw info) (λ j, tls_sni j = zeros 64).
Proof.
  destruct (wf_data _ Hraw) as [Hl Hb]. pose proof (wf_caplen _ Hraw) as Hc.
  pose proof (parse_ethernet_layer_spec any_fault _ _ Hb Hc (guard_any _)) as He.
  destruct (parse_ethernet_layer (data raw) (caplen (pkthdr raw))) as [[e|]|] eqn:Hpe.
  - eapply wp_mono; [apply dissect_raw_packet_spec; [done|apply guard_any]|].
    intros j. unfold dissected. rewrite Hpe. intros (_ & Hh & _).
    change (tls_sni j = tls_sni (set_payload (payload j) (header_of raw e))).
    unfold header in Hh. congruence.
  - simpl in He. lia.
  - unfold dissect_raw_packet. cbv zeta. by rewrite Hpe.
Qed.

Lemma tls_sni_never_written_witness :
  14 ≤ caplen (pkthdr (raw_of (build_frame ssh_frame))) ∧
  allows (dissect_raw_packet (raw_of (build_frame ssh_frame)) zero_info)
    (λ j, tls_sni j = zeros 64).
Proof.
  assert (14 ≤ caplen (pkthdr (raw_of (build_frame ssh_frame)))) as H by by_decide.
  split; [exact H|].
  exact (tls_sni_never_written (raw_of (build_frame ssh_frame)) zero_info wf_ssh_raw H).
Defined.


(** A packet shorter than an Ethernet header is not dissected and the
    record is not cleared: the worker then queues its uninitialised local
    variable. *)
Theorem short_frame_not_dissected `{Double D} (raw : RawPacket) (info : PacketInfo)
    (Hlen : caplen (pkthdr raw) < 14) :
  dissect_raw_packet raw info = Ok info.
Proof. unfold dissect_raw_packet, parse_ethernet_layer. cbv zeta. by case_test; [|lia]. Qed.

Lemma short_frame_not_dissected_witness :
  caplen (pkthdr (raw_of [1; 2; 3])) < 14 ∧
  dissect_raw_packet (raw_of [1; 2; 3]) (set_src_port 99 zero_info)
  = Ok (set_src_port 99 zero_info).
Proof.
  assert (caplen (pkthdr (raw_of [1; 2; 3])) < 14) as H by reflexivity.
  split; [exact H|].
  exact (short_frame_not_dissected (raw_of [1; 2; 3]) (set_src_port 99 zero_info) H).
Defined.


(** C35. On a correct Ethernet/IPv4 ARP packet the code reads its two addresses
    at the wrong offsets: it records the last four bytes of the target's MAC
    address as the source address and four bytes behind the packet as the
    destination address. *)
Theorem arp_addresses_misread (pre sha spa tha tpa behind : list Z) (op caplen : Z)
    (e : EthernetInfo) (i : PacketInfo)
    (Hpre : eth_header_len e = zlen pre) (Hsha : length sha = 6%nat) (Hspa : length spa = 4%nat)
    (Htha : length tha = 6%nat) (Htpa : length tpa = 4%nat) (Hbehind : 6 ≤ zlen behind)
    (Hcap : zlen pre + 28 ≤ caplen < 2 ^ 32)
    (Hs : src_ip i = zeros 16) (Hd : dst_ip i = zeros 16) :
  ∃ i', dissect_arp (pre ++ build_arp op sha spa tha tpa ++ behind) caplen e i = Ok i' ∧
    src_ip i' = zeros 12 ++ drop 2 tha ∧ dst_ip i' = zeros 12 ++ take 4 (drop 2 behind).
Proof.
  set (q := build_arp op sha spa tha tpa ++ behind).
  destruct tha as [|t0 [|t1 tha]]; [done..|].
  destruct behind as [|b0 [|b1 behind]]; [simpl in *; lia..|].
  set (front := be16 1 ++ be16 0x0800 ++ [6; 4] ++ be16 op ++ sha ++ spa ++ [t0; t1]).
  assert (q = front ++ tha ++ (tpa ++ b0 :: b1 :: behind)) as Hq.
  { unfold q, front, build_arp. by rewrite <- !(assoc_L (++)). }
  assert (q = (front ++ tha ++ tpa ++ [b0; b1]) ++ take 4 behind ++ drop 4 behind) as Hq2.
  { rewrite Hq, take_drop. by rewrite <- !(assoc_L (++)). }
  assert (length front = 20%nat) as Hf by (unfold front; rewrite !length_app; simpl in *; lia).
  assert (length tha = 4%nat) as Ht by (simpl in *; lia).
  assert (4 ≤ zlen behind) as Hb by (simpl in *; lia).
  unfold dissect_arp. cbv zeta. rewrite Hpre, u32_small by (unfold is_u; lia).
  case_test; [|lia]. rewrite load16_app_r by lia.
  change (load16 q 2) with (Ok (ntohs 0x0800)). rewrite bind_Ok, ntohs_invol by done.
  rewrite !rd_app_r by lia. change (rd q 4) with (Ok 6). change (rd q 5) with (Ok 4).
  rewrite !bind_Ok. change ((0x0800 =? 0x0800) && (4 =? 4)) with true. cbv iota.
  replace (zlen pre + 8 + 2 * 6) with (zlen pre + 20) by lia.
  rewrite memcpy_app_r by lia. cbn [set_protocol src_ip dst_ip set_src_ip]. rewrite Hs.
  assert (∀ dst a w r off, q = a ++ w ++ r → off = zlen a → length w = 4%nat →
    dst = zeros 16 → memcpy dst 12 q off 4 = Ok (zeros 12 ++ w)) as Hcopy.
  { intros dst a w r off -> -> Hw ->. unfold memcpy, rd_bytes. case_test; [lia|].
    rewrite !length_app. case_test; [|lia]. rewrite bind_Ok, Nat2Z.id, drop_app_length.
    rewrite take_app_length' by lia. unfold blit. rewrite Hw.
    change (Ok (zeros 12 ++ w ++ []) = Ok (zeros 12 ++ w)). by rewrite app_nil_r. }
  rewrite (Hcopy _ front tha (tpa ++ b0 :: b1 :: behind)) by (done || lia).
  rewrite bind_Ok. replace (zlen pre + 20 + 4 + 6) with (zlen pre + 30) by lia.
  rewrite memcpy_app_r by lia. cbn [set_protocol src_ip dst_ip set_src_ip]. rewrite Hd.
  rewrite (Hcopy _ (front ++ tha ++ tpa ++ [b0; b1]) (take 4 behind) (drop 4 behind)).
  - rewrite bind_Ok. eexists. split; [done|]. done.
  - done.
  - rewrite !length_app. cbn [length]. lia.
  - rewrite length_take. lia.
  - done.
Qed.

(** A request for 10.0.0.2 in a frame without tags, padded as on the wire. *)
Lemma arp_addresses_misread_witness :
  ∃ i', dissect_arp (zeros 14 ++ build_arp 1 [6; 7; 8; 9; 10; 11] [10; 0; 0; 1] (zeros 6)
                       [10; 0; 0; 2] ++ zeros 18) 60 (mkEthernetInfo 0 14 0x0806 0) zero_info
          = Ok i' ∧
    src_ip i' = zeros 12 ++ drop 2 (zeros 6) ∧ dst_ip i' = zeros 12 ++ take 4 (drop 2 (zeros 18)).
Proof.
  apply (arp_addresses_misread (zeros 14) [6; 7; 8; 9; 10; 11] [10; 0; 0; 1] (zeros 6)
    [10; 0; 0; 2] (zeros 18) 1 60 (mkEthernetInfo 0 14 0x0806 0) zero_info);
    (reflexivity || (simpl; lia)).
Defined.

(** The transport header behind an IPv6 extension header is not parsed:
    the transport parser looks at the first next-header value while the
    record's protocol is the last one, so a TCP or UDP packet with an
    extension header is reported with that protocol and ports 0. *)
Theorem ipv6_extension_hides_ports (packet : list Z) (caplen : Z) (e : EthernetInfo)
    (ip : IpInfo) (i : PacketInfo) (Hp : bytes packet) (Hsmall : caplen < 2 ^ 31)
    (Heth : 14 ≤ eth_header_len e ≤ caplen) (Hi : fresh i)
    (Hparse : parse_ip_layer packet caplen (eth_header_len e) = Ok (Some ip))
    (Hext : ipi_protocol ip ∈ [0; 43; 44; 60]) :
  allows (dissect_ip packet caplen e i) (λ j, src_port j = 0 ∧ dst_port j = 0).
Proof.
  pose proof (parse_ip_layer_spec any_fault packet caplen (eth_header_len e) Hp
    (guard_any _) Hsmall ltac:(lia)) as Hres. rewrite Hparse in Hres.
  destruct Hres as (Hip & Hhdr & Hend).
  assert (parse_transport_layer packet caplen (eth_header_len e) ip = Ok (Some zero_transport))
    as Htparse.
  { unfold parse_transport_layer. rewrite !elem_of_cons in Hext.
    destruct Hext as [->|[->|[->|[->|[]%elem_of_nil]]]]; done. }
  unfold dissect_ip. rewrite Hparse, bind_Ok. apply wp_bind3.
  eapply wp_mono; [apply before_transport_spec; [done..|apply guard_any]|].
  intros j (Hj & (Hh & _) & _). rewrite Htparse, bind_Ok.
  eapply wp_mono.
  { apply dissect_transport_spec; try done; [|apply guard_any].
    destruct (ip_of_keeps e ip i) as (Hh1 & _), Hi as [_ Htls _ _].
    unfold header in Hh, Hh1. congruence. }
  intros k [_ Hk].
  assert (∀ x, core k = core x → src_port k = src_port x ∧ dst_port k = dst_port x) as Hports.
  { intros x Hx. split; [change (src_port (core k) = src_port (core x))
      |change (dst_port (core k) = dst_port (core x))]; by rewrite Hx. }
  destruct (Hports _ Hk) as [-> ->]. unfold transport_of. by destruct (protocol j =? 6).
Qed.

(** A TCP segment from port 443 behind a hop-by-hop options header. *)
Definition ipv6_packet : list Z :=
  zeros 12 ++ be16 0x86DD ++ build_ipv6 0 0 28 0 64 (zeros 15 ++ [1]) (zeros 15 ++ [2]) ++
  [6; 0; 0; 0; 0; 0; 0; 0] ++ build_tcp 0 443 40000 1 2 0x10 100 0 0 [].

Lemma ipv6_extension_hides_ports_witness :
  let e := mkEthernetInfo 0 14 0x86DD 0 in
  let ip := ipv6_info 14 0 0 64 (zeros 15 ++ [1]) (zeros 15 ++ [2]) in
  parse_ip_layer ipv6_packet 82 14 = Ok (Some ip) ∧
  allows (dissect_ip ipv6_packet 82 e zero_info) (λ j, src_port j = 0 ∧ dst_port j = 0).
Proof.
  intros e ip. assert (parse_ip_layer ipv6_packet 82 14 = Ok (Some ip)) as H
    by (vm_compute; reflexivity).
  split; [exact H|].
  apply (ipv6_extension_hides_ports ipv6_packet 82 e ip zero_info); [by_decide|lia| | |exact H|].
  - simpl. lia.
  - split; [exact wf_zero_info|reflexivity..].
  - by_decide.
Defined.

(** The payload length of a TCP segment over IPv6 is computed from bytes 2
    and 3 of the IP header, where IPv4 has its total length and IPv6 has the
    low half of the flow label: the payload-length field of the packet is
    ignored. *)
Theorem ipv6_tcp_length_is_flow_label (pre : list Z) (tc flow plen hlim : Z) (src dst : list Z)
    (m sp dp seq ack flags win sum urg : Z) (opts rest : list Z)
    (Hm : 0 ≤ m ≤ 10) (Ho : zlen opts = 4 * m) (Hsp : is_u 16 sp) (Hdp : is_u 16 dp)
    (Hseq : is_u 32 seq) (Hack : is_u 32 ack) (Hwin : is_u 16 win) (Htc : is_u 8 tc)
    (Hflow : is_u 20 flow) (Hsrc : length src = 16%nat) (Hdst : length dst = 16%nat) :
  let p := pre ++ build_ipv6 tc flow plen 6 hlim src dst ++
           build_tcp m sp dp seq ack flags win sum urg opts ++ rest in
  zlen p < 2 ^ 31 →
  ∃ t, parse_transport_layer p (zlen p) (zlen pre) (ipv6_info (zlen pre) tc 6 hlim src dst)
       = Ok (Some t) ∧ t_payload_len t = flow mod 2 ^ 16 - 40 - (20 + 4 * m).
Proof.
  intros p Hp. set (ip6 := build_ipv6 tc flow plen 6 hlim src dst) in *.
  assert (zlen ip6 = 40) as H6.
  { unfold ip6, build_ipv6, be32. rewrite !length_app, !length_be16. cbn [length]. lia. }
  assert (p = (pre ++ ip6) ++ build_tcp m sp dp seq ack flags win sum urg opts ++ rest) as Hsplit
    by (unfold p; by rewrite <- (assoc_L (++))).
  set (total := flow mod 2 ^ 16). eexists. split.
  - rewrite Hsplit. rewrite Hsplit in Hp.
    apply (parse_build_tcp (pre ++ ip6) _ (zlen pre) total); try done.
    + unfold total. apply is_u_mod. lia.
    + simpl ipi_header_len. rewrite length_app. lia.
    + rewrite <- Hsplit. unfold p. simpl ipi_header. rewrite load16_app_r by lia.
      unfold ip6, build_ipv6, be32. rewrite <- !(assoc_L (++)). rewrite load16_skip_be16.
      rewrite load16_be16. do 2 f_equal. unfold total. unfold is_u in *.
      replace (6 * 2 ^ 28 + tc * 2 ^ 20 + flow)
        with (flow + (6 * 2 ^ 12 + tc * 2 ^ 4) * 2 ^ 16) by lia.
      apply Z.mod_add. lia.
  - done.
Qed.

Lemma ipv6_tcp_length_is_flow_label_witness :
  ∃ t, parse_transport_layer (zeros 14 ++ build_ipv6 0 0xABCDE 25 6 64 (zeros 16) (zeros 16) ++
           build_tcp 0 443 40000 1 2 0x10 100 0 0 [] ++ str "hello") 79 14
         (ipv6_info 14 0 6 64 (zeros 16) (zeros 16)) = Ok (Some t) ∧
    t_payload_len t = 0xBCDE - 40 - 20.
Proof.
  apply (ipv6_tcp_length_is_flow_label (zeros 14) 0 0xABCDE 25 64 (zeros 16) (zeros 16)
    0 443 40000 1 2 0x10 100 0 0 [] (str "hello"));
    (reflexivity || (unfold is_u; lia) || by_decide).
Defined.

(** The keep-alive branch is dead: while the anomalies are checked the
    record has no captured length yet, so a segment is either reported as a
    zero-window probe, exactly when it is an ACK with window 0 and without
    SYN, FIN and RST, or the check changes nothing. *)
Theorem keep_alive_never_reported (packet : list Z) (o h : Z) (i : PacketInfo)
    (t : TransportInfo) (Hp : bytes packet) (Ho : 0 ≤ o) (Hi : wf_info i)
    (Hlen : payload_len i = 0) :
  allows (parse_tcp_options_extended packet o h i) (λ j,
    check_tcp_anomalies j t =
      if (t_window t =? 0) && flag (t_flags t) 0x10 && negb (flag (t_flags t) 7) then
        x ← snprintf (extra_info j) 0 128 (str "TCP ZeroWindow"); Ok (set_extra_info x j)
      else Ok j).
Proof.
  eapply wp_mono; [by apply parse_tcp_options_extended_spec, Hi; try apply guard_any|].
  intros j [_ Hj]. unfold check_tcp_anomalies. cbv zeta.
  change (Z.lor 0x02 (Z.lor 0x01 0x04)) with 7. case_match; [done|].
  assert (payload_len j = 0) as ->; [|done].
  change (payload_len (without_options j) = 0). by rewrite Hj.
Qed.

Lemma keep_alive_never_reported_witness :
  allows (parse_tcp_options_extended (zeros 40) 0 24 zero_info) (λ j,
    check_tcp_anomalies j zero_transport = Ok j).
Proof.
  apply (keep_alive_never_reported (zeros 40) 0 24 zero_info zero_transport);
    [by_decide|lia|exact wf_zero_info|reflexivity].
Defined.

(** ** The capture callback *)

(** The callback copies at most 256 bytes of the frame to the start of the
    raw packet and nothing else, keeps libpcap's header, with the full
    captured length, and measures the time since the previous frame; for
    frames in order and less than 71 minutes apart it is the exact number of
    microseconds. *)
Theorem make_raw_correct (raw_data : list Z) (last : timeval) (h : pcap_pkthdr)
    (packet : list Z) (Hr : is_array 256 raw_data) (Hp : bytes packet)
    (Hc : caplen h = zlen packet) (Hsmall : caplen h < 2 ^ 31) (Hw : is_u 32 (wire h)) :
  ensures (make_raw raw_data last h packet) (λ '(raw, last'),
    wf_raw raw ∧ pkthdr raw = h ∧ last' = mkTimeval (ts_sec h) (ts_usec h) ∧
    data raw = take 256 packet ++ drop (length (take 256 packet)) raw_data ∧
    let dt := (ts_sec h * 1000000 + ts_usec h) - (tv_sec last * 1000000 + tv_usec last) in
    (tv_sec last ≠ 0 → is_u 32 dt → raw_delta_time raw = dt)).
Proof.
  destruct Hr as [Hrl Hrb]. unfold make_raw. cbv zeta.
  set (n := if caplen h <? MAX_PAYLOAD_SIZE then caplen h else MAX_PAYLOAD_SIZE).
  assert (n = zlen (take 256 packet)) as Hn.
  { unfold n, MAX_PAYLOAD_SIZE. rewrite length_take. case_test; lia. }
  clearbody n. pose proof (memcpy_segment raw_data [] (take 256 packet) (drop 256 packet) 0 n
    eq_refl Hn) as Hm. rewrite length_take in Hn. cbn [app] in Hm. rewrite take_drop in Hm.
  rewrite Hm, bind_Ok by lia. apply wp_ret.
  assert (length (take 256 packet) ≤ 256)%nat by (rewrite length_take; lia).
  split; [constructor|split; [done|split; [done|split; [done|]]]].
  - cbn [pkthdr]. lia.
  - done.
  - cbn [data]. split; [rewrite length_app, length_drop; lia|auto with pacsni].
  - cbn [raw_delta_time]. unfold delta_of. case_test; auto with pacsni.
  - cbv zeta. cbn [raw_delta_time]. intros Hs Hdt. unfold delta_of. case_test; [lia|].
    rewrite <- (u32_small _ Hdt). f_equal. lia.
Qed.

Lemma make_raw_correct_witness :
  ensures (make_raw (zeros 256) (mkTimeval 100 999999) (mkPkthdr 101 1 300 300) (replicate 300 7))
    (λ '(raw, last'),
      wf_raw raw ∧ pkthdr raw = mkPkthdr 101 1 300 300 ∧ last' = mkTimeval 101 1 ∧
      data raw = take 256 (replicate 300 7) ++ drop (length (take 256 (replicate 300 7))) (zeros 256) ∧
      let dt := (101 * 1000000 + 1) - (100 * 1000000 + 999999) in
      (100 ≠ 0 → is_u 32 dt → raw_delta_time raw = dt)).
Proof.
  apply (make_raw_correct (zeros 256) (mkTimeval 100 999999) (mkPkthdr 101 1 300 300)
    (replicate 300 7)); [split; [reflexivity|by_decide]|by_decide|reflexivity|reflexivity|].
  simpl. by_decide.
Defined.
