(* ===== verification/TcpFrames.v ===== *)
(** * TCP frames of any length

    What [dissect_raw_packet] computes on a TCP/IPv4 frame built from its fields,
    also when the frame is longer than the buffer: the record, and exactly when
    a request on port 80 makes it read behind the buffer. *)

From Stdlib Require Import String.
From S2P Require Import Prelude CMemory PacketTypes Layers Frames TcpOptions Stats Entropy.
From S2P Require Import NameDissectors TextDissectors Capture CaptureProps.

(** ** Frames and their capture *)

(** The raw packet of a frame: libpcap's length and the first 256 bytes. *)
Definition captures (raw : RawPacket) (p : list Z) : Prop :=
  caplen (pkthdr raw) = zlen p ∧ ∃ junk, data raw = take 256 p ++ junk.

(** The buffer behind the TCP header. *)
Definition captured_payload (f : tcp_frame) (raw : RawPacket) : list Z :=
  drop (length (frame_headers f)) (data raw).

(** The headers are in the buffer, and so is what is read of the payload: 127
    bytes or all of it, and on port 80 what the search for a Host header needs. *)
Definition payload_room (f : tcp_frame) (raw : RawPacket) : Prop :=
  zlen (frame_headers f) ≤ 256 ∧
  let p := captured_payload f raw in let l := zlen (f_payload f) in
  if (f_sport f =? 80) || (f_dport f =? 80) then http_room p l else Z.min l 127 ≤ zlen p.

(** The record a TCP frame stands for, field by field. *)
Definition frame_record (f : tcp_frame) (raw : RawPacket) : PacketInfo :=
  let hl := 14 + 4 * zlen (f_tags f) in
  set_tcp_win (f_win f) (set_tcp_ack (f_ack f) (set_tcp_seq (f_seq f)
  (set_tcp_flags (f_flags f) (set_dst_port (f_dport f) (set_src_port (f_sport f)
  (set_is_fragment (b2z (negb (Z.land (f_frag f) 0x3fff =? 0)))
  (set_ip_id (f_id f) (set_ip_tos (f_tos f) (set_ip_ttl (f_ttl f)
  (set_l4_offset (hl + (20 + 4 * f_words f)) (set_protocol 6
  (set_dst_ip (zeros 12 ++ f_dst_ip f) (set_src_ip (zeros 12 ++ f_src_ip f)
  (set_wire_len (wire (pkthdr raw)) (set_vlan_id (last_vid 0 (f_tags f))
  (set_l3_offset hl (set_dst_mac (f_dst f) (set_src_mac (f_src f)
  (set_delta_time (raw_delta_time raw) (set_timestamp (timestamp_of (pkthdr raw))
  zero_info)))))))))))))))))))).

(** ** A request the buffer does not back *)

Section overread.
Context (p : list Z).

(** Either the header does not occur, or it has a first occurrence. *)
Lemma host_search : (∀ k, ¬ occurs_at host_header p k) ∨ ∃ k, first_at host_header p k.
Proof using Type.
  pose proof (memmem_spec no_fault p (zlen p) host_header ltac:(right; lia)) as Hs.
  destruct (memmem p (zlen p) host_header) as [[k|]|]; [| |done].
  - right. exists k. destruct Hs as (_ & ? & ?). by split.
  - left. intros k Hk. pose proof (occurs_at_inside host_header p k ltac:(done) Hk). apply (Hs k); [lia|done].
Qed.

Lemma cstring_prec_beyond n q : zlen q < Z.of_nat n → 0 ∉ q → cstring_prec n q = Fault OutOfBounds.
Proof using Type.
  intros Hq H0. unfold cstring_prec. rewrite take_ge by lia. destruct (find_nul q) as [k|] eqn:E.
  - apply find_nul_Some in E as [E _]. destruct H0. by eapply list_elem_of_lookup_2.
  - case_decide; [lia|done].
Qed.

Context (l : Z) (Hp : bytes p) (Hmin : Z.min l 127 ≤ zlen p).

Lemma http_line_overread o : bytes o → zlen o = 128 → 10 ≤ l → ¬ host_ends p l →
  http_line p l o 128 = Fault OutOfBounds.
Proof using All.
  intros Ho Hlo Hl Hno. unfold http_line.
  pose proof (copy_line_spec no_fault p l 128 (S (Z.to_nat l)) 0 o Hp ltac:(right; lia) Ho
    ltac:(lia) ltac:(lia) ltac:(lia)) as Hcopy.
  destruct (copy_line _ p l 128 0 o) as [[c o1]|]; [|done]. destruct Hcopy as (? & ? & _).
  rewrite bind_Ok. destruct (wr o1 c 0) as [o2|] eqn:Hw.
  2: { revert Hw. unfold wr, blit. case_test; [done|]. simpl in *. lia. }
  rewrite bind_Ok. destruct host_search as [Hnone|[k Hk]].
  - rewrite memmem_beyond; [done|done|simpl; lia| |exact Hnone].
    destruct (decide (zlen p < l)) as [|Hge]; [done|]. destruct Hno. right. split; [lia|].
    intros k Hk. by destruct (Hnone k).
  - pose proof (occurs_at_inside host_header p k ltac:(done) (proj1 Hk)) as [Hk0 Hkin].
    change (zlen host_header) with 8 in Hkin.
    destruct (decide (k + 8 ≤ l)) as [Hkl|Hkl].
    + rewrite (memmem_first p l host_header k), bind_Ok by done.
      destruct (wr_nul_strlen _ _ _ Hw) as (n & -> & _). rewrite bind_Ok.
      rewrite cstring_prec_beyond; [done| |].
      * rewrite length_ptr_add by lia. destruct (decide (k + 40 ≤ zlen p)); [|lia].
        destruct Hno. left. exists k. split; [done|]. split; [done|]. by left.
      * intros Hz. destruct Hno. left. exists k. split; [done|]. split; [done|]. by right.
    + destruct Hno. right. split; [lia|]. intros j Hj. destruct Hk as [_ Hk].
      destruct (decide (k ≤ j)); [lia|]. destruct (Hk j); [|done]. destruct Hj. lia.
Qed.

Lemma http_methods_overread o ms : ms ⊆ http_methods → bytes o → zlen o = 128 → 10 ≤ l →
  ¬ host_ends p l → (∃ me, me ∈ ms ∧ zlen me < l ∧ me `prefix_of` p) →
  http_methods_loop ms p l o 128 = Fault OutOfBounds.
Proof using All.
  intros Hms Ho Hlo Hl Hno. induction ms as [|me ms IH]; intros (m & Hm & Hml & Hmp); [by apply elem_of_nil in Hm|].
  cbn [http_methods_loop].
  assert (zlen me ≤ 8) as Hme.
  { assert (Forall (λ me, zlen me ≤ 8) http_methods) as Hall by by_decide.
    apply (proj1 (Forall_forall _ _) Hall), Hms. by left. }
  assert (m ≠ me → http_methods_loop ms p l o 128 = Fault OutOfBounds) as Hnext.
  { intros Hne. apply IH; [intros x Hx; apply Hms; by right|]. exists m.
    apply elem_of_cons in Hm as [->|Hm]; [done|]. done. }
  case_test; [|apply Hnext; intros ->; lia].
  rewrite memcmp_eq_inside, bind_Ok by lia. case_bool_decide as Heq.
  - by apply http_line_overread.
  - apply Hnext. intros ->. apply Heq. destruct Hmp as [q Hq]. rewrite Hq. change (Z.to_nat 0) with 0%nat.
    by rewrite drop_0, take_app_length.
Qed.

Lemma dissect_http_overread o : bytes o → zlen o = 128 → is_request p l → ¬ host_ends p l →
  dissect_http p l o 128 = Fault OutOfBounds.
Proof using All.
  intros Ho Hlo [Hl Hreq] Hno. unfold dissect_http. case_test; [lia|].
  by apply http_methods_overread.
Qed.
End overread.

(** ** The dissection of a TCP frame *)

(** The transport block on a record whose protocol is TCP. *)
Lemma dissect_transport_tcp packet n ip t i : protocol i = 6 →
  dissect_transport packet n ip t i =
  (i ← parse_tcp_options_extended packet (l3_offset i + ipi_header_len ip)
         (match t_payload_ptr t with Some k => k - (l3_offset i + ipi_header_len ip) | None => 20 end)
         (tcp_of t (ports_of t i));
   i ← (i ← check_tcp_anomalies i t; dissect_tcp_payload packet t i);
   i ← dissect_ospf_info packet n i; i ← dissect_gre_info packet n i; dissect_igmp_info packet n i).
Proof.
  intros E. unfold dissect_transport. cbv zeta. fold (ports_of t i).
  change (set_dst_port (t_dst_port t) _) with (ports_of t i).
  change (protocol (ports_of t i)) with (protocol i). rewrite E. cbn [Z.eqb Pos.eqb].
  unfold dissect_tcp. cbv zeta. change (set_tcp_win _ _) with (tcp_of t (ports_of t i)).
  change (l3_offset (tcp_of t (ports_of t i))) with (l3_offset i).
  destruct (parse_tcp_options_extended _ _ _ _) as [i1|]; [|done]. by rewrite !bind_Ok.
Qed.

(** The last three dissectors leave it alone. *)
Lemma dissect_rest_tcp packet n i : protocol i = 6 →
  dissect_ospf_info packet n i = Ok i ∧ dissect_gre_info packet n i = Ok i ∧
  dissect_igmp_info packet n i = Ok i.
Proof. intros E. unfold dissect_ospf_info, dissect_gre_info, dissect_igmp_info. by rewrite E. Qed.

Section tcp_frames.
Context (f : tcp_frame) (raw : RawPacket).
Context (Hf : wf_frame f) (Hraw : wf_raw raw) (Hin : captures raw (build_frame f)).
Context (Hfit : zlen (frame_headers f) ≤ 256).

Lemma captured_split : data raw = frame_headers f ++ captured_payload f raw.
Proof using Hin Hfit.
  destruct Hin as (_ & junk & Hd). unfold captured_payload.
  assert (take (length (frame_headers f)) (data raw) = frame_headers f) as E.
  { rewrite Hd, build_frame_headers, take_app_le, take_take by
      (rewrite length_take, length_app; lia).
    rewrite take_app_le by lia. apply take_ge. lia. }
  rewrite <-E at 1. by rewrite take_drop.
Qed.

Lemma length_captured_payload : zlen (captured_payload f raw) = 256 - zlen (frame_headers f).
Proof using Hraw Hfit.
  destruct (wf_data _ Hraw) as [Hl _]. unfold captured_payload. rewrite length_drop. lia.
Qed.

Lemma captures_parse :
  parse_ethernet_layer (data raw) (caplen (pkthdr raw)) = Ok (Some (frame_eth f)) ∧
  parse_ip_layer (data raw) (caplen (pkthdr raw)) (eth_header_len (frame_eth f))
  = Ok (Some (frame_ip f)) ∧
  parse_transport_layer (data raw) (caplen (pkthdr raw)) (eth_header_len (frame_eth f))
  (frame_ip f) = Ok (Some (frame_transport f)).
Proof using Hf Hin Hfit.
  destruct Hin as (Hc & junk & Hd).
  assert (∃ tail, take 256 (build_frame f) = frame_headers f ++ tail) as [tail E].
  { rewrite build_frame_headers, take_app_ge by lia. by eexists. }
  assert (zlen (frame_headers f ++ tail) ≤ caplen (pkthdr raw) < 2 ^ 31) as Hcap.
  { rewrite <-E, length_take, Hc. pose proof (wf_f_size _ Hf). lia. }
  rewrite Hd, E. split; [|split].
  - apply parse_ethernet_layer_extend. by apply headers_parse_eth.
  - apply parse_ip_layer_extend. by apply headers_parse_ip.
  - apply parse_transport_layer_extend. by apply headers_parse_tcp.
Qed.

(** *** Up to the transport block *)

Lemma headers_bound : 14 ≤ eth_header_len (frame_eth f) ∧ 20 ≤ ipi_header_len (frame_ip f) ∧
  eth_header_len (frame_eth f) + ipi_header_len (frame_ip f) + 20 ≤ zlen (frame_headers f) ∧
  zlen (frame_headers f) ≤ caplen (pkthdr raw).
Proof using Hf Hin Hfit.
  pose proof (length_frame_headers f Hf) as Hl. pose proof (wf_f_words _ Hf).
  pose proof (wf_f_tcp_words _ Hf). destruct Hin as [-> _]. rewrite build_frame_headers, length_app.
  change (eth_header_len (frame_eth f)) with (14 + 4 * zlen (f_tags f)) in *.
  change (ipi_header_len (frame_ip f)) with (20 + 4 * f_words f). lia.
Qed.

Definition ip_record : PacketInfo :=
  ip_of (frame_eth f) (frame_ip f) (header_of raw (frame_eth f)).

Lemma fresh_frame : fresh (header_of raw (frame_eth f)).
Proof using Hf Hraw. apply fresh_header_of; [done|]. by apply frame_vid. Qed.

Lemma wf_frame_ip : wf_ip (frame_ip f).
Proof using Hf Hraw Hin Hfit.
  destruct (wf_data _ Hraw) as [Hl Hb]. destruct captures_parse as (_ & Hip & _).
  pose proof headers_bound. pose proof (wf_caplen _ Hraw).
  pose proof (parse_ip_layer_spec any_fault (data raw) (caplen (pkthdr raw)) (eth_header_len (frame_eth f))
    Hb (guard_any _) ltac:(lia) ltac:(lia)) as Hres. rewrite Hip in Hres. by destruct Hres.
Qed.

Lemma wf_frame_transport : wf_transport (frame_transport f).
Proof using Hf Hraw Hin Hfit.
  destruct (wf_data _ Hraw) as [Hl Hb]. destruct captures_parse as (_ & _ & Ht).
  pose proof headers_bound. pose proof (wf_caplen _ Hraw).
  pose proof (parse_transport_layer_spec any_fault (data raw) (caplen (pkthdr raw))
    (eth_header_len (frame_eth f)) (frame_ip f) Hb (guard_any _) ltac:(lia) ltac:(lia) wf_frame_ip eq_refl
    ltac:(lia)) as Hres. rewrite Ht in Hres. by destruct Hres.
Qed.

Lemma wf_ip_record : wf_info ip_record.
Proof using Hf Hraw Hin Hfit. apply wf_ip_of; [exact wf_frame_ip|apply fresh_frame]. Qed.

(** The record with ports and TCP fields is the one the frame stands for. *)
Lemma tcp_record : tcp_of (frame_transport f) (ports_of (frame_transport f) ip_record) = frame_record f raw.
Proof using Hf Hraw Hin Hfit.
  pose proof headers_bound as (H1 & H2 & H3 & _). simpl ipi_header_len in H2, H3.
  destruct (frame_macs f Hf (captured_payload f raw)) as [Hdst Hsrc]. rewrite <-captured_split in Hdst, Hsrc.
  unfold ip_record, ip_of, header_of. rewrite Hdst, Hsrc. simpl eth_header_len in *. simpl ipi_header_len.
  simpl eth_vlan_id. rewrite !u8_small by (unfold is_u; lia).
  unfold tcp_of, ports_of, frame_record. cbv zeta. record_simpl. done.
Qed.

(** *** From the options on *)

(** The option parser on the frame's record. *)
Definition frame_options : res PacketInfo :=
  parse_tcp_options_extended (data raw) (eth_header_len (frame_eth f) + ipi_header_len (frame_ip f))
  (20 + 4 * f_tcp_words f) (frame_record f raw).

(** The rest of the transport block, then the copy of the frame. *)
Definition frame_tail `{Double D} (i : PacketInfo) : res PacketInfo :=
  i ← (i ← check_tcp_anomalies i (frame_transport f);
       dissect_tcp_payload (data raw) (frame_transport f) i);
  i ← dissect_ospf_info (data raw) (caplen (pkthdr raw)) i;
  i ← dissect_gre_info (data raw) (caplen (pkthdr raw)) i;
  i ← dissect_igmp_info (data raw) (caplen (pkthdr raw)) i;
  capture_frame (data raw) (caplen (pkthdr raw)) i.

Lemma dissect_frame `{Double D} info : dissect_raw_packet raw info = (i ← frame_options; frame_tail i).
Proof using All.
  destruct captures_parse as (He & Hip & Ht). pose proof headers_bound as (H1 & H2 & H3 & _).
  unfold dissect_raw_packet. cbv zeta. rewrite He, bind_Ok, set_header_eq, bind_Ok by done.
  change (eth_ether_type (frame_eth f)) with 0x0800. cbn [Z.eqb Pos.eqb orb].
  unfold dissect_ip. rewrite Hip, bind_Ok, set_ip_eq, bind_Ok; [|exact wf_frame_ip|apply fresh_frame].
  fold ip_record. assert (protocol ip_record = 6 ∧ is_ipv6 ip_record = 0 ∧
    l3_offset ip_record = eth_header_len (frame_eth f)) as (Hp6 & Hv4 & Hl3).
  { split; [done|]. split; [done|]. change (u8 (eth_header_len (frame_eth f)) = eth_header_len (frame_eth f)).
    apply u8_small. unfold is_u. lia. }
  assert (dissect_ipv6 (data raw) (caplen (pkthdr raw)) (frame_ip f) ip_record = Ok ip_record) as ->.
  { unfold dissect_ipv6. by rewrite Hv4. }
  rewrite bind_Ok, dissect_icmp_other by (rewrite Hp6; by_decide). rewrite bind_Ok, Ht, bind_Ok.
  rewrite dissect_transport_tcp by done. rewrite tcp_record, Hl3. unfold frame_options, frame_tail.
  cbn [t_payload_ptr frame_transport]. replace (_ - _) with (20 + 4 * f_tcp_words f)
    by (simpl; lia).
  rewrite bind_assoc. do 3 (apply bind_ext; intros ?; rewrite bind_assoc). done.
Qed.

Lemma wf_frame_record : wf_info (frame_record f raw).
Proof using Hf Hraw Hin Hfit.
  rewrite <-tcp_record. apply wf_tcp_of; [exact wf_frame_transport|].
  apply wf_ports_of; [exact wf_frame_transport|exact wf_ip_record].
Qed.

Lemma frame_options_spec :
  ensures frame_options (λ i, wf_info i ∧ without_options i = without_options (frame_record f raw)).
Proof using Hf Hraw Hin Hfit.
  destruct (wf_data _ Hraw) as [Hl Hb]. pose proof headers_bound as (H1 & H2 & H3 & _).
  apply parse_tcp_options_extended_spec; [done|lia| |exact wf_frame_record].
  right. pose proof (length_frame_headers f Hf) as E. simpl ipi_header_len in *. lia.
Qed.

Lemma frame_options_encoded os pad :
  Forall valid_option os → pad = [] ∨ head pad = Some 0 → f_tcp_opts f = encode_options os ++ pad →
  frame_options = Ok (foldl option_effect (frame_record f raw) os).
Proof using Hf Hraw Hin Hfit.
  intros Hos Hpad E. destruct (frame_headers_options f Hf) as (pre & hdr & Hh & Hpre & Hhdr).
  unfold frame_options. rewrite captured_split, Hh, E. simpl ipi_header_len. rewrite <-Hpre.
  pose proof (wf_f_tcp_opts _ Hf) as Hlen. rewrite <-Hlen, E, <-!(assoc_L (++)).
  apply parse_encoded_options; [done..|exact wf_frame_record].
Qed.

(** What the options leave alone. *)
Definition frame_like (i : PacketInfo) : Prop :=
  wf_info i ∧ without_options i = without_options (frame_record f raw).

Lemma frame_like_ports i : frame_like i →
  port_is i 80 = (f_sport f =? 80) || (f_dport f =? 80) ∧ tls_sni i = zeros 64 ∧ protocol i = 6.
Proof using Type.
  intros [_ E]. change (port_is (without_options i) 80 = (f_sport f =? 80) || (f_dport f =? 80) ∧
    tls_sni (without_options i) = zeros 64 ∧ protocol (without_options i) = 6). by rewrite E.
Qed.

Lemma frame_payload_at : payload_at (data raw) (frame_transport f) = captured_payload f raw.
Proof using Hf.
  unfold payload_at, captured_payload, ptr_add. cbn [t_payload_ptr frame_transport].
  f_equal. pose proof (length_frame_headers f Hf). simpl ipi_header_len in *. lia.
Qed.

Lemma frame_room : payload_room f raw →
  tcp_room (data raw) (frame_transport f) ((f_sport f =? 80) || (f_dport f =? 80)).
Proof using Hf Hraw Hfit.
  intros [_ Hr]. pose proof frame_payload_at as Hp. unfold tcp_room, payload_at in *.
  destruct (wf_data _ Hraw) as [Hl _]. pose proof (length_frame_headers f Hf).
  cbn [t_payload_ptr frame_transport] in *. rewrite Hp. split; [lia|]. exact Hr.
Qed.

Lemma texts_options_keep r i k : sans_texts k = sans_texts i → without_options i = without_options r →
  header k = header r ∧ protocol k = protocol r.
Proof using Type.
  intros E1 E2. change (header (without_options (sans_texts k)) = header r ∧
    protocol (without_options (sans_texts k)) = protocol r). rewrite E1.
  change (header (sans_texts (without_options i)) = header r ∧
    protocol (sans_texts (without_options i)) = protocol r). by rewrite E2.
Qed.

Lemma header_frame_record : header (frame_record f raw) = header (header_of raw (frame_eth f)).
Proof using Hf Hraw Hin Hfit.
  assert (∀ t r, header (tcp_of t (ports_of t r)) = header r) as E by done.
  rewrite <-tcp_record, E. unfold ip_record. generalize (header_of raw (frame_eth f)). intros i.
  by destruct (ip_of_keeps (frame_eth f) (frame_ip f) i) as [-> _].
Qed.

(** The dissectors of the payload write their texts; then the frame is copied. *)
Lemma frame_tail_spec `{DoubleLaws D} i : frame_like i → payload_room f raw →
  ensures (frame_tail i) (λ j, captured raw j ∧ sans_texts (uncaptured j) = sans_texts (uncaptured i)).
Proof using Hf Hraw Hin Hfit.
  intros Hi Hroom. pose proof (frame_like_ports i Hi) as (Hport & Htls & _). destruct Hi as [Hwf Hopt].
  destruct (wf_data _ Hraw) as [Hl Hb]. pose proof headers_bound as (H1 & H2 & H3 & Hc). unfold frame_tail.
  wp_step. eapply wp_mono.
  { apply dissect_tcp_tail_spec; [done|done|done|]. right. rewrite Hport. by apply frame_room. }
  intros k [Hk Hks].
  destruct (texts_options_keep (frame_record f raw) i k Hks Hopt) as [Hhd Hk6].
  change (protocol (frame_record f raw)) with 6 in Hk6.
  destruct (dissect_rest_tcp (data raw) (caplen (pkthdr raw)) k Hk6) as (E1 & E2 & E3).
  rewrite E1, bind_Ok, E2, bind_Ok, E3, bind_Ok.
  rewrite header_frame_record in Hhd.
  eapply wp_mono.
  { apply wp_and; [apply (capture_frame_dissected no_fault raw Hraw k (frame_eth f)); [by split|lia]|].
    apply capture_frame_spec; [done|done|lia|done]. }
  intros j ((_ & _ & Hcap) & _ & _ & _ & _ & Hj). split; [done|].
  assert (uncaptured j = uncaptured k) as -> by (by rewrite Hj).
  change (uncaptured (sans_texts k) = uncaptured (sans_texts i)). by rewrite Hks.
Qed.

Lemma frame_tail_overread `{Double D} i : frame_like i → f_sport f = 80 ∨ f_dport f = 80 →
  Z.min (zlen (f_payload f)) 127 ≤ zlen (captured_payload f raw) →
  is_request (captured_payload f raw) (zlen (f_payload f)) →
  ¬ host_ends (captured_payload f raw) (zlen (f_payload f)) → frame_tail i = Fault OutOfBounds.
Proof using Hf Hraw.
  intros Hi Hport Hmin Hreq Hno. pose proof (frame_like_ports i Hi) as (Hp80 & _ & _).
  destruct Hi as [Hwf _]. unfold frame_tail.
  pose proof (check_tcp_anomalies_spec no_fault (frame_transport f) i Hwf) as Hc.
  destruct (check_tcp_anomalies i (frame_transport f)) as [k|]; [|done]. destruct Hc as [Hk Hks].
  rewrite bind_Ok. unfold dissect_tcp_payload. rewrite frame_payload_at.
  cbn [t_payload_ptr t_payload_len frame_transport]. cbv zeta.
  assert (port_is k 80 = true) as ->.
  { change (port_is (sans_texts k) 80 = true). rewrite Hks. change (port_is i 80 = true). lia. }
  assert (bool_decide (is_Some (Some (eth_header_len (frame_eth f) + (20 + 4 * f_words f) +
    (20 + 4 * f_tcp_words f)))) && (0 <? zlen (f_payload f)) = true) as ->.
  { rewrite bool_decide_eq_true_2 by eauto. destruct Hreq. simpl. lia. }
  destruct (info_extra_bounds k Hk). destruct (wf_data _ Hraw) as [_ Hb].
  rewrite dissect_http_overread; [done|by apply bytes_drop|done..].
Qed.
End tcp_frames.

(** Options do not meet what the copy of the frame writes. *)
Lemma uncaptured_options os i :
  uncaptured (foldl option_effect i os) = foldl option_effect (uncaptured i) os.
Proof. revert i. induction os as [|o os IH]; intros i; [done|]. cbn [foldl]. rewrite IH. by destruct o. Qed.

Lemma uncaptured_frame_record f raw : uncaptured (frame_record f raw) = frame_record f raw.
Proof.
  unfold frame_record. cbv zeta. generalize (timestamp_of (pkthdr raw)) (b2z (negb (Z.land (f_frag f) 0x3fff =? 0))).
  intros t b. unfold uncaptured. record_simpl. reflexivity.
Qed.

(** ** Concrete frames *)

(** A segment to port 80. *)
Definition to_web (payload : list Z) : tcp_frame := {|
    f_dst := [0; 1; 2; 3; 4; 5]; f_src := [6; 7; 8; 9; 10; 11]; f_tags := [];
    f_tos := 0; f_id := 78; f_frag := 0x4000; f_ttl := 64; f_sum := 0;
    f_src_ip := [10; 0; 0; 1]; f_dst_ip := [10; 0; 0; 2]; f_words := 0; f_opts := [];
    f_sport := 40000; f_dport := 80; f_seq := 1000; f_ack := 2000; f_flags := 0x18;
    f_win := 502; f_tcp_sum := 0; f_urg := 0; f_tcp_words := 0; f_tcp_opts := [];
    f_payload := payload; f_trailer := []
  |}.

(** Requests of 600 bytes: one for a long path, and one that names its host early. *)
Definition long_request : tcp_frame := to_web (str "GET /" ++ replicate 541 97).
Definition host_request : tcp_frame :=
  to_web (str "GET / HTTP/1.1" ++ host_header ++ str "example.org" ++ [13; 10] ++ replicate 511 97).

Lemma raw_of_captures p : captures (raw_of p) p.
Proof.
  split; [done|]. exists (take (256 - length p) (zeros 256)). unfold raw_of. cbn [data].
  apply take_app.
Qed.

Lemma wf_long_request : wf_frame long_request ∧ wf_raw (raw_of (build_frame long_request)).
Proof. split; constructor; by_decide. Qed.

Lemma wf_host_request : wf_frame host_request ∧ wf_raw (raw_of (build_frame host_request)).
Proof. split; constructor; by_decide. Qed.

(** Searches whose result is known. *)
Lemma memmem_found p k : memmem p (zlen p) host_header = Ok (Some k) → first_at host_header p k.
Proof.
  intros E. pose proof (memmem_spec no_fault p (zlen p) host_header ltac:(right; lia)) as Hs.
  rewrite E in Hs. by destruct Hs as (_ & ? & ?).
Qed.

Lemma memmem_none p : memmem p (zlen p) host_header = Ok None → ∀ k, ¬ occurs_at host_header p k.
Proof.
  intros E k Hk. pose proof (memmem_spec no_fault p (zlen p) host_header ltac:(right; lia)) as Hs.
  rewrite E in Hs. pose proof (occurs_at_inside host_header p k ltac:(done) Hk). apply (Hs k); [lia|done].
Qed.

Lemma host_request_room : payload_room host_request (raw_of (build_frame host_request)).
Proof.
  split; [by_decide|]. cbv zeta. change ((f_sport host_request =? 80) || (f_dport host_request =? 80)) with true.
  cbv iota. split; [by_decide|]. intros _. left. exists 14.
  split; [apply memmem_found; vm_compute; reflexivity|]. split; [by_decide|]. left. by_decide.
Qed.

(** ** Properties *)

(** C7. End to end on TCP over IPv4: a frame built from its fields, of any
    length, with any stack of VLAN tags and any IP options, is dissected without
    a fault to the record with exactly these fields, and its first 256 bytes are
    captured; if its TCP options are an encoded list, the record has their
    values.  The record's other texts, which the dissectors of the payload
    write, and its VXLAN identifier are left open.  The buffer must hold the
    headers and the first 127 bytes of the payload (or all of it); on port 80, of
    a payload that is a request, also a Host header with 32 bytes or a zero byte
    behind it, or else the whole payload. *)
Theorem dissect_raw_packet_tcp_frame `{DoubleLaws D} (f : tcp_frame) (raw : RawPacket)
    (info : PacketInfo) (Hf : wf_frame f) (Hraw : wf_raw raw)
    (Hin : captures raw (build_frame f)) (Hroom : payload_room f raw) :
  ensures (dissect_raw_packet raw info) (λ j,
    captured raw j ∧
    without_options (sans_texts (uncaptured j)) = without_options (sans_texts (frame_record f raw)) ∧
    ∀ os pad, Forall valid_option os → pad = [] ∨ head pad = Some 0 →
      f_tcp_opts f = encode_options os ++ pad →
      sans_texts (uncaptured j) = sans_texts (foldl option_effect (frame_record f raw) os)).
Proof.
  pose proof Hroom as [Hfit _]. rewrite (dissect_frame f raw) by done.
  pose proof (frame_options_spec f raw Hf Hraw Hin Hfit) as Hi.
  pose proof (frame_options_encoded f raw Hf Hraw Hin Hfit) as Henc.
  destruct (frame_options f raw) as [i|]; [|done]. rewrite bind_Ok.
  eapply wp_mono; [by apply (frame_tail_spec f raw)|]. intros j [Hcap Hj].
  split; [done|]. rewrite Hj. destruct Hi as [_ Hi].
  pose proof (uncaptured_frame_record f raw) as Hu. revert Hi Henc Hu. generalize (frame_record f raw).
  intros r Hi Henc Hu. split.
  - assert (∀ r, without_options (sans_texts (uncaptured r)) = sans_texts (uncaptured (without_options r)))
      as Hcomm by done.
    by rewrite Hcomm, Hi, <-Hcomm, Hu.
  - intros os pad Hos Hpad E. specialize (Henc os pad Hos Hpad E). injection Henc as ->.
    by rewrite uncaptured_options, Hu.
Qed.

(** An SSH banner with a segment-size option, and a request of 600 bytes. *)
Lemma dissect_raw_packet_tcp_frame_witness :
  let raw := raw_of (build_frame ssh_frame) in
  src_port (frame_record ssh_frame raw) = 22 ∧ vlan_id (frame_record ssh_frame raw) = 5 ∧
  ensures (dissect_raw_packet raw zero_info) (λ j, captured raw j ∧ tcp_mss j = 1460) ∧
  zlen (build_frame host_request) = 600 ∧
  ensures (dissect_raw_packet (raw_of (build_frame host_request)) zero_info)
    (captured (raw_of (build_frame host_request))).
Proof.
  intros raw. split; [reflexivity|]. split; [reflexivity|]. split; [|split; [by_decide|]].
  - eapply wp_mono; [apply (dissect_raw_packet_tcp_frame ssh_frame)|].
    + exact wf_ssh_frame.
    + exact wf_ssh_raw.
    + apply raw_of_captures.
    + split; by_decide.
    + intros j (Hcap & _ & Hos). split; [exact Hcap|].
      specialize (Hos [OMss 1460] [] ltac:(repeat constructor; by_decide) ltac:(by left) eq_refl).
      change (tcp_mss (sans_texts (uncaptured j)) = 1460). rewrite Hos. reflexivity.
  - eapply wp_mono; [apply (dissect_raw_packet_tcp_frame host_request)|].
    + apply wf_host_request.
    + apply wf_host_request.
    + apply raw_of_captures.
    + exact host_request_room.
    + intros j [Hcap _]. exact Hcap.
Defined.


(** C36. A request on port 80 is searched for its Host header over its length on
    the wire, also behind the end of the buffer: [caplen] is not limited to what
    was copied.  If the buffer holds the headers and the first 127 bytes of the
    request (or all of it), the dissection reads outside the buffer exactly if
    there is neither a Host header in the buffer, with 32 bytes or a zero byte
    behind it, nor the whole request; so it does for every request that is
    longer than the buffer and has no Host header there. *)
Theorem long_request_overread `{DoubleLaws D} (f : tcp_frame) (raw : RawPacket) (info : PacketInfo)
    (Hf : wf_frame f) (Hraw : wf_raw raw) (Hin : captures raw (build_frame f))
    (Hfit : zlen (frame_headers f) ≤ 256) (Hport : f_sport f = 80 ∨ f_dport f = 80) :
  let p := captured_payload f raw in
  let l := zlen (f_payload f) in
  Z.min l 127 ≤ zlen p → is_request p l →
  (dissect_raw_packet raw info = Fault OutOfBounds ↔ ¬ host_ends p l) ∧
  (zlen p < l → (∀ k, ¬ occurs_at host_header p k) →
    dissect_raw_packet raw info = Fault OutOfBounds).
Proof.
  intros p l Hmin Hreq. rewrite (dissect_frame f raw) by done.
  pose proof (frame_options_spec f raw Hf Hraw Hin Hfit) as Hi.
  destruct (frame_options f raw) as [i|]; [|done]. rewrite bind_Ok.
  assert (¬ host_ends p l → frame_tail f raw i = Fault OutOfBounds) as Hover
    by (intros Hno; by apply frame_tail_overread).
  split; [split; [|done]|].
  - intros Hfault Hends.
    assert (payload_room f raw) as Hroom.
    { split; [done|]. cbv zeta. assert ((f_sport f =? 80) || (f_dport f =? 80) = true) as -> by lia. by split. }
    pose proof (frame_tail_spec f raw Hf Hraw Hin Hfit i Hi Hroom) as Hs. by rewrite Hfault in Hs.
  - intros Hlong Hnone. apply Hover. intros [(k & [Hk _] & _)|[? _]]; [by apply (Hnone k)|lia].
Qed.

Lemma long_request_overread_witness :
  zlen (build_frame long_request) = 600 ∧
  dissect_raw_packet (raw_of (build_frame long_request)) zero_info = Fault OutOfBounds.
Proof.
  split; [by_decide|]. destruct wf_long_request as [Hf Hraw].
  apply (long_request_overread long_request (raw_of (build_frame long_request)) zero_info Hf Hraw
    (raw_of_captures _) ltac:(by_decide) (or_intror eq_refl)).
  - by_decide.
  - split; [by_decide|]. exists (str "GET "). split; [by_decide|]. split; [by_decide|].
    exists (drop 4 (captured_payload long_request (raw_of (build_frame long_request)))).
    vm_compute. reflexivity.
  - by_decide.
  - apply memmem_none. vm_compute. reflexivity.
Defined.
