(* ===== verification/Wire.v ===== *)
(** * The record on the wire

    The 1024 bytes of a packed [PacketInfo], as [send_packet_info] takes them
    from memory, and the decoder of the packet service
    ([rust/packet_service/src/handlers.rs], [model.rs]) that reads them back
    field by field. *)

From stdpp Require Import strings.
From S2P Require Import Prelude CMemory PacketTypes.

(** ** The sender's side: memory

    [n] bytes of an integer, least significant first, as the supported
    machines store it. *)
Fixpoint le (n : nat) (z : Z) : list Z :=
  match n with
  | O => []
  | S n => z mod 256 :: le n (z / 256)
  end.

(** [struct PacketInfo] is packed: the fields follow each other. *)
Definition encode (i : PacketInfo) : list Z := concat [
  le 8 (timestamp i); src_ip i; dst_ip i; le 2 (src_port i); le 2 (dst_port i);
  le 1 (protocol i); le 1 (has_tcp_ao i); le 1 (tcp_flags i); le 1 (l3_offset i);
  le 1 (l4_offset i); le 4 (tcp_seq i); le 4 (tcp_ack i); le 1 (icmp_type i);
  le 1 (icmp_code i); le 4 (delta_time i); le 2 (vlan_id i); le 1 (ip_ttl i);
  le 1 (ip_tos i); le 2 (tcp_win i); le 2 (ip_id i); le 1 (is_ipv6 i); le 1 (is_fragment i);
  le 2 (tcp_mss i); le 1 (tcp_ws i); le 1 (ipv6_ext_count i); le 4 (ipv6_flow i);
  le 4 (wire_len i); le 4 (tcp_ts_val i); le 4 (tcp_ts_ecr i); le 1 (tcp_sack i);
  le 4 (tcp_rtt i); le 4 (vxlan_vni i); le 4 (entropy_scaled i); le 1 (ntp_stratum i);
  le 1 (ntp_mode i); le 1 (igmp_type i); igmp_group i; lldp_chassis i; lldp_port i;
  tcp_sack_edges i; le 1 (top_byte i); le 1 (top_byte_freq i); pad i; le 2 (payload_len i);
  src_mac i; dst_mac i; dns_query i; tls_sni i; extra_info i; app_layer_info i; payload i;
  final_pad i].

Definition STRUCT_SIZE : Z := 1024.

(** ** The receiver's side

    [bytes::Buf]: a reader of the buffer's front; [None] is its panic when
    too few bytes are left. *)
Definition reader (A : Type) := list Z → option (A * list Z).

Definition rret {A} (a : A) : reader A := λ b, Some (a, b).
Definition rbind {A B} (m : reader A) (f : A → reader B) : reader B := λ b,
  '(a, b') ← m b; f a b'.

Declare Scope reader_scope.
Delimit Scope reader_scope with reader.
Notation "x <- m ; k" := (rbind m (λ x, k%reader))
  (at level 100, m at level 99, k at level 200, right associativity) : reader_scope.

(** The value of bytes that are least significant first. *)
Definition of_le (b : list Z) : Z := foldr (λ x z, x + 256 * z) 0 b.

(** [copy_to_slice], [advance] *)
Definition copy_to_slice (n : nat) : reader (list Z) := λ b,
  if (n <=? length b)%nat then Some (take n b, drop n b) else None.
Definition advance (n : nat) : reader unit := λ b,
  if (n <=? length b)%nat then Some (tt, drop n b) else None.
(** [get_u8], [get_u16_le], [get_u32_le], [get_u64_le] *)
Definition get_le (n : nat) : reader Z := (b <- copy_to_slice n; rret (of_le b))%reader.
Definition get_bool : reader bool := (v <- get_le 1; rret (negb (v =? 0)))%reader.

Fixpoint get_u32s (n : nat) : reader (list Z) :=
  match n with
  | O => rret []
  | S n => (v <- get_le 4; r <- get_u32s n; rret (v :: r))%reader
  end.

(** *** [String::from_utf8_lossy] of the standard library

    Each maximal ill-formed sequence becomes U+FFFD. *)
Definition REPLACEMENT : list Z := [239; 191; 189].
Definition within (lo hi : Z) (b : Z) : bool := (lo <=? b) && (b <=? hi).
Definition continuation : Z → bool := within 128 191.

(** The admissible second byte after a lead byte of three, of four bytes. *)
Definition second3 (b : Z) : Z → bool :=
  if b =? 224 then within 160 191 else if b =? 237 then within 128 159 else continuation.
Definition second4 (b : Z) : Z → bool :=
  if b =? 240 then within 144 191 else if b =? 244 then within 128 143 else continuation.

(** The first character: its replacement or itself, and how many bytes it has. *)
Definition utf8_step (b0 : Z) (r : list Z) : list Z * nat :=
  let bad n := (REPLACEMENT, n) in
  if b0 <? 128 then ([b0], 1%nat)
  else if within 194 223 b0 then
    match r with
    | b1 :: _ => if continuation b1 then ([b0; b1], 2%nat) else bad 1%nat
    | _ => bad 1%nat
    end
  else if within 224 239 b0 then
    match r with
    | b1 :: r' =>
        if second3 b0 b1 then
          match r' with
          | b2 :: _ => if continuation b2 then ([b0; b1; b2], 3%nat) else bad 2%nat
          | _ => bad 2%nat
          end
        else bad 1%nat
    | _ => bad 1%nat
    end
  else if within 240 244 b0 then
    match r with
    | b1 :: r' =>
        if second4 b0 b1 then
          match r' with
          | b2 :: r'' =>
              if continuation b2 then
                match r'' with
                | b3 :: _ => if continuation b3 then ([b0; b1; b2; b3], 4%nat) else bad 3%nat
                | _ => bad 3%nat
                end
              else bad 2%nat
          | _ => bad 2%nat
          end
        else bad 1%nat
    | _ => bad 1%nat
    end
  else bad 1%nat.

Fixpoint utf8_lossy (fuel : nat) (b : list Z) : list Z :=
  match fuel, b with
  | S fuel, b0 :: r =>
      let '(c, n) := utf8_step b0 r in c ++ utf8_lossy fuel (drop n b)
  | _, _ => []
  end.

Definition from_utf8_lossy (b : list Z) : list Z := utf8_lossy (length b) b.

(** [trim_matches('\0')] *)
Fixpoint trim_start (b : list Z) : list Z :=
  match b with 0 :: r => trim_start r | _ => b end.
Definition trim_matches (b : list Z) : list Z := reverse (trim_start (reverse (trim_start b))).

Definition text (b : list Z) : list Z := trim_matches (from_utf8_lossy b).

(** *** [model.rs] *)

(** [{}.{}.{}.{}] *)
Definition dotted (b : list Z) : list Z :=
  match b with
  | [b0; b1; b2; b3] => fmt_u b0 ++ str "." ++ fmt_u b1 ++ str "." ++ fmt_u b2 ++ str "." ++ fmt_u b3
  | _ => []
  end.

(** Bytes as pairs of hexadecimal digits, a colon behind every [n]th. *)
Fixpoint colons (n k : nat) (b : list Z) : list Z :=
  match b with
  | [] => []
  | [x] => fmt_hex 2 x
  | x :: r =>
      match k with
      | S (S k) => fmt_hex 2 x ++ colons n (S k) r
      | _ => fmt_hex 2 x ++ str ":" ++ colons n n r
      end
  end.

Definition ip_addr_to_string (ip : list Z) (is_v6 : bool) : list Z :=
  if is_v6 then colons 2 2 ip else dotted (drop 12 ip).

Definition mac_addr_to_string (mac : list Z) : list Z := colons 1 1 mac.

Definition protocol_to_string (proto src_port dst_port : Z) : list Z :=
  let port p := (src_port =? p) || (dst_port =? p) in
  if proto =? 1 then str "ICMP"
  else if proto =? 6 then
    if port 80 then str "HTTP" else if port 443 then str "HTTPS" else str "TCP"
  else if proto =? 17 then
    if (src_port =? 67) || (src_port =? 68) || (dst_port =? 67) || (dst_port =? 68)
    then str "DHCP"
    else if port 53 then str "DNS" else str "UDP"
  else if proto =? 58 then str "ICMPv6"
  else if proto =? 89 then str "OSPF"
  else if proto =? 200 then str "ARP"
  else if proto =? 202 then str "STP"
  else str "Unknown(" ++ fmt_u proto ++ str ")".

(** ["0x{:02x} ({}%)"] *)
Definition top_byte_string (b f : Z) : list Z :=
  str "0x" ++ fmt_hex 2 b ++ str " (" ++ fmt_u f ++ str "%)".

Record DashboardPacket := mkDashboardPacket {
    d_timestamp : Z;
    d_src_ip : list Z;
    d_dst_ip : list Z;
    d_src_port : Z;
    d_dst_port : Z;
    d_protocol : list Z;
    d_has_tcp_ao : bool;
    d_tcp_flags : Z;
    d_l3_offset : Z;
    d_l4_offset : Z;
    d_tcp_seq : Z;
    d_tcp_ack : Z;
    d_icmp_type : Z;
    d_icmp_code : Z;
    d_delta_time : Z;
    d_vlan_id : Z;
    d_ip_ttl : Z;
    d_ip_tos : Z;
    d_tcp_win : Z;
    d_ip_id : Z;
    d_is_ipv6 : bool;
    d_is_fragment : bool;
    d_tcp_mss : Z;
    d_tcp_ws : Z;
    d_ipv6_ext_count : Z;
    d_ipv6_flow : Z;
    d_wire_len : Z;
    d_tcp_ts_val : Z;
    d_tcp_ts_ecr : Z;
    d_tcp_sack : bool;
    d_tcp_rtt : Z;
    d_vxlan_vni : Z;
    d_entropy_scaled : Z;
    d_ntp_stratum : Z;
    d_ntp_mode : Z;
    d_igmp_group : list Z;
    d_igmp_type : Z;
    d_lldp_chassis : list Z;
    d_lldp_port : list Z;
    d_tcp_sack_edges : list Z;
    d_top_byte_info : list Z;
    d_dns_query : list Z;
    d_tls_sni : list Z;
    d_extra_info : list Z;
    d_app_layer_info : list Z;
    d_payload : list Z;
    d_src_mac : list Z;
    d_dst_mac : list Z
  }.

(** *** [handle_cpp_connection]: one record *)

Definition read_packet : reader DashboardPacket := (
  v_timestamp <- get_le 8; v_src_ip <- copy_to_slice 16; v_dst_ip <- copy_to_slice 16;
  v_src_port <- get_le 2; v_dst_port <- get_le 2; v_protocol <- get_le 1;
  v_has_tcp_ao <- get_bool; v_tcp_flags <- get_le 1; v_l3_offset <- get_le 1;
  v_l4_offset <- get_le 1; v_tcp_seq <- get_le 4; v_tcp_ack <- get_le 4;
  v_icmp_type <- get_le 1; v_icmp_code <- get_le 1; v_delta_time <- get_le 4;
  v_vlan_id <- get_le 2; v_ip_ttl <- get_le 1; v_ip_tos <- get_le 1; v_tcp_win <- get_le 2;
  v_ip_id <- get_le 2; v_is_ipv6 <- get_bool; v_is_fragment <- get_bool; v_tcp_mss <- get_le 2;
  v_tcp_ws <- get_le 1; v_ipv6_ext_count <- get_le 1; v_ipv6_flow <- get_le 4;
  v_wire_len <- get_le 4; v_tcp_ts_val <- get_le 4; v_tcp_ts_ecr <- get_le 4;
  v_tcp_sack <- get_bool; v_tcp_rtt <- get_le 4; v_vxlan_vni <- get_le 4;
  v_entropy_scaled <- get_le 4; v_ntp_stratum <- get_le 1; v_ntp_mode <- get_le 1;
  v_igmp_type <- get_le 1; v_igmp_group_raw <- copy_to_slice 4;
  v_lldp_c_raw <- copy_to_slice 32; v_lldp_p_raw <- copy_to_slice 32;
  v_sack_edges <- get_u32s 8; v_top_byte <- get_le 1; v_top_freq <- get_le 1; _ <- advance 151;
  v_payload_len <- get_le 2; v_src_mac_raw <- copy_to_slice 6; v_dst_mac_raw <- copy_to_slice 6;
  v_dns_raw <- copy_to_slice 64; v_sni_raw <- copy_to_slice 64;
  v_extra_raw <- copy_to_slice 128; v_app_raw <- copy_to_slice 128;
  v_payload_raw <- copy_to_slice 256; _ <- advance 8;
  rret {|
    d_timestamp := v_timestamp;
    d_src_ip := ip_addr_to_string v_src_ip v_is_ipv6;
    d_dst_ip := ip_addr_to_string v_dst_ip v_is_ipv6;
    d_src_port := v_src_port;
    d_dst_port := v_dst_port;
    d_protocol := protocol_to_string v_protocol v_src_port v_dst_port;
    d_has_tcp_ao := v_has_tcp_ao;
    d_tcp_flags := v_tcp_flags;
    d_l3_offset := v_l3_offset;
    d_l4_offset := v_l4_offset;
    d_tcp_seq := v_tcp_seq;
    d_tcp_ack := v_tcp_ack;
    d_icmp_type := v_icmp_type;
    d_icmp_code := v_icmp_code;
    d_delta_time := v_delta_time;
    d_vlan_id := v_vlan_id;
    d_ip_ttl := v_ip_ttl;
    d_ip_tos := v_ip_tos;
    d_tcp_win := v_tcp_win;
    d_ip_id := v_ip_id;
    d_is_ipv6 := v_is_ipv6;
    d_is_fragment := v_is_fragment;
    d_tcp_mss := v_tcp_mss;
    d_tcp_ws := v_tcp_ws;
    d_ipv6_ext_count := v_ipv6_ext_count;
    d_ipv6_flow := v_ipv6_flow;
    d_wire_len := v_wire_len;
    d_tcp_ts_val := v_tcp_ts_val;
    d_tcp_ts_ecr := v_tcp_ts_ecr;
    d_tcp_sack := v_tcp_sack;
    d_tcp_rtt := v_tcp_rtt;
    d_vxlan_vni := v_vxlan_vni;
    d_entropy_scaled := v_entropy_scaled;
    d_ntp_stratum := v_ntp_stratum;
    d_ntp_mode := v_ntp_mode;
    d_igmp_group := dotted v_igmp_group_raw;
    d_igmp_type := v_igmp_type;
    d_lldp_chassis := text v_lldp_c_raw;
    d_lldp_port := text v_lldp_p_raw;
    d_tcp_sack_edges := v_sack_edges;
    d_top_byte_info := top_byte_string v_top_byte v_top_freq;
    d_dns_query := text v_dns_raw;
    d_tls_sni := text v_sni_raw;
    d_extra_info := text v_extra_raw;
    d_app_layer_info := text v_app_raw;
    d_payload := take (Z.to_nat (Z.min v_payload_len 256)) v_payload_raw;
    d_src_mac := mac_addr_to_string v_src_mac_raw;
    d_dst_mac := mac_addr_to_string v_dst_mac_raw
  |})%reader.

(** ** What the service should show of a record *)

Definition to_bool (z : Z) : bool := negb (z =? 0).

(** Four bytes at a time, least significant first. *)
Fixpoint le_words (b : list Z) : list Z :=
  match b with
  | b0 :: b1 :: b2 :: b3 :: r => of_le [b0; b1; b2; b3] :: le_words r
  | _ => []
  end.

Definition dashboard (i : PacketInfo) : DashboardPacket := {|
    d_timestamp := timestamp i;
    d_src_ip := ip_addr_to_string (src_ip i) (to_bool (is_ipv6 i));
    d_dst_ip := ip_addr_to_string (dst_ip i) (to_bool (is_ipv6 i));
    d_src_port := src_port i;
    d_dst_port := dst_port i;
    d_protocol := protocol_to_string (protocol i) (src_port i) (dst_port i);
    d_has_tcp_ao := to_bool (has_tcp_ao i);
    d_tcp_flags := tcp_flags i;
    d_l3_offset := l3_offset i;
    d_l4_offset := l4_offset i;
    d_tcp_seq := tcp_seq i;
    d_tcp_ack := tcp_ack i;
    d_icmp_type := icmp_type i;
    d_icmp_code := icmp_code i;
    d_delta_time := delta_time i;
    d_vlan_id := vlan_id i;
    d_ip_ttl := ip_ttl i;
    d_ip_tos := ip_tos i;
    d_tcp_win := tcp_win i;
    d_ip_id := ip_id i;
    d_is_ipv6 := to_bool (is_ipv6 i);
    d_is_fragment := to_bool (is_fragment i);
    d_tcp_mss := tcp_mss i;
    d_tcp_ws := tcp_ws i;
    d_ipv6_ext_count := ipv6_ext_count i;
    d_ipv6_flow := ipv6_flow i;
    d_wire_len := wire_len i;
    d_tcp_ts_val := tcp_ts_val i;
    d_tcp_ts_ecr := tcp_ts_ecr i;
    d_tcp_sack := to_bool (tcp_sack i);
    d_tcp_rtt := tcp_rtt i;
    d_vxlan_vni := vxlan_vni i;
    d_entropy_scaled := entropy_scaled i;
    d_ntp_stratum := ntp_stratum i;
    d_ntp_mode := ntp_mode i;
    d_igmp_group := dotted (igmp_group i);
    d_igmp_type := igmp_type i;
    d_lldp_chassis := text (lldp_chassis i);
    d_lldp_port := text (lldp_port i);
    d_tcp_sack_edges := le_words (tcp_sack_edges i);
    d_top_byte_info := top_byte_string (top_byte i) (top_byte_freq i);
    d_dns_query := text (dns_query i);
    d_tls_sni := text (tls_sni i);
    d_extra_info := text (extra_info i);
    d_app_layer_info := text (app_layer_info i);
    d_payload := take (Z.to_nat (Z.min (payload_len i) 256)) (payload i);
    d_src_mac := mac_addr_to_string (src_mac i);
    d_dst_mac := mac_addr_to_string (dst_mac i)
  |}.


(** ** Lemmas *)

Lemma length_le n z : length (le n z) = n.
Proof. revert z. induction n as [|n IH]; intros z; simpl; [done|]. by rewrite IH. Qed.

Lemma bytes_le n z : bytes (le n z).
Proof.
  revert z. induction n as [|n IH]; intros z; cbn [le]; [constructor|].
  constructor; [|apply IH]. apply (is_u_mod 8). lia.
Qed.

Lemma of_le_le n z : is_u (8 * Z.of_nat n) z → of_le (le n z) = z.
Proof.
  revert z. induction n as [|n IH]; intros z Hz.
  - unfold is_u in Hz. simpl in *. lia.
  - cbn [le]. unfold of_le. cbn [foldr]. fold (of_le (le n (z / 256))). rewrite IH.
    + pose proof (Z_div_mod_eq_full z 256). lia.
    + unfold is_u in *. replace (8 * Z.of_nat (S n)) with (8 + 8 * Z.of_nat n) in Hz by lia.
      rewrite Z.pow_add_r in Hz by lia. change (2 ^ 8) with 256 in Hz.
      split; [apply Z.div_pos; lia|apply Z.div_lt_upper_bound; lia].
Qed.

Section readers.
Implicit Types (p r : list Z).

Lemma rbind_step {A B} (m : reader A) (f : A → reader B) b a b' x :
  m b = Some (a, b') → f a b' = x → rbind m f b = x.
Proof. unfold rbind. by intros ->. Qed.

Lemma copy_to_slice_app n p r : length p = n → copy_to_slice n (p ++ r) = Some (p, r).
Proof.
  intros <-. unfold copy_to_slice. rewrite length_app, take_app_length, drop_app_length.
  by destruct (Nat.leb_spec (length p) (length p + length r)); [|lia].
Qed.

Lemma advance_app n p r : length p = n → advance n (p ++ r) = Some (tt, r).
Proof.
  intros <-. unfold advance. rewrite length_app, drop_app_length.
  by destruct (Nat.leb_spec (length p) (length p + length r)); [|lia].
Qed.

Lemma get_le_app n z r : is_u (8 * Z.of_nat n) z → get_le n (le n z ++ r) = Some (z, r).
Proof.
  intros Hz. unfold get_le. eapply rbind_step; [apply copy_to_slice_app, length_le|].
  unfold rret. by rewrite of_le_le.
Qed.

Lemma get_bool_app z r : is_u 8 z → get_bool (le 1 z ++ r) = Some (to_bool z, r).
Proof. intros Hz. unfold get_bool. by eapply rbind_step; [by apply (get_le_app 1)|]. Qed.

Lemma get_u32s_app n p r : length p = (4 * n)%nat → get_u32s n (p ++ r) = Some (le_words p, r).
Proof.
  revert p. induction n as [|n IH]; intros p Hp.
  - by destruct p.
  - destruct p as [|b0 [|b1 [|b2 [|b3 p]]]]; try (simpl in Hp; lia).
    cbn [get_u32s]. eapply rbind_step.
    { unfold get_le. eapply rbind_step; [by apply (copy_to_slice_app 4 [b0; b1; b2; b3])|done]. }
    eapply rbind_step; [apply IH; simpl in Hp; lia|done].
Qed.
End readers.

(** Reads the next field of an encoded record. *)
Ltac read_field W :=
  eapply rbind_step;
  [ first
      [ apply get_bool_app, W
      | apply (get_le_app 1), W | apply (get_le_app 2), W | apply (get_le_app 4), W
      | apply (get_le_app 8), W
      | apply copy_to_slice_app, W | apply advance_app, W | apply get_u32s_app, W ]
  | ].

Lemma read_packet_encode i r :
  wf_info i → read_packet (encode i ++ r) = Some (dashboard i, r).
Proof.
  intros W. unfold encode. cbn [concat]. rewrite <-!app_assoc. unfold read_packet.
  repeat read_field W. done.
Qed.

Ltac array_facts W :=
  destruct W;
  repeat match goal with H : is_array _ _ |- _ => destruct H end.

Lemma length_encode i : wf_info i → zlen (encode i) = STRUCT_SIZE.
Proof.
  intros W. array_facts W. unfold encode, STRUCT_SIZE. cbn [concat].
  rewrite !length_app, !length_le. cbn [length]. lia.
Qed.

Lemma bytes_encode i : wf_info i → bytes (encode i).
Proof.
  intros W. array_facts W. unfold encode. cbn [concat].
  repeat (apply bytes_app; split); try apply bytes_le; try done. constructor.
Qed.

(** ASCII bytes are their own UTF-8 text. *)
Definition ascii (b : list Z) : Prop := Forall (λ x, 0 ≤ x < 128) b.

Lemma from_utf8_lossy_ascii b : ascii b → from_utf8_lossy b = b.
Proof.
  unfold from_utf8_lossy. induction 1 as [|x b Hx _ IH]; [done|].
  cbn [length utf8_lossy]. unfold utf8_step. destruct (Z.ltb_spec x 128); [|lia].
  cbn [drop]. change (drop 0 b) with b. by rewrite IH.
Qed.

Lemma trim_start_zeros n b : trim_start (zeros n ++ b) = trim_start b.
Proof. by induction n. Qed.

Lemma trim_start_text s b : 0 ∉ s → s ≠ [] → trim_start (s ++ b) = s ++ b.
Proof.
  destruct s as [|x s]; [done|]. intros H0 _. assert (x ≠ 0) as Hx.
  { intros ->. apply H0. by left. } by destruct x.
Qed.

Lemma text_cstring s n : ascii s → 0 ∉ s → text (s ++ zeros n) = s.
Proof.
  intros Ha H0. unfold text. rewrite from_utf8_lossy_ascii.
  2: { apply Forall_app. split; [done|]. apply Forall_replicate. lia. }
  unfold trim_matches. destruct (decide (s = [])) as [->|Hs].
  - simpl. rewrite <-(app_nil_r (zeros n)), trim_start_zeros. done.
  - rewrite trim_start_text by done. rewrite reverse_app, reverse_replicate, trim_start_zeros.
    rewrite <-(app_nil_r (reverse s)), trim_start_text.
    + by rewrite app_nil_r, reverse_involutive.
    + by rewrite elem_of_reverse.
    + intros E. apply Hs. by rewrite <-(reverse_involutive s), E.
Qed.

(** C10. The two sides of the wire agree on the record: a well-typed
    [PacketInfo] occupies exactly 1024 bytes, the service's decoder consumes
    exactly these bytes whatever follows, and every field it shows is the
    field of that name that was sent; texts come back without their padding. *)
Theorem wire_roundtrip i r :
  wf_info i →
  zlen (encode i) = STRUCT_SIZE ∧ bytes (encode i) ∧
  read_packet (encode i ++ r) = Some (dashboard i, r) ∧
  (∀ s n, ascii s → 0 ∉ s → extra_info i = s ++ zeros n → d_extra_info (dashboard i) = s) ∧
  (∀ s n, ascii s → 0 ∉ s → app_layer_info i = s ++ zeros n →
    d_app_layer_info (dashboard i) = s) ∧
  (∀ s n, ascii s → 0 ∉ s → dns_query i = s ++ zeros n → d_dns_query (dashboard i) = s).
Proof.
  intros W. split; [by apply length_encode|]. split; [by apply bytes_encode|].
  split; [by apply read_packet_encode|].
  split_and!; intros s n Ha H0 E; unfold dashboard; cbn; rewrite E; by apply text_cstring.
Qed.

Definition sample_record : PacketInfo :=
  set_dns_query (str "example.org" ++ zeros 53) (set_src_port 53 (set_timestamp (2 ^ 60 + 5)
    (set_protocol 17 (set_src_mac [2; 0; 0xAB; 0; 0; 1] (set_payload_len 300 zero_info))))).

Lemma wire_roundtrip_witness :
  read_packet (encode sample_record ++ [7; 7]) = Some (dashboard sample_record, [7; 7]) ∧
  d_dns_query (dashboard sample_record) = str "example.org" ∧
  d_protocol (dashboard sample_record) = str "DNS" ∧
  d_src_mac (dashboard sample_record) = str "02:00:ab:00:00:01".
Proof.
  assert (wf_info sample_record) as W by (split; by_decide).
  destruct (wire_roundtrip sample_record [7; 7] W) as (_ & _ & H & _ & _ & Hd).
  split; [exact H|]. split; [|split; by vm_compute].
  apply (Hd (str "example.org") 53%nat); [by_decide|by_decide|by vm_compute].
Defined.
