(* ===== verification/Sender.v ===== *)
(** * Sending and receiving records

    [send_packet_info] of [cpp/packet_capture.cpp] and the receiving loop
    [handle_cpp_connection] of [rust/packet_service/src/handlers.rs].  The
    message authentication code is a parameter; what the TLS layer answers to
    each [SSL_write], and how the stream is cut into reads, are sequences
    given by the environment. *)

From stdpp Require Import strings.
From S2P Require Import Prelude CMemory PacketTypes Wire.

Definition HASH_SIZE : Z := 64.
Definition TOTAL_MSG_SIZE : Z := STRUCT_SIZE + HASH_SIZE.

(** ** [send_packet_info] *)

(** What one [SSL_write] returns and, for a failure, [SSL_get_error]. *)
Record ssl_answer := mkAnswer { ssl_ret : Z; ssl_err : Z }.

Definition SSL_ERROR_WANT_READ : Z := 2.
Definition SSL_ERROR_WANT_WRITE : Z := 3.

Inductive send_result :=
  | Sent      (** the loop ended *)
  | GaveUp    (** [return] after a failed write *)
  | Waiting.  (** still in the loop after the given answers *)

Record sending := mkSending {
    out : list Z;              (** the bytes the TLS layer accepted *)
    result : send_result;
    answers : list ssl_answer  (** the answers that are left *)
  }.

Fixpoint send_loop (buffer : list Z) (total_size sent : Z) (ans : list ssl_answer) : sending :=
  if sent <? total_size then
    match ans with
    | [] => mkSending [] Waiting []
    | a :: ans =>
        let n := ssl_ret a in
        if n <=? 0 then
          if (ssl_err a =? SSL_ERROR_WANT_WRITE) || (ssl_err a =? SSL_ERROR_WANT_READ)
          then send_loop buffer total_size sent ans
          else mkSending [] GaveUp ans
        else
          let s := send_loop buffer total_size (sent + n) ans in
          mkSending (take (Z.to_nat n) (drop (Z.to_nat sent) buffer) ++ out s)
            (result s) (answers s)
    end
  else mkSending [] Sent ans.

(** The answers keep to the documentation of [SSL_write]: no more bytes are
    accepted than were offered. *)
Fixpoint answers_ok (total_size sent : Z) (ans : list ssl_answer) : Prop :=
  if sent <? total_size then
    match ans with
    | [] => True
    | a :: ans =>
        ssl_ret a ≤ total_size - sent ∧ answers_ok total_size (sent + Z.max 0 (ssl_ret a)) ans
    end
  else True.

Section mac.
(** [HMAC(EVP_sha512(), key, ...)], the same function on both sides. *)
Variable hmac : list Z → list Z → list Z.

(** [combined]: the record and its authentication code. *)
Definition combined (secret : list Z) (info : PacketInfo) : res (list Z) :=
  let hmac_result := hmac secret (encode info) in
  c ← blit (zeros 1088) 0 (encode info);
  blit c STRUCT_SIZE hmac_result.

(** [ssl] is [false] for a null pointer. *)
Definition send_packet_info (ssl : bool) (secret : list Z) (info : PacketInfo)
    (ans : list ssl_answer) : res sending :=
  if negb ssl then Ok (mkSending [] Sent ans)
  else
    c ← combined secret info;
    Ok (send_loop c (zlen c) 0 ans).

(** ** [handle_cpp_connection] *)

Inductive receive_result :=
  | Closed         (** [Ok(())]: the peer closed the stream *)
  | BadHmac        (** [Err(InvalidData)] *)
  | Panicked.      (** a read past the buffer's end *)

(** [while buffer.len() >= TOTAL_MSG_SIZE]: the packets, then the rest of the
    buffer or the reason to stop. *)
Fixpoint drain (fuel : nat) (secret : list Z) (buffer : list Z)
    : list DashboardPacket * (list Z + receive_result) :=
  match fuel with
  | O => ([], inl buffer)
  | S fuel =>
      if zlen buffer <? TOTAL_MSG_SIZE then ([], inl buffer)
      else
        let chunk := take (Z.to_nat STRUCT_SIZE) buffer in
        let received_hash := take (Z.to_nat HASH_SIZE) (drop (Z.to_nat STRUCT_SIZE) buffer) in
        if negb (bool_decide (hmac secret chunk = received_hash)) then ([], inr BadHmac)
        else
          match (packet <- read_packet; _ <- advance (Z.to_nat HASH_SIZE); rret packet)%reader buffer
          with
          | None => ([], inr Panicked)
          | Some (packet, buffer) =>
              let '(ps, r) := drain fuel secret buffer in (packet :: ps, r)
          end
  end.

(** One element of [reads] is what one [read_buf] appends; none of them is
    empty, since an empty read ends the loop. *)
Fixpoint handle_cpp_connection (secret : list Z) (buffer : list Z) (reads : list (list Z))
    : list DashboardPacket * receive_result :=
  match reads with
  | [] => ([], Closed)
  | read :: reads =>
      if zlen read =? 0 then ([], Closed)
      else
        let buffer := buffer ++ read in
        if 2 * 1024 * 1024 <? zlen buffer then handle_cpp_connection secret [] reads
        else
          let '(ps, r) := drain (length buffer) secret buffer in
          match r with
          | inr e => (ps, e)
          | inl buffer =>
              let '(ps', e) := handle_cpp_connection secret buffer reads in (ps ++ ps', e)
          end
  end.
End mac.

(** The stream that follows from sending records one after the other. *)
Definition message (hmac : list Z → list Z → list Z) (secret : list Z) (info : PacketInfo)
    : list Z :=
  encode info ++ hmac secret (encode info).

(** ** The sender *)

(** What the loop has put out is always the beginning of what is left. *)
Lemma send_loop_spec buffer sent ans :
  0 ≤ sent ≤ zlen buffer → answers_ok (zlen buffer) sent ans →
  let s := send_loop buffer (zlen buffer) sent ans in
  ∃ k, out s = take k (drop (Z.to_nat sent) buffer) ∧
    (result s = Sent → out s = drop (Z.to_nat sent) buffer) ∧
    (result s ≠ Sent → Z.of_nat k < zlen buffer - sent) ∧
    (result s = Waiting →
      sent + foldr (λ a n, Z.max 0 (ssl_ret a) + n) 0 ans < zlen buffer).
Proof.
  revert sent. induction ans as [|a ans IH]; intros sent Hs Ha.
  - unfold send_loop. destruct (Z.ltb_spec sent (zlen buffer)); cbn.
    + exists O. split_and!; try done; intros; lia.
    + exists O. split_and!; try done. intros _. by rewrite drop_ge by lia.
  - cbn [send_loop answers_ok foldr] in *. destruct (Z.ltb_spec sent (zlen buffer)).
    2: { exists O. split_and!; try done. intros _. by rewrite drop_ge by lia. }
    destruct Ha as [Hn Ha]. destruct (Z.leb_spec (ssl_ret a) 0).
    + rewrite Z.max_l, Z.add_0_r in Ha by lia. case_test; cbn.
      * destruct (IH sent) as (k & ? & ? & ? & ?); [lia|done|]. exists k.
        split_and!; try done. intros Hw. specialize (H4 Hw). lia.
      * exists O. split_and!; try done; intros; cbn; lia.
    + rewrite Z.max_r in Ha by lia. cbn.
      destruct (IH (sent + ssl_ret a)) as (k & E & H1 & H2 & H3); [lia|done|].
      replace (Z.to_nat (sent + ssl_ret a)) with (Z.to_nat sent + Z.to_nat (ssl_ret a))%nat in * by lia.
      rewrite <-drop_drop in *. exists (Z.to_nat (ssl_ret a) + k)%nat. split_and!.
      * rewrite E. by rewrite take_take_drop.
      * intros Hr. rewrite H1 by done. apply take_drop.
      * intros Hr. specialize (H2 Hr). lia.
      * intros Hr. specialize (H3 Hr). lia.
Qed.

Lemma blit_app p q r src :
  length src = length q → blit (p ++ q ++ r) (zlen p) src = Ok (p ++ src ++ r).
Proof.
  intros E. unfold blit. rewrite !length_app.
  destruct (Z.leb_spec 0 (zlen p)); [|lia].
  destruct (Z.leb_spec (zlen p + zlen src) (Z.of_nat (length p + (length q + length r)))); [|lia].
  cbn [andb]. rewrite Nat2Z.id, take_app_length. do 3 f_equal.
  rewrite <-drop_drop, drop_app_length, E. by apply drop_app_length.
Qed.

(** ** Readers that take a fixed number of bytes *)

(** [m] reads exactly [n] bytes and does not look behind them. *)
Definition consumes {A} (n : nat) (m : reader A) : Prop :=
  ∀ b, (n <= length b)%nat → ∃ a, ∀ x, m (b ++ x) = Some (a, drop n b ++ x).

Lemma consumes_ret {A} (a : A) : consumes 0 (rret a).
Proof. intros b _. by exists a. Qed.

Lemma consumes_bind {A B} n k (m : reader A) (f : A → reader B) :
  consumes n m → (∀ a, consumes k (f a)) → consumes (n + k) (rbind m f).
Proof.
  intros Hm Hf b Hb. destruct (Hm b) as [a Ha]; [lia|].
  destruct (Hf a (drop n b)) as [c Hc]; [rewrite length_drop; lia|].
  exists c. intros x. eapply rbind_step; [apply Ha|]. by rewrite Hc, drop_drop.
Qed.

Lemma consumes_copy n : consumes n (copy_to_slice n).
Proof.
  intros b Hb. exists (take n b). intros x. rewrite <-(take_drop n b) at 1.
  rewrite <-app_assoc. apply copy_to_slice_app. rewrite length_take. lia.
Qed.

Lemma consumes_advance n : consumes n (advance n).
Proof.
  intros b Hb. exists tt. intros x. rewrite <-(take_drop n b) at 1.
  rewrite <-app_assoc. apply advance_app. rewrite length_take. lia.
Qed.

Lemma consumes_get_le n : consumes n (get_le n).
Proof.
  rewrite <-(Nat.add_0_r n) at 1.
  apply consumes_bind; [apply consumes_copy|intros; apply consumes_ret].
Qed.

Lemma consumes_get_bool : consumes 1 get_bool.
Proof. apply (consumes_bind 1 0); [apply consumes_get_le|intros; apply consumes_ret]. Qed.

Lemma consumes_get_u32s n : consumes (n * 4) (get_u32s n).
Proof.
  induction n as [|n IH]; [apply consumes_ret|].
  apply (consumes_bind 4 (n * 4)); [apply consumes_get_le|]. intros a.
  rewrite <-(Nat.add_0_r (n * 4)). apply consumes_bind; [done|intros; apply consumes_ret].
Qed.

(** A whole message: the record and the code behind it. *)
Definition read_message : reader DashboardPacket :=
  (packet <- read_packet; _ <- advance (Z.to_nat HASH_SIZE); rret packet)%reader.

Lemma consumes_read_packet : consumes (Z.to_nat STRUCT_SIZE) read_packet.
Proof.
  assert (∃ n, n = Z.to_nat STRUCT_SIZE ∧ consumes n read_packet) as (n & <- & H); [|done].
  eexists. split; cycle 1.
  - repeat (eapply consumes_bind;
      [first [apply consumes_get_bool | apply consumes_get_le | apply consumes_copy
        | apply consumes_advance | apply consumes_get_u32s] | intros ?]).
    apply consumes_ret.
  - by vm_compute.
Qed.

Lemma consumes_read_message : consumes (Z.to_nat TOTAL_MSG_SIZE) read_message.
Proof.
  apply (consumes_bind (Z.to_nat STRUCT_SIZE) (Z.to_nat HASH_SIZE)); [apply consumes_read_packet|].
  intros a. apply (consumes_bind (Z.to_nat HASH_SIZE) 0); [apply consumes_advance|].
  intros ?. apply consumes_ret.
Qed.

Section transfer.
Context (hmac : list Z → list Z → list Z).
(** SHA-512 has 64 bytes. *)
Context (hmac_length : ∀ k m, zlen (hmac k m) = HASH_SIZE).
Implicit Types (b x : list Z) (i : PacketInfo).

Lemma combined_message secret i :
  wf_info i → combined hmac secret i = Ok (message hmac secret i).
Proof using All.
  intros W. pose proof (length_encode i W) as He. pose proof (hmac_length secret (encode i)) as Hh.
  unfold combined, message, STRUCT_SIZE, HASH_SIZE in *. apply bind_step with (encode i ++ zeros 64).
  - apply (blit_app [] (zeros 1024) (zeros 64)). rewrite length_replicate. lia.
  - pose proof (blit_app (encode i) (zeros 64) [] (hmac secret (encode i))) as H.
    rewrite !app_nil_r, He in H. apply H. rewrite length_replicate. lia.
Qed.

Lemma length_message secret i : wf_info i → zlen (message hmac secret i) = TOTAL_MSG_SIZE.
Proof using All.
  intros W. unfold message, TOTAL_MSG_SIZE. rewrite length_app, Nat2Z.inj_add, hmac_length.
  by rewrite length_encode.
Qed.

(** *** The receiver *)

Lemma drain_fuel secret n m b :
  (length b <= n)%nat → (length b <= m)%nat → drain hmac n secret b = drain hmac m secret b.
Proof using All.
  revert m b. induction n as [|n IH]; intros m b Hn Hm.
  - destruct b; [|simpl in *; lia]. by destruct m.
  - destruct m as [|m]; [by destruct b; [|simpl in *; lia]|].
    cbn [drain]. fold read_message. destruct (Z.ltb_spec (zlen b) TOTAL_MSG_SIZE); [done|].
    case_test; [done|]. destruct (consumes_read_message b) as [p Hp].
    { unfold TOTAL_MSG_SIZE, STRUCT_SIZE, HASH_SIZE in *. lia. }
    specialize (Hp []). rewrite !app_nil_r in Hp. rewrite Hp.
    unfold TOTAL_MSG_SIZE, STRUCT_SIZE, HASH_SIZE in *.
    rewrite (IH m); [done|rewrite length_drop; lia..].
Qed.

Definition drain_all secret b := drain hmac (length b) secret b.

Lemma drain_all_short secret b : zlen b < TOTAL_MSG_SIZE → drain_all secret b = ([], inl b).
Proof using All.
  intros Hb. unfold drain_all. destruct b as [|z b]; [done|]. cbn [length drain] in *.
  case_test; [done|lia].
Qed.

(** One round of the inner loop. *)
Lemma drain_all_step secret b :
  TOTAL_MSG_SIZE ≤ zlen b →
  ∃ p, read_message b = Some (p, drop (Z.to_nat TOTAL_MSG_SIZE) b) ∧
    ∀ x, drain_all secret (b ++ x) =
      if bool_decide (hmac secret (take (Z.to_nat STRUCT_SIZE) b) =
          take (Z.to_nat HASH_SIZE) (drop (Z.to_nat STRUCT_SIZE) b))
      then let '(ps, r) := drain_all secret (drop (Z.to_nat TOTAL_MSG_SIZE) b ++ x) in (p :: ps, r)
      else ([], inr BadHmac).
Proof using All.
  intros Hb. assert (Z.to_nat TOTAL_MSG_SIZE <= length b)%nat as Hb' by lia.
  destruct (consumes_read_message b Hb') as [p Hp]. exists p. split.
  { specialize (Hp []). by rewrite !app_nil_r in Hp. }
  intros x. unfold drain_all at 1. destruct (length (b ++ x)) as [|n] eqn:En.
  { rewrite length_app in En. unfold TOTAL_MSG_SIZE, STRUCT_SIZE, HASH_SIZE in *. lia. }
  cbn [drain]. fold read_message. rewrite Hp, !length_app in *.
  destruct (Z.ltb_spec (Z.of_nat (length b + length x)) TOTAL_MSG_SIZE); [lia|].
  unfold TOTAL_MSG_SIZE, STRUCT_SIZE, HASH_SIZE in *.
  rewrite take_app_le, drop_app_le, take_app_le by (rewrite ?length_drop; lia).
  case_bool_decide; [|done]. cbn [negb]. unfold drain_all.
  rewrite (drain_fuel _ n (length (drop (Z.to_nat (1024 + 64)) b ++ x)));
    [done|rewrite length_app, length_drop; lia..].
Qed.

(** The stream may be cut anywhere: what the first part yields, then what
    the rest yields. *)
Lemma drain_all_app secret b x :
  drain_all secret (b ++ x) =
    let '(ps, r) := drain_all secret b in
    match r with
    | inr e => (ps, inr e)
    | inl rest => let '(ps', r') := drain_all secret (rest ++ x) in (ps ++ ps', r')
    end.
Proof using All.
  remember (length b) as n eqn:En. revert b En.
  induction (lt_wf n) as [n _ IH]; intros b ->.
  destruct (Z.lt_ge_cases (zlen b) TOTAL_MSG_SIZE).
  { rewrite (drain_all_short secret b) by done. by destruct (drain_all secret (b ++ x)). }
  destruct (drain_all_step secret b) as (p & _ & Hstep); [done|].
  rewrite Hstep. pose proof (Hstep []) as Hb. rewrite !app_nil_r in Hb. rewrite Hb.
  case_bool_decide; [|done].
  rewrite (IH (length (drop (Z.to_nat TOTAL_MSG_SIZE) b))); [|rewrite length_drop; unfold
    TOTAL_MSG_SIZE, STRUCT_SIZE, HASH_SIZE in *; lia|done].
  destruct (drain_all secret (drop _ b)) as [ps [rest|e]]; [|done].
  by destruct (drain_all secret (rest ++ x)).
Qed.

Lemma drain_all_rest secret b ps rest :
  drain_all secret b = (ps, inl rest) → zlen rest < TOTAL_MSG_SIZE.
Proof using All.
  remember (length b) as n eqn:En. revert b En ps.
  induction (lt_wf n) as [n _ IH]; intros b -> ps.
  destruct (Z.lt_ge_cases (zlen b) TOTAL_MSG_SIZE).
  { rewrite drain_all_short by done. by intros [= _ <-]. }
  destruct (drain_all_step secret b) as (p & _ & Hstep); [done|].
  specialize (Hstep []). rewrite !app_nil_r in Hstep. rewrite Hstep. case_bool_decide; [|done].
  destruct (drain_all secret (drop _ b)) as [ps' r] eqn:E. intros [= _ ->].
  eapply IH; [|done|exact E]. rewrite length_drop.
  unfold TOTAL_MSG_SIZE, STRUCT_SIZE, HASH_SIZE in *. lia.
Qed.

(** How the transport cuts the stream does not matter. *)
Lemma handle_reads secret b reads :
  zlen b < TOTAL_MSG_SIZE →
  Forall (λ r, 0 < zlen r ≤ 2 * 1024 * 1024 - TOTAL_MSG_SIZE) reads →
  handle_cpp_connection hmac secret b reads =
    let '(ps, r) := drain_all secret (b ++ concat reads) in
    (ps, match r with inl _ => Closed | inr e => e end).
Proof using All.
  intros Hb Hr. revert b Hb. induction Hr as [|r reads [Hr1 Hr2] _ IH]; intros b Hb.
  - simpl. rewrite app_nil_r, drain_all_short by done. done.
  - cbn [handle_cpp_connection concat]. destruct (Z.eqb_spec (zlen r) 0); [lia|].
    rewrite length_app.
    destruct (Z.ltb_spec (2 * 1024 * 1024) (Z.of_nat (length b + length r))); [lia|].
    rewrite app_assoc, drain_all_app, <-length_app. fold (drain_all secret (b ++ r)).
    destruct (drain_all secret (b ++ r)) as [ps [rest|e]] eqn:E; [|done].
    rewrite IH by (by eapply drain_all_rest).
    by destruct (drain_all secret (rest ++ concat reads)).
Qed.

Lemma drain_message secret i x :
  wf_info i →
  drain_all secret (message hmac secret i ++ x) =
    let '(ps, r) := drain_all secret x in (dashboard i :: ps, r).
Proof using All.
  intros W. pose proof (length_message secret i W) as Hm. pose proof (length_encode i W) as He.
  destruct (drain_all_step secret (message hmac secret i)) as (p & Hp & Hstep); [lia|].
  assert (drop (Z.to_nat TOTAL_MSG_SIZE) (message hmac secret i) = []) as Hd
    by (apply drop_ge; lia).
  rewrite Hstep, Hd. rewrite Hd in Hp.
  unfold message in *. rewrite take_app_length', drop_app_length' by lia.
  rewrite take_ge by (pose proof (hmac_length secret (encode i)); lia).
  rewrite bool_decide_eq_true_2 by done. cbn [app].
  assert (read_message (encode i ++ hmac secret (encode i)) = Some (dashboard i, [])) as Hr.
  { unfold read_message. eapply rbind_step; [by apply read_packet_encode|].
    eapply rbind_step; [|done]. rewrite <-(app_nil_r (hmac _ _)) at 1.
    apply advance_app. pose proof (hmac_length secret (encode i)). lia. }
  rewrite Hr in Hp. by injection Hp as <-.
Qed.

Lemma drain_messages secret rs :
  Forall wf_info rs →
  drain_all secret (concat (message hmac secret <$> rs)) = (dashboard <$> rs, inl []).
Proof using All.
  induction 1 as [|i rs W _ IH]; [done|].
  rewrite !fmap_cons. cbn [concat]. by rewrite drain_message, IH.
Qed.

(** Another secret: the first record is refused. *)
Lemma drain_other_secret secret secret' i x :
  wf_info i → hmac secret' (encode i) ≠ hmac secret (encode i) →
  drain_all secret' (message hmac secret i ++ x) = ([], inr BadHmac).
Proof using All.
  intros W Hne. pose proof (length_message secret i W) as Hm. pose proof (length_encode i W) as He.
  destruct (drain_all_step secret' (message hmac secret i)) as (p & _ & Hstep); [lia|].
  rewrite Hstep. unfold message. rewrite take_app_length', drop_app_length' by lia.
  rewrite take_ge by (pose proof (hmac_length secret (encode i)); lia).
  by rewrite bool_decide_eq_false_2.
Qed.

Lemma send_packet_info_loop secret i ans :
  wf_info i →
  send_packet_info hmac true secret i ans =
    Ok (send_loop (message hmac secret i) (zlen (message hmac secret i)) 0 ans).
Proof using All. intros W. unfold send_packet_info. cbn [negb]. by rewrite combined_message. Qed.

Lemma send_packet_info_sent secret i ans r :
  wf_info i → answers_ok TOTAL_MSG_SIZE 0 ans →
  send_packet_info hmac true secret i ans = Ok r → result r = Sent →
  out r = message hmac secret i.
Proof using All.
  intros W Ha. rewrite send_packet_info_loop by done. intros [= <-] Hr.
  rewrite <-(length_message secret i W) in Ha.
  destruct (send_loop_spec (message hmac secret i) 0 ans) as (k & _ & Hs & _); [lia|done|].
  by apply Hs.
Qed.

(** C11. [send_packet_info] under partial writes: whatever the TLS layer
    answers, what it has accepted is a prefix of the record and its
    authentication code; the call ends normally exactly when all 1088 bytes
    were accepted, each once and in order, it gives up only with a strict
    prefix sent, and it is not waiting any more once the layer has accepted
    1088 bytes. *)
Theorem send_packet_info_delivers secret i ans :
  wf_info i → answers_ok TOTAL_MSG_SIZE 0 ans →
  ∃ s, send_packet_info hmac true secret i ans = Ok s ∧
    out s `prefix_of` message hmac secret i ∧
    (result s = Sent ↔ out s = message hmac secret i) ∧
    (TOTAL_MSG_SIZE ≤ foldr (λ a n, Z.max 0 (ssl_ret a) + n) 0 ans → result s ≠ Waiting).
Proof using All.
  intros W Ha. pose proof (length_message secret i W) as Hm. rewrite <-Hm in *.
  rewrite send_packet_info_loop by done.
  destruct (send_loop_spec (message hmac secret i) 0 ans) as (k & E & H1 & H2 & H3); [lia|done|].
  change (Z.to_nat 0) with 0%nat in *. rewrite drop_0 in *.
  eexists. split; [done|]. split; [|split].
  - rewrite E. apply prefix_take.
  - split; [done|]. intros Ho. destruct (result _); [done| |]; exfalso.
    all: rewrite Ho in E; apply (f_equal length) in E; rewrite length_take in E.
    all: specialize (H2 ltac:(done)); lia.
  - intros Hsum Hw. specialize (H3 Hw). lia.
Qed.

(** C12. From sender to dashboard: the records that were sent are received,
    all of them, in order and without change, however the transport cuts the
    stream into reads; if the two processes were given different secrets, the
    service closes the connection at the first record and shows nothing. *)
Theorem stream_delivery secret secret' rs reads :
  Forall wf_info rs →
  concat reads = concat (message hmac secret <$> rs) →
  Forall (λ r, 0 < zlen r ≤ 2 * 1024 * 1024 - TOTAL_MSG_SIZE) reads →
  handle_cpp_connection hmac secret [] reads = (dashboard <$> rs, Closed) ∧
  (∀ i rest, rs = i :: rest → hmac secret' (encode i) ≠ hmac secret (encode i) →
    handle_cpp_connection hmac secret' [] reads = ([], BadHmac)).
Proof using All.
  intros W E Hr. assert (zlen (@nil Z) < TOTAL_MSG_SIZE) by (unfold TOTAL_MSG_SIZE, STRUCT_SIZE,
    HASH_SIZE; simpl; lia).
  split.
  - rewrite handle_reads by done. cbn [app]. by rewrite E, drain_messages.
  - intros i rest -> Hne. inversion W; subst. rewrite handle_reads by done. cbn [app].
    rewrite E, fmap_cons. cbn [concat]. by rewrite drain_other_secret.
Qed.
End transfer.

(** *** A concrete authentication code and environment *)

Definition sample_hmac (key msg : list Z) : list Z :=
  replicate 64 ((foldr Z.add 0 key + 7 * foldr Z.add 0 msg) mod 256).

Lemma sample_hmac_length k m : zlen (sample_hmac k m) = HASH_SIZE.
Proof. unfold sample_hmac. by rewrite length_replicate. Qed.

Lemma sample_record_wf : wf_info sample_record.
Proof. split; by_decide. Qed.

Definition sample_answers : list ssl_answer :=
  [mkAnswer 700 0; mkAnswer (-1) SSL_ERROR_WANT_WRITE; mkAnswer 388 0].

Lemma send_packet_info_delivers_witness :
  ∃ s, send_packet_info sample_hmac true (str "secret") sample_record sample_answers = Ok s ∧
    out s `prefix_of` message sample_hmac (str "secret") sample_record ∧
    (result s = Sent ↔ out s = message sample_hmac (str "secret") sample_record) ∧
    (1088 ≤ 1088 → result s ≠ Waiting).
Proof.
  apply (send_packet_info_delivers sample_hmac sample_hmac_length (str "secret") sample_record
    sample_answers sample_record_wf).
  by vm_compute.
Defined.

Definition sample_stream : list Z :=
  concat (message sample_hmac (str "secret") <$> [sample_record; zero_info]).

Lemma stream_delivery_witness :
  handle_cpp_connection sample_hmac (str "secret") []
    [take 1000 sample_stream; take 500 (drop 1000 sample_stream); drop 1500 sample_stream] =
  ([dashboard sample_record; dashboard zero_info], Closed).
Proof.
  assert (Forall wf_info [sample_record; zero_info]) as W.
  { repeat apply Forall_cons_2; [split; by_decide..|constructor]. }
  refine (proj1 (stream_delivery sample_hmac sample_hmac_length (str "secret") (str "other")
    [sample_record; zero_info] _ W _ _)); [by vm_compute|by_decide].
Defined.
