(* ===== verification/Queue.v ===== *)
(** * The lock-free queue of [cpp/packet_types.h]

    [LockFreeQueue<T>], shared by any number of threads.  A thread runs one
    call of [push] or [pop]; its program counter says which access of shared
    memory is next, and the accesses of all threads interleave.  Every access
    is atomic in the model: the atomics are in C++, and the theorem that no
    two threads are at conflicting accesses of a node's data shows that the
    copies of the data may be taken as one step too.  The orders are those of
    sequential consistency; the release stores and acquire loads of
    [sequence] are what makes the data visible on the hardware. *)

From stdpp Require Import relations.
From S2P Require Import Prelude.

(** ** The object *)

Record node {T : Type} := mkNode { sequence : Z; node_data : option T }.
Arguments node : clear implicits.
Arguments mkNode {T}.

(** The memory of one queue; [node_data] is [None] before the first copy. *)
Record shared {T : Type} := mkShared {
    buffer : list (node T);
    enqueue_pos : Z;
    dequeue_pos : Z
  }.
Arguments shared : clear implicits.
Arguments mkShared {T}.

(** A thread's program counter; the arguments are its local variables. *)
Inductive pc {T : Type} :=
  | Idle
  | PushLoad (v : T)             (** [pos = enqueue_pos_.load()] *)
  | PushSeq (v : T) (pos : Z)    (** [seq = node.sequence.load()] and the tests *)
  | PushCas (v : T) (pos : Z)    (** [enqueue_pos_.compare_exchange_weak] *)
  | PushWrite (v : T) (pos : Z)  (** [node.data = data] *)
  | PushStore (v : T) (pos : Z)  (** [node.sequence.store(pos + 1)] *)
  | PushRet (b : bool)           (** [return b] *)
  | PopLoad
  | PopSeq (pos : Z)
  | PopCas (pos : Z)
  | PopRead (pos : Z)            (** [data = node.data] *)
  | PopStore (pos : Z) (x : T)   (** [node.sequence.store(pos + mask + 1)] *)
  | PopRet (r : option T).       (** [return true] with the data, or [false] *)
Arguments pc : clear implicits.

Section queue.
Context {T : Type} (capacity : Z).

Definition capacity_mask : Z := capacity - 1.

(** [pos & capacity_mask_] *)
Definition index (pos : Z) : nat := Z.to_nat (Z.land pos capacity_mask).

(** [(intptr_t)seq - (intptr_t)pos] *)
Definition diff (seq pos : Z) : Z := i64 (i64 seq - i64 pos).

Definition set_sequence (s : Z) (n : node T) : node T := mkNode s (node_data n).
Definition set_data (d : option T) (n : node T) : node T := mkNode (sequence n) d.

Definition update (pos : Z) (f : node T → node T) (sh : shared T) : shared T :=
  mkShared (alter f (index pos) (buffer sh)) (enqueue_pos sh) (dequeue_pos sh).

(** One atomic access of a thread.  [spurious] is the choice of
[compare_exchange_weak] to fail although the values agree.  [None]:
the thread is not inside a call, or it reads data nobody wrote. *)
Definition exec (spurious : bool) (sh : shared T) (p : pc T) : option (shared T * pc T) :=
  match p with
  | Idle | PushRet _ | PopRet _ => None
  | PushLoad v => Some (sh, PushSeq v (enqueue_pos sh))
  | PushSeq v pos =>
    n ← buffer sh !! index pos;
    let d := diff (sequence n) pos in
    Some (sh, if d =? 0 then PushCas v pos
              else if d <? 0 then PushRet false else PushLoad v)
  | PushCas v pos =>
    if negb spurious && (enqueue_pos sh =? pos)
    then Some (mkShared (buffer sh) (u64 (pos + 1)) (dequeue_pos sh), PushWrite v pos)
    else Some (sh, PushSeq v (enqueue_pos sh))
  | PushWrite v pos => Some (update pos (set_data (Some v)) sh, PushStore v pos)
  | PushStore v pos => Some (update pos (set_sequence (u64 (pos + 1))) sh, PushRet true)
  | PopLoad => Some (sh, PopSeq (dequeue_pos sh))
  | PopSeq pos =>
    n ← buffer sh !! index pos;
    let d := diff (sequence n) (u64 (pos + 1)) in
    Some (sh, if d =? 0 then PopCas pos
              else if d <? 0 then PopRet None else PopLoad)
  | PopCas pos =>
    if negb spurious && (dequeue_pos sh =? pos)
    then Some (mkShared (buffer sh) (enqueue_pos sh) (u64 (pos + 1)), PopRead pos)
    else Some (sh, PopSeq (dequeue_pos sh))
  | PopRead pos =>
    n ← buffer sh !! index pos;
    x ← node_data n;
    Some (sh, PopStore pos x)
  | PopStore pos x =>
    Some (update pos (set_sequence (u64 (pos + capacity_mask + 1))) sh, PopRet (Some x))
  end.

(** The constructor. *)
Definition init_shared : shared T :=
  mkShared ((λ i, mkNode i None) <$> seqZ 0 capacity) 0 0.

(** ** All threads *)

(** The memory, the threads, and a record for the proofs that the code does
not have: the values in the order in which their positions were taken. *)
Record config := mkConfig { mem : shared T; threads : list (pc T); log : list T }.

(** A successful exchange of [enqueue_pos_] takes the next position. *)
Definition record (p p' : pc T) (l : list T) : list T :=
  match p, p' with PushCas v _, PushWrite _ _ => l ++ [v] | _, _ => l end.

Inductive step : config → config → Prop :=
  | step_push t v sh ts l :
    ts !! t = Some Idle →
    step (mkConfig sh ts l) (mkConfig sh (<[t := PushLoad v]> ts) l)
  | step_pop t sh ts l :
    ts !! t = Some Idle →
    step (mkConfig sh ts l) (mkConfig sh (<[t := PopLoad]> ts) l)
  | step_exec t spurious p p' sh sh' ts l :
    ts !! t = Some p →
    exec spurious sh p = Some (sh', p') →
    step (mkConfig sh ts l) (mkConfig sh' (<[t := p']> ts) (record p p' l))
  | step_push_return t b sh ts l :
    ts !! t = Some (PushRet b) →
    step (mkConfig sh ts l) (mkConfig sh (<[t := Idle]> ts) l)
  | step_pop_return t r sh ts l :
    ts !! t = Some (PopRet r) →
    step (mkConfig sh ts l) (mkConfig sh (<[t := Idle]> ts) l).

Definition init (n : nat) : config := mkConfig init_shared (replicate n Idle) [].

Definition reachable (n : nat) (c : config) : Prop := rtc step (init n) c.
End queue.
Arguments config : clear implicits.
