(* ===== verification/QueueInv.v ===== *)
(** * The invariant of the lock-free queue

    What every reachable state of [Queue] satisfies: which node belongs to
    which position, which thread may touch it, what a thread at each point of
    [push] and [pop] knows of the memory; every step of every thread keeps
    it.  [capacity] is any power of two from 2 to [2 ^ 32]. *)

From stdpp Require Import relations.
From S2P Require Import Prelude Queue.

(** ** The invariant *)

(** The position whose node a thread owns as a producer, as a consumer. *)
Definition pushing {T} (p : pc T) : option Z :=
  match p with PushWrite _ pos | PushStore _ pos => Some pos | _ => None end.
Definition popping {T} (p : pc T) : option Z :=
  match p with PopRead pos | PopStore pos _ => Some pos | _ => None end.

Section invariant.
Context {T : Type} (k capacity : Z).
Context (Hk : 1 ≤ k ≤ 32) (Hcap : capacity = 2 ^ k).
Implicit Types (b : list (node T)) (l : list T) (ts : list (pc T)) (p : pc T).

Definition seq_at b (pos : Z) : option Z := sequence <$> b !! index capacity pos.
Definition data_at b (pos : Z) : option (option T) := node_data <$> b !! index capacity pos.
Definition log_at l (pos : Z) : option T := l !! Z.to_nat pos.

(** What the program counter of a thread knows of the memory. *)
Definition thread_ok b (E D : Z) l p : Prop :=
  match p with
  | Idle | PushLoad _ | PushRet _ | PopLoad | PopRet _ => True
  | PushSeq _ pos => 0 ≤ pos ≤ E
  | PushCas _ pos => 0 ≤ pos ≤ E ∧ (pos = E → E < D + capacity ∧ seq_at b pos = Some pos)
  | PushWrite v pos => D ≤ pos < E ∧ log_at l pos = Some v ∧ seq_at b pos = Some pos
  | PushStore v pos =>
    D ≤ pos < E ∧ log_at l pos = Some v ∧ seq_at b pos = Some pos ∧
    data_at b pos = Some (Some v)
  | PopSeq pos => 0 ≤ pos ≤ D
  | PopCas pos => 0 ≤ pos ≤ D ∧ (pos = D → D < E ∧ seq_at b pos = Some (pos + 1))
  | PopRead pos =>
    (0 ≤ pos < D ∧ E ≤ pos + capacity) ∧ seq_at b pos = Some (pos + 1) ∧
    data_at b pos = Some (log_at l pos)
  | PopStore pos x =>
    (0 ≤ pos < D ∧ E ≤ pos + capacity) ∧ seq_at b pos = Some (pos + 1) ∧
    log_at l pos = Some x
  end.

(** The node of position [q], [dequeue_pos_ <= q < dequeue_pos_ + capacity]:
filled or being filled below [enqueue_pos_], free or being emptied above. *)
Definition slot_ok b (E : Z) l ts (q : Z) : Prop :=
  if q <? E then
  (seq_at b q = Some q ∧ ∃ t, ts !! t ≫= pushing = Some q) ∨
  (seq_at b q = Some (q + 1) ∧ data_at b q = Some (log_at l q))
  else
  seq_at b q = Some q ∨
  (seq_at b q = Some (q - capacity + 1) ∧ ∃ t, ts !! t ≫= popping = Some (q - capacity)).

Record Inv b (E D : Z) l ts : Prop := {
  inv_length : zlen b = capacity;
  inv_log : E = zlen l;
  inv_range : 0 ≤ D ≤ E ∧ E ≤ D + capacity;
  inv_slots : ∀ q, D ≤ q < D + capacity → slot_ok b E l ts q;
  inv_threads : ∀ t p, ts !! t = Some p → thread_ok b E D l p;
  inv_pushing : ∀ t t' q, ts !! t ≫= pushing = Some q → ts !! t' ≫= pushing = Some q → t = t';
  inv_popping : ∀ t t' q, ts !! t ≫= popping = Some q → ts !! t' ≫= popping = Some q → t = t'
  }.

Definition inv_config (c : config T) : Prop :=
  Inv (buffer (mem c)) (enqueue_pos (mem c)) (dequeue_pos (mem c)) (log c) (threads c).

(** *** Positions and nodes *)

Lemma capacity_range : 2 ≤ capacity ≤ 2 ^ 32.
Proof using All.
  rewrite Hcap. split; [change 2 with (2 ^ 1) at 1|]; apply Z.pow_le_mono_r; lia.
Qed.

Lemma index_mod pos : index capacity pos = Z.to_nat (pos mod capacity).
Proof using All.
  unfold index, capacity_mask. rewrite Hcap, <-Z.land_ones, Z.ones_equiv by lia. f_equal.
Qed.

Lemma index_add pos : index capacity (pos + capacity) = index capacity pos.
Proof using All.
  rewrite !index_mod. f_equal. pose proof capacity_range.
  rewrite <-(Z.mod_add pos 1 capacity) by lia. f_equal. lia.
Qed.

Lemma index_ne i j : i ≠ j → i < j + capacity → j < i + capacity →
  index capacity i ≠ index capacity j.
Proof using All.
  rewrite !index_mod. intros Hne H1 H2 E. pose proof capacity_range as R.
  pose proof (Z.mod_pos_bound i capacity). pose proof (Z.mod_pos_bound j capacity).
  assert (i mod capacity = j mod capacity) as E' by lia. clear E.
  pose proof (Z_div_mod_eq_full i capacity). pose proof (Z_div_mod_eq_full j capacity).
  assert (i / capacity = j / capacity); nia.
Qed.

Lemma index_lt b pos : zlen b = capacity → is_Some (b !! index capacity pos).
Proof using All.
  intros E. apply lookup_lt_is_Some. rewrite index_mod. pose proof capacity_range.
  pose proof (Z.mod_pos_bound pos capacity). lia.
Qed.
Lemma index_ne' i j : i ≠ j → i < j + capacity → j < i + capacity →
  index capacity j ≠ index capacity i.
Proof using All. intros. apply index_ne; lia. Qed.

Section nodes.
Variables (b : list (node T)) (f : node T → node T) (i : Z).

Lemma seq_at_other j : i ≠ j → i < j + capacity → j < i + capacity →
  seq_at (alter f (index capacity i) b) j = seq_at b j.
Proof using All. intros. unfold seq_at. by rewrite list_lookup_alter_ne by by apply index_ne. Qed.

Lemma data_at_other j : i ≠ j → i < j + capacity → j < i + capacity →
  data_at (alter f (index capacity i) b) j = data_at b j.
Proof using All. intros. unfold data_at. by rewrite list_lookup_alter_ne by by apply index_ne. Qed.

Lemma data_at_set_sequence s j :
  data_at (alter (set_sequence s) (index capacity i) b) j = data_at b j.
Proof using b i Hk Hcap.
  unfold data_at. rewrite list_lookup_alter. case_decide as E; [|done].
  rewrite E. by destruct (b !! _).
Qed.

Lemma seq_at_set_data d j :
  seq_at (alter (set_data d) (index capacity i) b) j = seq_at b j.
Proof using b i Hk Hcap.
  unfold seq_at. rewrite list_lookup_alter. case_decide as E; [|done].
  rewrite E. by destruct (b !! _).
Qed.

Lemma seq_at_set_sequence s j : zlen b = capacity → index capacity j = index capacity i →
  seq_at (alter (set_sequence s) (index capacity i) b) j = Some s.
Proof using b i Hk Hcap.
  intros L E. unfold seq_at. rewrite E, list_lookup_alter_eq.
  by destruct (index_lt b i L) as [n ->].
Qed.

Lemma data_at_set_data d : zlen b = capacity →
  data_at (alter (set_data d) (index capacity i) b) i = Some d.
Proof using b i Hk Hcap.
  intros L. unfold data_at. rewrite list_lookup_alter_eq.
  by destruct (index_lt b i L) as [n ->].
Qed.
End nodes.

Lemma log_at_snoc_lt l v pos : 0 ≤ pos < zlen l → log_at (l ++ [v]) pos = log_at l pos.
Proof using All. intros. unfold log_at. apply lookup_app_l. lia. Qed.

Lemma log_at_snoc l v : log_at (l ++ [v]) (zlen l) = Some v.
Proof using All. unfold log_at. rewrite Nat2Z.id. by apply list_lookup_middle. Qed.

(** *** Steps *)

Lemma status_insert (g : pc T → option Z) ts t t' p p' :
  ts !! t = Some p →
  <[t := p']> ts !! t' ≫= g = if decide (t' = t) then g p' else ts !! t' ≫= g.
Proof using All.
  intros Ht. case_decide as E.
  - subst. rewrite list_lookup_insert_eq; [done|]. by eapply lookup_lt_Some.
  - by rewrite list_lookup_insert_ne.
Qed.

Lemma status_insert_same (g : pc T → option Z) ts t t' p p' :
  ts !! t = Some p → g p' = g p → <[t := p']> ts !! t' ≫= g = ts !! t' ≫= g.
Proof using All.
  intros Ht E. rewrite (status_insert g ts t t' p p' Ht). case_decide as E'; [|done].
  by rewrite E', Ht.
Qed.

Lemma threads_insert (P : pc T → Prop) ts t p' :
  P p' → (∀ t' p, t' ≠ t → ts !! t' = Some p → P p) →
  ∀ t' p, <[t := p']> ts !! t' = Some p → P p.
Proof using All.
  intros Hp H t' p [(<- & <- & _)|[Hne Hl]]%list_lookup_insert_Some; eauto.
Qed.

(** A step that changes only the program counter. *)
Lemma Inv_local b E D l ts t p p' :
  Inv b E D l ts → ts !! t = Some p → pushing p' = pushing p → popping p' = popping p →
  thread_ok b E D l p' → Inv b E D l (<[t := p']> ts).
Proof using All.
  intros [? ? ? Hs Ht ? ?] Hp Hpu Hpo Hok.
  pose proof (λ t', status_insert_same pushing ts t t' p p' Hp Hpu) as Epu.
  pose proof (λ t', status_insert_same popping ts t t' p p' Hp Hpo) as Epo.
  split; [done..| | | |].
  - intros q Hq. specialize (Hs q Hq). unfold slot_ok in *.
    destruct (q <? E); [by setoid_rewrite Epu | by setoid_rewrite Epo].
  - by apply threads_insert; [|eauto].
  - intros t1 t2 q. rewrite !Epu. eauto.
  - intros t1 t2 q. rewrite !Epo. eauto.
Qed.
Lemma seq_at_add b pos : seq_at b (pos + capacity) = seq_at b pos.
Proof using All. unfold seq_at. by rewrite index_add. Qed.

(** *** What the other threads know is kept *)

Lemma thread_ok_push_cas b D l v p :
  0 ≤ D ≤ zlen l → zlen l < D + capacity → seq_at b (zlen l) = Some (zlen l) →
  thread_ok b (zlen l) D l p → thread_ok b (zlen l + 1) D (l ++ [v]) p.
Proof using All.
  intros R F S. pose proof capacity_range.
  assert (∀ pos, seq_at b pos = Some (pos + 1) → zlen l ≠ pos + capacity) as X.
  { intros pos Hs E. rewrite <-(seq_at_add b pos), <-E, S in Hs. simplify_eq. lia. }
  destruct p; simpl; try done; try lia.
  - intros (? & ? & ?). rewrite log_at_snoc_lt by lia. split_and!; first [done | lia].
  - intros (? & ? & ? & ?). rewrite log_at_snoc_lt by lia. split_and!; first [done | lia].
  - intros [? H1]. split; [done|]. intros ->. destruct H1; [done|]. split; [lia|done].
  - intros (? & Hs & ?). specialize (X _ Hs). rewrite log_at_snoc_lt by lia.
    split_and!; first [done | lia].
  - intros (? & Hs & ?). specialize (X _ Hs). rewrite log_at_snoc_lt by lia.
    split_and!; first [done | lia].
Qed.

Lemma thread_ok_pop_cas b E D l p :
  0 ≤ D < E → E ≤ D + capacity → seq_at b D = Some (D + 1) →
  thread_ok b E D l p → thread_ok b E (D + 1) l p.
Proof using All.
  intros R F S. pose proof capacity_range.
  assert (∀ pos, seq_at b pos = Some pos → pos ≠ D) as X.
  { intros pos Hs ->. rewrite S in Hs. simplify_eq. lia. }
  destruct p as [| | |v pos|v pos|v pos| | |pos|pos|pos|pos x|]; simpl; try done.
  - intros [? H1]. split; [done|]. intros ->. destruct H1; [done|]. split; [lia|done].
  - intros (? & ? & Hs). specialize (X _ Hs). split_and!; first [done | lia].
  - intros (? & ? & Hs & ?). specialize (X _ Hs). split_and!; first [done | lia].
  - lia.
  - intros [? _]. split; [lia|]. lia.
  - intros [? ?]. split; [lia|done].
  - intros [? ?]. split; [lia|done].
Qed.

(** A write to the node of a position that its owner alone may touch. *)
Lemma thread_ok_write b E D l f i p :
  0 ≤ D ≤ E → E ≤ D + capacity → 0 ≤ i < E → E ≤ i + capacity →
  seq_at b i = Some (if i <? D then i + 1 else i) →
  pushing p ≠ Some i → popping p ≠ Some i →
  thread_ok b E D l p → thread_ok (alter f (index capacity i) b) E D l p.
Proof using All.
  intros R F Ri Fi S P1 P2. pose proof capacity_range.
  assert (∀ pos, pos ≠ i → i < pos + capacity → pos < i + capacity →
    seq_at (alter f (index capacity i) b) pos = seq_at b pos ∧
    data_at (alter f (index capacity i) b) pos = data_at b pos) as X.
  { intros. split; [apply seq_at_other | apply data_at_other]; lia. }
  destruct p as [| | |v pos|v pos|v pos| | |pos|pos|pos|pos x|]; simpl in *; try done.
  - intros [? H1]. split; [done|]. intros ->. destruct H1 as [? Hs]; [done|].
    split; [done|]. destruct (decide (E = i + capacity)) as [->|];
      [|destruct (X E) as [-> _]; [lia..|done]].
    rewrite seq_at_add in Hs. rewrite S in Hs. destruct (Z.ltb_spec i D); simplify_eq; lia.
  - intros (? & ? & ?). assert (pos ≠ i) by congruence.
    destruct (X pos) as [-> _]; [lia..|done].
  - intros (? & ? & ? & ?). assert (pos ≠ i) by congruence.
    destruct (X pos) as [-> ->]; [lia..|done].
  - intros [? H1]. split; [done|]. intros ->. destruct H1 as [? Hs]; [done|].
    split; [done|].
    assert (D ≠ i) by (intros ->; rewrite S in Hs; destruct (Z.ltb_spec i i); simplify_eq; lia).
    destruct (X D) as [-> _]; [lia..|done].
  - intros (? & ? & ?). assert (pos ≠ i) by congruence.
    destruct (X pos) as [-> ->]; [lia..|done].
  - intros (? & ? & ?). assert (pos ≠ i) by congruence.
    destruct (X pos) as [-> _]; [lia..|done].
Qed.

(** *** The five steps that write *)

(** The slots when nothing but the status of one thread changes. *)
Lemma slot_ok_threads b E l ts ts' q :
  slot_ok b E l ts q →
  (∀ t, ts !! t ≫= pushing = Some q → q < E → ∃ t', ts' !! t' ≫= pushing = Some q) →
  (∀ t, ts !! t ≫= popping = Some (q - capacity) → E ≤ q →
    ∃ t', ts' !! t' ≫= popping = Some (q - capacity)) →
  slot_ok b E l ts' q.
Proof using All.
  unfold slot_ok. intros H H1 H2.
  destruct (Z.ltb_spec q E).
  - destruct H as [[? [t Ht]]|?]; eauto.
  - destruct H as [?|[? [t Ht]]]; eauto.
Qed.

Lemma slot_ok_nodes b b' E l ts q :
  seq_at b' q = seq_at b q → data_at b' q = data_at b q →
  slot_ok b E l ts q → slot_ok b' E l ts q.
Proof using All. unfold slot_ok. by intros -> ->. Qed.

Lemma Inv_push_cas b D l ts t v :
  Inv b (zlen l) D l ts → ts !! t = Some (PushCas v (zlen l)) →
  Inv b (zlen l + 1) D (l ++ [v]) (<[t := PushWrite v (zlen l)]> ts).
Proof using All.
  intros [Hl _ R Hs Ht Hpu Hpo] Hp. pose proof capacity_range.
  destruct (Ht _ _ Hp) as (_ & F & S); [done|].
  pose proof (λ t', status_insert pushing ts t t' _ (PushWrite v (zlen l)) Hp) as Epu.
  pose proof (λ t', status_insert_same popping ts t t' _ (PushWrite v (zlen l)) Hp eq_refl) as Epo.
  assert (∀ t', ts !! t' ≫= pushing ≠ Some (zlen l)) as New.
  { intros t' E. destruct (ts !! t') as [p|] eqn:Et; [|done].
    specialize (Ht _ _ Et). destruct p; simplify_eq/=; destruct Ht; lia. }
  split.
  - done.
  - rewrite length_app. simpl. lia.
  - lia.
  - intros q Hq. specialize (Hs q Hq). unfold slot_ok in *.
    destruct (Z.ltb_spec q (zlen l + 1)); destruct (Z.ltb_spec q (zlen l)); try lia.
    + rewrite log_at_snoc_lt by lia. destruct Hs as [[Hq' [t' Ht']]|?]; [left|by right].
      split; [done|]. exists t'. rewrite Epu. case_decide; [|done]. subst. by rewrite Hp in Ht'.
    + assert (q = zlen l) as -> by lia. left. split; [done|]. exists t. rewrite Epu.
      by rewrite decide_True.
    + setoid_rewrite Epo. done.
  - apply threads_insert.
    + simpl. rewrite log_at_snoc. split_and!; first [done | lia].
    + intros t' p _ Hp'. apply thread_ok_push_cas; [lia..|done|eauto].
  - intros t1 t2 q. rewrite !Epu. repeat case_decide; subst; simpl; eauto; intros.
    + simplify_eq. exfalso. eapply New. eauto.
    + simplify_eq. exfalso. eapply New. eauto.
  - intros t1 t2 q. rewrite !Epo. eauto.
Qed.

Lemma Inv_pop_cas b E D l ts t :
  Inv b E D l ts → ts !! t = Some (PopCas D) →
  Inv b E (D + 1) l (<[t := PopRead D]> ts).
Proof using All.
  intros [Hl HE R Hs Ht Hpu Hpo] Hp. pose proof capacity_range.
  destruct (Ht _ _ Hp) as (_ & F & S); [done|].
  pose proof (λ t', status_insert_same pushing ts t t' _ (PopRead D) Hp eq_refl) as Epu.
  pose proof (λ t', status_insert popping ts t t' _ (PopRead D) Hp) as Epo.
  assert (∀ t', ts !! t' ≫= popping ≠ Some D) as New.
  { intros t' E'. destruct (ts !! t') as [p|] eqn:Et; [|done].
    specialize (Ht _ _ Et). destruct p; simplify_eq/=; destruct Ht; lia. }
  split.
  - done.
  - done.
  - lia.
  - intros q Hq. destruct (decide (q = D + capacity)) as [->|Hne].
    + unfold slot_ok. destruct (Z.ltb_spec (D + capacity) E); [lia|]. right.
      rewrite seq_at_add, S. split; [f_equal; lia|]. exists t. rewrite Epo, decide_True by done.
      simpl. f_equal. lia.
    + apply (slot_ok_threads b E l ts); [apply Hs; lia|..].
      * intros t' ? _. exists t'. by rewrite Epu.
      * intros t' Ht' _. exists t'. rewrite Epo. case_decide; [|done]. subst. by rewrite Hp in Ht'.
  - apply threads_insert.
    + simpl. split; [lia|]. split; [done|].
      specialize (Hs D). unfold slot_ok in Hs. destruct (Z.ltb_spec D E); [|lia].
      destruct Hs as [[S' _]|[_ ?]]; [lia| |done]. rewrite S in S'. simplify_eq. lia.
    + intros t' p _ Hp'. apply thread_ok_pop_cas; [lia..|done|eauto].
  - intros t1 t2 q. rewrite !Epu. eauto.
  - intros t1 t2 q. rewrite !Epo. repeat case_decide; subst; simpl; eauto; intros.
    + simplify_eq. exfalso. eapply New. eauto.
    + simplify_eq. exfalso. eapply New. eauto.
Qed.

Lemma pushing_range b E D l ts t i :
  Inv b E D l ts → ts !! t ≫= pushing = Some i → D ≤ i < E ∧ seq_at b i = Some i.
Proof using All.
  intros HI. destruct (ts !! t) as [p|] eqn:Hp; [|done].
  pose proof (inv_threads _ _ _ _ _ HI _ _ Hp). destruct p; intros; simplify_eq/=; tauto.
Qed.

Lemma popping_range b E D l ts t i :
  Inv b E D l ts → ts !! t ≫= popping = Some i →
  0 ≤ i < D ∧ E ≤ i + capacity ∧ seq_at b i = Some (i + 1).
Proof using All.
  intros HI. destruct (ts !! t) as [p|] eqn:Hp; [|done].
  pose proof (inv_threads _ _ _ _ _ HI _ _ Hp). destruct p; intros; simplify_eq/=; tauto.
Qed.

(** A thread that owns the node of [i] leaves the others what they know. *)
Lemma owner_write b E D l ts t i f :
  Inv b E D l ts → ts !! t ≫= pushing = Some i ∨ ts !! t ≫= popping = Some i →
  ∀ t' p, t' ≠ t → ts !! t' = Some p → thread_ok (alter f (index capacity i) b) E D l p.
Proof using All.
  intros HI Hi t' p Hne Hp. pose proof (inv_range _ _ _ _ _ HI). pose proof capacity_range.
  pose proof (inv_threads _ _ _ _ _ HI _ _ Hp) as Hok.
  destruct Hi as [Hi|Hi].
  - destruct (pushing_range _ _ _ _ _ _ _ HI Hi) as [? S].
    apply thread_ok_write; try done; try lia.
    + rewrite S. f_equal. by destruct (Z.ltb_spec i D); lia.
    + intros Hq. apply Hne. eapply (inv_pushing _ _ _ _ _ HI); [|done]. by rewrite Hp.
    + intros Hq. destruct (popping_range _ _ _ _ _ t' i HI); [by rewrite Hp|lia].
  - destruct (popping_range _ _ _ _ _ _ _ HI Hi) as (? & ? & S).
    apply thread_ok_write; try done; try lia.
    + rewrite S. f_equal. by destruct (Z.ltb_spec i D); lia.
    + intros Hq. destruct (pushing_range _ _ _ _ _ t' i HI); [by rewrite Hp|lia].
    + intros Hq. apply Hne. eapply (inv_popping _ _ _ _ _ HI); [|done]. by rewrite Hp.
Qed.

(** Two threads that own nodes own different ones. *)
Lemma owners_distinct b E D l ts t t' i j :
  Inv b E D l ts →
  ts !! t ≫= pushing = Some i ∨ ts !! t ≫= popping = Some i →
  ts !! t' ≫= pushing = Some j ∨ ts !! t' ≫= popping = Some j →
  index capacity i = index capacity j → t = t'.
Proof using All.
  intros HI Hi Hj Hij. pose proof (inv_range _ _ _ _ _ HI).
  assert (∀ t i, ts !! t ≫= pushing = Some i ∨ ts !! t ≫= popping = Some i →
    i < E ≤ i + capacity) as X.
  { intros ? ? [Ho|Ho]; [apply (pushing_range _ _ _ _ _ _ _ HI) in Ho
      | apply (popping_range _ _ _ _ _ _ _ HI) in Ho]; lia. }
  assert (i = j) as <-.
  { destruct (decide (i = j)) as [|Hd]; [done|]. exfalso. pose proof (X _ _ Hi).
    pose proof (X _ _ Hj). by apply (index_ne i j); [|lia|lia|]. }
  destruct Hi as [Hi|Hi], Hj as [Hj|Hj].
  - by apply (inv_pushing _ _ _ _ _ HI _ _ i).
  - apply (pushing_range _ _ _ _ _ _ _ HI) in Hi. apply (popping_range _ _ _ _ _ _ _ HI) in Hj. lia.
  - apply (popping_range _ _ _ _ _ _ _ HI) in Hi. apply (pushing_range _ _ _ _ _ _ _ HI) in Hj. lia.
  - by apply (inv_popping _ _ _ _ _ HI _ _ i).
Qed.

(** The slots of the other positions. *)
Lemma slot_ok_other b E l ts t i j p p' f :
  slot_ok b E l ts j → ts !! t = Some p →
  i ≠ j → i < j + capacity → j < i + capacity →
  pushing p = None ∨ pushing p = Some i →
  popping p = None ∨ popping p = Some (i - capacity) →
  slot_ok (alter f (index capacity i) b) E l (<[t := p']> ts) j.
Proof using All.
  intros H Hp Hne H1 H2 P1 P2. apply (slot_ok_nodes b).
  { apply seq_at_other; lia. } { apply data_at_other; lia. }
  apply (slot_ok_threads b E l ts); [done|..].
  - intros t' Ht' _. exists t'. rewrite (status_insert _ _ _ _ _ _ Hp). case_decide; [|done].
    subst. rewrite Hp in Ht'. simpl in Ht'. destruct P1; congruence.
  - intros t' Ht' _. exists t'. rewrite (status_insert _ _ _ _ _ _ Hp). case_decide; [|done].
    subst. rewrite Hp in Ht'. simpl in Ht'. destruct P2; simplify_eq; try congruence.
    exfalso. assert (i - capacity = j - capacity) by congruence. lia.
Qed.

(** Uniqueness when a thread stays where it is or leaves. *)
Lemma unique_insert (g : pc T → option Z) ts t p p' :
  ts !! t = Some p → g p' = g p ∨ g p' = None →
  (∀ t1 t2 q, ts !! t1 ≫= g = Some q → ts !! t2 ≫= g = Some q → t1 = t2) →
  ∀ t1 t2 q, <[t := p']> ts !! t1 ≫= g = Some q → <[t := p']> ts !! t2 ≫= g = Some q → t1 = t2.
Proof using All.
  intros Hp Hg H t1 t2 q.
  assert (∀ t', <[t := p']> ts !! t' ≫= g = Some q → ts !! t' ≫= g = Some q) as X; [|eauto].
  intros t'. rewrite (status_insert g _ _ _ _ _ Hp). case_decide as E; [|done].
  rewrite E, Hp. simpl. destruct Hg; congruence.
Qed.

Lemma Inv_push_write b E D l ts t v pos :
  Inv b E D l ts → ts !! t = Some (PushWrite v pos) →
  Inv (alter (set_data (Some v)) (index capacity pos) b) E D l (<[t := PushStore v pos]> ts).
Proof using All.
  intros HI Hp. pose proof HI as [Hl HE R Hs Ht Hpu Hpo].
  assert (ts !! t ≫= pushing = Some pos) as Ho by by rewrite Hp.
  destruct (pushing_range _ _ _ _ _ _ _ HI Ho) as [Rp S]. destruct (Ht _ _ Hp) as (_ & Hlog & _).
  split; [by rewrite length_alter|done|done| | | |].
  - intros q Hq. destruct (decide (pos = q)) as [<-|Hne].
    + unfold slot_ok. destruct (Z.ltb_spec pos E); [|lia]. left.
      rewrite seq_at_set_data. split; [done|]. exists t.
      by rewrite (status_insert _ _ _ _ _ _ Hp), decide_True.
    + eapply slot_ok_other; try done; [auto|lia|lia|by right|by left].
  - apply threads_insert.
    + simpl. rewrite seq_at_set_data, data_at_set_data by done. done.
    + by apply (owner_write b E D l ts t pos); [|left].
  - apply (unique_insert _ _ _ _ _ Hp); [by left|done].
  - apply (unique_insert _ _ _ _ _ Hp); [by left|done].
Qed.

Lemma Inv_push_store b E D l ts t v pos :
  Inv b E D l ts → ts !! t = Some (PushStore v pos) →
  Inv (alter (set_sequence (pos + 1)) (index capacity pos) b) E D l (<[t := PushRet true]> ts).
Proof using All.
  intros HI Hp. pose proof HI as [Hl HE R Hs Ht Hpu Hpo].
  assert (ts !! t ≫= pushing = Some pos) as Ho by by rewrite Hp.
  destruct (pushing_range _ _ _ _ _ _ _ HI Ho) as [Rp S].
  destruct (Ht _ _ Hp) as (_ & Hlog & _ & Hd).
  split; [by rewrite length_alter|done|done| | | |].
  - intros q Hq. destruct (decide (pos = q)) as [<-|Hne].
    + unfold slot_ok. destruct (Z.ltb_spec pos E); [|lia]. right.
      rewrite seq_at_set_sequence, data_at_set_sequence, Hlog by done. done.
    + eapply slot_ok_other; try done; [auto|lia|lia|by right|by left].
  - apply threads_insert; [done|]. by apply (owner_write b E D l ts t pos); [|left].
  - apply (unique_insert _ _ _ _ _ Hp); [by right|done].
  - apply (unique_insert _ _ _ _ _ Hp); [by left|done].
Qed.

Lemma Inv_pop_store b E D l ts t pos x :
  Inv b E D l ts → ts !! t = Some (PopStore pos x) →
  Inv (alter (set_sequence (pos + capacity)) (index capacity pos) b) E D l
    (<[t := PopRet (Some x)]> ts).
Proof using All.
  intros HI Hp. pose proof HI as [Hl HE R Hs Ht Hpu Hpo].
  assert (ts !! t ≫= popping = Some pos) as Ho by by rewrite Hp.
  destruct (popping_range _ _ _ _ _ _ _ HI Ho) as (Rp & F & S).
  split; [by rewrite length_alter|done|done| | | |].
  - intros q Hq. destruct (decide (pos + capacity = q)) as [<-|Hne].
    + unfold slot_ok. destruct (Z.ltb_spec (pos + capacity) E); [lia|]. left.
      rewrite seq_at_set_sequence; [done..|]. by rewrite index_add.
    + rewrite <-(index_add pos).
      eapply slot_ok_other; try done; [auto|lia|lia|by left|right; simpl; f_equal; lia].
  - apply threads_insert; [done|]. by apply (owner_write b E D l ts t pos); [|right].
  - apply (unique_insert _ _ _ _ _ Hp); [by left|done].
  - apply (unique_insert _ _ _ _ _ Hp); [by right|done].
Qed.

(** *** What a thread reads *)

(** The sequence number of the node of any position, by the slot it is now. *)
Lemma seq_cases b E D l ts pos :
  Inv b E D l ts →
  ∃ j s, let q := pos + j * capacity in
    (D ≤ q < D + capacity ∧ 0 ≤ s) ∧ seq_at b pos = Some s ∧
    if q <? E then (s = q ∧ ∃ t, ts !! t ≫= pushing = Some q) ∨ s = q + 1
    else s = q ∨ (s = q - capacity + 1 ∧ ∃ t, ts !! t ≫= popping = Some (q - capacity)).
Proof using All.
  intros HI. pose proof capacity_range. pose proof (inv_range _ _ _ _ _ HI).
  pose proof (Z.mod_pos_bound (pos - D) capacity).
  pose proof (Z_div_mod_eq_full (pos - D) capacity).
  set (j := - ((pos - D) / capacity)). assert (D ≤ pos + j * capacity < D + capacity) as Hq by nia.
  assert (seq_at b pos = seq_at b (pos + j * capacity)) as ->.
  { unfold seq_at. rewrite !index_mod. by rewrite Z.mod_add by lia. }
  pose proof (inv_slots _ _ _ _ _ HI _ Hq) as Hs. unfold slot_ok in Hs. exists j.
  cbv zeta.  destruct (pos + j * capacity <? E); [destruct Hs as [[-> Hx]|[-> _]] | destruct Hs as [->|[-> Hx]]];
    eexists; (split; [|split; [done|eauto]]); split; try lia.
  destruct Hx as [t Ht]. destruct (popping_range _ _ _ _ _ _ _ HI Ht). lia.
Qed.

Lemma diff_small s pos : 0 ≤ s < 2 ^ 63 → 0 ≤ pos < 2 ^ 63 → diff s pos = s - pos.
Proof using All.
  intros. assert (∀ z, - 2 ^ 63 ≤ z < 2 ^ 63 → i64 z = z) as X.
  { intros. unfold i64. rewrite Z.mod_small; lia. }
  unfold diff. by rewrite !X by (rewrite ?X; lia).
Qed.

(** The tests of [push] on the sequence number. *)
Lemma push_seq b E D l ts pos v s :
  Inv b E D l ts → 0 ≤ pos ≤ E → E ≤ 2 ^ 62 → seq_at b pos = Some s →
  diff s pos = s - pos ∧
  (s = pos → thread_ok b E D l (PushCas v pos)) ∧
  (s < pos → E = D + capacity ∨ ∃ t, ts !! t ≫= popping = Some (E - capacity)) ∧
  (pos = E → s ≤ pos).
Proof using All.
  intros HI Hp HE Hs. pose proof capacity_range. pose proof (inv_range _ _ _ _ _ HI).
  destruct (seq_cases _ _ _ _ _ pos HI) as (j & s' & [Hq Hpos] & Hs' & Hc). rewrite Hs in Hs'.
  injection Hs' as <-. simpl.
  assert (j = 0 ∧ pos < D + capacity ∨ 1 ≤ j ∧ pos < D ∨ j = -1 ∧ pos = E ∧ E = D + capacity) as Hj
    by nia.
  destruct Hj as [[-> ?]|[[? ?]|(-> & -> & ->)]].
  - rewrite Z.mul_0_l, Z.add_0_r in *.
    assert (s ≤ pos + 1 ∧ (pos = E → s ≤ pos) ∧
      (s < pos → ∃ t, ts !! t ≫= popping = Some (pos - capacity)) ∧
      (pos < E → pos ≤ s)) as (? & ? & Hpop & ?).
    { destruct (Z.ltb_spec pos E); [destruct Hc as [[-> ?]| ->] | destruct Hc as [->|[-> ?]]];
        split_and!; intros; try lia; done. }
    split; [apply diff_small; lia|]. split; [intros ->; split; [lia|intros; split; [lia|done]]|].
    split; [|done]. intros Hlt. right. replace E with pos by lia. by apply Hpop.
  - assert (capacity ≤ j * capacity) by nia.
    assert (pos + 1 ≤ s < 2 ^ 63).
    { generalize dependent (j * capacity). intros m.
      destruct (_ <? E); intros; [destruct Hc as [[? _]|?] | destruct Hc as [?|[? _]]]; lia. }
    split; [apply diff_small; lia|]. split_and!; intros; exfalso; lia.
  - destruct (Z.ltb_spec (D + capacity + -1 * capacity) (D + capacity)); [|lia].
    assert (D ≤ s ≤ D + 1) by (destruct Hc as [[? _]|?]; lia).
    split; [apply diff_small; lia|]. split; [intros; exfalso; lia|].
    split; [by left|lia].
Qed.

(** The tests of [pop] on the sequence number. *)
Lemma pop_seq b E D l ts pos s :
  Inv b E D l ts → 0 ≤ pos ≤ D → E ≤ 2 ^ 62 → seq_at b pos = Some s →
  diff s (u64 (pos + 1)) = s - (pos + 1) ∧
  (s = pos + 1 → thread_ok b E D l (PopCas pos)) ∧
  (s < pos + 1 → D = E ∨ ∃ t, ts !! t ≫= pushing = Some D) ∧
  (pos = D → s ≤ pos + 1).
Proof using All.
  intros HI Hp HE Hs. pose proof capacity_range. pose proof (inv_range _ _ _ _ _ HI).
  rewrite u64_small by (unfold is_u; lia).
  destruct (seq_cases _ _ _ _ _ pos HI) as (j & s' & [Hq Hpos] & Hs' & Hc). rewrite Hs in Hs'.
  injection Hs' as <-. simpl.
  assert (j = 0 ∧ pos = D ∨ 1 ≤ j ∧ pos < D) as [[-> ->]|[? ?]] by nia.
  - rewrite Z.mul_0_l, Z.add_0_r in *.
    assert (s ≤ D + 1 ∧ (s = D + 1 → D < E) ∧
      (s < D + 1 → D = E ∨ ∃ t, ts !! t ≫= pushing = Some D)) as (? & ? & ?).
    { destruct (Z.ltb_spec D E); [destruct Hc as [[-> ?]| ->] | destruct Hc as [->|[-> ?]]];
        split_and!; intros; try lia; try by right. }
    split; [apply diff_small; lia|]. split; [|done].
    intros ->. split; [lia|]. intros _. split; [by auto|done].
  - assert (capacity ≤ j * capacity) by nia.
    assert (pos + 1 ≤ s < 2 ^ 63).
    { generalize dependent (j * capacity). intros m.
      destruct (_ <? E); intros; [destruct Hc as [[? _]|?] | destruct Hc as [?|[? _]]]; lia. }
    split; [apply diff_small; lia|]. split_and!; intros; try (exfalso; lia).
    split; lia.
Qed.

(** *** Every step keeps the invariant *)

Lemma exec_push_seq sh v pos s :
  seq_at (buffer sh) pos = Some s →
  exec capacity false sh (PushSeq v pos) =
    Some (sh, if diff s pos =? 0 then PushCas v pos
              else if diff s pos <? 0 then PushRet false else PushLoad v).
Proof using All.
  unfold seq_at. simpl. destruct (buffer sh !! _); [|done]. by intros [= <-].
Qed.

Lemma exec_pop_seq sh pos s :
  seq_at (buffer sh) pos = Some s →
  exec capacity false sh (PopSeq pos) =
    Some (sh, if diff s (u64 (pos + 1)) =? 0 then PopCas pos
              else if diff s (u64 (pos + 1)) <? 0 then PopRet None else PopLoad).
Proof using All.
  unfold seq_at. simpl. destruct (buffer sh !! _); [|done]. by intros [= <-].
Qed.

Lemma seq_at_is_Some b pos : zlen b = capacity → ∃ s, seq_at b pos = Some s.
Proof using All. intros Hl. unfold seq_at. destruct (index_lt b pos Hl) as [n ->]. by eexists. Qed.

Lemma Inv_exec spurious sh sh' l ts t p p' :
  inv_config (mkConfig sh ts l) → zlen l < 2 ^ 62 → ts !! t = Some p →
  exec capacity spurious sh p = Some (sh', p') →
  inv_config (mkConfig sh' (<[t := p']> ts) (record p p' l)).
Proof using All.
  unfold inv_config. simpl. intros HI Hl Hp He. pose proof capacity_range.
  pose proof HI as [Hb HE R _ Ht _ _]. pose proof (Ht _ _ Hp) as Hok.
  destruct p as [|v|v pos|v pos|v pos|v pos| | |pos|pos|pos|pos x|]; try done.
  - injection He as <- <-. apply (Inv_local _ _ _ _ _ _ _ _ HI Hp); try done. simpl. lia.
  - destruct (seq_at_is_Some _ pos Hb) as [s Hs]. simpl in Hok.
    change (exec capacity false sh (PushSeq v pos) = Some (sh', p')) in He.
    rewrite (exec_push_seq _ _ _ _ Hs) in He. injection He as <- <-.
    destruct (push_seq _ _ _ _ _ pos v s HI Hok ltac:(lia) Hs) as (-> & Hcas & _).
    apply (Inv_local _ _ _ _ _ _ _ _ HI Hp); repeat case_test; try done.
    apply Hcas. lia.
  - simpl in He. destruct (negb spurious && (enqueue_pos sh =? pos)) eqn:Ec;
      injection He as <- <-; simpl.
    + assert (pos = zlen l) as -> by lia. rewrite u64_small by (unfold is_u; lia).
      rewrite HE in HI. by apply Inv_push_cas.
    + apply (Inv_local _ _ _ _ _ _ _ _ HI Hp); try done. simpl. lia.
  - injection He as <- <-. by apply Inv_push_write.
  - simpl in He, Hok. rewrite u64_small in He by (unfold is_u; lia). injection He as <- <-.
    by eapply Inv_push_store.
  - injection He as <- <-. apply (Inv_local _ _ _ _ _ _ _ _ HI Hp); try done. simpl. lia.
  - destruct (seq_at_is_Some _ pos Hb) as [s Hs]. simpl in Hok.
    change (exec capacity false sh (PopSeq pos) = Some (sh', p')) in He.
    rewrite (exec_pop_seq _ _ _ Hs) in He. injection He as <- <-.
    destruct (pop_seq _ _ _ _ _ pos s HI Hok ltac:(lia) Hs) as (-> & Hcas & _).
    apply (Inv_local _ _ _ _ _ _ _ _ HI Hp); repeat case_test; try done.
    apply Hcas. lia.
  - simpl in He. destruct (negb spurious && (dequeue_pos sh =? pos)) eqn:Ec;
      injection He as <- <-; simpl.
    + assert (pos = dequeue_pos sh) as -> by lia. rewrite u64_small by (unfold is_u; lia).
      by apply Inv_pop_cas.
    + apply (Inv_local _ _ _ _ _ _ _ _ HI Hp); try done. simpl. lia.
  - destruct Hok as (? & Hs & Hd). simpl in He. unfold data_at in Hd.
    destruct (buffer sh !! _) as [n|] eqn:En; [|done]. injection Hd as Hd. simpl in He.
    rewrite Hd in He. destruct (log_at l pos) as [x|] eqn:El; [|done]. injection He as <- <-.
    by apply (Inv_local _ _ _ _ _ _ _ _ HI Hp).
  - simpl in He, Hok. unfold capacity_mask in He. replace (pos + (capacity - 1) + 1)
      with (pos + capacity) in He by lia.
    rewrite u64_small in He by (unfold is_u; lia). injection He as <- <-.
    by apply Inv_pop_store.
Qed.

Lemma Inv_init n : inv_config (init capacity n).
Proof using All.
  unfold inv_config, init, init_shared. simpl. pose proof capacity_range.
  assert (∀ t p, replicate n (@Idle T) !! t = Some p → p = Idle) as Idl.
  { intros t p [-> _]%lookup_replicate. done. }
  assert (∀ (g : pc T → option Z) t q, g Idle = None →
    replicate n Idle !! t ≫= g = Some q → False) as No.
  { intros g t q Hg. destruct (replicate n Idle !! t) eqn:E; [|done].
    apply Idl in E as ->. simpl. congruence. }
  split.
  - rewrite length_fmap, length_seqZ. lia.
  - done.
  - lia.
  - intros q Hq. unfold slot_ok. destruct (Z.ltb_spec q 0); [lia|]. left.
    unfold seq_at. rewrite index_mod, Z.mod_small, list_lookup_fmap by lia.
    rewrite lookup_seqZ_lt by lia. simpl. f_equal. lia.
  - intros t p ->%Idl. done.
  - intros t t' q H1. exfalso. by eapply (No pushing).
  - intros t t' q H1. exfalso. by eapply (No popping).
Qed.

Lemma step_log (c c' : config T) : step capacity c c' → zlen (log c) ≤ zlen (log c').
Proof using All.
  intros [| |t sp p p' ? ? ? l _ _| |]; simpl; try lia.
  unfold record. destruct p, p'; rewrite ?length_app; lia.
Qed.

Lemma Inv_step c c' :
  inv_config c → zlen (log c) < 2 ^ 62 → step capacity c c' → inv_config c'.
Proof using All.
  intros HI Hl Hs. destruct Hs as [t v sh ts l Hp|t sh ts l Hp|t sp p p' sh sh' ts l Hp He
    |t b sh ts l Hp|t r sh ts l Hp].
  - by apply (Inv_local _ _ _ _ _ _ _ _ HI Hp).
  - by apply (Inv_local _ _ _ _ _ _ _ _ HI Hp).
  - eapply Inv_exec; [done..|exact He].
  - by apply (Inv_local _ _ _ _ _ _ _ _ HI Hp).
  - by apply (Inv_local _ _ _ _ _ _ _ _ HI Hp).
Qed.

Lemma Inv_reachable n (c : config T) : reachable capacity n c → zlen (log c) < 2 ^ 62 → inv_config c.
Proof using All.
  intros H. revert c H.
  apply (rtc_ind_r (λ c, zlen (log c) < 2 ^ 62 → inv_config c)); [intros _; apply Inv_init|].
  intros c c' _ Hs IH Hl. pose proof (step_log _ _ Hs).
  eapply Inv_step; [apply IH| |done]; lia.
Qed.
End invariant.
