(* ===== verification/QueueProps.v ===== *)
(** * Properties of the lock-free queue

    The abstract bounded queue and the theorem that the queue of
    [cpp/packet_types.h] refines it; race freedom; lock-freedom; the
    behaviour of a call that runs alone. *)

From stdpp Require Import relations.
From S2P Require Import Prelude Queue QueueInv.

(** ** The specification: a queue with atomic operations

    A call takes effect in one atomic step between its start and its return.
    Two things distinguish it from a bounded queue under a lock: [push] may
    report a full queue while another thread's [pop] is under way, and [pop]
    an empty one while another thread's [push] is. *)

Inductive status {T : Type} :=
  | AIdle
  | APush (v : T)
  | APushed
  | APushRet (b : bool)
  | APop
  | APopped (x : T)
  | APopRet (r : option T).
Arguments status : clear implicits.

Record aqueue {T : Type} := mkAQueue { contents : list T; statuses : list (status T) }.
Arguments aqueue : clear implicits.
Arguments mkAQueue {T}.

Inductive astep {T : Type} (capacity : Z) : aqueue T → aqueue T → Prop :=
  | astep_push t v q ss :
      ss !! t = Some AIdle →
      astep capacity (mkAQueue q ss) (mkAQueue q (<[t := APush v]> ss))
  | astep_push_takes t v q ss :
      ss !! t = Some (APush v) → zlen q < capacity →
      astep capacity (mkAQueue q ss) (mkAQueue (q ++ [v]) (<[t := APushed]> ss))
  | astep_push_done t q ss :
      ss !! t = Some APushed →
      astep capacity (mkAQueue q ss) (mkAQueue q (<[t := APushRet true]> ss))
  | astep_push_full t v q ss :
      ss !! t = Some (APush v) → zlen q = capacity ∨ (∃ t' x, ss !! t' = Some (APopped x)) →
      astep capacity (mkAQueue q ss) (mkAQueue q (<[t := APushRet false]> ss))
  | astep_push_return t b q ss :
      ss !! t = Some (APushRet b) →
      astep capacity (mkAQueue q ss) (mkAQueue q (<[t := AIdle]> ss))
  | astep_pop t q ss :
      ss !! t = Some AIdle →
      astep capacity (mkAQueue q ss) (mkAQueue q (<[t := APop]> ss))
  | astep_pop_takes t x q ss :
      ss !! t = Some APop →
      astep capacity (mkAQueue (x :: q) ss) (mkAQueue q (<[t := APopped x]> ss))
  | astep_pop_done t x q ss :
      ss !! t = Some (APopped x) →
      astep capacity (mkAQueue q ss) (mkAQueue q (<[t := APopRet (Some x)]> ss))
  | astep_pop_empty t q ss :
      ss !! t = Some APop → q = [] ∨ (∃ t', ss !! t' = Some APushed) →
      astep capacity (mkAQueue q ss) (mkAQueue q (<[t := APopRet None]> ss))
  | astep_pop_return t r q ss :
      ss !! t = Some (APopRet r) →
      astep capacity (mkAQueue q ss) (mkAQueue q (<[t := AIdle]> ss)).

(** No step or one. *)
Definition stutters {T} (capacity : Z) (a a' : aqueue T) : Prop :=
  a = a' ∨ astep capacity a a'.

Definition ainit {T} (n : nat) : aqueue T := mkAQueue [] (replicate n AIdle).

(** The abstraction function; the argument [l] is the log of positions. *)
Definition abs_pc {T} (l : list T) (p : pc T) : status T :=
  match p with
  | Idle => AIdle
  | PushLoad v | PushSeq v _ | PushCas v _ => APush v
  | PushWrite _ _ | PushStore _ _ => APushed
  | PushRet b => APushRet b
  | PopLoad | PopSeq _ | PopCas _ => APop
  | PopRead pos => match log_at l pos with Some x => APopped x | None => APop end
  | PopStore _ x => APopped x
  | PopRet r => APopRet r
  end.

Definition abs_of {T} (c : config T) : aqueue T :=
  mkAQueue (drop (Z.to_nat (dequeue_pos (mem c))) (log c)) (abs_pc (log c) <$> threads c).

(** A thread about to copy into, or out of, the data of a node. *)
Definition accesses {T} (capacity : Z) (p : pc T) (i : nat) : Prop :=
  match p with
  | PushWrite _ pos | PopRead pos => index capacity pos = i
  | _ => False
  end.

(** A call of one thread that no other thread interrupts. *)
Fixpoint run {T} (capacity : Z) (fuel : nat) (sh : shared T) (p : pc T) :
    option (shared T * pc T) :=
  match p with
  | PushRet _ | PopRet _ => Some (sh, p)
  | _ =>
      match fuel with
      | O => None
      | S fuel => '(sh', p') ← exec capacity false sh p; run capacity fuel sh' p'
      end
  end.

(** *** A scheduler

    What a thread does next, for executions that can be evaluated. *)
Inductive action {T : Type} := CallPush (v : T) | CallPop | Access (spurious : bool) | Return.
Arguments action : clear implicits.

Definition act {T} (capacity : Z) (c : config T) (ta : nat * action T) : option (config T) :=
  let '(t, a) := ta in
  let set p' := <[t := p']> (threads c) in
  match threads c !! t, a with
  | Some Idle, CallPush v => Some (mkConfig (mem c) (set (PushLoad v)) (log c))
  | Some Idle, CallPop => Some (mkConfig (mem c) (set PopLoad) (log c))
  | Some (PushRet _), Return | Some (PopRet _), Return =>
      Some (mkConfig (mem c) (set Idle) (log c))
  | Some p, Access spurious =>
      '(sh', p') ← exec capacity spurious (mem c) p;
      Some (mkConfig sh' (set p') (record p p' (log c)))
  | _, _ => None
  end.

Fixpoint play {T} (capacity : Z) (c : config T) (l : list (nat * action T)) : option (config T) :=
  match l with
  | [] => Some c
  | ta :: l => c' ← act capacity c ta; play capacity c' l
  end.

(** What a schedule consists of. *)
Definition is_access {T} (ta : nat * action T) : bool := match ta.2 with Access _ => true | _ => false end.
Definition is_failure {T} (ta : nat * action T) : bool := match ta.2 with Access true => true | _ => false end.
Definition is_call {T} (ta : nat * action T) : bool := match ta.2 with CallPush _ | CallPop => true | _ => false end.
Definition is_return {T} (ta : nat * action T) : bool := match ta.2 with Return => true | _ => false end.

Definition count {T} (f : nat * action T → bool) (l : list (nat * action T)) : nat := length (List.filter f l).

Lemma act_step {T} capacity (c c' : config T) ta : act capacity c ta = Some c' → step capacity c c'.
Proof.
  destruct c as [sh ts l], ta as [t a]. unfold act. simpl.
  destruct (ts !! t) as [p|] eqn:Hp; [|by destruct a].
  assert (∀ sp, ('(sh', p') ← exec capacity sp sh p;
    Some (mkConfig sh' (<[t := p']> ts) (record p p' l))) = Some c' →
    step capacity (mkConfig sh ts l) c') as X.
  { intros sp. destruct (exec capacity sp sh p) as [[sh' p']|] eqn:He; [|done].
    intros [= <-]. by eapply step_exec. }
  destruct p, a; try done; try (by apply X); intros [= <-]; by econstructor.
Qed.

Lemma play_steps {T} capacity (c c' : config T) l :
  play capacity c l = Some c' → rtc (step capacity) c c'.
Proof.
  revert c. induction l as [|ta l IH]; intros c; simpl; [by intros [= ->]|].
  destruct (act capacity c ta) as [c0|] eqn:Ha; [|done]. intros H.
  eapply rtc_l; [by eapply act_step|eauto].
Qed.

Section refinement.
Context {T : Type} (k capacity : Z).
Context (Hk : 1 ≤ k ≤ 32) (Hcap : capacity = 2 ^ k).
Implicit Types (l : list T) (ts : list (pc T)) (p : pc T) (c : config T).

Lemma abs_pc_snoc b E D l v p :
  thread_ok capacity b E D l p → E = zlen l → 0 ≤ D ≤ E → abs_pc (l ++ [v]) p = abs_pc l p.
Proof using All.
  destruct p as [| | | | | | | | | |pos| |]; try done. simpl. intros [? _] -> ?.
  by rewrite (log_at_snoc_lt k capacity) by lia.
Qed.

Lemma abs_status l ts t p : ts !! t = Some p → (abs_pc l <$> ts) !! t = Some (abs_pc l p).
Proof using All. intros H. by rewrite list_lookup_fmap, H. Qed.

Lemma drop_log l (D : Z) x :
  0 ≤ D → log_at l D = Some x → drop (Z.to_nat D) l = x :: drop (Z.to_nat (D + 1)) l.
Proof using All.
  unfold log_at. intros. rewrite (drop_S l x) by done. do 2 f_equal. lia.
Qed.

Lemma popping_status b E D l ts t i :
  Inv capacity b E D l ts → ts !! t ≫= popping = Some i →
  ∃ x, (abs_pc l <$> ts) !! t = Some (APopped x).
Proof using All.
  intros HI Hi. destruct (ts !! t) as [p|] eqn:Hp; [|done].
  pose proof (inv_threads _ _ _ _ _ _ HI _ _ Hp) as Hok.
  rewrite (abs_status l ts t p Hp). destruct p; simplify_eq/=; [|eauto].
  destruct Hok as (? & _ & _). pose proof (inv_log _ _ _ _ _ _ HI).
  pose proof (inv_range _ _ _ _ _ _ HI).
  destruct (lookup_lt_is_Some_2 l (Z.to_nat i)) as [x Hx]; [lia|].
  exists x. unfold log_at. by rewrite Hx.
Qed.

Lemma pushing_status l ts t i :
  ts !! t ≫= pushing = Some i → (abs_pc l <$> ts) !! t = Some APushed.
Proof using All.
  intros Hi. destruct (ts !! t) as [p|] eqn:Hp; [|done].
  rewrite (abs_status l ts t p Hp). by destruct p.
Qed.

(** A step that neither takes nor frees a position. *)
Lemma abs_local sh sh' ts l t p' :
  dequeue_pos sh' = dequeue_pos sh →
  abs_of (mkConfig sh' (<[t := p']> ts) l) =
    mkAQueue (contents (abs_of (mkConfig sh ts l)))
      (<[t := abs_pc l p']> (abs_pc l <$> ts)).
Proof using All. intros E. unfold abs_of. simpl. by rewrite E, list_fmap_insert. Qed.

Lemma abs_stutter sh sh' ts l t p p' :
  dequeue_pos sh' = dequeue_pos sh → ts !! t = Some p → abs_pc l p' = abs_pc l p →
  abs_of (mkConfig sh' (<[t := p']> ts) l) = abs_of (mkConfig sh ts l).
Proof using All.
  intros E Hp Ha. rewrite (abs_local sh) by done. rewrite list_insert_id; [done|].
  rewrite Ha. by apply abs_status.
Qed.

Lemma abs_push_takes sh ts l t v :
  inv_config capacity (mkConfig sh ts l) → ts !! t = Some (PushCas v (zlen l)) →
  zlen l < 2 ^ 62 →
  astep capacity (abs_of (mkConfig sh ts l))
    (abs_of (mkConfig (mkShared (buffer sh) (u64 (zlen l + 1)) (dequeue_pos sh))
      (<[t := PushWrite v (zlen l)]> ts) (l ++ [v]))).
Proof using All.
  intros [_ HE R _ Ht _ _] Hp Hl. simpl in *.
  destruct (Ht _ _ Hp) as (_ & F & _); [done|].
  unfold abs_of. simpl. rewrite drop_app_le by lia. rewrite list_fmap_insert.
  replace (abs_pc (l ++ [v]) <$> ts) with (abs_pc l <$> ts).
  - apply (astep_push_takes capacity t v); [by apply (abs_status l ts t _ Hp)|].
    rewrite length_drop. lia.
  - apply list_eq. intros i. rewrite !list_lookup_fmap. destruct (ts !! i) as [p|] eqn:Ep; [|done].
    simpl. f_equal. symmetry. eapply abs_pc_snoc; [by eapply Ht|done|lia].
Qed.

Lemma abs_pop_takes sh ts l t :
  inv_config capacity (mkConfig sh ts l) → ts !! t = Some (PopCas (dequeue_pos sh)) →
  zlen l < 2 ^ 62 →
  astep capacity (abs_of (mkConfig sh ts l))
    (abs_of (mkConfig (mkShared (buffer sh) (enqueue_pos sh) (u64 (dequeue_pos sh + 1)))
      (<[t := PopRead (dequeue_pos sh)]> ts) l)).
Proof using All.
  intros [_ HE R _ Ht _ _] Hp Hl. simpl in *.
  destruct (Ht _ _ Hp) as (_ & F & _); [done|].
  destruct (lookup_lt_is_Some_2 l (Z.to_nat (dequeue_pos sh))) as [x Hx]; [lia|].
  unfold abs_of. simpl. rewrite u64_small by (unfold is_u; lia).
  rewrite (drop_log l (dequeue_pos sh) x) by first [lia | exact Hx]. rewrite list_fmap_insert. simpl.
  unfold log_at. rewrite Hx. apply (astep_pop_takes capacity t x).
  by apply (abs_status l ts t _ Hp).
Qed.

Lemma abs_push_seq sh ts l t v pos s :
  inv_config capacity (mkConfig sh ts l) → zlen l < 2 ^ 62 →
  ts !! t = Some (PushSeq v pos) → seq_at capacity (buffer sh) pos = Some s →
  diff s pos < 0 →
  astep capacity (abs_of (mkConfig sh ts l)) (abs_of (mkConfig sh (<[t := PushRet false]> ts) l)).
Proof using All.
  intros HI Hl Hp Hs. pose proof HI as [_ HE R _ Ht _ _]. simpl in *.
  pose proof (push_seq _ _ Hk Hcap _ _ _ _ _ pos v s HI (Ht _ _ Hp)) as X. simpl in X.
  destruct X as (-> & _ & Hfull & _); [lia|done|].
  intros Hd. rewrite (abs_local sh) by done. apply (astep_push_full capacity t v).
  { by apply (abs_status l ts t _ Hp). }
  destruct (Hfull ltac:(lia)) as [HF|[t' Ht']].
  - left. simpl. rewrite length_drop. lia.
  - right. exists t'. by eapply popping_status.
Qed.

Lemma abs_pop_seq sh ts l t pos s :
  inv_config capacity (mkConfig sh ts l) → zlen l < 2 ^ 62 →
  ts !! t = Some (PopSeq pos) → seq_at capacity (buffer sh) pos = Some s →
  diff s (u64 (pos + 1)) < 0 →
  astep capacity (abs_of (mkConfig sh ts l)) (abs_of (mkConfig sh (<[t := PopRet None]> ts) l)).
Proof using All.
  intros HI Hl Hp Hs. pose proof HI as [_ HE R _ Ht _ _]. simpl in *.
  pose proof (pop_seq _ _ Hk Hcap _ _ _ _ _ pos s HI (Ht _ _ Hp)) as X. simpl in X.
  destruct X as (-> & _ & Hempty & _); [lia|done|].
  intros Hd. rewrite (abs_local sh) by done. apply (astep_pop_empty capacity t).
  { by apply (abs_status l ts t _ Hp). }
  destruct (Hempty ltac:(lia)) as [HF|[t' Ht']].
  - left. simpl. apply drop_ge. lia.
  - right. exists t'. by eapply pushing_status.
Qed.

Lemma stutters_rtc (a a' : aqueue T) : stutters capacity a a' → rtc (astep capacity) a a'.
Proof using All. intros [->|H]; [done|by apply rtc_once]. Qed.

Lemma abs_exec spurious sh sh' l ts t p p' :
  inv_config capacity (mkConfig sh ts l) → zlen l < 2 ^ 62 → ts !! t = Some p →
  exec capacity spurious sh p = Some (sh', p') →
  stutters capacity (abs_of (mkConfig sh ts l))
    (abs_of (mkConfig sh' (<[t := p']> ts) (record p p' l))).
Proof using All.
  intros HI Hl Hp He. pose proof HI as [Hb HE R _ Ht _ _]. simpl in *.
  destruct p as [|v|v pos|v pos|v pos|v pos| | |pos|pos|pos|pos x|]; try done.
  - injection He as <- <-. by left; rewrite (abs_stutter sh sh ts l t (PushLoad v)).
  - destruct (seq_at_is_Some _ _ Hk Hcap _ pos Hb) as [s Hs].
    change (exec capacity false sh (PushSeq v pos) = Some (sh', p')) in He.
    rewrite (exec_push_seq k capacity Hk Hcap sh v pos s Hs) in He. injection He as <- <-. simpl.
    repeat case_test; simpl; try by left; rewrite (abs_stutter sh sh ts l t (PushSeq v pos)).
    right. eapply abs_push_seq; [done..|lia].
  - simpl in He. destruct (negb spurious && (enqueue_pos sh =? pos)) eqn:Ec;
      injection He as <- <-; simpl.
    + assert (pos = zlen l) as -> by lia. by (right; apply abs_push_takes).
    + by left; rewrite (abs_stutter sh sh ts l t (PushCas v pos)).
  - injection He as <- <-. simpl. by left; rewrite (abs_stutter sh _ ts l t (PushWrite v pos)).
  - injection He as <- <-. simpl. rewrite (abs_local sh) by done.
    right; apply (astep_push_done _ t). by apply (abs_status l ts t _ Hp).
  - injection He as <- <-. by left; rewrite (abs_stutter sh sh ts l t PopLoad).
  - destruct (seq_at_is_Some _ _ Hk Hcap _ pos Hb) as [s Hs].
    change (exec capacity false sh (PopSeq pos) = Some (sh', p')) in He.
    rewrite (exec_pop_seq k capacity Hk Hcap sh pos s Hs) in He. injection He as <- <-. simpl.
    repeat case_test; simpl; try by left; rewrite (abs_stutter sh sh ts l t (PopSeq pos)).
    right. eapply abs_pop_seq; [done..|lia].
  - simpl in He. destruct (negb spurious && (dequeue_pos sh =? pos)) eqn:Ec;
      injection He as <- <-; simpl.
    + assert (pos = dequeue_pos sh) as -> by lia. by (right; apply abs_pop_takes).
    + by left; rewrite (abs_stutter sh sh ts l t (PopCas pos)).
  - destruct (Ht _ _ Hp) as (_ & _ & Hd). simpl in He. unfold data_at in Hd.
    destruct (buffer sh !! _) as [n|] eqn:En; [|done]. injection Hd as Hd. simpl in He.
    rewrite Hd in He. destruct (log_at l pos) as [x|] eqn:El; [|done]. injection He as <- <-.
    left. rewrite (abs_stutter sh sh ts l t (PopRead pos)); [done..|]. simpl. by rewrite El.
  - injection He as <- <-. simpl. rewrite (abs_local sh) by done.
    right; apply (astep_pop_done _ t). by apply (abs_status l ts t _ Hp).
Qed.

Lemma abs_step c c' :
  inv_config capacity c → zlen (log c) < 2 ^ 62 → step capacity c c' →
  stutters capacity (abs_of c) (abs_of c').
Proof using All.
  intros HI Hl Hs. destruct Hs as [t v sh ts l Hp|t sh ts l Hp|t sp p p' sh sh' ts l Hp He
    |t b sh ts l Hp|t r sh ts l Hp].
  - rewrite (abs_local sh) by done. right; apply (astep_push _ t).
    by apply (abs_status l ts t _ Hp).
  - rewrite (abs_local sh) by done. right; apply (astep_pop _ t).
    by apply (abs_status l ts t _ Hp).
  - by eapply abs_exec.
  - rewrite (abs_local sh) by done. right; apply (astep_push_return _ t b).
    by apply (abs_status l ts t _ Hp).
  - rewrite (abs_local sh) by done. right; apply (astep_pop_return _ t r).
    by apply (abs_status l ts t _ Hp).
Qed.

Lemma abs_init n : abs_of (init capacity n) = ainit (T := T) n.
Proof using All. unfold abs_of, ainit. simpl. f_equal. by rewrite fmap_replicate. Qed.

(** *** A call that runs alone *)

Definition returned p : bool := match p with PushRet _ | PopRet _ => true | _ => false end.

(** How many more accesses a call can need when no other thread runs. *)
Definition remaining (sh : shared T) p : nat :=
  match p with
  | Idle | PushRet _ | PopRet _ => 0
  | PushStore _ _ | PopStore _ _ => 1
  | PushWrite _ _ | PopRead _ => 2
  | PushCas _ pos => if pos =? enqueue_pos sh then 3 else 5
  | PopCas pos => if pos =? dequeue_pos sh then 3 else 5
  | PushSeq _ pos => if pos =? enqueue_pos sh then 4 else 6
  | PopSeq pos => if pos =? dequeue_pos sh then 4 else 6
  | PushLoad _ | PopLoad => 5
  end.

(** Each access of a thread that runs alone brings it nearer to its return. *)
Lemma exec_progress sh ts l t p :
  inv_config capacity (mkConfig sh ts l) → zlen l < 2 ^ 62 → ts !! t = Some p →
  p ≠ Idle → returned p = false →
  ∃ sh' p', exec capacity false sh p = Some (sh', p') ∧ p' ≠ Idle ∧
    (remaining sh' p' < remaining sh p)%nat.
Proof using All.
  intros HI Hl Hp Hid Hret. pose proof HI as [Hb HE R _ Ht _ _]. pose proof (Ht _ _ Hp) as Hok.
  destruct p as [|v|v pos|v pos|v pos|v pos| | |pos|pos|pos|pos x|]; try done.
  - do 2 eexists. split; [done|]. split; [done|]. simpl. rewrite Z.eqb_refl. lia.
  - destruct (seq_at_is_Some _ _ Hk Hcap _ pos Hb) as [s Hs].
    rewrite (exec_push_seq k capacity Hk Hcap sh v pos s Hs).
    pose proof (push_seq _ _ Hk Hcap _ _ _ _ _ pos v s HI Hok) as X. simpl in *.
    destruct X as (-> & _ & _ & Hle); [lia|done|].
    do 2 eexists. split; [done|].
    destruct (Z.eqb_spec (s - pos) 0), (Z.ltb_spec (s - pos) 0), (Z.eqb_spec pos (enqueue_pos sh));
      simpl; (split; [done|]); repeat case_test; lia.
  - simpl. destruct (Z.eqb_spec pos (enqueue_pos sh)), (Z.eqb_spec (enqueue_pos sh) pos); try lia;
      do 2 eexists; (split; [done|]); (split; [done|]); simpl; rewrite ?Z.eqb_refl; lia.
  - do 2 eexists. split; [done|]. split; [done|]. simpl. lia.
  - do 2 eexists. split; [done|]. split; [done|]. simpl. lia.
  - do 2 eexists. split; [done|]. split; [done|]. simpl. rewrite Z.eqb_refl. lia.
  - destruct (seq_at_is_Some _ _ Hk Hcap _ pos Hb) as [s Hs].
    rewrite (exec_pop_seq k capacity Hk Hcap sh pos s Hs).
    pose proof (pop_seq _ _ Hk Hcap _ _ _ _ _ pos s HI Hok) as X. simpl in *.
    destruct X as (-> & _ & _ & Hle); [lia|done|].
    do 2 eexists. split; [done|].
    destruct (Z.eqb_spec (s - (pos + 1)) 0), (Z.ltb_spec (s - (pos + 1)) 0),
      (Z.eqb_spec pos (dequeue_pos sh)); simpl; (split; [done|]); repeat case_test; lia.
  - simpl. destruct (Z.eqb_spec pos (dequeue_pos sh)), (Z.eqb_spec (dequeue_pos sh) pos); try lia;
      do 2 eexists; (split; [done|]); (split; [done|]); simpl; rewrite ?Z.eqb_refl; lia.
  - destruct Hok as (? & _ & Hd). simpl in *. unfold data_at in Hd.
    destruct (buffer sh !! _) as [n|]; [|done]. injection Hd as Hd. simpl. rewrite Hd.
    destruct (lookup_lt_is_Some_2 l (Z.to_nat pos)) as [x Hx]; [lia|]. unfold log_at. rewrite Hx.
    do 2 eexists. split; [done|]. split; [done|]. simpl. lia.
  - do 2 eexists. split; [done|]. split; [done|]. simpl. lia.
Qed.

Lemma run_returned fuel sh p : returned p = true → run capacity fuel sh p = Some (sh, p).
Proof using All. by destruct p, fuel. Qed.

Lemma run_exec fuel sh p sh' p' :
  returned p = false → exec capacity false sh p = Some (sh', p') →
  run capacity (S fuel) sh p = run capacity fuel sh' p'.
Proof using All. intros Hr He. destruct p; try done; cbn [run]; by rewrite He. Qed.

(** The call returns, and whatever its accesses preserve of the abstract
    queue holds at its return. *)
Lemma run_alone (P : aqueue T → Prop) fuel sh ts l t p :
  inv_config capacity (mkConfig sh ts l) → zlen l + Z.of_nat fuel < 2 ^ 62 →
  ts !! t = Some p → p ≠ Idle → (remaining sh p ≤ fuel)%nat →
  P (abs_of (mkConfig sh ts l)) →
  (∀ a a' s, P a → stutters capacity a a' → statuses a !! t = Some s →
    (∀ b, s ≠ APushRet b) → (∀ r, s ≠ APopRet r) → P a') →
  ∃ sh' p' l', run capacity fuel sh p = Some (sh', p') ∧ returned p' = true ∧
    inv_config capacity (mkConfig sh' (<[t := p']> ts) l') ∧
    P (abs_of (mkConfig sh' (<[t := p']> ts) l')).
Proof using All.
  revert sh ts l p. induction fuel as [|fuel IH]; intros sh ts l p HI Hl Hp Hid Hrem HP Hstep.
  all: destruct (returned p) eqn:Hret.
  1, 3: exists sh, p, l; rewrite run_returned, list_insert_id by done; done.
  { destruct (exec_progress sh ts l t p) as (? & ? & _ & _ & ?); try done; lia. }
  destruct (exec_progress sh ts l t p) as (sh' & p' & He & Hid' & Hm); try done; [lia|].
  rewrite (run_exec _ _ _ _ _ Hret He).
  pose proof (Inv_exec k capacity Hk Hcap false _ _ _ _ _ _ _ HI ltac:(lia) Hp He) as HI'.
  pose proof (abs_exec false _ _ _ _ _ _ _ HI ltac:(lia) Hp He) as Ha.
  destruct (IH sh' (<[t := p']> ts) (record p p' l) p') as (sh'' & p'' & l' & H1 & H2 & H3 & H4).
  - done.
  - assert (zlen (record p p' l) ≤ zlen l + 1)
      by (unfold record; destruct p, p'; rewrite ?length_app; simpl; lia). lia.
  - rewrite list_lookup_insert_eq; [done|]. by eapply lookup_lt_Some.
  - done.
  - lia.
  - apply (Hstep _ _ (abs_pc l p) HP Ha); [by apply abs_status|..];
      intros ?; destruct p; simpl; try case_match; done.
  - done.
  - rewrite list_insert_insert_eq in *. eauto 10.
Qed.

(** *** Calls that disturb each other

    A call that has not yet taken its position may be overtaken by others, but
    each call overtakes only once: its cost pays for the accesses that the other
    threads then have to repeat. *)
Definition untaken p : bool :=
  match p with PushLoad _ | PushSeq _ _ | PushCas _ _ | PopLoad | PopSeq _ | PopCas _ => true | _ => false end.

Definition cost (n : nat) (sh : shared T) p : nat :=
  (remaining sh p + if untaken p then 2 * n else 0)%nat.

Definition total (n : nat) c : nat := sum_list_with (cost n (mem c)) (threads c).

Lemma sum_insert (f : pc T → nat) ts t p p' : ts !! t = Some p →
  (sum_list_with f (<[t := p']> ts) + f p = sum_list_with f ts + f p')%nat.
Proof using All.
  revert t. induction ts as [|q ts IH]; intros [|t] Hp; simplify_eq/=; [lia|]. specialize (IH t Hp). lia.
Qed.

Lemma sum_le (f g : pc T → nat) k0 ts : (∀ p, f p <= g p + k0)%nat →
  (sum_list_with f ts <= sum_list_with g ts + k0 * length ts)%nat.
Proof using All. intros Hf. induction ts as [|q ts IH]; simpl; [lia|]. specialize (Hf q). lia. Qed.

(** Positions that are taken. *)
Lemma exec_positions spurious sh sh' p p' : exec capacity spurious sh p = Some (sh', p') →
  (untaken p' = true → untaken p = true) ∧
  ((enqueue_pos sh' = enqueue_pos sh ∧ dequeue_pos sh' = dequeue_pos sh) ∨
   (untaken p = true ∧ untaken p' = false ∧ cost 0 sh' p' = 2%nat ∧
     (∀ q, remaining sh' q <= remaining sh q + 2)%nat)).
Proof using All.
  intros He. assert (∀ e d q, remaining (mkShared (buffer sh) e d) q <= remaining sh q + 2)%nat as Hq.
  { intros e d q. destruct q; simpl; repeat case_match; lia. }
  destruct p as [|v|v pos|v pos|v pos|v pos| | |pos|pos|pos|pos x|]; try done; simpl in He.
  - injection He as <- <-. by split; [|left].
  - destruct (buffer sh !! _); [|done]. injection He as <- <-. by split; [|left].
  - destruct (_ && _); injection He as <- <-; (split; [done|]); [right|by left]. by split_and!.
  - injection He as <- <-. by split; [|left].
  - injection He as <- <-. by split; [|left].
  - injection He as <- <-. by split; [|left].
  - destruct (buffer sh !! _); [|done]. injection He as <- <-. by split; [|left].
  - destruct (_ && _); injection He as <- <-; (split; [done|]); [right|by left]. by split_and!.
  - destruct (buffer sh !! _) as [m|]; [|done]. simpl in He. destruct (node_data m); [|done].
    injection He as <- <-. by split; [|left].
  - injection He as <- <-. by split; [|left].
Qed.

Lemma remaining_positions sh sh' p : enqueue_pos sh' = enqueue_pos sh → dequeue_pos sh' = dequeue_pos sh →
  remaining sh' p = remaining sh p.
Proof using All. intros E1 E2. destruct p; simpl; by rewrite ?E1, ?E2. Qed.

Lemma remaining_le sh p : (remaining sh p <= 6)%nat.
Proof using All. destruct p; simpl; repeat case_match; lia. Qed.

(** An exchange that fails although the values agree is one access more. *)
Lemma exec_spurious sh p sh' p' : exec capacity true sh p = Some (sh', p') →
  exec capacity false sh p = Some (sh', p') ∨
  (sh' = sh ∧ untaken p = true ∧ untaken p' = true ∧ (remaining sh p' < remaining sh p + 2)%nat).
Proof using All.
  destruct p as [|v|v pos|v pos|v pos|v pos| | |pos|pos|pos|pos x|]; try (by left); simpl; intros [= <- <-]; right.
  all: split_and!; try done; simpl; rewrite Z.eqb_refl; case_match; lia.
Qed.

(** Each access lowers the total cost, but for such a failure. *)
Lemma exec_total n spurious sh sh' l ts t p p' :
  inv_config capacity (mkConfig sh ts l) → zlen l < 2 ^ 62 → length ts = n → ts !! t = Some p →
  exec capacity spurious sh p = Some (sh', p') →
  (total n (mkConfig sh' (<[t := p']> ts) (record p p' l)) + 1 <=
   total n (mkConfig sh ts l) + if spurious then 2 else 0)%nat.
Proof using All.
  intros HI Hl Hn Hp He. unfold total. cbn [mem threads].
  pose proof (sum_insert (cost n sh') ts t p p' Hp) as Hsum.
  assert (p ≠ Idle ∧ returned p = false) as [Hid Hret] by (by destruct p).
  assert (exec capacity false sh p = Some (sh', p') ∨ (spurious = true ∧ sh' = sh ∧ untaken p = true ∧
    untaken p' = true ∧ (remaining sh p' < remaining sh p + 2)%nat)) as [He'|Hsp].
  { destruct spurious; [|by left]. destruct (exec_spurious sh p sh' p' He); tauto. }
  - destruct (exec_progress sh ts l t p HI Hl Hp Hid Hret) as (x & y & Hxy & _ & Hlt).
    rewrite He' in Hxy. injection Hxy as <- <-.
    destruct (exec_positions _ _ _ _ _ He') as [Htok [[E1 E2]|(Hu & Hu' & Hc & Hq)]].
    + assert (∀ q, cost n sh' q = cost n sh q) as Ec.
      { intros q. unfold cost. by rewrite (remaining_positions sh sh') by done. }
      assert (sum_list_with (cost n sh') ts = sum_list_with (cost n sh) ts) as Es.
      { clear -Ec. induction ts; simpl; congruence. }
      assert (cost n sh' p' + 1 <= cost n sh p)%nat.
      { unfold cost. destruct (untaken p'), (untaken p); try (by specialize (Htok eq_refl)); lia. }
      rewrite Es, (Ec p) in Hsum. destruct spurious; lia.
    + assert (sum_list_with (cost n sh') ts <= sum_list_with (cost n sh) ts + 2 * length ts)%nat as Hle'.
      { apply sum_le. intros q. unfold cost. specialize (Hq q). lia. }
      assert (cost n sh' p' = 2%nat) as Hc' by (unfold cost in *; by rewrite Hu' in *).
      assert (2 * n + 3 <= cost n sh' p)%nat.
      { unfold cost. rewrite Hu. destruct p; try done; simpl; repeat case_match; lia. }
      rewrite Hc' in Hsum. destruct spurious; lia.
  - destruct Hsp as (-> & -> & Hu & Hu' & Hr).
    assert (cost n sh p' <= cost n sh p + 1)%nat by (unfold cost; rewrite Hu, Hu'; lia). lia.
Qed.

Definition in_call p : nat := match p with Idle => 0 | _ => 1 end.

Definition busy c : nat := sum_list_with in_call (threads c).

Lemma exec_in_call spurious sh sh' p p' : exec capacity spurious sh p = Some (sh', p') →
  in_call p = 1%nat ∧ in_call p' = 1%nat.
Proof using All.
  destruct p as [|v|v pos|v pos|v pos|v pos| | |pos|pos|pos|pos x|]; try done; simpl; intros He;
    try (by injection He as _ <-).
  - destruct (buffer sh !! _); [|done]. injection He as _ <-. by repeat case_match.
  - destruct (_ && _); by injection He as _ <-.
  - destruct (buffer sh !! _); [|done]. injection He as _ <-. by repeat case_match.
  - destruct (_ && _); by injection He as _ <-.
  - destruct (buffer sh !! _) as [m|]; [|done]. simpl in He. destruct (node_data m); [|done].
    by injection He as _ <-.
Qed.

Lemma reachable_threads n c : reachable capacity n c → length (threads c) = n.
Proof using All.
  revert c. apply (rtc_ind_r (λ c, length (threads c) = n)); [apply length_replicate|].
  intros c c' _ Hs <-. by destruct Hs; simpl; rewrite length_insert.
Qed.

Lemma act_total n c c' ta :
  reachable capacity n c → zlen (log c) < 2 ^ 62 → act capacity c ta = Some c' →
  (total n c' + (if is_access ta then 1 else 0) <=
    total n c + (if is_failure ta then 2 else 0) + if is_call ta then 2 * n + 5 else 0)%nat ∧
  (busy c' + (if is_return ta then 1 else 0) = busy c + if is_call ta then 1 else 0)%nat.
Proof using All.
  intros Hr Hl. pose proof (reachable_threads n c Hr) as Hn.
  pose proof (Inv_reachable k capacity Hk Hcap n c Hr Hl) as HI.
  destruct c as [sh ts l], ta as [t a]. unfold act. cbn [mem threads log] in *.
  destruct (ts !! t) as [p|] eqn:Hp; [|by destruct a].
  assert (∀ p', p = Idle ∨ p' = Idle → remaining sh p = 0%nat →
    (total n (mkConfig sh (<[t := p']> ts) l) = total n (mkConfig sh ts l) + cost n sh p')%nat ∧
    (busy (mkConfig sh (<[t := p']> ts) l) + in_call p = busy (mkConfig sh ts l) + in_call p')%nat) as Hset.
  { intros p' _ H0. unfold total, busy. cbn [mem threads].
    pose proof (sum_insert (cost n sh) ts t p p' Hp) as H1.
    pose proof (sum_insert in_call ts t p p' Hp) as H2.
    assert (cost n sh p = 0%nat) as Hc.
    { unfold cost. rewrite H0. destruct p; try done; simpl in H0; repeat case_match; lia. }
    lia. }
  assert (∀ sp, ('(sh', p') ← exec capacity sp sh p;
    Some (mkConfig sh' (<[t := p']> ts) (record p p' l))) = Some c' →
    (total n c' + 1 <= total n (mkConfig sh ts l) + (if sp then 2 else 0))%nat ∧
    (busy c' = busy (mkConfig sh ts l))%nat) as Hexec.
  { intros sp. destruct (exec capacity sp sh p) as [[sh' p']|] eqn:He; [|done]. intros [= <-]. split.
    - by apply exec_total.
    - unfold busy. cbn [threads]. pose proof (sum_insert in_call ts t p p' Hp) as H2.
      destruct (exec_in_call _ _ _ _ _ He). lia. }
  unfold is_access, is_failure, is_call, is_return. cbn [snd].
  destruct a as [v| |sp|].
  - destruct p; try done. intros [= <-]. destruct (Hset (PushLoad v)) as [E1 E2]; [by left|done|].
    unfold cost in E1. simpl in *. lia.
  - destruct p; try done. intros [= <-]. destruct (Hset PopLoad) as [E1 E2]; [by left|done|].
    unfold cost in E1. simpl in *. lia.
  - intros Ha. assert ((total n c' + 1 <= total n (mkConfig sh ts l) + (if sp then 2 else 0))%nat ∧
      (busy c' = busy (mkConfig sh ts l))%nat) as [??] by (apply Hexec; by destruct p). destruct sp; lia.
  - destruct p; try done; intros [= <-]; (destruct (Hset Idle) as [E1 E2]; [by right|done|]);
      unfold cost in E1; simpl in *; lia.
Qed.

(** A schedule of any length. *)
Lemma play_total n c c' (schedule : list (nat * action T)) :
  reachable capacity n c → play capacity c schedule = Some c' → zlen (log c') < 2 ^ 62 →
  (total n c' + count is_access schedule <=
    total n c + 2 * count is_failure schedule + (2 * n + 5) * count is_call schedule)%nat ∧
  (busy c' + count is_return schedule = busy c + count is_call schedule)%nat.
Proof using All.
  revert c. unfold count. induction schedule as [|ta schedule IH]; intros c Hr; cbn [play List.filter]; [intros [= <-] _; simpl; lia|].
  destruct (act capacity c ta) as [c1|] eqn:Ha; [|done]. intros Hp Hl. cbn [mbind option_bind] in Hp.
  pose proof (act_step capacity _ _ _ Ha) as Hs.
  assert (zlen (log c1) ≤ zlen (log c') ∧ zlen (log c) ≤ zlen (log c1)) as [Hl1 Hl0].
  { split; [|by apply (step_log k capacity Hk Hcap)]. clear -Hp Hk Hcap. apply play_steps in Hp.
    induction Hp as [|x y z Hxy _ IH]; [done|]. pose proof (step_log k capacity Hk Hcap _ _ Hxy). lia. }
  destruct (act_total n c c1 ta Hr ltac:(lia) Ha) as [A1 A2].
  destruct (IH c1) as [B1 B2]; [by eapply rtc_r|done|done|].
  destruct (is_access ta), (is_failure ta), (is_call ta), (is_return ta); cbn [length] in *; nia.
Qed.

Lemma total_le n c : reachable capacity n c → (total n c <= (2 * n + 6) * n ∧ busy c <= n)%nat.
Proof using All.
  intros Hr. rewrite <-(reachable_threads n c Hr) at 3 4. unfold total, busy. generalize (mem c). intros sh.
  induction (threads c) as [|p ts IH]; [simpl; lia|]. cbn [sum_list_with length].
  pose proof (remaining_le sh p). assert (cost n sh p <= 2 * n + 6)%nat by (unfold cost; case_match; lia).
  assert (in_call p <= 1)%nat by (destruct p; simpl; lia). nia.
Qed.


(** The values of a queue that no thread is using. *)
Definition holds (sh : shared T) (q : list T) : Prop :=
  ∃ l, inv_config capacity (mkConfig sh [Idle] l) ∧ zlen l = enqueue_pos sh ∧
    drop (Z.to_nat (dequeue_pos sh)) l = q.

(** The states of the specification during one [push], one [pop]. *)
Definition during_push (q : list T) (v : T) (a : aqueue T) : Prop :=
  a = mkAQueue q [APush v] ∨ (zlen q = capacity ∧ a = mkAQueue q [APushRet false]) ∨
  (zlen q < capacity ∧
    (a = mkAQueue (q ++ [v]) [APushed] ∨ a = mkAQueue (q ++ [v]) [APushRet true])).

Definition during_pop (q : list T) (a : aqueue T) : Prop :=
  a = mkAQueue q [APop] ∨ (q = [] ∧ a = mkAQueue q [APopRet None]) ∨
  (∃ x q', q = x :: q' ∧ (a = mkAQueue q' [APopped x] ∨ a = mkAQueue q' [APopRet (Some x)])).

Ltac single_thread :=
  repeat match goal with
    | H : [_] !! ?t = Some _ |- _ => destruct t; simplify_eq/=
    | H : ∃ _, _ |- _ => destruct H
    end.

Lemma during_push_step q v a a' s :
  during_push q v a → stutters capacity a a' → statuses a !! 0%nat = Some s →
  (∀ b, s ≠ APushRet b) → (∀ r, s ≠ APopRet r) → during_push q v a'.
Proof using All.
  intros HP [->|Ha] Hs Hb Hr; [done|]. unfold during_push in *.
  destruct HP as [->|[[? ->]|[? [->| ->]]]]; simplify_eq/=; try by (exfalso; eapply Hb).
  - inversion Ha as [| | |? ? ? ? ? HF| | | | | |]; subst; single_thread; eauto 6.
    destruct HF as [HF|HF]; single_thread; eauto.
  - inversion Ha; subst; single_thread; eauto 6.
Qed.

Lemma during_pop_step q a a' s :
  during_pop q a → stutters capacity a a' → statuses a !! 0%nat = Some s →
  (∀ b, s ≠ APushRet b) → (∀ r, s ≠ APopRet r) → during_pop q a'.
Proof using All.
  intros HP [->|Ha] Hs Hb Hr; [done|]. unfold during_pop in *.
  destruct HP as [->|[[? ->]|(x & q' & ? & [->| ->])]]; simplify_eq/=; try by (exfalso; eapply Hr).
  - inversion Ha as [| | | | | | | |? ? ? ? HF|]; subst; single_thread; eauto 8.
    destruct HF as [HF|HF]; single_thread; eauto.
  - inversion Ha; subst; single_thread; eauto 8.
Qed.

Lemma holds_start sh q p :
  holds sh q → p = PopLoad ∨ (∃ v, p = PushLoad v) →
  ∃ l, inv_config capacity (mkConfig sh [p] l) ∧ zlen l = enqueue_pos sh ∧
    abs_of (mkConfig sh [p] l) = mkAQueue q [abs_pc [] p].
Proof using All.
  intros (l & HI & HE & Hq) Hp. exists l. split; [|split; [done|]].
  - apply (Inv_local k capacity Hk Hcap _ _ _ _ [Idle] 0 Idle p HI); by destruct Hp as [->|[? ->]].
  - unfold abs_of. simpl. rewrite Hq. by destruct Hp as [->|[? ->]].
Qed.

Lemma holds_end sh p l q s :
  inv_config capacity (mkConfig sh [p] l) → returned p = true →
  abs_of (mkConfig sh [p] l) = mkAQueue q [s] → holds sh q ∧ abs_pc l p = s.
Proof using All.
  intros HI Hr [= Hd Hs]. split; [|done]. exists l. split; [|split; [|done]].
  - by apply (Inv_local k capacity Hk Hcap _ _ _ _ [p] 0 p Idle HI); destruct p.
  - symmetry. apply (inv_log _ _ _ _ _ _ HI).
Qed.
(** The program counter of a returned call, from its status. *)
Lemma returned_pc l p s :
  returned p = true → abs_pc l p = s →
  match s with APushRet b => p = PushRet b | APopRet r => p = PopRet r | _ => False end.
Proof using All. intros Hr <-. by destruct p. Qed.

Lemma push_alone sh q v :
  holds sh q → enqueue_pos sh + 6 < 2 ^ 62 →
  ∃ sh', run capacity 6 sh (PushLoad v) = Some (sh', PushRet (zlen q <? capacity)) ∧
    holds sh' (if zlen q <? capacity then q ++ [v] else q).
Proof using All.
  intros Hh Hl. destruct (holds_start sh q (PushLoad v) Hh) as (l & HI & HE & Ha); [eauto|].
  destruct (run_alone (during_push q v) 6 sh [PushLoad v] l 0 (PushLoad v) HI)
    as (sh' & p' & l' & Hrun & Hret & HI' & HP);
    [lia|done|done|simpl; lia|by left|intros ? ? ? ? ? ?; by eapply during_push_step|].
  exists sh'. rewrite Hrun. simpl in HI', HP.
  destruct HP as [HP|[[Hq HP]|[Hq [HP|HP]]]];
    destruct (holds_end _ _ _ _ _ HI' Hret HP) as [Hh' Hp'%(returned_pc _ _ _ Hret)]; [done|..|done|].
  - destruct (Z.ltb_spec (zlen q) capacity); [lia|]. by rewrite Hp'.
  - destruct (Z.ltb_spec (zlen q) capacity); [|lia]. by rewrite Hp'.
Qed.

Lemma pop_alone sh q :
  holds sh q → enqueue_pos sh + 6 < 2 ^ 62 →
  ∃ sh', run capacity 6 sh PopLoad = Some (sh', PopRet (head q)) ∧ holds sh' (tail q).
Proof using All.
  intros Hh Hl. destruct (holds_start sh q PopLoad Hh) as (l & HI & HE & Ha); [eauto|].
  destruct (run_alone (during_pop q) 6 sh [PopLoad] l 0 PopLoad HI)
    as (sh' & p' & l' & Hrun & Hret & HI' & HP);
    [lia|done|done|simpl; lia|by left|intros ? ? ? ? ? ?; by eapply during_pop_step|].
  exists sh'. rewrite Hrun. simpl in HI', HP.
  destruct HP as [HP|[[Hq HP]|(x & q' & Hq & [HP|HP])]];
    destruct (holds_end _ _ _ _ _ HI' Hret HP) as [Hh' Hp'%(returned_pc _ _ _ Hret)];
    [done|..|done|]; rewrite Hp', Hq in *; done.
Qed.

(** C2. The lock-free queue refines the bounded queue with atomic operations:
    whatever the number of threads and however their accesses interleave,
    what the threads do and return is an execution of the specification, as
    long as fewer than 2^62 values have been pushed; in particular values
    leave in the order in which they entered, each one once, and a call fails
    only when the queue is full (empty) or another thread is inside the
    opposite operation. *)
Theorem queue_refines n c :
  reachable capacity n c → zlen (log c) < 2 ^ 62 →
  rtc (astep capacity) (ainit n) (abs_of c).
Proof using All.
  intros H. revert c H.
  apply (rtc_ind_r (λ c, zlen (log c) < 2 ^ 62 → rtc (astep capacity) (ainit n) (abs_of c))).
  { intros _. by rewrite abs_init. }
  intros c c' Hr Hs IH Hl. pose proof (step_log k capacity Hk Hcap _ _ Hs).
  etransitivity; [apply IH; lia|]. apply stutters_rtc, abs_step; [|lia|done].
  apply (Inv_reachable k capacity Hk Hcap n); [done|lia].
Qed.

(** C20. No data race on the elements: two threads are never at the copy into
    a node and at a copy into or out of the same node, so the plain, non-atomic
    assignments [node.data = data] and [data = node.data] of the code are
    ordered by the sequence numbers. *)
Theorem queue_race_free n c t t' p p' i :
  reachable capacity n c → zlen (log c) < 2 ^ 62 → t ≠ t' →
  threads c !! t = Some p → threads c !! t' = Some p' →
  ¬ (accesses capacity p i ∧ accesses capacity p' i).
Proof using All.
  intros Hr Hl Hne Hp Hp' [Ha Ha'].
  pose proof (Inv_reachable k capacity Hk Hcap n c Hr Hl) as HI.
  assert (∀ t p, threads c !! t = Some p → accesses capacity p i →
    ∃ q, (threads c !! t ≫= pushing = Some q ∨ threads c !! t ≫= popping = Some q) ∧
      index capacity q = i) as X.
  { intros ? p0 ->. destruct p0; simpl; try done; eauto. }
  destruct (X _ _ Hp Ha) as (q & Hq & Ei), (X _ _ Hp' Ha') as (q' & Hq' & Ei').
  apply Hne. eapply (owners_distinct k capacity Hk Hcap); [done..|congruence].
Qed.

(** C21. The queue is lock-free.  In every interleaving of [n] threads, from any
    reachable state, the accesses that are made are bounded by the calls that
    return: at most (2n + 6)(2n + returned calls), and two more for each exchange
    that fails although the values agree; so the calls together cannot go on for
    ever without one of them returning.  A thread inside a call can always make
    its next access, wherever the others have stopped, and six accesses complete
    its call if no other thread and no such failure comes between.  A single call
    has no bound of its own: others can overtake it again and again. *)
Theorem queue_lock_free n c :
  reachable capacity n c →
  (∀ schedule c', play capacity c schedule = Some c' → zlen (log c') < 2 ^ 62 →
    (count is_access schedule <=
      (2 * n + 6) * (2 * n + count is_return schedule) + 2 * count is_failure schedule)%nat) ∧
  (zlen (log c) + 6 < 2 ^ 62 → ∀ t p, threads c !! t = Some p → p ≠ Idle → returned p = false →
    (∀ spurious, is_Some (act capacity c (t, Access spurious))) ∧
    ∃ sh' p', run capacity 6 (mem c) p = Some (sh', p') ∧ returned p' = true).
Proof using All.
  intros Hr. split.
  - intros schedule c' Hp Hl. destruct (play_total n c c' schedule Hr Hp Hl) as [H1 H2].
    destruct (total_le n c Hr) as [H3 H4].
    assert (busy c' <= n)%nat.
    { apply (total_le n c'). unfold reachable in *. etransitivity; [exact Hr|]. by eapply play_steps. }
    nia.
  - intros Hl t p Hp Hid Hret. destruct c as [sh ts l].
    assert (inv_config capacity (mkConfig sh ts l)) as HI
      by (apply (Inv_reachable k capacity Hk Hcap n); simpl in *; [done|lia]).
    cbn [mem threads log] in *. split.
    + intros spurious. destruct (exec_progress sh ts l t p HI ltac:(lia) Hp Hid Hret) as (sh' & p' & He & _).
      assert (is_Some (exec capacity spurious sh p)) as [[x y] Ex].
      { destruct spurious; [|by eexists]. destruct p; try done; by eexists. }
      unfold act. cbn [mem threads log]. rewrite Hp.
      assert (is_Some ('(sh', p') ← exec capacity spurious sh p;
        Some (mkConfig sh' (<[t := p']> ts) (record p p' l)))) as Hx by (rewrite Ex; by eexists).
      by destruct p.
    + destruct (run_alone (λ _, True) 6 sh ts l t p) as (sh' & p' & l' & Hrun & Hret' & _); eauto.
      apply remaining_le.
Qed.

(** Used by one thread at a time the queue is a bounded first-in first-out
    queue: it starts empty, [push] appends the value and returns [true] unless
    [capacity] values are in the queue, in which case it changes nothing and
    returns [false], and [pop] removes and returns the oldest value, or
    returns [false] when there is none. *)
Theorem queue_alone_fifo :
  holds (init_shared capacity) [] ∧
  (∀ sh q v, holds sh q → enqueue_pos sh + 6 < 2 ^ 62 →
    ∃ sh', run capacity 6 sh (PushLoad v) = Some (sh', PushRet (zlen q <? capacity)) ∧
      holds sh' (if zlen q <? capacity then q ++ [v] else q)) ∧
  (∀ sh q, holds sh q → enqueue_pos sh + 6 < 2 ^ 62 →
    ∃ sh', run capacity 6 sh PopLoad = Some (sh', PopRet (head q)) ∧ holds sh' (tail q)).
Proof using All.
  split_and!; [|apply push_alone|apply pop_alone].
  exists []. split; [|done]. apply (Inv_init k capacity Hk Hcap 1).
Qed.
End refinement.

(** *** A run of two threads on a queue of four nodes

    Thread 0 pushes 7 and returns, thread 1 takes it and is about to copy it,
    thread 0 has taken the next position for 8 and is about to write it. *)
Definition sample_schedule : list (nat * action Z) :=
  ((λ a, (0%nat, a)) <$> [CallPush 7; Access false; Access false; Access true; Access false;
    Access false; Access false; Access false; Return; CallPush 8]) ++
  ((λ a, (1%nat, a)) <$> [CallPop; Access false; Access false; Access false]) ++
  ((λ a, (0%nat, a)) <$> [Access false; Access false; Access false]).

Definition sample : config Z :=
  mkConfig
    (mkShared [mkNode 1 (Some 7); mkNode 1 None; mkNode 2 None; mkNode 3 None] 2 1)
    [PushWrite 8 1; PopRead 0] [7; 8].

Lemma sample_reachable : reachable 4 2 sample.
Proof. apply (play_steps 4 _ _ sample_schedule). by vm_compute. Qed.

Lemma queue_refines_witness :
  rtc (astep 4) (ainit 2) (mkAQueue [8] [APushed; APopped 7]).
Proof.
  apply (queue_refines 2 4 ltac:(lia) eq_refl 2 sample); [exact sample_reachable|].
  by vm_compute.
Defined.

Lemma queue_race_free_witness :
  ¬ (accesses 4 (PushWrite 8 1) 1 ∧ accesses 4 (@PopRead Z 0) 1).
Proof.
  apply (queue_race_free 2 4 ltac:(lia) eq_refl 2 sample 0 1 _ _ 1 sample_reachable);
    [by vm_compute|done|done|done].
Defined.

Lemma queue_lock_free_witness :
  (count is_access (T := Z) [(0%nat, Access true); (1%nat, Access false); (0%nat, Access false)] <= 42)%nat ∧
  ∃ sh' p', run 4 6 (mem sample) (PopRead 0) = Some (sh', p') ∧ returned p' = true.
Proof.
  destruct (queue_lock_free 2 4 ltac:(lia) eq_refl 2 sample sample_reachable) as [H1 H2]. split.
  - apply (H1 [(0%nat, Access true); (1%nat, Access false); (0%nat, Access false)]
      (mkConfig (mkShared [mkNode 1 (Some 7); mkNode 2 (Some 8); mkNode 2 None; mkNode 3 None] 2 1)
        [PushRet true; PopStore 0 7] [7; 8])); by vm_compute.
  - apply (H2 ltac:(by vm_compute) 1%nat (PopRead 0)); done.
Defined.

Lemma queue_alone_fifo_witness : holds (T := Z) 4 (init_shared 4) [].
Proof. apply (queue_alone_fifo 2 4); [lia|done]. Defined.
