(* ===== verification/QueueInterface.v ===== *)
(** * What the pipeline relies on

    The two queues of [CaptureContext], seen by the threads that share them:
    an interface of operations and their laws, the specification's queue as an
    instance, and the lock-free queue itself, used by one thread at a time, as
    another. *)

From S2P Require Import Prelude Queue QueueInv QueueProps.

(** [bq_holds s q]: the queue in state [s] holds the values [q].  A call may
    fail although there is room, or a value: another thread may be inside the
    opposite call ([QueueProps.queue_refines]). *)
Class BoundedQueue (T Q : Type) := {
    bq_capacity : Z;
    bq_holds : Q → list T → Prop;
    bq_push : T → Q → Q → bool → Prop;
    bq_pop : Q → Q → option T → Prop;
    bq_push_spec v s s' b q : bq_holds s q → bq_push v s s' b →
      bq_holds s' (if b then q ++ [v] else q) ∧ (b = true → zlen q < bq_capacity);
    bq_pop_spec s s' r q : bq_holds s q → bq_pop s s' r →
      match r with
      | Some x => ∃ q', q = [x] ++ q' ∧ bq_holds s' q'
      | None => bq_holds s' q
      end
  }.

(** ** The specification's queue

    Without calls that overlap: [push] fails only if the queue is full, [pop]
    only if it is empty. *)

Section list_queue.
Context {T : Type} (capacity : Z).

Definition list_push (v : T) (q q' : list T) (b : bool) : Prop :=
  if b then zlen q < capacity ∧ q' = q ++ [v] else capacity ≤ zlen q ∧ q' = q.

Definition list_pop (q q' : list T) (r : option T) : Prop :=
  match r with Some x => q = x :: q' | None => q = [] ∧ q' = q end.

#[export] Program Instance list_queue : BoundedQueue T (list T) := {
    bq_capacity := capacity;
    bq_holds := eq;
    bq_push := list_push;
    bq_pop := list_pop
  }.
Next Obligation. intros v s s' [] q <-; simpl; by intros [? ->]. Qed.
Next Obligation. intros s s' [x|] q <-; simpl; [|by intros [_ ->]]. intros ->. eauto. Qed.
End list_queue.

(** ** The lock-free queue, one call at a time *)

Section lock_free.
Context {T : Type} (k capacity : Z) (Hk : 1 ≤ k ≤ 32) (Hcap : capacity = 2 ^ k).

Definition lf_push (v : T) (sh sh' : shared T) (b : bool) : Prop :=
  enqueue_pos sh + 6 < 2 ^ 62 ∧ run capacity 6 sh (PushLoad v) = Some (sh', PushRet b).

Definition lf_pop (sh sh' : shared T) (r : option T) : Prop :=
  enqueue_pos sh + 6 < 2 ^ 62 ∧ run capacity 6 sh PopLoad = Some (sh', PopRet r).

Program Definition lock_free : BoundedQueue T (shared T) := {|
    bq_capacity := capacity;
    bq_holds := holds capacity;
    bq_push := lf_push;
    bq_pop := lf_pop
  |}.
Next Obligation.
  intros v sh sh' b q Hh [Hl Hr].
  destruct (push_alone k capacity Hk Hcap sh q v Hh Hl) as (sh'' & Hr' & Hh').
  rewrite Hr in Hr'. injection Hr' as <- ->. split; [done|]. intros. lia.
Qed.
Next Obligation.
  intros sh sh' r q Hh [Hl Hr].
  destruct (pop_alone k capacity Hk Hcap sh q Hh Hl) as (sh'' & Hr' & Hh').
  rewrite Hr in Hr'. injection Hr' as <- ->. destruct q as [|x q]; simpl in *; eauto.
Qed.
End lock_free.

(** ** The lock-free queue, shared

    Whatever the threads do, the values in the queue change only by the
    operations of the specification's queue, one at a time: the interleavings
    of accesses are interleavings of whole calls. *)

Section shared_queue.
Context {T : Type} (k capacity : Z) (Hk : 1 ≤ k ≤ 32) (Hcap : capacity = 2 ^ k).
Implicit Types (q : list T).

(** One call at most took effect. *)
Definition atomic_call q q' : Prop :=
  q' = q ∨ (∃ v, list_push capacity v q q' true) ∨ (∃ x, list_pop q q' (Some x)).

Lemma astep_atomic (a a' : aqueue T) :
  astep capacity a a' → atomic_call (contents a) (contents a').
Proof using Type.
  unfold atomic_call, list_push, list_pop. intros []; simpl; eauto.
Qed.

Lemma step_atomic n (c c' : config T) :
  reachable capacity n c → zlen (log c) < 2 ^ 62 → step capacity c c' →
  atomic_call (contents (abs_of c)) (contents (abs_of c')).
Proof using All.
  intros Hr Hl Hs. destruct (abs_step k capacity Hk Hcap c c') as [->|Ha]; try done.
  - by apply (Inv_reachable k capacity Hk Hcap n).
  - by left.
  - by apply astep_atomic.
Qed.
End shared_queue.
