(* ===== verification/Pipeline.v ===== *)
(** * The threads of the capture engine

    [packet_handler], called by [pcap_loop] in the main thread, the workers
    ([worker_thread_main]), the sender ([sender_thread_main]), the statistics
    thread and the end of [main] in [cpp/packet_capture.cpp], sharing two
    bounded queues, the flag [keep_running] and the connection.  One step is
    one test of the flag or one call; the queues are any implementation of
    [BoundedQueue], whose calls are atomic by [QueueInterface.step_atomic].  A
    dissection that meets undefined behaviour has no step. *)

From stdpp Require Import relations.
From S2P Require Import Prelude CMemory PacketTypes Entropy Capture.
From S2P Require Import Wire Sender QueueInterface.

(** ** Program counters *)

Inductive worker_pc :=
  | WTest                        (** [while (keep_running)] *)
  | WPop                         (** [ctx->raw_queue.pop(raw)] *)
  | WDissect (raw : RawPacket)   (** [dissect_raw_packet(raw, info)] *)
  | WPush (info : PacketInfo)    (** [while (!ctx->dissected_queue.push(info)] *)
  | WRetry (info : PacketInfo)   (** [&& keep_running)] *)
  | WDrain                       (** the second loop: [while (ctx->raw_queue.pop(raw))] *)
  | WDrainDissect (raw : RawPacket)
  | WDrainPush (info : PacketInfo)
  | WDone.

Inductive sender_pc :=
  | STest                        (** [while (keep_running)] *)
  | SPop                         (** [ctx->dissected_queue.pop(info)] *)
  | SSend (info : PacketInfo)    (** [send_packet_info(ctx->ssl, info)] *)
  | SDrain                       (** the second loop *)
  | SDrainSend (info : PacketInfo)
  | SDone.

Inductive stats_pc := StatTest | StatDone.

Inductive main_pc :=
  | MCapture                     (** in [pcap_loop] *)
  | MJoinWorkers (n : nat)       (** [worker_pool[n].join()] *)
  | MJoinSender
  | MJoinStats
  | MExit.                       (** [return 0] *)

Section pipeline.
Context {D : Type} `{Double D} {QR QI : Type}.
Context `{BoundedQueue RawPacket QR} `{BoundedQueue PacketInfo QI}.
Context (hmac : list Z → list Z → list Z) (secret : list Z).

(** ** The state

    The shared variables, the threads, the bytes put on the connection; then
    a history for the proofs: the frames [packet_handler] was called with,
    those a full queue refused, what each dissected frame became, and the
    records sent, not sent completely, and abandoned by a worker. *)
Record state := mkState {
    keep_running : bool;
    raw_queue : QR;
    dissected_queue : QI;
    last_ts : timeval;
    main_thread : main_pc;
    workers : list worker_pc;
    sender : sender_pc;
    stats : stats_pc;
    wire : list Z;
    handled : list RawPacket;
    dropped : list RawPacket;
    dissections : list (RawPacket * PacketInfo);
    sent : list PacketInfo;
    failed : list PacketInfo;
    lost : list PacketInfo
  }.

Definition state_eta (s : state) : state :=
  mkState (keep_running s) (raw_queue s) (dissected_queue s) (last_ts s) (main_thread s)
    (workers s) (sender s) (stats s) (wire s) (handled s) (dropped s) (dissections s) (sent s)
    (failed s) (lost s).

Ltac state_setter f v s :=
  let t := eval cbv beta delta [state_eta] in (state_eta s) in
  match (eval pattern (f s) in t) with
  | ?g _ => let u := eval cbv beta in (g v) in exact u
  end.

Definition set_running v s := ltac:(state_setter keep_running v s).
Definition set_raw_queue v s := ltac:(state_setter raw_queue v s).
Definition set_dissected_queue v s := ltac:(state_setter dissected_queue v s).
Definition set_last_ts v s := ltac:(state_setter last_ts v s).
Definition set_main v s := ltac:(state_setter main_thread v s).
Definition set_workers v s := ltac:(state_setter workers v s).
Definition set_sender v s := ltac:(state_setter sender v s).
Definition set_stats v s := ltac:(state_setter stats v s).
Definition set_wire v s := ltac:(state_setter wire v s).
Definition set_handled v s := ltac:(state_setter handled v s).
Definition set_dropped v s := ltac:(state_setter dropped v s).
Definition set_dissections v s := ltac:(state_setter dissections v s).
Definition set_sent v s := ltac:(state_setter sent v s).
Definition set_failed v s := ltac:(state_setter failed v s).
Definition set_lost v s := ltac:(state_setter lost v s).

(** ** Steps of the threads *)

(** [signal_handler]; [pcap_breakloop] lets [pcap_loop] return. *)
Definition signal_handler (s : state) : state := set_running false s.

(** What libpcap passes to [packet_handler]. *)
Record captured_frame (h : pcap_pkthdr) (packet : list Z) : Prop := {
    cf_bytes : bytes packet;
    cf_caplen : caplen h = zlen packet;
    cf_small : caplen h < 2 ^ 31;
    cf_wire : is_u 32 (PacketTypes.wire h)
  }.

(** [packet_handler]; [junk] is what the stack held at the local [raw]; the
    result of [push] is not looked at; [main] passes the address of its context,
    so the test for a null pointer never returns. *)
Definition packet_handler (h : pcap_pkthdr) (packet : list Z) (s s' : state) : Prop :=
  ∃ junk raw last q b,
    is_array 256 junk ∧
    make_raw junk (last_ts s) h packet = Ok (raw, last) ∧
    bq_push raw (raw_queue s) q b ∧
    s' = set_last_ts last (set_raw_queue q (set_handled (handled s ++ [raw])
      (set_dropped (dropped s ++ (if b then [] else [raw])) s))).

(** [dissect_raw_packet(raw, info)] on an uninitialised [info]. *)
Definition dissects (raw : RawPacket) (info : PacketInfo) : Prop :=
  ∃ junk, wf_info junk ∧ dissect_raw_packet raw junk = Ok info.

Definition dissect_step (raw : RawPacket) (info : PacketInfo) (s : state) : state :=
  set_dissections (dissections s ++ [(raw, info)]) s.

Inductive worker_step : state → worker_pc → state → worker_pc → Prop :=
  | worker_runs s : keep_running s = true → worker_step s WTest s WPop
  | worker_ends s : keep_running s = false → worker_step s WTest s WDrain
  | worker_pops s q raw :
      bq_pop (raw_queue s) q (Some raw) →
      worker_step s WPop (set_raw_queue q s) (WDissect raw)
  | worker_idles s q :
      bq_pop (raw_queue s) q None → worker_step s WPop (set_raw_queue q s) WTest
  | worker_dissects s raw info :
      dissects raw info → worker_step s (WDissect raw) (dissect_step raw info s) (WPush info)
  | worker_pushes s q info b :
      bq_push info (dissected_queue s) q b →
      worker_step s (WPush info) (set_dissected_queue q s) (if b then WTest else WRetry info)
  | worker_retries s info : keep_running s = true → worker_step s (WRetry info) s (WPush info)
  | worker_gives_up s info :
      keep_running s = false →
      worker_step s (WRetry info) (set_lost (lost s ++ [info]) s) WTest
  | worker_drains s q raw :
      bq_pop (raw_queue s) q (Some raw) →
      worker_step s WDrain (set_raw_queue q s) (WDrainDissect raw)
  | worker_drained s q :
      bq_pop (raw_queue s) q None → worker_step s WDrain (set_raw_queue q s) WDone
  | worker_drain_dissects s raw info :
      dissects raw info →
      worker_step s (WDrainDissect raw) (dissect_step raw info s) (WDrainPush info)
  | worker_drain_pushes s q info b :
      bq_push info (dissected_queue s) q b →
      worker_step s (WDrainPush info) (set_dissected_queue q s)
        (if b then WDrain else WDrainPush info).

(** [send_packet_info] returns, with all of the record sent or a part of it. *)
Definition send_step (info : PacketInfo) (s s' : state) : Prop :=
  ∃ ans r,
    answers_ok TOTAL_MSG_SIZE 0 ans ∧
    send_packet_info hmac true secret info ans = Ok r ∧ result r ≠ Waiting ∧
    s' = set_wire (wire s ++ out r)
      (match result r with
       | Sent => set_sent (sent s ++ [info]) s
       | _ => set_failed (failed s ++ [info]) s
       end).

Inductive sender_step : state → sender_pc → state → sender_pc → Prop :=
  | sender_runs s : keep_running s = true → sender_step s STest s SPop
  | sender_ends s : keep_running s = false → sender_step s STest s SDrain
  | sender_pops s q info :
      bq_pop (dissected_queue s) q (Some info) →
      sender_step s SPop (set_dissected_queue q s) (SSend info)
  | sender_sleeps s q :
      bq_pop (dissected_queue s) q None → sender_step s SPop (set_dissected_queue q s) STest
  | sender_sends s s' info : send_step info s s' → sender_step s (SSend info) s' STest
  | sender_drains s q info :
      bq_pop (dissected_queue s) q (Some info) →
      sender_step s SDrain (set_dissected_queue q s) (SDrainSend info)
  | sender_drained s q :
      bq_pop (dissected_queue s) q None → sender_step s SDrain (set_dissected_queue q s) SDone
  | sender_drain_sends s s' info : send_step info s s' → sender_step s (SDrainSend info) s' SDrain.

Inductive step : state → state → Prop :=
  | step_frame s s' h packet :
      main_thread s = MCapture → captured_frame h packet → packet_handler h packet s s' →
      step s s'
  | step_signal s : step s (signal_handler s)
  | step_loop_ends s :                  (** [pcap_loop] returns *)
      main_thread s = MCapture →
      step s (set_running false (set_main (MJoinWorkers 0) s))
  | step_join_worker s n :
      main_thread s = MJoinWorkers n → workers s !! n = Some WDone →
      step s (set_main (MJoinWorkers (S n)) s)
  | step_joined_workers s n :
      main_thread s = MJoinWorkers n → n = length (workers s) → step s (set_main MJoinSender s)
  | step_join_sender s :
      main_thread s = MJoinSender → sender s = SDone → step s (set_main MJoinStats s)
  | step_join_stats s :
      main_thread s = MJoinStats → stats s = StatDone → step s (set_main MExit s)
  | step_stats s : keep_running s = false → step s (set_stats StatDone s)
  | step_worker s s' i p p' :
      workers s !! i = Some p → worker_step s p s' p' →
      step s (set_workers (<[i := p']> (workers s')) s')
  | step_sender s s' p' :
      sender_step s (sender s) s' p' → step s (set_sender p' s').

Definition num_workers : nat := 4.

(** After [main] has started the threads. *)
Definition init (q0 : QR) (q1 : QI) : state :=
  mkState true q0 q1 (mkTimeval 0 0) MCapture (replicate num_workers WTest) STest StatTest
    [] [] [] [] [] [] [].

(** ** Where a frame or a record is *)

Definition worker_raw (p : worker_pc) : list RawPacket :=
  match p with WDissect raw | WDrainDissect raw => [raw] | _ => [] end.
Definition worker_info (p : worker_pc) : list PacketInfo :=
  match p with WPush info | WRetry info | WDrainPush info => [info] | _ => [] end.
Definition sender_info (p : sender_pc) : list PacketInfo :=
  match p with SSend info | SDrainSend info => [info] | _ => [] end.

Definition in_workers {A} (f : worker_pc → list A) (s : state) : list A :=
  concat (f <$> workers s).

(** Every frame and every record is in one place. *)
Record accounted (s : state) (rq : list RawPacket) (dq : list PacketInfo) : Prop := {
    acc_raw : bq_holds (raw_queue s) rq;
    acc_dissected : bq_holds (dissected_queue s) dq;
    acc_frames : handled s ≡ₚ
      (dropped s ++ rq ++ (dissections s).*1) ++ in_workers worker_raw s;
    acc_records : (dissections s).*2 ≡ₚ
      (dq ++ sender_info (sender s) ++ sent s ++ failed s ++ lost s) ++ in_workers worker_info s;
    acc_dissects : Forall (λ '(raw, info), wf_raw raw ∧ dissects raw info) (dissections s);
    acc_handled : Forall wf_raw (handled s);
    acc_lost : keep_running s = true → lost s = [];
    acc_wire : failed s = [] → wire s = concat (message hmac secret <$> sent s)
  }.
End pipeline.
