(* ===== verification/PipelineProps.v ===== *)
(** * Properties of the pipeline

    No frame and no record is duplicated or disappears without trace; what is
    sent is what was captured; what the shutdown guarantees and what not. *)

From stdpp Require Import relations.
From AAC_tactics Require Import AAC.
From AAC_tactics Require Instances.
From S2P Require Import Prelude CMemory PacketTypes Layers Entropy Capture CaptureProps.
From S2P Require Import Wire Sender QueueInterface Pipeline.
Import Instances.Lists.

(** ** Accounting *)

#[local] Instance perm_lift A : AAC_lift (@Permutation A) (@Permutation A).
Proof. constructor; apply _. Qed.

Section accounting.
Context {A : Type}.
Implicit Types (l x e : list A).

(** The total [l1 ++ x] when a share [p] of [x] is replaced by [p'] and the
    rest takes up the difference. *)
Lemma rebalance l l1 l2 x x' p p' e :
  l ≡ₚ l1 ++ x → x' ++ p ≡ₚ x ++ p' → l2 ++ p' ≡ₚ l1 ++ p ++ e → l ++ e ≡ₚ l2 ++ x'.
Proof.
  intros Hl Hx H2. apply (Permutation_app_inv_r p'), (Permutation_app_inv_r p).
  transitivity ((l2 ++ p') ++ (x' ++ p)); [|aac_reflexivity].
  rewrite Hl, H2, Hx. aac_reflexivity.
Qed.

Lemma concat_insert {B} (f : B → list A) (ws : list B) i p p' :
  ws !! i = Some p → concat (f <$> <[i := p']> ws) ++ f p ≡ₚ concat (f <$> ws) ++ f p'.
Proof.
  intros Hi. rewrite <-(take_drop_middle ws i p Hi) at 2.
  rewrite (insert_take_drop ws i p') by (by eapply lookup_lt_Some).
  rewrite !fmap_app, !concat_app, !fmap_cons. cbn [concat]. aac_reflexivity.
Qed.
End accounting.

Lemma wf_dissects `{DoubleLaws D} raw info : wf_raw raw → dissects (D := D) raw info → wf_info info.
Proof.
  intros Hraw (junk & Hj & Hd).
  pose proof (dissect_raw_packet_spec any_fault raw junk Hraw (guard_any _)) as Hs.
  rewrite Hd in Hs. simpl in Hs. unfold dissected in Hs.
  destruct (parse_ethernet_layer _ _) as [[e|]|]; [|by subst|by subst]. by destruct Hs.
Qed.

Lemma fst_snoc {A B} (l : list (A * B)) a b : (l ++ [(a, b)]).*1 = l.*1 ++ [a].
Proof. by rewrite fmap_app. Qed.
Lemma snd_snoc {A B} (l : list (A * B)) a b : (l ++ [(a, b)]).*2 = l.*2 ++ [b].
Proof. by rewrite fmap_app. Qed.

(** Evaluates the assignments to the state and nothing else. *)
Ltac state_simpl :=
  unfold in_workers, dissect_step, signal_handler; rewrite ?fst_snoc, ?snd_snoc;
  cbn [keep_running raw_queue dissected_queue last_ts main_thread workers sender stats Pipeline.wire
    handled dropped dissections sent failed lost set_running set_raw_queue set_dissected_queue
    set_last_ts set_main set_workers set_sender set_stats set_wire set_handled set_dropped
    set_dissections set_sent set_failed set_lost sender_info];
  rewrite ?fst_snoc, ?snd_snoc.

Section conservation.
Context {D : Type} `{DoubleLaws D} {QR QI : Type}.
Context `{BoundedQueue RawPacket QR} `{BoundedQueue PacketInfo QI}.
Context (hmac : list Z → list Z → list Z) (secret : list Z).
Context (hmac_length : ∀ k m, zlen (hmac k m) = HASH_SIZE).
Abbreviation state := (@state QR QI).
Abbreviation accounted := (accounted (D := D) hmac secret).
Implicit Types (s : state) (rq : list RawPacket) (dq : list PacketInfo).

Lemma elem_of_in_workers {A} (g : worker_pc → list A) s i p x :
  workers s !! i = Some p → x ∈ g p → x ∈ in_workers g s.
Proof using Type.
  intros Hi Hx. unfold in_workers. apply list_elem_of_In, in_concat. exists (g p).
  split; [|by apply list_elem_of_In]. apply list_elem_of_In, list_elem_of_fmap.
  exists p. split; [done|]. by eapply list_elem_of_lookup_2.
Qed.

(** A frame that a worker holds was captured. *)
Lemma worker_raw_wf s rq dq i p raw :
  accounted s rq dq → workers s !! i = Some p → raw ∈ worker_raw p → wf_raw raw.
Proof using Type.
  intros W Hi Hr. eapply (proj1 (Forall_forall _ _) (acc_handled _ _ _ _ _ W)).
  rewrite (acc_frames _ _ _ _ _ W). apply elem_of_app. right. by eapply elem_of_in_workers.
Qed.

(** A record that is anywhere is a dissected frame. *)
Lemma record_wf s rq dq info :
  accounted s rq dq → info ∈ (dissections s).*2 → wf_info info.
Proof using All.
  intros W ([raw ?] & -> & Hin)%list_elem_of_fmap.
  destruct (proj1 (Forall_forall _ _) (acc_dissects _ _ _ _ _ W) _ Hin) as [??].
  by eapply wf_dissects.
Qed.

(** What a worker's step leaves to show; the totals by the share of the
    worker that [Hi] names. *)
Ltac worker_total W Hi f :=
  eapply rebalance; [apply W|exact (concat_insert f _ _ _ _ Hi)|cbn [f]; aac_reflexivity].

Ltac worker_totals W Hi :=
  split; state_simpl;
  first
    [ by apply W
    | match goal with
      | |- handled _ ≡ₚ _ => rewrite <-(app_nil_r (handled _)); worker_total W Hi worker_raw
      | |- (dissections _).*2 ≡ₚ _ =>
          rewrite <-(app_nil_r (_.*2)); worker_total W Hi worker_info
      | |- _ ++ _ ≡ₚ _ => worker_total W Hi worker_info
      | |- _ => idtac
      end ].

Lemma worker_accounted s p s' p' i rq dq :
  accounted s rq dq → workers s !! i = Some p → worker_step (D := D) s p s' p' →
  ∃ rq' dq', accounted (set_workers (<[i := p']> (workers s')) s') rq' dq'.
Proof using All.
  intros W Hi Hs. destruct Hs as [s Hr|s Hr|s q raw Hq|s q Hq|s raw info Hd|s q info b Hq
    |s info Hr|s info Hr|s q raw Hq|s q Hq|s raw info Hd|s q info b Hq].
  - exists rq, dq. worker_totals W Hi.
  - exists rq, dq. worker_totals W Hi.
  - destruct (bq_pop_spec _ _ _ _ (acc_raw _ _ _ _ _ W) Hq) as (rq' & -> & Hq').
    exists rq', dq. worker_totals W Hi. done.
  - pose proof (bq_pop_spec _ _ _ _ (acc_raw _ _ _ _ _ W) Hq) as Hq'.
    exists rq, dq. worker_totals W Hi. done.
  - exists rq, dq. worker_totals W Hi. apply Forall_app. split; [apply W|].
    constructor; [|constructor]. split; [|done].
    eapply worker_raw_wf; [done|done|]. by apply list_elem_of_singleton.
  - destruct (bq_push_spec _ _ _ _ _ (acc_dissected _ _ _ _ _ W) Hq) as [Hq' _].
    destruct b; [exists rq, (dq ++ [info])|exists rq, dq]; worker_totals W Hi; done.
  - exists rq, dq. worker_totals W Hi.
  - exists rq, dq. worker_totals W Hi. congruence.
  - destruct (bq_pop_spec _ _ _ _ (acc_raw _ _ _ _ _ W) Hq) as (rq' & -> & Hq').
    exists rq', dq. worker_totals W Hi. done.
  - pose proof (bq_pop_spec _ _ _ _ (acc_raw _ _ _ _ _ W) Hq) as Hq'.
    exists rq, dq. worker_totals W Hi. done.
  - exists rq, dq. worker_totals W Hi. apply Forall_app. split; [apply W|].
    constructor; [|constructor]. split; [|done].
    eapply worker_raw_wf; [done|done|]. by apply list_elem_of_singleton.
  - destruct (bq_push_spec _ _ _ _ _ (acc_dissected _ _ _ _ _ W) Hq) as [Hq' _].
    destruct b; [exists rq, (dq ++ [info])|exists rq, dq]; worker_totals W Hi; done.
Qed.

(** *** The sender *)

(** The record the sender holds is well typed. *)
Lemma sender_info_wf s rq dq info :
  accounted s rq dq → info ∈ sender_info (sender s) → wf_info info.
Proof using All.
  intros W Hi. eapply record_wf; [done|]. rewrite (acc_records _ _ _ _ _ W). set_solver.
Qed.

Ltac sender_totals W Hp :=
  split; state_simpl;
  first
    [ by apply W
    | match goal with
      | |- (dissections _).*2 ≡ₚ _ =>
          etransitivity; [apply W|]; unfold in_workers; rewrite Hp; cbn [sender_info]; aac_reflexivity
      | |- _ => idtac
      end ].

Lemma send_accounted s s' p p' info rq dq :
  accounted s rq dq → sender s = p → sender_info p = [info] → sender_info p' = [] →
  send_step hmac secret info s s' → accounted (set_sender p' s') rq dq.
Proof using All.
  intros W Hp Hi Hi' (ans & r & Ha & Hr & Hw & ->).
  assert (wf_info info) as Hwf.
  { eapply sender_info_wf; [done|]. rewrite Hp, Hi. by apply list_elem_of_singleton. }
  destruct (result r) eqn:Er; [| |done]; split; state_simpl; rewrite ?Hi'; try (by apply W).
  - etransitivity; [apply W|]. unfold in_workers. rewrite Hp, Hi. aac_reflexivity.
  - intros Hf. rewrite (acc_wire _ _ _ _ _ W Hf), fmap_app, concat_app. f_equal. cbn.
    rewrite app_nil_r. by eapply send_packet_info_sent.
  - etransitivity; [apply W|]. unfold in_workers. rewrite Hp, Hi. aac_reflexivity.
  - intros Hf. by destruct (failed s).
Qed.

Lemma sender_accounted s s' p p' rq dq :
  accounted s rq dq → sender s = p → sender_step hmac secret s p s' p' →
  ∃ dq', accounted (set_sender p' s') rq dq'.
Proof using All.
  intros W Hp Hs. destruct Hs as [s Hr|s Hr|s q info Hq|s q Hq|s s' info Hs
    |s q info Hq|s q Hq|s s' info Hs].
  - exists dq. sender_totals W Hp.
  - exists dq. sender_totals W Hp.
  - destruct (bq_pop_spec _ _ _ _ (acc_dissected _ _ _ _ _ W) Hq) as (dq' & -> & Hq').
    exists dq'. sender_totals W Hp. done.
  - pose proof (bq_pop_spec _ _ _ _ (acc_dissected _ _ _ _ _ W) Hq) as Hq'.
    exists dq. sender_totals W Hp. done.
  - exists dq. by eapply send_accounted.
  - destruct (bq_pop_spec _ _ _ _ (acc_dissected _ _ _ _ _ W) Hq) as (dq' & -> & Hq').
    exists dq'. sender_totals W Hp. done.
  - pose proof (bq_pop_spec _ _ _ _ (acc_dissected _ _ _ _ _ W) Hq) as Hq'.
    exists dq. sender_totals W Hp. done.
  - exists dq. by eapply send_accounted.
Qed.

(** *** The capture callback *)

Lemma make_raw_wf junk last h packet raw last' :
  is_array 256 junk → captured_frame h packet → make_raw junk last h packet = Ok (raw, last') →
  wf_raw raw.
Proof using Type.
  intros Hj Hf (d & Hd & [= <- _])%bind_Ok_inv. destruct Hf as [Hb Hc Hs Hw].
  split; cbn; [lia|done| |].
  - by eapply is_array_memcpy.
  - unfold delta_of. case_test; auto with pacsni.
Qed.

Lemma frame_accounted s s' h packet rq dq :
  accounted s rq dq → captured_frame h packet → packet_handler h packet s s' →
  ∃ rq', accounted s' rq' dq.
Proof using All.
  intros W Hf (junk & raw & last & q & b & Hj & Hm & Hq & ->).
  destruct (bq_push_spec _ _ _ _ _ (acc_raw _ _ _ _ _ W) Hq) as [Hq' _].
  assert (Forall wf_raw (handled s ++ [raw])).
  { apply Forall_app. split; [apply W|]. repeat constructor; by eapply make_raw_wf. }
  exists (if b then rq ++ [raw] else rq).
  split; state_simpl; try (by apply W); try done.
  rewrite (acc_frames _ _ _ _ _ W). unfold in_workers. destruct b; aac_reflexivity.
Qed.

Lemma step_accounted s s' rq dq :
  accounted s rq dq → step (D := D) hmac secret s s' → ∃ rq' dq', accounted s' rq' dq'.
Proof using All.
  intros W Hs. destruct Hs as [s s' h packet _ Hf Hh|s|s|s n|s n|s|s|s|s s' i p p' Hi Hw|s s' p' Hp].
  - destruct (frame_accounted _ _ _ _ _ _ W Hf Hh). eauto.
  - exists rq, dq. by split; state_simpl; apply W || done.
  - exists rq, dq. by split; state_simpl; apply W || done.
  - exists rq, dq. by split; state_simpl; apply W.
  - exists rq, dq. by split; state_simpl; apply W.
  - exists rq, dq. by split; state_simpl; apply W.
  - exists rq, dq. by split; state_simpl; apply W.
  - exists rq, dq. by split; state_simpl; apply W.
  - by eapply worker_accounted.
  - destruct (sender_accounted _ _ _ _ _ _ W eq_refl Hp). eauto.
Qed.

Lemma init_accounted q0 q1 :
  bq_holds q0 [] → bq_holds q1 [] → accounted (init q0 q1) [] [].
Proof using All. intros H3 H4. by split. Qed.

Lemma reachable_accounted q0 q1 s :
  bq_holds q0 [] → bq_holds q1 [] → rtc (step (D := D) hmac secret) (init q0 q1) s →
  ∃ rq dq, accounted s rq dq.
Proof using All.
  intros H3 H4 Hr. revert s Hr.
  apply (rtc_ind_r (λ s, ∃ rq dq, accounted s rq dq)); [eauto using init_accounted|].
  intros s s' _ Hs (rq & dq & W). by eapply step_accounted.
Qed.

(** The dissections behind a part of the records. *)
Lemma dissections_of (ds : list (RawPacket * PacketInfo)) l l' :
  ds.*2 ≡ₚ l ++ l' → ∃ d d', ds ≡ₚ d ++ d' ∧ d.*2 = l.
Proof using Type.
  intros Hp. symmetry in Hp. destruct (Permutation_map_inv _ _ Hp) as (ds' & E & Hd).
  change (map snd ds') with (ds'.*2) in E.
  symmetry in E. apply fmap_app_inv in E as (d & d' & -> & -> & ->). eauto.
Qed.

(** C5. Nothing is duplicated and nothing vanishes: in every reachable state,
    whatever the interleaving of the capture, the workers and the sender,
    each frame given to [packet_handler] is in exactly one place - refused by
    a full queue, in the raw queue, in a worker, or dissected - and each
    dissected record likewise - in a worker, in the dissected queue, in the
    sender, sent, cut off by a failed write, or abandoned by a worker, which
    happens only after the shutdown began; every record is what
    [dissect_raw_packet] computed from the frame it is accounted for. *)
Theorem pipeline_conservation q0 q1 s :
  bq_holds q0 [] → bq_holds q1 [] → rtc (step (D := D) hmac secret) (init q0 q1) s →
  ∃ rq dq, accounted s rq dq.
Proof using All. apply reachable_accounted. Qed.

(** Every record that was sent is well formed, and without a failed write the
    bytes on the connection are their messages. *)
Lemma wire_of_records q0 q1 s :
  bq_holds q0 [] → bq_holds q1 [] → rtc (step (D := D) hmac secret) (init q0 q1) s →
  failed s = [] →
  Forall wf_info (sent s) ∧ Pipeline.wire s = concat (message hmac secret <$> sent s).
Proof using All.
  intros H3 H4 Hr Hf. destruct (reachable_accounted q0 q1 s H3 H4 Hr) as (rq & dq & W).
  split; [|exact (acc_wire _ _ _ _ _ W Hf)].
  apply Forall_forall. intros info Hi. eapply record_wf; [done|].
  rewrite (acc_records _ _ _ _ _ W). set_solver.
Qed.

(** What was sent, and where it comes from. *)
Lemma delivery_spec q0 q1 s reads :
  bq_holds q0 [] → bq_holds q1 [] → rtc (step (D := D) hmac secret) (init q0 q1) s →
  failed s = [] → concat reads = Pipeline.wire s →
  Forall (λ r, 0 < zlen r ≤ 2 * 1024 * 1024 - TOTAL_MSG_SIZE) reads →
  handle_cpp_connection hmac secret [] reads = (dashboard <$> sent s, Closed) ∧
  ∃ ds, ds.*2 = sent s ∧ ds.*1 ⊆+ handled s ∧
    Forall (λ '(raw, info), wf_raw raw ∧ dissects (D := D) raw info) ds.
Proof using All.
  intros H3 H4 Hr Hf Hreads Hsmall.
  destruct (reachable_accounted q0 q1 s H3 H4 Hr) as (rq & dq & W). split.
  - rewrite handle_reads by (done || by unfold TOTAL_MSG_SIZE, STRUCT_SIZE, HASH_SIZE).
    destruct (wire_of_records q0 q1 s H3 H4 Hr Hf) as [Hwf Ew].
    cbn [app]. by rewrite Hreads, Ew, drain_messages.
  - pose proof (acc_records _ _ _ _ _ W) as Hp.
    assert ((dissections s).*2 ≡ₚ sent s ++
      (dq ++ sender_info (sender s) ++ failed s ++ lost s) ++ in_workers worker_info s) as Hp'
      by (rewrite Hp; aac_reflexivity).
    destruct (dissections_of _ _ _ Hp') as (d & d' & Hd & Hd2). exists d. split; [done|]. split.
    + rewrite (acc_frames _ _ _ _ _ W), Hd, fmap_app.
      transitivity (d.*1 ++ (dropped s ++ rq ++ d'.*1 ++ in_workers worker_raw s)).
      { by apply submseteq_inserts_r. }
      apply Permutation_submseteq. aac_reflexivity.
    + pose proof (acc_dissects _ _ _ _ _ W) as Hall. rewrite Hd in Hall.
      by apply Forall_app in Hall as [? _].
Qed.

(** C3. The whole system: as long as no write has failed, the service shows,
    however its reads cut the stream, exactly the records that were sent, in
    the order of sending; and each of them is the dissection of a frame that
    was captured, no frame being used twice. *)
Theorem pipeline_delivery q0 q1 s reads :
  bq_holds q0 [] → bq_holds q1 [] → rtc (step (D := D) hmac secret) (init q0 q1) s →
  failed s = [] → concat reads = Pipeline.wire s →
  Forall (λ r, 0 < zlen r ≤ 2 * 1024 * 1024 - TOTAL_MSG_SIZE) reads →
  handle_cpp_connection hmac secret [] reads = (dashboard <$> sent s, Closed) ∧
  ∃ ds, ds.*2 = sent s ∧ ds.*1 ⊆+ handled s ∧
    Forall (λ '(raw, info), wf_raw raw ∧ dissects (D := D) raw info) ds.
Proof using All. apply delivery_spec. Qed.
End conservation.
