(* ===== verification/Shutdown.v ===== *)
(** * The shutdown of the pipeline

    The order in which [main] ends, and the two ways in which records that
    were captured are not delivered although nothing failed: the sender may
    leave before the workers, after which the remaining records stay in the
    queue, or fill it, and then a worker, and [main] that waits for it, never
    ends. *)

From stdpp Require Import relations.
From S2P Require Import Prelude CMemory PacketTypes Layers Entropy Capture CaptureProps.
From S2P Require Import Wire Sender QueueInterface Pipeline PipelineProps.

Section order.
Context {D : Type} `{Double D} {QR QI : Type}.
Context `{BoundedQueue RawPacket QR} `{BoundedQueue PacketInfo QI}.
Context (hmac : list Z → list Z → list Z) (secret : list Z).
Abbreviation state := (@state QR QI).
Implicit Types (s : state).

(** How far [main] has come, and what has ended by then. *)
Definition joined (s : state) : Prop :=
  match main_thread s with
  | MCapture => True
  | MJoinWorkers n =>
      keep_running s = false ∧ ∀ i, (i < n)%nat → workers s !! i = Some WDone
  | MJoinSender => keep_running s = false ∧ Forall (eq WDone) (workers s)
  | MJoinStats => keep_running s = false ∧ Forall (eq WDone) (workers s) ∧ sender s = SDone
  | MExit =>
      keep_running s = false ∧ Forall (eq WDone) (workers s) ∧ sender s = SDone ∧
      stats s = StatDone
  end.

Lemma worker_step_shared s p s' p' :
  worker_step (D := D) s p s' p' →
  p ≠ WDone ∧ main_thread s' = main_thread s ∧ keep_running s' = keep_running s ∧
  workers s' = workers s ∧ sender s' = sender s ∧ stats s' = stats s.
Proof using Type. by intros []. Qed.

Lemma sender_step_shared s p s' p' :
  sender_step hmac secret s p s' p' →
  p ≠ SDone ∧ main_thread s' = main_thread s ∧ keep_running s' = keep_running s ∧
  workers s' = workers s ∧ stats s' = stats s.
Proof using hmac secret.
  intros [| | | |? ? ? Hs| | |? ? ? Hs]; try done;
    destruct Hs as (ans & r & _ & _ & _ & ->); by destruct (result r).
Qed.

Lemma joined_init q0 q1 : joined (init q0 q1).
Proof using hmac secret. done. Qed.

Lemma joined_worker s s' i p p' :
  joined s → workers s !! i = Some p → worker_step (D := D) s p s' p' →
  joined (set_workers (<[i := p']> (workers s')) s').
Proof using hmac secret.
  intros Hj Hi Hw. destruct (worker_step_shared _ _ _ _ Hw) as (Hne & Em & Er & Ew & Es & Et).
  assert (Forall (eq WDone) (workers s) → False) as Hall.
  { intros Ha. rewrite Forall_lookup in Ha. by apply Hne, symmetry, (Ha i). }
  unfold joined in *. cbn [set_workers main_thread keep_running workers sender stats].
  rewrite Em, Er, Ew, Es, Et. destruct (main_thread s) as [|n| | |]; try tauto.
  destruct Hj as [Hk Hd]. split; [done|]. intros j Hj.
  rewrite list_lookup_insert_ne; [by apply Hd|]. intros ->. specialize (Hd _ Hj). congruence.
Qed.

Lemma joined_step s s' : joined s → step (D := D) hmac secret s s' → joined s'.
Proof using hmac secret.
  intros Hj Hs. destruct Hs as [s s' h packet Hm _ Hh|s|s Hm|s n Hm Hn|s n Hm Hn|s Hm He|s Hm He
    |s Hk|s s' i p p' Hi Hw|s s' p' Hp]; unfold joined in *; cbn; try rewrite Hm in *.
  - destruct Hh as (junk & raw & last & q & b & _ & _ & _ & ->). cbn. by rewrite Hm.
  - destruct (main_thread s); tauto.
  - split; [done|]. intros i Hi. lia.
  - destruct Hj as [Hk Hd]. split; [done|]. intros i Hi.
    destruct (decide (i = n)) as [->|]; [done|]. apply Hd. lia.
  - destruct Hj as [Hk Hd]. split; [done|]. apply Forall_lookup. intros i x Hx.
    apply lookup_lt_Some in Hx as Hlt. rewrite Hd in Hx by lia. congruence.
  - tauto.
  - tauto.
  - destruct (main_thread s); tauto.
  - by apply (joined_worker s s' i p p').
  - destruct (sender_step_shared _ _ _ _ Hp) as (Hne & Em & Er & Ew & Et).
    rewrite Em, Er, Ew, Et. destruct (main_thread s); tauto.
Qed.

Lemma reachable_joined q0 q1 s : rtc (step (D := D) hmac secret) (init q0 q1) s → joined s.
Proof using hmac secret.
  intros Hr. revert s Hr. apply (rtc_ind_r joined); [apply joined_init|].
  intros s s' _ Hs Hj. by eapply joined_step.
Qed.
End order.

Lemma in_workers_done {QR QI A} (g : worker_pc → list A) (s : @state QR QI) :
  g WDone = [] → Forall (eq WDone) (workers s) → in_workers g s = [].
Proof.
  unfold in_workers. intros Hg. induction 1 as [|p ws <- _ IH]; [done|]. cbn. by rewrite Hg, IH.
Qed.

Section exit.
Context {D : Type} `{DoubleLaws D} {QR QI : Type}.
Context `{BoundedQueue RawPacket QR} `{BoundedQueue PacketInfo QI}.
Context (hmac : list Z → list Z → list Z) (secret : list Z).
Context (hmac_length : ∀ k m, zlen (hmac k m) = HASH_SIZE).

(** C22. [main] returns only after the shutdown was requested and after every
    worker, the sender and the statistics thread ended, in this order; at that
    moment no thread holds a frame or a record any more: each captured frame
    was refused, is left in the raw queue or was dissected, and each record
    is left in the dissected queue, or was sent, cut off or abandoned. *)
Theorem shutdown_order q0 q1 (s : @state QR QI) :
  bq_holds q0 [] → bq_holds q1 [] → rtc (step (D := D) hmac secret) (init q0 q1) s →
  main_thread s = MExit →
  keep_running s = false ∧ Forall (eq WDone) (workers s) ∧ sender s = SDone ∧
  stats s = StatDone ∧
  ∃ rq dq, bq_holds (raw_queue s) rq ∧ bq_holds (dissected_queue s) dq ∧
    handled s ≡ₚ dropped s ++ rq ++ (dissections s).*1 ∧
    (dissections s).*2 ≡ₚ dq ++ sent s ++ failed s ++ lost s.
Proof using All.
  intros H3 H4 Hr Hm. pose proof (reachable_joined hmac secret _ _ _ Hr) as Hj.
  unfold joined in Hj. rewrite Hm in Hj. destruct Hj as (Hk & Hw & Hs & Ht).
  destruct (reachable_accounted hmac secret hmac_length q0 q1 s H3 H4 Hr) as (rq & dq & W).
  split_and!; try done. exists rq, dq. split; [apply W|]. split; [apply W|].
  pose proof (acc_frames _ _ _ _ _ W) as Hf. pose proof (acc_records _ _ _ _ _ W) as Hd.
  rewrite in_workers_done, app_nil_r in Hf by done.
  rewrite in_workers_done, app_nil_r, Hs in Hd by done. done.
Qed.
End exit.

(** ** Two shutdowns that go wrong *)

Section stranded.
Context {D : Type} `{DoubleLaws D} (capacity : Z) (Hcap : 1 ≤ capacity).
Context (hmac : list Z → list Z → list Z) (secret : list Z).
#[local] Existing Instance list_queue.
Abbreviation queues := (list_queue capacity).
Abbreviation pstep := (@step D _ (list RawPacket) (list PacketInfo) queues queues hmac secret).
Abbreviation pstate := (@state (list RawPacket) (list PacketInfo)).

(** The state without the history of the frames. *)
Definition view (s : pstate) :=
  (keep_running s, raw_queue s, dissected_queue s, last_ts s, main_thread s,
   workers s, sender s, stats s, (failed s, lost s, sent s, Pipeline.wire s)).

Definition reach v v' : Prop := ∀ s, view s = v → ∃ s', rtc pstep s s' ∧ view s' = v'.

Lemma reach_refl v : reach v v.
Proof using All. intros s Hv. by exists s. Qed.

Lemma reach_trans v1 v2 v3 : reach v1 v2 → reach v2 v3 → reach v1 v3.
Proof using All.
  intros H1 H2 s Hv. destruct (H1 s Hv) as (s1 & Hr1 & Hv1).
  destruct (H2 s1 Hv1) as (s2 & Hr2 & Hv2). exists s2. split; [by etransitivity|done].
Qed.

(** A frame of 60 zero bytes, and what it is dissected to. *)
Definition frame_header : pcap_pkthdr := mkPkthdr 0 0 60 60.
Definition frame : RawPacket := mkRawPacket frame_header (zeros 256) 0.

Lemma frame_dissected : ∃ info, dissects (D := D) frame info.
Proof using D H H0.
  assert (wf_raw frame) as Hw by (split; by_decide).
  assert (honest_frame frame) as Hh.
  { split; [by_decide|]. intros e He. vm_compute in He. injection He as <-.
    split_and!; intros Ht; vm_compute in Ht; discriminate. }
  destruct (ensures_Ok _ _ (dissect_raw_packet_spec no_fault frame zero_info Hw
    (or_intror Hh))) as (info & Hi & _).
  exists info, zero_info. split; [apply wf_zero_info|done].
Qed.

(** Takes the step that [tac] applies in a state of a known view. *)
Ltac reach_step tac :=
  let s := fresh "s" in let Hv := fresh "Hv" in
  intros s Hv; destruct s; unfold view in Hv; cbn in Hv; simplify_eq;
  eexists; (split; [apply rtc_once; tac|]).

Definition zero_ts : timeval := mkTimeval 0 0.

Lemma reach_frame run rq dq ws snd st fl :
  zlen rq < capacity →
  reach (run, rq, dq, zero_ts, MCapture, ws, snd, st, fl)
    (run, rq ++ [frame], dq, zero_ts, MCapture, ws, snd, st, fl).
Proof using All.
  intros Hl. reach_step ltac:(eapply @step_frame); [done| | |].
  - instantiate (1 := zeros 60). instantiate (1 := frame_header). split; by_decide.
  - exists (zeros 256), frame, zero_ts, (rq ++ [frame]), true. split_and!; [by_decide|by vm_compute| |].
    + by split.
    + done.
  - done.
Qed.

Lemma reach_signal run rq dq ts m ws snd st fl :
  reach (run, rq, dq, ts, m, ws, snd, st, fl) (false, rq, dq, ts, m, ws, snd, st, fl).
Proof using All. by reach_step ltac:(eapply @step_signal). Qed.

(** A step of the first worker; the others wait. *)
Ltac worker_move tac :=
  reach_step ltac:(eapply @step_worker with (i := 0%nat)); [done|tac|done].

Section worker.
Context (ts : timeval) (m : main_pc) (ws : list worker_pc) (snd : sender_pc) (st : stats_pc).
Context (fl : list PacketInfo * list PacketInfo * list PacketInfo * list Z).
Implicit Types (rq : list RawPacket) (dq : list PacketInfo).

Lemma reach_runs rq dq :
  reach (true, rq, dq, ts, m, WTest :: ws, snd, st, fl)
    (true, rq, dq, ts, m, WPop :: ws, snd, st, fl).
Proof using All. worker_move ltac:(by apply worker_runs). Qed.

Lemma reach_ends rq dq :
  reach (false, rq, dq, ts, m, WTest :: ws, snd, st, fl)
    (false, rq, dq, ts, m, WDrain :: ws, snd, st, fl).
Proof using All. worker_move ltac:(by apply worker_ends). Qed.

Lemma reach_pops run rq dq raw :
  reach (run, raw :: rq, dq, ts, m, WPop :: ws, snd, st, fl)
    (run, rq, dq, ts, m, WDissect raw :: ws, snd, st, fl).
Proof using All. worker_move ltac:(by apply worker_pops with (q := rq)). Qed.

Lemma reach_dissects run rq dq raw info :
  dissects (D := D) raw info →
  reach (run, rq, dq, ts, m, WDissect raw :: ws, snd, st, fl)
    (run, rq, dq, ts, m, WPush info :: ws, snd, st, fl).
Proof using All. intros Hd. worker_move ltac:(by apply worker_dissects). Qed.

Lemma reach_pushes run rq dq info :
  zlen dq < capacity →
  reach (run, rq, dq, ts, m, WPush info :: ws, snd, st, fl)
    (run, rq, dq ++ [info], ts, m, WTest :: ws, snd, st, fl).
Proof using All.
  intros Hl. worker_move ltac:(by apply worker_pushes with (q := dq ++ [info]) (b := true)).
Qed.

Lemma reach_drains run rq dq raw :
  reach (run, raw :: rq, dq, ts, m, WDrain :: ws, snd, st, fl)
    (run, rq, dq, ts, m, WDrainDissect raw :: ws, snd, st, fl).
Proof using All. worker_move ltac:(by apply worker_drains with (q := rq)). Qed.

Lemma reach_drained run dq :
  reach (run, [], dq, ts, m, WDrain :: ws, snd, st, fl)
    (run, [], dq, ts, m, WDone :: ws, snd, st, fl).
Proof using All. worker_move ltac:(by apply worker_drained with (q := [])). Qed.

Lemma reach_drain_dissects run rq dq raw info :
  dissects (D := D) raw info →
  reach (run, rq, dq, ts, m, WDrainDissect raw :: ws, snd, st, fl)
    (run, rq, dq, ts, m, WDrainPush info :: ws, snd, st, fl).
Proof using All. intros Hd. worker_move ltac:(by apply worker_drain_dissects). Qed.

Lemma reach_drain_pushes run rq dq info :
  zlen dq < capacity →
  reach (run, rq, dq, ts, m, WDrainPush info :: ws, snd, st, fl)
    (run, rq, dq ++ [info], ts, m, WDrain :: ws, snd, st, fl).
Proof using All.
  intros Hl. worker_move ltac:(by apply worker_drain_pushes with (q := dq ++ [info]) (b := true)).
Qed.

(** [n] frames are moved through, into an undisturbed queue. *)
Lemma reach_drain_many info n rq dq :
  dissects (D := D) frame info → zlen dq + Z.of_nat n ≤ capacity →
  reach (false, replicate n frame ++ rq, dq, ts, m, WDrain :: ws, snd, st, fl)
    (false, rq, dq ++ replicate n info, ts, m, WDrain :: ws, snd, st, fl).
Proof using All.
  intros Hd. revert dq. induction n as [|n IH]; intros dq Hl.
  - rewrite app_nil_r. apply reach_refl.
  - eapply reach_trans; [apply reach_drains|].
    eapply reach_trans; [by apply reach_drain_dissects|].
    eapply reach_trans; [apply reach_drain_pushes; lia|].
    replace (dq ++ replicate (S n) info) with ((dq ++ [info]) ++ replicate n info)
      by by rewrite <-app_assoc.
    apply IH. rewrite length_app. cbn [length]. lia.
Qed.
End worker.

Lemma reach_frames n rq dq ws snd st fl :
  zlen rq + Z.of_nat n ≤ capacity →
  reach (true, rq, dq, zero_ts, MCapture, ws, snd, st, fl)
    (true, rq ++ replicate n frame, dq, zero_ts, MCapture, ws, snd, st, fl).
Proof using All.
  revert rq. induction n as [|n IH]; intros rq Hl.
  - rewrite app_nil_r. apply reach_refl.
  - eapply reach_trans; [apply reach_frame; lia|].
    replace (rq ++ replicate (S n) frame) with ((rq ++ [frame]) ++ replicate n frame)
      by by rewrite <-app_assoc.
    apply IH. rewrite length_app. cbn [length]. lia.
Qed.

(** The sender sees the flag and the empty queue. *)
Lemma reach_sender_done rq ts m ws st fl :
  reach (false, rq, [], ts, m, ws, STest, st, fl) (false, rq, [], ts, m, ws, SDone, st, fl).
Proof using All.
  eapply reach_trans.
  - instantiate (1 := (false, rq, [], ts, m, ws, SDrain, st, fl)).
    reach_step ltac:(eapply @step_sender); [by apply sender_ends|done].
  - reach_step ltac:(eapply @step_sender); [by apply sender_drained with (q := [])|done].
Qed.

Definition others : list worker_pc := replicate 3 WTest.

Lemma reach_held :
  reach (true, [], [], zero_ts, MCapture, replicate num_workers WTest, STest, StatTest, ([], [], [], []))
    (true, [], [], zero_ts, MCapture, WDissect frame :: others, STest, StatTest, ([], [], [], [])).
Proof using All.
  eapply reach_trans; [apply (reach_frames 1); cbn; lia|].
  eapply reach_trans; [apply reach_runs|]. apply reach_pops.
Qed.

(** The signal comes while a worker dissects a frame; the sender is the first
    to see it, and leaves. *)
Lemma reach_sender_first n info :
  dissects (D := D) frame info → Z.of_nat n ≤ capacity →
  reach (true, [], [], zero_ts, MCapture, WDissect frame :: others, STest, StatTest, ([], [], [], []))
    (false, replicate n frame, [info], zero_ts, MCapture, WDrain :: others, SDone, StatTest,
      ([], [], [], [])).
Proof using All.
  intros Hd Hn. eapply reach_trans; [by apply (reach_frames n []); cbn|].
  eapply reach_trans; [apply reach_signal|]. eapply reach_trans; [apply reach_sender_done|].
  eapply reach_trans; [by apply reach_dissects|].
  eapply reach_trans; [apply (reach_pushes _ _ _ _ _ _ _ _ []); cbn; lia|]. apply reach_ends.
Qed.

(** *** A worker that waits for ever *)

Lemma reach_full n info :
  dissects (D := D) frame info → Z.of_nat (S n) = capacity →
  reach (true, [], [], zero_ts, MCapture, WDissect frame :: others, STest, StatTest, ([], [], [], []))
    (false, [], info :: replicate n info, zero_ts, MCapture, WDrainPush info :: others, SDone,
      StatTest, ([], [], [], [])).
Proof using All.
  intros Hd Hn. eapply reach_trans; [apply (reach_sender_first (S n) info); [done|lia]|].
  rewrite (replicate_S_end n frame).
  eapply reach_trans; [apply (reach_drain_many _ _ _ _ _ _ info n [frame] [info]); [done|]|].
  { cbn [length]. lia. }
  eapply reach_trans; [apply reach_drains|]. by apply reach_drain_dissects.
Qed.

(** The sender has left, the queue is full, and worker [i] tries to push [info]. *)
Definition waits (i : nat) (info : PacketInfo) (s : pstate) : Prop :=
  sender s = SDone ∧ zlen (dissected_queue s) = capacity ∧ workers s !! i = Some (WDrainPush info).

Lemma full_push info (q q' : list PacketInfo) b :
  zlen q = capacity → bq_push (BoundedQueue := queues) info q q' b ↔ q' = q ∧ b = false.
Proof using All.
  intros Hq. destruct b; cbn; (split; [intros [? ?]|intros [? ?]]); subst; try done; (lia || by split; [lia|]).
Qed.

Lemma waits_step i info s s' :
  waits i info s → pstep s s' → waits i info s' ∧ dissected_queue s' = dissected_queue s.
Proof using All.
  intros (Hs & Hq & Hw) Hst.
  destruct Hst as [s s' h packet _ _ Hh|s|s _|s n Hn Hd|s n Hn Hl|s Hn _|s Hn _|s _
    |s s' j p p' Hj Hp|s s' p' Hp]; try (by split; [split|]).
  - destruct Hh as (junk & raw & last & q & b & _ & _ & _ & ->). by split; [split|].
  - destruct (worker_step_shared _ _ _ _ Hp) as (_ & _ & _ & Ew & Es & _).
    assert (dissected_queue s' = dissected_queue s ∧
      (∀ info, p = WDrainPush info → p' = WDrainPush info)) as [Eq Hp'].
    { destruct Hp as [| | | | |? ? ? ? Hb| | | | | |? ? ? ? Hb]; try (split; [done|discriminate]).
      all: apply full_push in Hb as [-> ->]; [by split|done]. }
    split; [|done]. unfold waits. cbn. rewrite Ew, Es, Eq. split; [done|]. split; [done|].
    destruct (decide (j = i)) as [->|Hne].
    + rewrite list_lookup_insert_eq by (by eapply lookup_lt_Some).
      f_equal. apply Hp'. congruence.
    + by rewrite list_lookup_insert_ne.
  - destruct (sender_step_shared _ _ _ _ _ _ Hp) as (Hne & _). congruence.
Qed.

Lemma waits_steps i info s s' :
  waits i info s → rtc pstep s s' → waits i info s' ∧ dissected_queue s' = dissected_queue s.
Proof using All.
  intros Hw Hr. revert s' Hr.
  apply (rtc_ind_r (λ s', waits i info s' ∧ dissected_queue s' = dissected_queue s)); [done|].
  intros x y _ Hs [W E]. destruct (waits_step _ _ _ _ W Hs). split; [done|congruence].
Qed.

(** *** After the sender has left *)

Definition left_with (snt : list PacketInfo) (w : list Z) (s : pstate) : Prop :=
  sender s = SDone ∧ sent s = snt ∧ Pipeline.wire s = w.

Lemma left_step snt w s s' : left_with snt w s → pstep s s' → left_with snt w s'.
Proof using All.
  intros (Hs & Hsent & Hw) Hst.
  destruct Hst as [s s' h packet _ _ Hh|s|s _|s n Hn Hd|s n Hn Hl|s Hn _|s Hn _|s _
    |s s' j p p' Hj Hp|s s' p' Hp]; try (by split).
  - destruct Hh as (junk & raw & last & q & b & _ & _ & _ & ->). by split.
  - by destruct Hp; split.
  - destruct (sender_step_shared _ _ _ _ _ _ Hp) as (Hne & _). congruence.
Qed.

Lemma left_steps snt w s s' : left_with snt w s → rtc pstep s s' → left_with snt w s'.
Proof using All. intros Hl Hr. induction Hr as [|x y z Hs _ IH]; [done|]. by eapply IH, left_step. Qed.

(** *** A program that ends with a record in the queue *)

Lemma reach_worker_done i dq ts m ws snd st fl :
  ws !! i = Some WTest →
  reach (false, [], dq, ts, m, ws, snd, st, fl)
    (false, [], dq, ts, m, <[i := WDone]> ws, snd, st, fl).
Proof using All.
  intros Hi. eapply reach_trans.
  - instantiate (1 := (false, [], dq, ts, m, <[i := WDrain]> ws, snd, st, fl)).
    reach_step ltac:(eapply @step_worker with (i := i)); [done|by apply worker_ends|done].
  - rewrite <-(list_insert_insert_eq ws i WDone WDrain).
    reach_step ltac:(eapply @step_worker with (i := i)).
    + apply list_lookup_insert_eq. by eapply lookup_lt_Some.
    + by apply worker_drained with (q := []).
    + done.
Qed.

Lemma reach_join_worker n rq dq ts ws snd st fl :
  ws !! n = Some WDone →
  reach (false, rq, dq, ts, MJoinWorkers n, ws, snd, st, fl)
    (false, rq, dq, ts, MJoinWorkers (S n), ws, snd, st, fl).
Proof using All. intros Hn. by reach_step ltac:(eapply @step_join_worker). Qed.

Lemma reach_exit rq dq ts fl :
  reach (false, rq, dq, ts, MCapture, replicate 4 WDone, SDone, StatTest, fl)
    (false, rq, dq, ts, MExit, replicate 4 WDone, SDone, StatDone, fl).
Proof using All.
  eapply reach_trans.
  { instantiate (1 := (false, rq, dq, ts, MJoinWorkers 0, replicate 4 WDone, SDone, StatTest, fl)).
    by reach_step ltac:(eapply @step_loop_ends). }
  do 4 (eapply reach_trans; [by apply reach_join_worker|]).
  eapply reach_trans.
  { instantiate (1 := (false, rq, dq, ts, MJoinSender, replicate 4 WDone, SDone, StatTest, fl)).
    by reach_step ltac:(eapply @step_joined_workers). }
  eapply reach_trans.
  { instantiate (1 := (false, rq, dq, ts, MJoinStats, replicate 4 WDone, SDone, StatTest, fl)).
    by reach_step ltac:(eapply @step_join_sender). }
  eapply reach_trans.
  { instantiate (1 := (false, rq, dq, ts, MJoinStats, replicate 4 WDone, SDone, StatDone, fl)).
    by reach_step ltac:(eapply @step_stats). }
  by reach_step ltac:(eapply @step_join_stats).
Qed.

Lemma reach_leftover info :
  dissects (D := D) frame info →
  reach (true, [], [], zero_ts, MCapture, WDissect frame :: others, STest, StatTest, ([], [], [], []))
    (false, [], [info], zero_ts, MExit, replicate 4 WDone, SDone, StatDone, ([], [], [], [])).
Proof using All.
  intros Hd. eapply reach_trans; [apply (reach_sender_first 0 info); [done|lia]|].
  eapply reach_trans; [apply reach_drained|].
  eapply reach_trans; [by apply (reach_worker_done 1)|].
  eapply reach_trans; [by apply (reach_worker_done 2)|].
  eapply reach_trans; [by apply (reach_worker_done 3)|]. apply reach_exit.
Qed.

(** C23. The sender's second loop ends at the first moment the queue is empty,
    also when workers still hold frames; after it nothing is sent any more.  So,
    with queues of any capacity whose [push] fails only when they are full and
    whose [pop] only when they are empty, and without any failure of the
    connection: the program can end normally with a dissected record left in the
    queue and never sent; and it can reach a state in which the sender has left,
    the queue is full and a worker tries to push into it.  From every such state,
    whatever happens, the queue stays as it is, each push of that worker fails,
    and [main], which waits for the worker, never returns. *)
Theorem shutdown_strands_records :
  (∀ s s', sender s = SDone → rtc pstep s s' →
    sender s' = SDone ∧ sent s' = sent s ∧ Pipeline.wire s' = Pipeline.wire s) ∧
  (∃ s info, rtc pstep (init [] []) s ∧ main_thread s = MExit ∧ dissected_queue s = [info] ∧
    sent s = [] ∧ failed s = [] ∧ lost s = []) ∧
  (∃ s i info, rtc pstep (init [] []) s ∧ waits i info s) ∧
  (∀ s i info s', rtc pstep (init [] []) s → waits i info s → rtc pstep s s' →
    waits i info s' ∧ dissected_queue s' = dissected_queue s ∧ main_thread s' ≠ MExit ∧
    ∀ q b, bq_push (BoundedQueue := queues) info (dissected_queue s') q b ↔ q = dissected_queue s' ∧ b = false).
Proof using All.
  destruct frame_dissected as [info Hd]. split; [|split; [|split]].
  - intros s s' Hs Hr. by apply (left_steps (sent s) (Pipeline.wire s) s s').
  - destruct (reach_trans _ _ _ reach_held (reach_leftover info Hd) (init [] []) eq_refl)
      as (s & Hr & Hv).
    exists s, info. split; [done|]. unfold view in Hv. by injection Hv as _ _ -> _ -> _ _ _ -> -> -> _.
  - destruct (reach_trans _ _ _ reach_held (reach_full (Z.to_nat (capacity - 1)) info Hd
      ltac:(lia)) (init [] []) eq_refl) as (s & Hr & Hv).
    exists s, 0%nat, info. split; [done|]. unfold view in Hv. injection Hv as _ _ Eq _ _ Ew Es _ _ _ _ _.
    split; [done|]. rewrite Eq, Ew. split; [|done]. cbn [length]. rewrite length_replicate. lia.
  - intros s i inf s' Hr Hw Hr'. destruct (waits_steps _ _ _ _ Hw Hr') as [W E].
    split; [done|]. split; [done|]. split; [|intros q b; apply full_push, W].
    intros Hm. pose proof (reachable_joined hmac secret [] [] s' ltac:(by etransitivity)) as Hj.
    unfold joined in Hj. rewrite Hm in Hj. destruct Hj as (_ & Hall & _), W as (_ & _ & Hi).
    rewrite Forall_lookup in Hall. by apply Hall in Hi.
Qed.
End stranded.

(** ** A run that delivers a record

    The steps above, with the queues of the program and a connection that
    accepts the record in one write. *)

Section delivered.
Context {D : Type} `{DoubleLaws D}.
Context (hmac : list Z → list Z → list Z) (secret : list Z).
Context (hmac_length : ∀ k m, zlen (hmac k m) = HASH_SIZE).
Abbreviation queues := (list_queue 8192).
Abbreviation pstep := (@step D _ (list RawPacket) (list PacketInfo) queues queues hmac secret).
Abbreviation preach := (@reach D _ 8192 hmac secret).

Lemma whole_write info :
  wf_info info →
  ∃ r, send_packet_info hmac true secret info [mkAnswer 1088 0] = Ok r ∧ result r = Sent ∧
    out r = message hmac secret info.
Proof using All.
  intros W. pose proof (length_message hmac hmac_length secret info W) as Hm.
  rewrite send_packet_info_loop by done. eexists. split; [done|].
  change TOTAL_MSG_SIZE with 1088 in Hm. rewrite Hm. cbn [send_loop ssl_ret].
  change (0 <? 1088) with true. change (1088 <=? 0) with false. cbn iota.
  change (0 + 1088 <? 1088) with false. cbn [result out].
  split; [done|]. rewrite app_nil_r. change (Z.to_nat 0) with 0%nat. rewrite drop_0, take_ge; [done|lia].
Qed.

Lemma reach_sent info :
  dissects (D := D) frame info →
  preach
    (true, [], [], zero_ts, MCapture, WDissect frame :: others, STest, StatTest, ([], [], [], []))
    (true, [], [], zero_ts, MCapture, WTest :: others, STest, StatTest,
      ([], [], [info], message hmac secret info)).
Proof using All.
  intros Hd. assert (wf_info info) as W.
  { eapply wf_dissects; [|done]. split; by_decide. }
  assert (1 ≤ 8192) as Hcap by done.
  eapply reach_trans; [done|by apply reach_dissects|].
  eapply reach_trans; [done|by apply reach_pushes|]. cbn [app].
  eapply reach_trans; [done| |eapply reach_trans; [done| |]].
  - instantiate (1 := (true, [], [info], zero_ts, MCapture, WTest :: others, SPop, StatTest,
      ([], [], [], []))).
    intros s Hv. destruct s. unfold view in Hv. cbn in Hv. simplify_eq.
    eexists. split; [apply rtc_once; eapply @step_sender; by apply sender_runs|done].
  - instantiate (1 := (true, [], [], zero_ts, MCapture, WTest :: others, SSend info, StatTest,
      ([], [], [], []))).
    intros s Hv. destruct s. unfold view in Hv. cbn in Hv. simplify_eq.
    eexists. split; [apply rtc_once; eapply @step_sender; by apply sender_pops with (q := [])|done].
  - intros s Hv. destruct s. unfold view in Hv. cbn in Hv. simplify_eq.
    destruct (whole_write info W) as (r & Hr & Hres & Hout).
    eexists. split.
    + apply rtc_once. eapply @step_sender. apply sender_sends.
      exists [mkAnswer 1088 0], r. split_and!; [by vm_compute|done|by rewrite Hres|done].
    + rewrite Hres. cbn. by rewrite Hout.
Qed.
End delivered.

(** A frame without a network layer has no addresses. *)
Lemma llc_addresses `{DoubleLaws D} raw e :
  wf_raw raw → is_u 12 (eth_vlan_id e) → eth_header e = 0 → 0 < caplen (pkthdr raw) →
  parse_ethernet_layer (data raw) (caplen (pkthdr raw)) = Ok (Some e) → eth_ether_type e = 0 →
  dissect_llc (data raw) (caplen (pkthdr raw)) e (header_of raw e) = Ok (header_of raw e) →
  ∃ info, dissects (D := D) raw info ∧
    src_ip info = zeros 16 ∧ dst_ip info = zeros 16 ∧ is_ipv6 info = 0.
Proof.
  intros Hw Hv He0 Hlen He Ht Hd. pose proof (fresh_header_of raw e Hw Hv) as [Hf _ _ _].
  destruct (wf_data _ Hw) as [Hl Hb].
  pose proof (capture_frame_spec (data raw) Hb Hl (caplen (pkthdr raw)) (header_of raw e) Hlen Hf) as Hc.
  destruct (ensures_Ok _ _ Hc) as (j & Ej & _ & _ & _ & _ & Hj). exists j. split.
  - exists zero_info. split; [apply wf_zero_info|]. unfold dissect_raw_packet. cbv zeta.
    rewrite He, bind_Ok, set_header_eq, bind_Ok by done. rewrite Ht.
    change ((0 =? 0x0800) || (0 =? 0x86DD)) with false. change (0 =? 0x0806) with false.
    change (0 <=? 1500) with true. cbv iota. by rewrite Hd, bind_Ok.
  - rewrite Hj. by split_and!.
Qed.

Lemma frame_addresses `{DoubleLaws D} :
  ∃ info, dissects (D := D) frame info ∧
    src_ip info = zeros 16 ∧ dst_ip info = zeros 16 ∧ is_ipv6 info = 0.
Proof.
  apply (llc_addresses frame (mkEthernetInfo 0 14 0 0)); [split; by_decide|by_decide|done..].
Qed.

Lemma sample_run_delivered :
  ∃ s info, rtc (step (D := Z) (H0 := list_queue 8192) (H1 := list_queue 8192) sample_hmac [])
    (init [] []) s ∧ failed s = [] ∧ sent s = [info] ∧
    Pipeline.wire s = message sample_hmac [] info ∧ wf_info info ∧
    src_ip info = zeros 16 ∧ dst_ip info = zeros 16 ∧ is_ipv6 info = 0.
Proof.
  destruct (frame_addresses (D := Z)) as (info & Hd & Ha).
  assert (1 ≤ 8192) as Hcap by done.
  pose proof (reach_trans 8192 Hcap sample_hmac [] _ _ _ (reach_held 8192 Hcap sample_hmac [])
    (reach_sent sample_hmac [] sample_hmac_length info Hd)) as Hreach.
  destruct (Hreach (init [] []) eq_refl) as (s & Hr & Hv).
  exists s, info. split; [done|]. unfold view in Hv. injection Hv as _ _ _ _ _ _ _ _ Ef _ Es Ew.
  split_and!; try done; try (by apply Ha). eapply wf_dissects; [|done]. split; by_decide.
Qed.

Lemma sample_delivery :
  ∃ s info, rtc (step (D := Z) (H0 := list_queue 8192) (H1 := list_queue 8192) sample_hmac [])
    (init [] []) s ∧ failed s = [] ∧ sent s = [info] ∧
    Pipeline.wire s = message sample_hmac [] info ∧ wf_info info.
Proof.
  destruct sample_run_delivered as (s & info & Hr & Hf & Hs & Hw & Hwf & _). by exists s, info.
Qed.

(** *** Witnesses *)

Lemma pipeline_conservation_witness :
  ∃ s info rq dq, sent s = [info] ∧
    accounted (D := Z) (H0 := list_queue 8192) (H1 := list_queue 8192) sample_hmac [] s rq dq.
Proof.
  destruct sample_delivery as (s & info & Hr & _ & Hs & _).
  destruct (pipeline_conservation (H1 := list_queue 8192) (H2 := list_queue 8192)
    sample_hmac [] sample_hmac_length [] [] s eq_refl eq_refl Hr) as (rq & dq & W).
  by exists s, info, rq, dq.
Defined.

Lemma pipeline_delivery_witness :
  ∃ s info, sent s = [info] ∧
    handle_cpp_connection sample_hmac [] [] [message sample_hmac [] info] =
      ([dashboard info], Closed) ∧
    ∃ ds, ds.*2 = [info] ∧ ds.*1 ⊆+ handled (QR := list RawPacket) (QI := list PacketInfo) s.
Proof.
  destruct sample_delivery as (s & info & Hr & Hf & Hs & Hw & Hwf).
  exists s, info. split; [done|].
  pose proof (length_message sample_hmac sample_hmac_length [] info Hwf) as Hl.
  change TOTAL_MSG_SIZE with 1088 in Hl.
  destruct (pipeline_delivery (H1 := list_queue 8192) (H2 := list_queue 8192)
    sample_hmac [] sample_hmac_length [] [] s [message sample_hmac [] info]
    eq_refl eq_refl Hr Hf) as (H1 & ds & H2 & H3 & _).
  - cbn [concat]. by rewrite app_nil_r.
  - constructor; [|constructor]. rewrite Hl. by split.
  - rewrite Hs in *. eauto.
Defined.

(** Not even the signal lets [main] return. *)
Lemma shutdown_strands_records_witness :
  ∃ s i info, rtc (step (D := Z) (H0 := list_queue 8192) (H1 := list_queue 8192) sample_hmac [])
    (init [] []) s ∧ zlen (dissected_queue s) = 8192 ∧
    workers (signal_handler s) !! i = Some (WDrainPush info) ∧ main_thread (signal_handler s) ≠ MExit.
Proof.
  assert (1 ≤ 8192) as Hcap by done.
  destruct (shutdown_strands_records (D := Z) 8192 Hcap sample_hmac []) as (_ & _ & (s & i & info & Hr & Hw) & Hall).
  destruct (Hall s i info (signal_handler s) Hr Hw) as ((_ & _ & Hi) & _ & Hm & _).
  { apply rtc_once, step_signal. }
  exists s, i, info. split_and!; [exact Hr|apply Hw|exact Hi|exact Hm].
Defined.

(** A run in which [main] has ended. *)
Lemma sample_exit :
  ∃ s, rtc (step (D := Z) (H0 := list_queue 8192) (H1 := list_queue 8192) sample_hmac [])
    (init [] []) s ∧ main_thread s = MExit.
Proof.
  destruct (frame_dissected (D := Z)) as [info Hd]. assert (1 ≤ 8192) as Hcap by done.
  pose proof (reach_trans 8192 Hcap sample_hmac [] _ _ _ (reach_held 8192 Hcap sample_hmac [])
    (reach_leftover 8192 Hcap sample_hmac [] info Hd)) as Hreach.
  destruct (Hreach (init [] []) eq_refl) as (s & Hr & Hv). exists s. split; [done|].
  unfold view in Hv. by injection Hv.
Qed.

Lemma shutdown_order_witness :
  ∃ s : @state (list RawPacket) (list PacketInfo),
    main_thread s = MExit ∧ keep_running s = false ∧ sender s = SDone.
Proof.
  destruct sample_exit as (s & Hr & Hm). exists s. split; [done|].
  destruct (shutdown_order (H1 := list_queue 8192) (H2 := list_queue 8192)
    sample_hmac [] sample_hmac_length [] [] s eq_refl eq_refl Hr Hm) as (Hk & _ & Hs & _).
  done.
Defined.
