(* ===== verification/MainProc.v ===== *)
(** * The process: [main] and [monitor_pcap_stats]

    The choice of the network interface, the set-up, the connection to the
    packet service with its retries and the end of [main] in
    [cpp/packet_capture.cpp] (the Unix build), as a function of what the
    libraries and the kernel answer; and the counters that the statistics
    thread prints. *)

From stdpp Require Import strings sets.
From S2P Require Import Prelude CMemory.

(** ** The network interface *)

(** [pcap_if_t], as [pcap_findalldevs] lists them. *)
Record pcap_if := mkIf { if_name : list Z; if_flags : Z }.

Definition PCAP_IF_LOOPBACK : Z := 1.

(** The loop over the devices with [argv[1]]: [strcmp(iter->name, target) == 0]. *)
Fixpoint find_device (target : list Z) (devs : list pcap_if) : option pcap_if :=
  match devs with
  | [] => None
  | d :: devs => if bool_decide (if_name d = target) then Some d else find_device target devs
  end.

(** The loop without an argument. *)
Fixpoint first_non_loopback (devs : list pcap_if) : option pcap_if :=
  match devs with
  | [] => None
  | d :: devs =>
      if Z.land (if_flags d) PCAP_IF_LOOPBACK =? 0 then Some d else first_non_loopback devs
  end.

(** [args] are the arguments behind the program's name; [inr] is the exit
    code. *)
Definition select_device (args : list (list Z)) (devs : list pcap_if) : pcap_if + Z :=
  match args with
  | target :: _ =>
      match find_device target devs with Some d => inl d | None => inr 2 end
  | [] =>
      match first_non_loopback devs with
      | Some d => inl d
      | None => match devs with d :: _ => inl d | [] => inr 2 end
      end
  end.

(** ** Set-up *)

(** The answers of the environment before the connection. *)
Record environment := mkEnv {
    euid : Z;
    env_secret : option (list Z);      (** [getenv("PACSNI_SHARED_SECRET")] *)
    env_host : option (list Z);        (** [getenv("RUST_SERVICE_HOST")] *)
    ssl_library_init : Z;
    tls_method : bool;                 (** a method was returned *)
    ssl_ctx_new : bool;
    set_min_version : Z;
    set_max_version : Z;
    findalldevs : Z;
    alldevs : list pcap_if;
    open_live : bool;
    pcap_compile : Z;
    pcap_setfilter : Z
  }.

Definition default_secret : list Z := str "pacsni_secure_shared_secret_123".
Definition shared_secret (e : environment) : list Z := default default_secret (env_secret e).
Definition dest_ip (e : environment) : list Z := default (str "127.0.0.1") (env_host e).

(** What the process holds: three objects and the list are owned by
    [std::unique_ptr]s, whose deleters free them. *)
Inductive resource := SslCtx | DevList | PcapHandle | Ssl.

#[global] Instance resource_eq_dec : EqDecision resource.
Proof. solve_decision. Defined.

(** The calls of [main] that the theorems are about.  [SslShutdown] has the
    descriptor that [SSL_set_fd] gave to the object, if it has one. *)
Inductive event :=
  | New (r : resource)
  | Free (r : resource)
  | SslShutdown (fd : option Z)
  | Socket (fd : Z)       (** [socket] returned the descriptor [fd] *)
  | Close (fd : Z)
  | Connected (fd : Z)    (** [connect] succeeded *)
  | Handshake (fd : Z)    (** [SSL_connect] succeeded on [fd] *)
  | Sleep (seconds : Z)
  | Start (fd : Z).       (** the threads are started, the capture runs *)

(** [PcapIfDeleter] does nothing for the null pointer of an empty list. *)
Definition new_devs (e : environment) : list event :=
  match alldevs e with [] => [] | _ => [New DevList] end.
Definition free_devs (e : environment) : list event :=
  match alldevs e with [] => [] | _ => [Free DevList] end.

(** [main] up to the connection loop: its calls, and the device it listens on
    or its exit code.  A return destroys what is in scope, the last first. *)
Definition set_up (args : list (list Z)) (e : environment) : list event * (pcap_if + Z) :=
  if negb (euid e =? 0) then ([], inr 1)
  else if negb (ssl_library_init e =? 1) then ([], inr 1)
  else if negb (tls_method e) then ([], inr 1)
  else if negb (ssl_ctx_new e) then ([], inr 1)
  else if negb (set_min_version e =? 1) then ([New SslCtx; Free SslCtx], inr 1)
  else if negb (set_max_version e =? 1) then ([New SslCtx; Free SslCtx], inr 1)
  else if findalldevs e =? -1 then ([New SslCtx; Free SslCtx], inr 2)
  else
    let scope := New SslCtx :: new_devs e in
    let leave := free_devs e ++ [Free SslCtx] in
    match select_device args (alldevs e) with
    | inr code => (scope ++ leave, inr code)
    | inl d =>
        if negb (open_live e) then (scope ++ leave, inr 2)
        else
          let scope := scope ++ [New PcapHandle] in
          let leave := Free PcapHandle :: leave in
          if (1 <? zlen args) && (pcap_compile e =? -1) then (scope ++ leave, inr 2)
          else if (1 <? zlen args) && (pcap_setfilter e =? -1) then (scope ++ leave, inr 2)
          else (scope, inl d)
    end.

(** ** The connection *)

(** What one round of [while (keep_running)] meets. *)
Record attempt := mkAttempt {
    a_keep_running : bool;
    a_socket : Z;
    a_inet_pton : Z;
    a_connect : Z;
    a_ssl_new : bool;
    a_set_fd : Z;
    a_ssl_connect : Z
  }.

(** The variable [ssl]: null, or an object with the descriptor that
    [SSL_set_fd] gave to it. *)
Inductive ssl_object := NoSsl | SslObject (fd : option Z).

(** [SslDeleter] *)
Definition destroy (ssl : ssl_object) : list event :=
  match ssl with NoSsl => [] | SslObject fd => [SslShutdown fd; Free Ssl] end.

Inductive connection :=
  | Left (sockfd : Z) (ssl : ssl_object)    (** behind the loop *)
  | Returned (code : Z) (ssl : ssl_object)  (** [return 1] inside the loop *)
  | Trying (sockfd : Z) (ssl : ssl_object). (** the given rounds are over *)

(** [if (sockfd != -1) close(sockfd)] *)
Definition close_if_open (sockfd : Z) : list event :=
  if sockfd =? -1 then [] else [Close sockfd].

(** The rounds of the loop.  [ssl.reset(SSL_new(..))] makes the new object
    before it destroys the old one. *)
Fixpoint connect_loop (rounds : list attempt) (sockfd : Z) (ssl : ssl_object)
    : list event * connection :=
  match rounds with
  | [] => ([], Trying sockfd ssl)
  | a :: rounds =>
      if negb (a_keep_running a) then ([], Left sockfd ssl)
      else
        let closed := close_if_open sockfd in
        let again tr sockfd ssl :=
          let '(tr', c) := connect_loop rounds sockfd ssl in (closed ++ tr ++ tr', c) in
        let fd := a_socket a in
        if fd <? 0 then again [Sleep 2] fd ssl
        else if a_inet_pton a <=? 0 then (closed ++ [Socket fd; Close fd], Returned 1 ssl)
        else if negb (a_connect a =? 0) then again [Socket fd; Sleep 2] fd ssl
        else if negb (a_ssl_new a) then again ([Socket fd; Connected fd] ++ destroy ssl) fd NoSsl
        else
          let made := [Socket fd; Connected fd; New Ssl] ++ destroy ssl in
          if negb (a_set_fd a =? 1) then again made fd (SslObject None)
          else if a_ssl_connect a =? 1
          then (closed ++ made ++ [Handshake fd], Left fd (SslObject (Some fd)))
          else again (made ++ destroy (SslObject (Some fd)) ++ [Sleep 2]) fd NoSsl
  end.

(** [main]: the calls it makes and its exit code, if it returns after the
    given rounds; [keep] is [keep_running] behind the loop.  At a return the
    variables are destroyed in the reverse order of their declarations:
    [ssl], [handle], [alldevs], [ssl_ctx].  The compiled filter is not among
    the resources, and the joins of the threads are in the file [Shutdown]. *)
Definition main (args : list (list Z)) (e : environment) (rounds : list attempt) (keep : bool)
    : list event * option Z :=
  match set_up args e with
  | (tr0, inr code) => (tr0, Some code)
  | (tr0, inl d) =>
      let leave ssl := destroy ssl ++ Free PcapHandle :: free_devs e ++ [Free SslCtx] in
      match connect_loop rounds (-1) NoSsl with
      | (tr, Trying _ _) => (tr0 ++ tr, None)
      | (tr, Returned code ssl) => (tr0 ++ tr ++ leave ssl, Some code)
      | (tr, Left sockfd ssl) =>
          let run := match ssl with NoSsl => false | SslObject _ => keep end in
          (tr0 ++ tr ++ (if run then [Start sockfd] else []) ++ close_if_open sockfd ++ leave ssl,
           Some 0)
      end
  end.

(** ** [monitor_pcap_stats] *)

(** [last_recv], [last_drop] *)
Definition counters : Type := Z * Z.

(** One reading: the line that is printed, if any. *)
Definition report (last ps : counters) : option (Z * Z) :=
  let diff_recv := u32 (ps.1 - last.1) in
  let diff_drop := u32 (ps.2 - last.2) in
  if (0 <? diff_recv) || (0 <? diff_drop) then Some (diff_recv, diff_drop) else None.

(** The rounds of the loop; [None] is a failed [pcap_stats]. *)
Fixpoint monitor_pcap_stats (last : counters) (readings : list (option counters))
    : list (Z * Z) :=
  match readings with
  | [] => []
  | None :: readings => monitor_pcap_stats last readings
  | Some ps :: readings =>
      match report last ps with Some r => [r] | None => [] end ++ monitor_pcap_stats ps readings
  end.

(** ** Properties *)

(** [d] is the first device with property [P]. *)
Definition first_with (P : pcap_if → Prop) (d : pcap_if) (devs : list pcap_if) : Prop :=
  ∃ l1 l2, devs = l1 ++ d :: l2 ∧ P d ∧ Forall (λ x, ¬ P x) l1.

Lemma first_with_cons P x d devs : first_with P d devs → ¬ P x → first_with P d (x :: devs).
Proof. intros (l1 & l2 & -> & Hd & Hl) Hx. exists (x :: l1), l2. split; [done|]. by split; [|constructor]. Qed.

Lemma find_device_spec target devs :
  match find_device target devs with
  | Some d => first_with (λ x, if_name x = target) d devs
  | None => Forall (λ x, if_name x ≠ target) devs
  end.
Proof.
  induction devs as [|x devs IH]; simpl; [done|]. case_bool_decide as E.
  - exists [], devs. by split_and!.
  - destruct (find_device target devs); [by apply first_with_cons|by constructor].
Qed.

Definition loopback (d : pcap_if) : Prop := Z.land (if_flags d) PCAP_IF_LOOPBACK ≠ 0.

Lemma first_non_loopback_spec devs :
  match first_non_loopback devs with
  | Some d => first_with (λ x, ¬ loopback x) d devs
  | None => Forall loopback devs
  end.
Proof.
  induction devs as [|x devs IH]; simpl; [done|].
  destruct (Z.eqb_spec (Z.land (if_flags x) PCAP_IF_LOOPBACK) 0) as [E|E].
  - exists [], devs. split_and!; [done| |done]. by intros H.
  - destruct (first_non_loopback devs); [|by constructor].
    apply first_with_cons; [done|]. intros H. by apply H.
Qed.

(** The interface: with an argument, the first device of that name, and
    exit code 2 if there is none; without, the first device that is not a
    loopback device, the first of all if there are only those, and exit code
    2 if there is no device at all. *)
Theorem select_device_correct args devs :
  match args, select_device args devs with
  | target :: _, inl d => first_with (λ x, if_name x = target) d devs
  | target :: _, inr code => code = 2 ∧ Forall (λ x, if_name x ≠ target) devs
  | [], inl d =>
      first_with (λ x, ¬ loopback x) d devs ∨ (Forall loopback devs ∧ head devs = Some d)
  | [], inr code => code = 2 ∧ devs = []
  end.
Proof.
  unfold select_device. destruct args as [|target args].
  - pose proof (first_non_loopback_spec devs) as H. destruct (first_non_loopback devs); [by left|].
    destruct devs; [done|by right].
  - pose proof (find_device_spec target devs) as H. by destruct (find_device target devs).
Qed.

(** *** Descriptors and objects

    A socket is open at most once at a time, it is used and closed while it
    is open, and the capture starts behind the handshake on it. *)
Inductive socket_state := NoSocket | Plain (fd : Z) | Secured (fd : Z).

#[global] Instance socket_state_eq_dec : EqDecision socket_state.
Proof. solve_decision. Defined.

(** What one call makes of the state; [None] is a call out of order. *)
Definition use_socket (st : socket_state) (ev : event) : option socket_state :=
  match ev with
  | Socket fd => if bool_decide (st = NoSocket) then Some (Plain fd) else None
  | Close fd => if bool_decide (st = Plain fd ∨ st = Secured fd) then Some NoSocket else None
  | Connected fd => if bool_decide (st = Plain fd) then Some st else None
  | Handshake fd => if bool_decide (st = Plain fd) then Some (Secured fd) else None
  | Start fd => if bool_decide (st = Secured fd) then Some st else None
  | SslShutdown (Some fd) =>
      if bool_decide (st = Plain fd ∨ st = Secured fd) then Some st else None
  | SslShutdown None | Sleep _ | New _ | Free _ => Some st
  end.

Definition use_sockets (st : socket_state) (tr : list event) : option socket_state :=
  foldl (λ o ev, o ≫= λ st, use_socket st ev) (Some st) tr.

(** How many objects of kind [r] are alive; [None] is a second release. *)
Definition use_resource (r : resource) (n : nat) (ev : event) : option nat :=
  match ev with
  | New r' => Some (if bool_decide (r' = r) then S n else n)
  | Free r' => if bool_decide (r' = r) then match n with O => None | S n => Some n end else Some n
  | _ => Some n
  end.

Definition use_resources (r : resource) (n : nat) (tr : list event) : option nat :=
  foldl (λ o ev, o ≫= λ n, use_resource r n ev) (Some n) tr.

Lemma foldl_bind_app {A B} (f : A → B → option A) a l l' :
  foldl (λ o b, o ≫= λ a, f a b) (Some a) (l ++ l') =
  foldl (λ o b, o ≫= λ a, f a b) (Some a) l ≫= λ a,
    foldl (λ o b, o ≫= λ a, f a b) (Some a) l'.
Proof.
  rewrite foldl_app. destruct (foldl _ (Some a) l); [done|]. cbn. by induction l'.
Qed.

(** The calls that are neither a handshake nor the start of the capture. *)
Definition quiet (ev : event) : Prop :=
  match ev with Handshake _ | Start _ => False | _ => True end.

(** The descriptor in the variable [sockfd]. *)
Definition held (sockfd : Z) : socket_state := if sockfd =? -1 then NoSocket else Plain sockfd.

(** No object, or one without a descriptor. *)
Definition detached (ssl : ssl_object) : Prop := ssl = NoSsl ∨ ssl = SslObject None.

(** Evaluates the calls of a list that is given by its elements. *)
Ltac calls :=
  unfold use_sockets, use_resources, use_socket, use_resource; cbn;
  repeat (case_bool_decide; cbn; try (naive_solver lia)).

Lemma held_open fd : 0 ≤ fd → held fd = Plain fd.
Proof. unfold held. destruct (Z.eqb_spec fd (-1)); [lia|done]. Qed.

Lemma use_close sockfd tr :
  use_sockets (held sockfd) (close_if_open sockfd ++ tr) = use_sockets NoSocket tr.
Proof. unfold held, close_if_open. destruct (sockfd =? -1); [done|]. unfold use_sockets. calls. Qed.

Lemma close_quiet sockfd : Forall quiet (close_if_open sockfd).
Proof. unfold close_if_open. case_test; repeat constructor. Qed.

Lemma destroy_quiet ssl : Forall quiet (destroy ssl).
Proof. destruct ssl; repeat constructor. Qed.

Lemma destroy_sockets st ssl tr :
  detached ssl → use_sockets st (destroy ssl ++ tr) = use_sockets st tr.
Proof. by intros [-> | ->]. Qed.

(** What [socket] returns: a descriptor or -1. *)
Definition sockets_ok (rounds : list attempt) : Prop := Forall (λ a, -1 ≤ a_socket a) rounds.

(** The loop is left with the calls in order: without a session, or right
    behind the handshake, which gives the descriptor to the object. *)
Definition looped (rounds : list attempt) (sockfd : Z) (tr : list event) (c : connection) : Prop :=
  match c with
  | Trying fd _ => use_sockets (held sockfd) tr = Some (held fd) ∧ Forall quiet tr
  | Returned _ ssl =>
      use_sockets (held sockfd) tr = Some NoSocket ∧ Forall quiet tr ∧ detached ssl
  | Left fd ssl =>
      (Exists (λ a, a_keep_running a = false) rounds ∧ detached ssl ∧
       use_sockets (held sockfd) tr = Some (held fd) ∧ Forall quiet tr) ∨
      (ssl = SslObject (Some fd) ∧ 0 ≤ fd ∧
       ∃ tr', tr = tr' ++ [Handshake fd] ∧ Forall quiet tr' ∧
         use_sockets (held sockfd) tr = Some (Secured fd))
  end.

Lemma looped_again a rounds sockfd fd tr0 tr c :
  use_sockets NoSocket tr0 = Some (held fd) → Forall quiet tr0 →
  looped rounds fd tr c → looped (a :: rounds) sockfd (close_if_open sockfd ++ tr0 ++ tr) c.
Proof.
  intros Hu Hq H. unfold looped in *.
  assert (use_sockets (held sockfd) (close_if_open sockfd ++ tr0 ++ tr) =
    use_sockets (held fd) tr) as ->.
  { rewrite use_close. unfold use_sockets in *. by rewrite foldl_bind_app, Hu. }
  assert (∀ tr, Forall quiet tr → Forall quiet (close_if_open sockfd ++ tr0 ++ tr)) as Hall.
  { intros. rewrite !Forall_app. by split_and!; [apply close_quiet| |]. }
  destruct c as [fd' ssl|code ssl|fd' ssl]; [destruct H as [H|(-> & ? & tr' & -> & ? & ?)]|..].
  - left. destruct H as (? & ? & ? & ?). split_and!; [by right|done|done|by apply Hall].
  - right. split_and!; [done|done|]. exists (close_if_open sockfd ++ tr0 ++ tr').
    rewrite <-!app_assoc. split_and!; [done|by apply Hall|done].
  - destruct H as (? & ? & ?). split_and!; [done|by apply Hall|done].
  - destruct H as (? & ?). split_and!; [done|by apply Hall].
Qed.

Lemma connect_loop_looped rounds sockfd ssl :
  sockets_ok rounds → detached ssl →
  let '(tr, c) := connect_loop rounds sockfd ssl in looped rounds sockfd tr c.
Proof.
  intros H. revert sockfd ssl. induction H as [|a rounds Ha _ IH]; intros sockfd ssl Hd.
  { split; [done|constructor]. }
  cbn [connect_loop]. destruct (a_keep_running a) eqn:Ek; cbn [negb].
  2:{ left. split_and!; [by left|done|done|constructor]. }
  assert (∀ tr0 fd ssl', use_sockets NoSocket tr0 = Some (held fd) → Forall quiet tr0 →
    detached ssl' →
    let '(tr, c) := (let '(tr', c) := connect_loop rounds fd ssl' in
      (close_if_open sockfd ++ tr0 ++ tr', c)) in looped (a :: rounds) sockfd tr c) as Again.
  { intros tr0 fd ssl' Hu Hq Hd'. specialize (IH fd ssl' Hd').
    destruct (connect_loop rounds fd ssl') as [tr' c]. by apply (looped_again _ _ _ fd). }
  destruct (Z.ltb_spec (a_socket a) 0) as [Hn|Hp].
  { apply Again; [|repeat constructor|done]. by replace (a_socket a) with (-1) by lia. }
  pose proof (held_open _ Hp) as Ho. set (fd := a_socket a) in *.
  case_test.
  { split_and!; [|apply Forall_app; split; [apply close_quiet|repeat constructor]|done].
    rewrite use_close. calls. }
  case_test; [apply Again; [rewrite Ho; calls|repeat constructor|done]|].
  case_test; [apply Again|].
  { destruct Hd as [-> | ->]; rewrite Ho; calls. }
  { apply Forall_app; split; [repeat constructor|apply destroy_quiet]. }
  { by left. }
  case_test; [apply Again|].
  { destruct Hd as [-> | ->]; rewrite Ho; calls. }
  { apply Forall_app; split; [repeat constructor|apply destroy_quiet]. }
  { by right. }
  case_test.
  - right. split_and!; [done|done|]. rewrite !app_assoc. eexists. split; [done|].
    rewrite !Forall_app. split_and!; [apply close_quiet|repeat constructor|apply destroy_quiet|].
    rewrite <-!app_assoc, use_close. destruct Hd as [-> | ->]; calls.
  - apply Again; [destruct Hd as [-> | ->]; rewrite Ho; calls| |by left].
    destruct Hd as [-> | ->]; repeat constructor.
Qed.

(** The objects of kind [r] that the variable [ssl] owns. *)
Definition owned (r : resource) (ssl : ssl_object) : nat :=
  match r, ssl with Ssl, SslObject _ => 1 | _, _ => 0 end.

Definition ssl_of (c : connection) : ssl_object :=
  match c with Left _ ssl | Returned _ ssl | Trying _ ssl => ssl end.

Lemma destroy_resources r ssl n tr :
  use_resources r (owned r ssl + n) (destroy ssl ++ tr) = use_resources r n tr.
Proof. by destruct r, ssl. Qed.

Lemma connect_loop_resources r n rounds sockfd ssl :
  let '(tr, c) := connect_loop rounds sockfd ssl in
  use_resources r (owned r ssl + n) tr = Some (owned r (ssl_of c) + n)%nat.
Proof.
  revert sockfd ssl. induction rounds as [|a rounds IH]; intros sockfd ssl; [done|].
  cbn [connect_loop]. destruct (a_keep_running a); [|done]. cbn [negb].
  assert (∀ m tr, use_resources r m (close_if_open sockfd ++ tr) = use_resources r m tr) as Hc.
  { intros. unfold close_if_open. by case_test. }
  assert (∀ tr0 fd ssl',
    use_resources r (owned r ssl + n) tr0 = Some (owned r ssl' + n)%nat →
    let '(tr, c) := (let '(tr', c) := connect_loop rounds fd ssl' in
      (close_if_open sockfd ++ tr0 ++ tr', c)) in
    use_resources r (owned r ssl + n) tr = Some (owned r (ssl_of c) + n)%nat) as Again.
  { intros tr0 fd ssl' Hu. specialize (IH fd ssl').
    destruct (connect_loop rounds fd ssl') as [tr' c]. rewrite Hc.
    unfold use_resources in *. by rewrite foldl_bind_app, Hu. }
  repeat case_test; try apply Again; rewrite ?Hc; by destruct r, ssl.
Qed.

(** What [main] frees behind [ssl]. *)
Definition frees (e : environment) : list event :=
  Free PcapHandle :: free_devs e ++ [Free SslCtx].

Lemma set_up_sockets args e st tr :
  use_sockets st ((set_up args e).1 ++ tr) = use_sockets st tr.
Proof.
  unfold set_up, new_devs, free_devs.
  repeat case_test; try done; destruct (alldevs e); repeat (case_match || case_test); done.
Qed.

(** What [main] owns at the loop, [ssl] apart. *)
Definition in_scope (e : environment) (r : resource) : nat :=
  match r with
  | SslCtx | PcapHandle => 1
  | DevList => match alldevs e with [] => 0 | _ => 1 end
  | Ssl => 0
  end.

Lemma set_up_resources args e r :
  use_resources r 0 (set_up args e).1 =
    Some (match (set_up args e).2 with inl _ => in_scope e r | inr _ => 0 end)%nat.
Proof.
  unfold set_up, new_devs, free_devs, in_scope.
  repeat case_test; try (by destruct r);
    destruct (select_device args (alldevs e)), (alldevs e); repeat case_test; by destruct r.
Qed.

Lemma frees_resources e r : use_resources r (in_scope e r) (frees e) = Some 0%nat.
Proof. unfold frees, free_devs, in_scope. by destruct r, (alldevs e). Qed.

Lemma frees_sockets e st : use_sockets st (frees e) = Some st.
Proof. unfold frees, free_devs. by destruct (alldevs e). Qed.

(** The calls of a run that returned: without a session all in order, and
    every socket closed; with one, all in order and every socket closed up to
    the destruction of [ssl], which is out of order. *)
Definition sockets_at_return (e : environment) (tr : list event) : Prop :=
  (Forall quiet tr ∧ use_sockets NoSocket tr = Some NoSocket) ∨
  (∃ fd used, Handshake fd ∈ used ∧ use_sockets NoSocket used = Some NoSocket ∧
     tr = used ++ SslShutdown (Some fd) :: Free Ssl :: frees e ∧
     use_sockets NoSocket tr = None).

Lemma set_up_quiet args e : Forall quiet (set_up args e).1.
Proof.
  unfold set_up, new_devs, free_devs.
  repeat case_test; try (by repeat constructor);
    destruct (select_device args (alldevs e)), (alldevs e); repeat case_test; by repeat constructor.
Qed.

Lemma frees_quiet e : Forall quiet (frees e).
Proof. unfold frees, free_devs. destruct (alldevs e); repeat constructor. Qed.

Lemma main_resources args e rounds keep r :
  let '(tr, code) := main args e rounds keep in
  ∃ n, use_resources r 0 tr = Some n ∧ (is_Some code → n = 0%nat).
Proof.
  unfold main. pose proof (set_up_resources args e r) as Hs.
  destruct (set_up args e) as [tr0 [d|code]]; cbn [fst snd] in Hs; [|by eexists].
  pose proof (connect_loop_resources r (in_scope e r) rounds (-1) NoSsl) as Hl.
  destruct (connect_loop rounds (-1) NoSsl) as [tr c].
  assert (use_resources r 0 (tr0 ++ tr) = Some (owned r (ssl_of c) + in_scope e r)%nat) as Hu.
  { unfold use_resources in *. rewrite foldl_bind_app, Hs. by destruct r. }
  assert (∀ tr' ssl, use_resources r (owned r ssl + in_scope e r)
    (tr' ++ destroy ssl ++ frees e) = use_resources r (owned r ssl + in_scope e r)
    (destroy ssl ++ frees e) → ssl = ssl_of c →
    use_resources r 0 (tr0 ++ tr ++ tr' ++ destroy ssl ++ frees e) = Some 0%nat) as Hend.
  { intros tr' ssl Htr ->. rewrite app_assoc. unfold use_resources in *.
    rewrite foldl_bind_app, Hu. cbn [mbind option_bind]. rewrite Htr.
    fold (use_resources r (owned r (ssl_of c) + in_scope e r)
      (destroy (ssl_of c) ++ frees e)).
    by rewrite destroy_resources, frees_resources. }
  destruct c as [sockfd ssl|code ssl|sockfd ssl].
  - exists 0%nat. split; [|done]. fold (frees e). rewrite (app_assoc _ (close_if_open _)).
    apply Hend; [|done]. unfold close_if_open. repeat case_match; done.
  - exists 0%nat. split; [|done]. by apply (Hend []).
  - by eexists.
Qed.

(** Without a session: the descriptor is closed, [ssl] has none. *)
Lemma returns_without_session e tr ssl sockfd :
  detached ssl → use_sockets NoSocket tr = Some (held sockfd) → Forall quiet tr →
  sockets_at_return e (tr ++ close_if_open sockfd ++ destroy ssl ++ frees e).
Proof.
  intros Hd Hu Hq. left. split.
  - rewrite !Forall_app. split_and!; [done|apply close_quiet|apply destroy_quiet|apply frees_quiet].
  - unfold use_sockets in *. rewrite foldl_bind_app, Hu. cbn [mbind option_bind].
    fold (use_sockets (held sockfd) (close_if_open sockfd ++ destroy ssl ++ frees e)).
    by rewrite use_close, destroy_sockets, frees_sockets.
Qed.

(** With a session on [fd]. *)
Lemma returns_with_session e tr fd start :
  0 ≤ fd → Handshake fd ∈ tr → use_sockets NoSocket tr = Some (Secured fd) →
  start = [] ∨ start = [Start fd] →
  sockets_at_return e (tr ++ start ++ close_if_open fd ++ destroy (SslObject (Some fd)) ++ frees e).
Proof.
  intros Hf Hin Hu Hst. right. exists fd, (tr ++ start ++ [Close fd]).
  assert (close_if_open fd = [Close fd]) as ->
    by (unfold close_if_open; destruct (Z.eqb_spec fd (-1)); [lia|done]).
  assert (use_sockets NoSocket (tr ++ start ++ [Close fd]) = Some NoSocket) as Hused.
  { unfold use_sockets in *. rewrite foldl_bind_app, Hu. destruct Hst as [-> | ->]; calls. }
  split_and!; [by apply elem_of_app; left|done|by rewrite <-!app_assoc|].
  rewrite !app_assoc, <-(app_assoc tr), <-(app_assoc (tr ++ _)). unfold use_sockets in *.
  rewrite foldl_bind_app, Hused. cbn [mbind option_bind app destroy foldl use_socket].
  rewrite bool_decide_eq_false_2 by naive_solver.
  generalize (frees e). intros l. induction l as [|ev l IH]; [done|]. exact IH.
Qed.

Lemma main_used args e rounds keep :
  sockets_ok rounds →
  (Exists (λ a, a_keep_running a = false) rounds → keep = false) →
  let '(tr, code) := main args e rounds keep in
  match code with
  | None => Forall quiet tr ∧ ∃ st, use_sockets NoSocket tr = Some st
  | Some _ => sockets_at_return e tr
  end.
Proof.
  intros Hs Hk. unfold main. pose proof (set_up_quiet args e) as Hq0.
  assert (∀ tr, use_sockets NoSocket ((set_up args e).1 ++ tr) = use_sockets NoSocket tr) as Hu0
    by (intros; apply set_up_sockets).
  destruct (set_up args e) as [tr0 [d|code]]; cbn [fst] in *.
  2:{ left. split; [done|]. by rewrite <-(app_nil_r tr0), Hu0. }
  pose proof (connect_loop_looped rounds (-1) NoSsl Hs (or_introl eq_refl)) as Hl.
  destruct (connect_loop rounds (-1) NoSsl) as [tr c].
  change (held (-1)) with NoSocket in Hl. fold (frees e).
  destruct c as [sockfd ssl|code ssl|sockfd ssl].
  - destruct Hl as [(Hoff & Hd & Hu & Hq)|(-> & Hfd & tr' & -> & Hq & Hu)].
    + rewrite (Hk Hoff). replace (match ssl with NoSsl => false | _ => false end) with false
        by (by destruct ssl). cbn [app]. rewrite app_assoc.
      apply returns_without_session; [done|by rewrite Hu0|by apply Forall_app].
    + rewrite app_assoc. apply returns_with_session; [done|set_solver|by rewrite Hu0|].
      destruct keep; auto.
  - destruct Hl as (Hu & Hq & Hd). rewrite app_assoc.
    apply (returns_without_session e _ ssl (-1)); [done|by rewrite Hu0|by apply Forall_app].
  - destruct Hl as (Hu & Hq). split; [by apply Forall_app|]. rewrite Hu0. by eexists.
Qed.

(** C26. What the process does with its sockets and objects, whatever
    libraries, kernel and network answer and for any number of retries.  One
    socket is open at a time, it is used while it is open and closed once;
    the threads are started only behind a completed TLS handshake on it; and
    every SSL object, the context, the device list and the capture handle are
    freed exactly once before [main] returns.  One call breaks the order: a
    run that completed a handshake and returns has closed the socket before
    [SslDeleter] runs [SSL_shutdown] on its descriptor, as its last call on
    it.  A run without a handshake has no such call. *)
Theorem main_sockets args e rounds keep :
  sockets_ok rounds →
  (Exists (λ a, a_keep_running a = false) rounds → keep = false) →
  let '(tr, code) := main args e rounds keep in
  (∀ r, ∃ n, use_resources r 0 tr = Some n ∧ (is_Some code → n = 0%nat)) ∧
  match code with
  | None => Forall quiet tr ∧ ∃ st, use_sockets NoSocket tr = Some st
  | Some _ => sockets_at_return e tr
  end.
Proof.
  intros Hs Hk. pose proof (main_used args e rounds keep Hs Hk) as Hu.
  pose proof (main_resources args e rounds keep) as Hr.
  destruct (main args e rounds keep) as [tr code]. by split.
Qed.

(** *** The statistics *)

(** A reading of the true totals through 32-bit counters. *)
Definition counter_values (t : counters) : counters := (u32 t.1, u32 t.2).

Definition read_counters (totals : list (option counters)) : list (option counters) :=
  (λ o, match o with Some t => Some (counter_values t) | None => None end) <$> totals.

(** The totals grow, by less than 2^32 from one reading to the next. *)
Fixpoint totals_ok (last : counters) (totals : list (option counters)) : Prop :=
  match totals with
  | [] => True
  | None :: totals => totals_ok last totals
  | Some t :: totals =>
      0 ≤ t.1 - last.1 < 2 ^ 32 ∧ 0 ≤ t.2 - last.2 < 2 ^ 32 ∧ totals_ok t totals
  end.

Fixpoint last_total (last : counters) (totals : list (option counters)) : counters :=
  match totals with
  | [] => last
  | None :: totals => last_total last totals
  | Some t :: totals => last_total t totals
  end.

Definition sum (l : list Z) : Z := foldr Z.add 0 l.

Lemma u32_diff a b : 0 ≤ b - a < 2 ^ 32 → u32 (u32 b - u32 a) = b - a.
Proof. intros H. unfold u32 in *. rewrite <-Zminus_mod. by apply Z.mod_small. Qed.

Lemma monitor_totals last totals :
  totals_ok last totals →
  let lines := monitor_pcap_stats (counter_values last) (read_counters totals) in
  sum lines.*1 = (last_total last totals).1 - last.1 ∧
  sum lines.*2 = (last_total last totals).2 - last.2 ∧
  Forall (λ l, 0 < l.1 + l.2) lines.
Proof.
  revert last. induction totals as [|[t|] totals IH]; intros last Ht.
  - split_and!; [simpl; lia|simpl; lia|constructor].
  - destruct Ht as (H1 & H2 & Ht). specialize (IH t Ht). cbv zeta in *.
    cbn [read_counters fmap list_fmap monitor_pcap_stats last_total].
    fold (read_counters totals).
    unfold report. cbn [fst snd counter_values]. rewrite !u32_diff by done.
    destruct IH as (I1 & I2 & I3).
    case_test; cbn [app]; rewrite ?fmap_cons; cbn [sum foldr fst snd];
      unfold sum in *; split_and!; try (apply Forall_cons_2; [cbn; lia|done]); try done; lia.
  - by apply IH.
Qed.

(** C27. The statistics lines are exact although the library's counters wrap
    around at 2^32: if the true totals grow by less than 2^32 between two
    successful readings, the lines printed since the start add up to the
    totals at the last reading, failed readings included, and no line is
    printed in which nothing happened. *)
Theorem monitor_counts_exact totals :
  totals_ok (0, 0) totals →
  let lines := monitor_pcap_stats (0, 0) (read_counters totals) in
  sum lines.*1 = (last_total (0, 0) totals).1 ∧ sum lines.*2 = (last_total (0, 0) totals).2 ∧
  Forall (λ l, 0 < l.1 + l.2) lines.
Proof.
  intros Ht. destruct (monitor_totals (0, 0) totals Ht) as (H1 & H2 & H3).
  change (counter_values (0, 0)) with (0, 0) in *. cbv zeta in *. rewrite H1, H2.
  cbn [fst snd]. split_and!; [lia|lia|done].
Qed.

Lemma monitor_counts_exact_witness :
  sum (monitor_pcap_stats (0, 0)
    [Some (4294967290, 0); None; Some (4, 3); Some (4, 3)]).*1 = 4294967300.
Proof.
  refine (proj1 (monitor_counts_exact
    [Some (4294967290, 0); None; Some (4294967300, 3); Some (4294967300, 3)] _)).
  simpl. lia.
Defined.

(** A first try without service, a second one whose handshake fails, a third
    one that works, then a signal. *)
Definition sample_rounds : list attempt :=
  [mkAttempt true 5 1 (-1) true 1 1; mkAttempt true 5 1 0 true 1 0; mkAttempt true 5 1 0 true 1 1].

Definition sample_environment : environment :=
  mkEnv 0 None None 1 true true 1 1 0 [mkIf (str "lo") 1; mkIf (str "eth0") 6] true 0 0.

Lemma main_sockets_witness :
  let '(tr, code) := main [] sample_environment sample_rounds true in
  tr =
    [New SslCtx; New DevList; New PcapHandle; Socket 5; Sleep 2; Close 5; Socket 5; Connected 5;
     New Ssl; SslShutdown (Some 5); Free Ssl; Sleep 2; Close 5; Socket 5; Connected 5; New Ssl;
     Handshake 5; Start 5; Close 5; SslShutdown (Some 5); Free Ssl; Free PcapHandle; Free DevList;
     Free SslCtx] ∧
  code = Some 0 ∧ sockets_at_return sample_environment tr.
Proof.
  destruct (main_sockets [] sample_environment sample_rounds true) as [_ H].
  - by_decide.
  - unfold sample_rounds. rewrite !Exists_cons, Exists_nil. by intros [|[|[|]]].
  - split; [by vm_compute|]. split; [by vm_compute|exact H].
Defined.
