(* ===== verification/DnsFrames.v ===== *)
(** * DNS messages over UDP

    Frames with a DNS message over UDP and IPv4 or IPv6, built from their
    fields, and the record [dissect_raw_packet] makes of them. *)

From S2P Require Import Prelude CMemory PacketTypes Layers Frames Stats Entropy NameDissectors Capture CaptureProps.

(** ** The network layer *)

Inductive network :=
  | NetV4 (words tos id frag ttl sum : Z) (src dst opts : list Z)
  | NetV6 (tc flow hlim : Z) (src dst : list Z).

Definition net_v6 (n : network) : bool := match n with NetV4 _ _ _ _ _ _ _ _ _ => false | _ => true end.

Definition net_type (n : network) : Z := if net_v6 n then 0x86DD else 0x0800.

Definition net_hlen (n : network) : Z :=
  match n with NetV4 words _ _ _ _ _ _ _ _ => 20 + 4 * words | NetV6 _ _ _ _ _ => 40 end.

Definition net_flow (n : network) : Z := match n with NetV6 _ flow _ _ _ => flow | _ => 0 end.

(** The header before a UDP datagram of [len] bytes. *)
Definition net_header (n : network) (len : Z) : list Z :=
  match n with
  | NetV4 words tos id frag ttl sum src dst opts =>
      build_ipv4 words tos (20 + 4 * words + len) id frag ttl 17 sum src dst opts
  | NetV6 tc flow hlim src dst => build_ipv6 tc flow len 17 hlim src dst
  end.

(** What the parser is to return for a header at [k]. *)
Definition net_info (n : network) (k : Z) : IpInfo :=
  match n with
  | NetV4 words tos id frag ttl _ src dst _ =>
      mkIpInfo k (20 + 4 * words) (zeros 12 ++ src) (zeros 12 ++ dst) 17 ttl tos id false
        (negb (Z.land frag 0x3fff =? 0))
  | NetV6 tc _ hlim src dst => ipv6_info k tc 17 hlim src dst
  end.

Definition net_ok (n : network) : Prop :=
  match n with
  | NetV4 words tos id frag ttl _ src dst opts =>
      length src = 4%nat ∧ length dst = 4%nat ∧ 0 ≤ words ≤ 10 ∧ zlen opts = 4 * words ∧
      is_u 16 id ∧ is_u 16 frag
  | NetV6 tc flow _ src dst =>
      length src = 16%nat ∧ length dst = 16%nat ∧ is_u 8 tc ∧ is_u 20 flow
  end.

Lemma length_net_header n len : net_ok n → zlen (net_header n len) = net_hlen n.
Proof.
  destruct n; cbn [net_ok net_header net_hlen].
  - intros (? & ? & _ & ? & _). by apply length_build_ipv4.
  - intros (? & ? & _). unfold build_ipv6, be32. rewrite !length_app, !length_be16. cbn [length]. lia.
Qed.

(** The first word of an IPv6 header. *)
Lemma first_word tc flow (v := 6 * 2 ^ 28 + tc * 2 ^ 20 + flow) :
  is_u 8 tc → is_u 20 flow →
  is_u 32 v ∧ v / 2 ^ 16 / 2 ^ 8 = 16 * 6 + tc / 16 ∧ Z.land (Z.shiftr v 20) 0xFF = tc ∧
  Z.land v 0x0FFFFF = flow.
Proof.
  intros Htc Hf. unfold is_u in *. change 0xFF with (Z.ones 8). change 0x0FFFFF with (Z.ones 20).
  rewrite !Z.land_ones, Z.shiftr_div_pow2 by lia. unfold v.
  change (2 ^ 32) with 4294967296. change (2 ^ 28) with 268435456. change (2 ^ 20) with 1048576 in *.
  change (2 ^ 16) with 65536. change (2 ^ 8) with 256 in *.
  Z.to_euclidean_division_equations. lia.
Qed.

Lemma parse_build_ipv6 pre tc flow len nxt hlim src dst rest :
  length src = 16%nat → length dst = 16%nat → is_u 8 tc → is_u 20 flow →
  let p := pre ++ build_ipv6 tc flow len nxt hlim src dst ++ rest in
  zlen p < 2 ^ 31 →
  parse_ip_layer p (zlen p) (zlen pre) = Ok (Some (ipv6_info (zlen pre) tc nxt hlim src dst)).
Proof.
  intros Hs Hd Htc Hflow p Hlen.
  destruct (first_word tc flow Htc Hflow) as (Hv & Hb & Ht & _).
  set (v := 6 * 2 ^ 28 + tc * 2 ^ 20 + flow) in *.
  assert (zlen (build_ipv6 tc flow len nxt hlim src dst) = 40) as Hl.
  { unfold build_ipv6, be32. rewrite !length_app, !length_be16. cbn [length]. lia. }
  assert (zlen p = zlen pre + 40 + zlen rest) as Hp by (unfold p; rewrite !length_app; lia).
  unfold parse_ip_layer, parse_ipv6. u32_norm. case_test; [lia|].
  unfold p. autorewrite with behind. fold p.
  set (q := build_ipv6 _ _ _ _ _ _ _ ++ rest).
  assert (q = be32 v ++ be16 len ++ [nxt; hlim] ++ src ++ dst ++ rest) as Hq.
  { unfold q, build_ipv6. fold v. by rewrite <- !(assoc_L (++)). }
  assert (rd q 0 = Ok (16 * 6 + tc / 16)) as ->.
  { rewrite Hq. change (rd _ 0) with (Ok (v / 2 ^ 16 / 2 ^ 8)). by rewrite Hb. }
  cbn [mbind res_bind].
  assert (0 ≤ tc / 16 < 16) as Htc'.
  { unfold is_u in Htc. change (2 ^ 8) with 256 in Htc. Z.to_euclidean_division_equations. lia. }
  destruct (nibbles 6 (tc / 16)) as [-> _]; [lia..|]. cbn [Z.eqb Pos.eqb].
  case_test; [lia|].
  assert (∀ k d a b, length d = 16%nat → a ++ d ++ b = q → k = zlen a →
    memcpy (zeros 16) 0 q k 16 = Ok d) as Hcopy.
  { intros k d a b Hd' <- ->. rewrite (memcpy_segment (zeros 16) a d b) by (done || (simpl; lia)).
    rewrite drop_ge by (simpl; lia). by rewrite app_nil_r. }
  rewrite (Hcopy 8 src (be32 v ++ be16 len ++ [nxt; hlim]) (dst ++ rest));
    [|done|by rewrite Hq, <- !(assoc_L (++))|done].
  rewrite (Hcopy 24 dst (be32 v ++ be16 len ++ [nxt; hlim] ++ src) rest);
    [|done|by rewrite Hq, <- !(assoc_L (++))|rewrite !length_app, Hs; done].
  assert (rd q 6 = Ok nxt ∧ rd q 7 = Ok hlim) as [-> ->] by by rewrite Hq.
  assert (load32 q 0 = Ok (ntohl v)) as -> by (rewrite Hq; apply load32_be32).
  cbn [mbind res_bind]. rewrite ntohl_invol by done. by rewrite Ht.
Qed.

Lemma parse_net n len pre rest :
  net_ok n →
  let p := pre ++ net_header n len ++ rest in
  zlen p < 2 ^ 31 → parse_ip_layer p (zlen p) (zlen pre) = Ok (Some (net_info n (zlen pre))).
Proof.
  destruct n; cbn [net_ok net_header net_info].
  - intros (? & ? & ? & ? & ? & ?). cbv zeta. intros Hp. by apply parse_build_ipv4.
  - intros (? & ? & ? & ?). by apply parse_build_ipv6.
Qed.

(** The word the program reads again for the flow label, and the protocol. *)
Lemma reread_net n len pre rest :
  net_ok n → net_v6 n = true →
  let p := pre ++ net_header n len ++ rest in
  ∃ v, load32 p (zlen pre) = Ok v ∧ Z.land (ntohl v) 0x0FFFFF = net_flow n ∧
    rd p (zlen pre + 6) = Ok 17.
Proof.
  destruct n as [|tc flow hlim src dst]; [done|]. intros (_ & _ & Htc & Hflow) _. cbn zeta.
  destruct (first_word tc flow Htc Hflow) as (Hv & _ & _ & Hf). cbn [net_header net_flow].
  set (v := 6 * 2 ^ 28 + tc * 2 ^ 20 + flow) in *. exists (ntohl v).
  rewrite rd_app_r, load32_app_0 by lia. unfold build_ipv6. fold v.
  rewrite <- !(assoc_L (++)). rewrite load32_be32, ntohl_invol by done. done.
Qed.

(** ** Frames *)

Record dns_frame := mkDnsFrame {
    q_dst : list Z; q_src : list Z; q_tags : list (Z * Z); q_net : network;
    q_sport : Z; q_dport : Z; q_sum : Z;
    q_header : list Z;          (** the twelve bytes before the name *)
    q_labels : list (list Z);   (** the name of the first question *)
    q_tail : list Z;            (** the rest of the message *)
    q_trailer : list Z
  }.

Definition q_message (q : dns_frame) : list Z := q_header q ++ encode_qname (q_labels q) ++ q_tail q.

Definition q_len (q : dns_frame) : Z := 8 + zlen (q_message q).

Definition eth_part (q : dns_frame) : list Z :=
  (q_dst q ++ q_src q) ++ be16 (first_type (q_tags q) (net_type (q_net q))) ++
  after_type (q_tags q) (net_type (q_net q)) [].

Definition datagram (q : dns_frame) : list Z :=
  build_udp (q_sport q) (q_dport q) (q_len q) (q_sum q) ++ q_message q ++ q_trailer q.

Definition build_dns_frame (q : dns_frame) : list Z :=
  build_eth (q_dst q) (q_src q) (q_tags q) (net_type (q_net q))
    (net_header (q_net q) (q_len q) ++ datagram q).

Record wf_dns (q : dns_frame) : Prop := {
    wf_q_dst : length (q_dst q) = 6%nat;
    wf_q_src : length (q_src q) = 6%nat;
    wf_q_tags : Forall valid_tag (q_tags q);
    wf_q_net : net_ok (q_net q);
    wf_q_sport : is_u 16 (q_sport q);
    wf_q_dport : is_u 16 (q_dport q);
    wf_q_port : q_sport q = 53 ∨ q_dport q = 53;
    wf_q_header : length (q_header q) = 12%nat;
    wf_q_labels : Forall valid_label (q_labels q)
  }.

(** The name as the record holds it: at most 63 bytes, without the final dot. *)
Definition shown_name (labels : list (list Z)) : list Z := strip_dot (take 63 (dotted labels)).

Section frame.
Context (q : dns_frame) (Hq : wf_dns q) (Hsize : zlen (build_dns_frame q) ≤ 256).

#[local] Abbreviation hl := (14 + 4 * zlen (q_tags q)).

Lemma build_dns_split : build_dns_frame q = eth_part q ++ net_header (q_net q) (q_len q) ++ datagram q.
Proof using.
  unfold build_dns_frame, build_eth, eth_part. rewrite after_type_app. by rewrite <- !(assoc_L (++)).
Qed.

Lemma length_eth : zlen (eth_part q) = hl.
Proof using Hq.
  destruct Hq. unfold eth_part. pose proof (length_after_type (q_tags q) (net_type (q_net q)) []) as E.
  rewrite !length_app, length_be16. cbn [length] in E. lia.
Qed.

Lemma dns_hl_bound : 14 ≤ hl ≤ zlen (build_dns_frame q).
Proof using Hq. pose proof length_eth. rewrite build_dns_split, length_app. lia. Qed.

Lemma parse_dns_eth :
  parse_ethernet_layer (build_dns_frame q) (zlen (build_dns_frame q)) =
    Ok (Some (mkEthernetInfo 0 hl (net_type (q_net q)) (last_vid 0 (q_tags q)))).
Proof using Hq Hsize.
  destruct Hq. apply parse_build_eth; try done.
  - unfold net_type. by destruct (net_v6 _).
  - unfold net_type. by destruct (net_v6 _).
  - unfold build_dns_frame in *. split; lia.
Qed.

Lemma parse_dns_ip :
  parse_ip_layer (build_dns_frame q) (zlen (build_dns_frame q)) hl = Ok (Some (net_info (q_net q) hl)).
Proof using Hq Hsize.
  rewrite <- length_eth. rewrite build_dns_split in *. apply parse_net; [apply Hq|]. lia.
Qed.

Definition dns_transport : TransportInfo :=
  mkTransportInfo (q_sport q) (q_dport q) 0 0 0 0 0 0 false (Some (hl + net_hlen (q_net q) + 8))
    (zlen (q_message q)).

Lemma parse_dns_udp :
  parse_transport_layer (build_dns_frame q) (zlen (build_dns_frame q)) hl (net_info (q_net q) hl) =
    Ok (Some dns_transport).
Proof using Hq Hsize.
  pose proof length_eth as He. pose proof (length_net_header (q_net q) (q_len q) (wf_q_net q Hq)) as Hn.
  rewrite build_dns_split in *. unfold datagram, dns_transport in *. rewrite (assoc_L (++)) in *.
  pose proof (parse_build_udp (eth_part q ++ net_header (q_net q) (q_len q)) (net_info (q_net q) hl) hl
    (q_sport q) (q_dport q) (q_len q) (q_sum q) (q_message q ++ q_trailer q)) as Hp.
  cbn zeta in Hp. rewrite Hp; clear Hp.
  - rewrite length_app, Nat2Z.inj_add, He, Hn. unfold q_len.
    by replace (8 + zlen (q_message q) - 8) with (zlen (q_message q)) by lia.
  - lia.
  - apply Hq.
  - apply Hq.
  - unfold is_u, q_len. rewrite !length_app in Hsize. lia.
  - by destruct (q_net q).
  - rewrite length_app. destruct (q_net q); cbn [net_info ipi_header_len ipv6_info net_hlen] in *; lia.
Qed.
End frame.

(** ** The dissection *)

(** What the UDP branch makes of a DNS message. *)
Lemma dissect_transport_dns packet caplen ip t i hdr labels rest k :
  protocol i = 17 → t_src_port t = 53 ∨ t_dst_port t = 53 → dns_query i = zeros 64 →
  t_payload_ptr t = Some k → ptr_add packet k = hdr ++ encode_qname labels ++ rest →
  length hdr = 12%nat → Forall valid_label labels → zlen (hdr ++ encode_qname labels) ≤ t_payload_len t →
  dissect_transport packet caplen ip t i =
    Ok (set_dns_query (shown_name labels ++ zeros (64 - length (shown_name labels)))
         (set_dst_port (t_dst_port t) (set_src_port (t_src_port t) i))).
Proof.
  intros Hp Hports Hd Hk Hpay Hh Hls Hlen. unfold dissect_transport.
  set (i' := set_dst_port (t_dst_port t) (set_src_port (t_src_port t) i)).
  assert (protocol i' = 17 ∧ dns_query i' = zeros 64 ∧ port_is i' 53 = true) as (Hp' & Hd' & Hport).
  { split_and!; [done|done|]. unfold port_is, i'. record_simpl. lia. }
  clearbody i'. rewrite Hp'. cbn [Z.eqb Pos.eqb]. unfold dissect_udp, payload_at.
  rewrite Hport, Hk, bool_decide_eq_true_2 by done. cbn [andb]. rewrite Hpay, Hd'.
  change (zeros 64) with (zeros (S 63)). change 64 with (Z.of_nat (S 63)).
  rewrite dissect_dns_array by done. cbn [mbind res_bind].
  unfold dissect_ospf_info, dissect_gre_info, dissect_igmp_info.
  change (64 - length ?n)%nat with (S 63 - length n)%nat. fold (shown_name labels).
  set (j := set_dns_query _ i'). assert (protocol j = 17) as Hj by done. clearbody j.
  repeat (rewrite Hj; cbn [mbind res_bind Z.eqb Pos.eqb]). done.
Qed.

(** What the IP layer leaves in the record. *)
Definition net_record (n : network) (e : EthernetInfo) (i : PacketInfo) : PacketInfo :=
  let i := ip_of e (net_info n (eth_header_len e)) i in
  if net_v6 n then set_protocol 17 (set_ipv6_flow (net_flow n) i) else i.

Lemma ext_loop_udp fuel packet caplen off j :
  (0 < fuel)%nat → ipv6_ext_count j = 0 → ipv6_ext_loop fuel packet caplen off 17 j = Ok (j, 17).
Proof. intros Hf Hj. destruct fuel; [lia|]. cbn [ipv6_ext_loop]. by rewrite Hj. Qed.

Lemma dissect_ipv6_udp packet caplen ip i v :
  (is_ipv6 i =? 0) = false → load32 packet (ipi_header ip) = Ok v →
  rd packet (ipi_header ip + 6) = Ok 17 → ipv6_ext_count i = 0 →
  dissect_ipv6 packet caplen ip i = Ok (set_protocol 17 (set_ipv6_flow (Z.land (ntohl v) 0x0FFFFF) i)).
Proof.
  intros H6 Hl Hr Hi. unfold dissect_ipv6. rewrite H6, Hl, bind_Ok, Hr, bind_Ok.
  set (j := set_ipv6_flow _ i). assert (ipv6_ext_count j = 0) as Hj by exact Hi. clearbody j.
  assert (0 < 11)%nat as Hf by lia. revert Hf. generalize 11%nat as fuel. intros fuel Hf.
  by rewrite (ext_loop_udp fuel _ _ _ j Hf Hj), bind_Ok.
Qed.

Lemma dissect_ipv6_net n len pre rest caplen e i :
  net_ok n → eth_header_len e = zlen pre → ipv6_ext_count i = 0 →
  dissect_ipv6 (pre ++ net_header n len ++ rest) caplen (net_info n (eth_header_len e))
    (ip_of e (net_info n (eth_header_len e)) i) = Ok (net_record n e i).
Proof.
  intros Hn He Hi. unfold net_record. destruct (net_v6 n) eqn:Hv.
  - destruct (reread_net n len pre rest Hn Hv) as (v & Hl & <- & Hr).
    assert (ipi_header (net_info n (eth_header_len e)) = zlen pre) as Hk by by destruct n.
    apply dissect_ipv6_udp; rewrite ?Hk; [|done|done|done]. by destruct n.
  - unfold dissect_ipv6. by destruct n.
Qed.

Lemma dissect_icmp_udp packet caplen i : protocol i = 17 → dissect_icmp packet caplen i = Ok i.
Proof. intros Hp. unfold dissect_icmp. by rewrite Hp. Qed.

Section dissection.
Context (q : dns_frame) (Hq : wf_dns q) (Hsize : zlen (build_dns_frame q) ≤ 256).
Context (junk : list Z) (Hbytes : bytes (build_dns_frame q ++ junk)).

#[local] Abbreviation hl := (14 + 4 * zlen (q_tags q)).

Definition dns_eth : EthernetInfo :=
  mkEthernetInfo 0 hl (net_type (q_net q)) (last_vid 0 (q_tags q)).

(** The record after the IP layer and above. *)
Definition dns_ip_record (i : PacketInfo) : PacketInfo :=
  set_dns_query (shown_name (q_labels q) ++ zeros (64 - length (shown_name (q_labels q))))
    (set_dst_port (q_dport q) (set_src_port (q_sport q) (net_record (q_net q) dns_eth i))).

Lemma dns_payload :
  ∃ rest, ptr_add (build_dns_frame q ++ junk) (hl + net_hlen (q_net q) + 8) =
    q_header q ++ encode_qname (q_labels q) ++ rest.
Proof using Hq.
  exists (q_tail q ++ q_trailer q ++ junk). rewrite build_dns_split. unfold datagram, q_message, ptr_add.
  rewrite <- !(assoc_L (++)). rewrite !(assoc_L (++) (eth_part q)).
  rewrite (assoc_L (++) _ (build_udp _ _ _ _)). rewrite drop_app_length'; [done|].
  pose proof (length_eth q Hq). pose proof (length_net_header (q_net q) (q_len q) (wf_q_net q Hq)).
  unfold build_udp. rewrite !length_app, !length_be16. lia.
Qed.

Lemma dissect_ip_dns i :
  fresh i → dns_query i = zeros 64 →
  dissect_ip (build_dns_frame q ++ junk) (zlen (build_dns_frame q)) dns_eth i = Ok (dns_ip_record i).
Proof using Hq Hsize Hbytes.
  intros Hi Hd. pose proof (parse_dns_ip q Hq Hsize) as Hip. pose proof (parse_dns_udp q Hq Hsize) as Hudp.
  apply parse_ip_layer_extend with (q := junk) in Hip.
  apply parse_transport_layer_extend with (q := junk) in Hudp.
  pose proof (parse_ip_layer_spec any_fault _ (zlen (build_dns_frame q)) hl Hbytes (guard_any _)
    ltac:(lia) ltac:(pose proof (dns_hl_bound q Hq); lia)) as Hres. rewrite Hip in Hres. destruct Hres as (Hwf & _ & _).
  unfold dissect_ip. cbn [eth_header_len dns_eth]. rewrite Hip, bind_Ok.
  rewrite set_ip_eq by (done || apply Hi). rewrite bind_Ok.
  pose proof (dissect_ipv6_net (q_net q) (q_len q) (eth_part q) (datagram q ++ junk)
    (zlen (build_dns_frame q)) dns_eth i (wf_q_net q Hq)) as H6.
  cbn [eth_header_len dns_eth] in H6. rewrite length_eth in H6 by done.
  replace (eth_part q ++ net_header (q_net q) (q_len q) ++ datagram q ++ junk)
    with (build_dns_frame q ++ junk) in H6 by (rewrite build_dns_split, <- !(assoc_L (++)); done).
  fold dns_eth in *. rewrite H6 by (done || apply Hi). rewrite bind_Ok. clear H6.
  assert (protocol (net_record (q_net q) dns_eth i) = 17) as Hp
    by (unfold net_record; by destruct (q_net q)).
  assert (dns_query (net_record (q_net q) dns_eth i) = zeros 64) as Hd'
    by (unfold net_record; rewrite <-Hd; by destruct (q_net q)).
  rewrite dissect_icmp_udp by done. rewrite bind_Ok, Hudp, bind_Ok.
  destruct dns_payload as [rest Hpay].
  rewrite (dissect_transport_dns _ _ _ _ _ (q_header q) (q_labels q) rest (hl + net_hlen (q_net q) + 8));
    try done; [..|].
  - apply Hq.
  - apply Hq.
  - apply Hq.
  - cbn [t_payload_len dns_transport]. unfold q_message. rewrite !length_app. lia.
Qed.
End dissection.

(** ** The whole frame *)

(** The record a DNS frame stands for, field by field. *)
Definition dns_record (q : dns_frame) (raw : RawPacket) : PacketInfo :=
  let hl := 14 + 4 * zlen (q_tags q) in
  let ip := net_info (q_net q) hl in
  set_dns_query (shown_name (q_labels q) ++ zeros (64 - length (shown_name (q_labels q))))
  (set_dst_port (q_dport q) (set_src_port (q_sport q) (set_ipv6_flow (net_flow (q_net q))
  (set_is_fragment (b2z (ipi_is_fragment ip)) (set_is_ipv6 (b2z (net_v6 (q_net q)))
  (set_ip_id (ipi_id ip) (set_ip_tos (ipi_tos ip) (set_ip_ttl (ipi_ttl ip)
  (set_l4_offset (hl + net_hlen (q_net q)) (set_protocol 17
  (set_dst_ip (ipi_dst_ip ip) (set_src_ip (ipi_src_ip ip)
  (set_wire_len (wire (pkthdr raw)) (set_vlan_id (last_vid 0 (q_tags q))
  (set_l3_offset hl (set_dst_mac (q_dst q) (set_src_mac (q_src q)
  (set_delta_time (raw_delta_time raw) (set_timestamp (timestamp_of (pkthdr raw))
  zero_info))))))))))))))))))).

Section whole.
Context `{DoubleLaws D} (q : dns_frame) (raw : RawPacket) (info : PacketInfo).
Context (Hq : wf_dns q) (Hraw : wf_raw raw) (Hin : holds_frame raw (build_dns_frame q)).

Lemma dns_fits : zlen (build_dns_frame q) ≤ 256.
Proof using Hraw Hin.
  destruct Hin as (_ & junk & Hd), (wf_data _ Hraw) as [Hl _]. rewrite Hd, length_app in Hl. lia.
Qed.

Lemma dns_record_eq : dns_ip_record q (header_of raw (dns_eth q)) = dns_record q raw.
Proof using Hq Hraw Hin.
  pose proof dns_fits as Hfit. pose proof (length_net_header (q_net q) (q_len q) (wf_q_net q Hq)) as Hn.
  pose proof (length_eth q Hq) as He. pose proof (build_dns_split q) as Hs.
  assert (14 + 4 * zlen (q_tags q) + net_hlen (q_net q) ≤ 248) as Hb.
  { rewrite Hs in Hfit. unfold datagram, build_udp in Hfit. rewrite !length_app, !length_be16 in Hfit. lia. }
  assert (take 6 (data raw) = q_dst q ∧ take 6 (drop 6 (data raw)) = q_src q) as [Hd6 Hs6].
  { destruct Hin as (_ & junk & ->). rewrite Hs. unfold eth_part. rewrite <- !(assoc_L (++)).
    pose proof (wf_q_dst q Hq). pose proof (wf_q_src q Hq).
    rewrite (drop_app_length' (q_dst q)) by done. by rewrite !take_app_length' by done. }
  unfold dns_ip_record, net_record, header_of, ip_of. rewrite Hd6, Hs6.
  cbn [eth_header_len dns_eth eth_vlan_id].
  assert (ipi_header_len (net_info (q_net q) (14 + 4 * zlen (q_tags q))) = net_hlen (q_net q)) as ->
    by by destruct (q_net q).
  assert (is_u 8 (14 + 4 * zlen (q_tags q)) ∧ is_u 8 (14 + 4 * zlen (q_tags q) + net_hlen (q_net q))) as [H1 H2].
  { unfold is_u. change (2 ^ 8) with 256. lia. }
  rewrite !u8_small by assumption. unfold dns_record.
  set (hl := 14 + 4 * zlen (q_tags q)). clearbody hl.
  set (name := shown_name _ ++ _). clearbody name.
  generalize (last_vid 0 (q_tags q)), (timestamp_of (pkthdr raw)), (raw_delta_time raw), (wire (pkthdr raw)).
  intros v t d w. clear - q hl name. destruct (q_net q);
    cbn [net_v6 net_flow net_info net_hlen ipi_src_ip ipi_dst_ip ipi_is_ipv6 ipi_is_fragment ipi_id
      ipi_tos ipi_ttl ipi_protocol ipv6_info]; record_simpl; reflexivity.
Qed.

Lemma dissect_dns_frame_spec :
  ensures (dissect_raw_packet raw info) (λ j,
    wf_info j ∧ captured raw j ∧ uncaptured j = uncaptured (dns_record q raw)).
Proof using All.
  pose proof dns_fits as Hfit. destruct Hin as (Hc & junk & Hd). destruct (wf_data _ Hraw) as [Hl Hb].
  rewrite <-dns_record_eq. pose proof (dns_hl_bound q Hq) as Hhl.
  pose proof (parse_dns_eth q Hq Hfit) as He. apply parse_ethernet_layer_extend with (q := junk) in He.
  rewrite <-Hd, <-Hc in He.
  assert (is_u 12 (eth_vlan_id (dns_eth q))) as Hvid by by apply last_vid_range.
  pose proof (fresh_header_of raw (dns_eth q) Hraw Hvid) as Hfresh.
  unfold dissect_raw_packet. cbv zeta. rewrite He, bind_Ok. fold (dns_eth q).
  rewrite set_header_eq, bind_Ok by done.
  assert (((eth_ether_type (dns_eth q) =? 0x0800) || (eth_ether_type (dns_eth q) =? 0x86DD)) = true) as ->.
  { cbn [eth_ether_type dns_eth]. unfold net_type. by destruct (net_v6 _). }
  pose proof (dissect_ip_dns q Hq Hfit junk) as Hip. rewrite <-Hd, <-Hc in Hip.
  specialize (Hip Hb (header_of raw (dns_eth q)) Hfresh eq_refl).
  pose proof (dissect_ip_spec any_fault (data raw) (caplen (pkthdr raw)) (dns_eth q) Hb ltac:(lia)
    ltac:(cbn [eth_header_len dns_eth]; lia) (header_of raw (dns_eth q)) Hfresh (guard_any _)) as Hok.
  rewrite Hip in Hok. rewrite Hip, bind_Ok. pose proof Hok as [Hwf _].
  set (i := dns_ip_record q (header_of raw (dns_eth q))) in *. clearbody i.
  pose proof (capture_frame_spec (data raw) Hb Hl (caplen (pkthdr raw)) i ltac:(lia) Hwf) as Hs.
  pose proof (capture_frame_dissected any_fault raw Hraw i (dns_eth q) Hok ltac:(lia)) as Hcap.
  destruct (capture_frame _ _ i) as [j|]; [|done]. cbn [wp] in *.
  destruct Hs as (Hj & _ & _ & _ & E), Hcap as (_ & _ & Hcap).
  split; [exact Hj|]. split; [exact Hcap|]. by rewrite E.
Qed.
End whole.
