(* ===== verification/GoText.v ===== *)
(** * Text as the dashboard handles it

    The functions of Go's package [strings] that [go/dashboard/main.go] uses,
    on strings as lists of bytes.  Where the library switches to Unicode tables
    for text that is not ASCII, the tables are a parameter ([GoUnicode]). *)

From stdpp Require Import strings pretty.
From S2P Require Import Prelude.

(** ** [strings] *)

Definition has_prefix (s p : list Z) : bool := bool_decide (take (length p) s = p).

Definition trim_prefix (s p : list Z) : list Z := if has_prefix s p then drop (length p) s else s.

Fixpoint contains (s sub : list Z) : bool :=
  has_prefix s sub || match s with [] => false | _ :: s => contains s sub end.

(** [strings.Split] with a separator of one byte. *)
Fixpoint split (s : list Z) (sep : Z) : list (list Z) :=
  match s with
  | [] => [[]]
  | c :: s =>
      if c =? sep then [] :: split s sep
      else match split s sep with [] => [[c]] | w :: ws => (c :: w) :: ws end
  end.

Fixpoint join (parts : list (list Z)) (sep : list Z) : list Z :=
  match parts with
  | [] => []
  | [w] => w
  | w :: ws => w ++ sep ++ join ws sep
  end.

Definition ascii_text (s : list Z) : bool := forallb (λ c, c <? 128) s.

(** The Unicode tables of the library, for strings that are not ASCII. *)
Class GoUnicode := {
    unicode_lower : list Z → list Z;
    unicode_upper : list Z → list Z;
    unicode_fields : list Z → list (list Z)
  }.

Definition lower_byte (c : Z) : Z := if (65 <=? c) && (c <=? 90) then c + 32 else c.
Definition upper_byte (c : Z) : Z := if (97 <=? c) && (c <=? 122) then c - 32 else c.

(** ['\t'], ['\n'], ['\v'], ['\f'], ['\r'] and the blank *)
Definition is_space (c : Z) : bool := ((9 <=? c) && (c <=? 13)) || (c =? 32).

(** The words of a string, [w] being the beginning of the current one. *)
Fixpoint fields_from (w : list Z) (s : list Z) : list (list Z) :=
  match s with
  | [] => match w with [] => [] | _ => [w] end
  | c :: s =>
      if is_space c then match w with [] => fields_from [] s | _ => w :: fields_from [] s end
      else fields_from (w ++ [c]) s
  end.

Section unicode.
Context `{GoUnicode}.

Definition to_lower (s : list Z) : list Z :=
  if ascii_text s then lower_byte <$> s else unicode_lower s.

Definition to_upper (s : list Z) : list Z :=
  if ascii_text s then upper_byte <$> s else unicode_upper s.

Definition fields (s : list Z) : list (list Z) :=
  if ascii_text s then fields_from [] s else unicode_fields s.
End unicode.

(** ** Lemmas *)

Section lemmas.
Implicit Types (s p sub w a b : list Z).

Lemma has_prefix_spec s p : has_prefix s p = true ↔ ∃ b, s = p ++ b.
Proof.
  unfold has_prefix. rewrite bool_decide_eq_true. split.
  - intros E. exists (drop (length p) s). by rewrite <-E at 1; rewrite take_drop.
  - intros [b ->]. apply take_app_length.
Qed.

Lemma has_prefix_app p b : has_prefix (p ++ b) p = true.
Proof. apply has_prefix_spec. eauto. Qed.

Lemma trim_prefix_app p b : trim_prefix (p ++ b) p = b.
Proof. unfold trim_prefix. rewrite has_prefix_app. apply drop_app_length. Qed.

(** [contains] finds exactly the substrings. *)
Lemma contains_spec s sub : contains s sub = true ↔ ∃ a b, s = a ++ sub ++ b.
Proof.
  induction s as [|c s IH]; cbn [contains].
  - rewrite orb_false_r, has_prefix_spec. split.
    + intros [b E]. by exists [], b.
    + intros (a & b & E). destruct a; [|done]. by exists b.
  - rewrite orb_true_iff, has_prefix_spec, IH. split.
    + intros [[b E]|(a & b & ->)]; [by exists [], b|by exists (c :: a), b].
    + intros (a & b & E). destruct a as [|c' a]; [left; by exists b|].
      right. injection E as <- ->. by exists a, b.
Qed.

Lemma contains_refl s : contains s s = true.
Proof. apply contains_spec. exists [], []. by rewrite app_nil_r. Qed.

(** A part that begins with [p] is found only where [p] is found. *)
Lemma contains_weaken s p sub : contains s (p ++ sub) = true → contains s p = true.
Proof.
  rewrite !contains_spec. intros (a & b & ->). exists a, (sub ++ b). by rewrite <-app_assoc.
Qed.

Lemma contains_elem s sub c : contains s sub = true → c ∈ sub → c ∈ s.
Proof. rewrite contains_spec. intros (a & b & ->) Hc. rewrite !elem_of_app. auto. Qed.

(** *** Splitting and joining *)

Lemma split_nonempty s sep : split s sep ≠ [].
Proof. destruct s as [|c s]; cbn [split]; [done|]. case_test; [done|]. by destruct (split s sep). Qed.

Lemma split_none w sep : sep ∉ w → split w sep = [w].
Proof.
  induction w as [|c w IH]; intros Hw; [done|]. cbn [split].
  rewrite not_elem_of_cons in Hw. destruct Hw as [Hc Hw].
  destruct (Z.eqb_spec c sep); [congruence|]. by rewrite IH.
Qed.

Lemma split_app w sep s : sep ∉ w → split (w ++ [sep] ++ s) sep = w :: split s sep.
Proof.
  induction w as [|c w IH]; intros Hw; cbn [split app].
  - by rewrite Z.eqb_refl.
  - rewrite not_elem_of_cons in Hw. destruct Hw as [Hc Hw].
    destruct (Z.eqb_spec c sep); [congruence|]. cbn [app] in IH. by rewrite IH.
Qed.

Lemma split_join ws sep :
  ws ≠ [] → Forall (λ w, sep ∉ w) ws → split (join ws [sep]) sep = ws.
Proof.
  intros Hn H. induction H as [|w ws Hw _ IH]; [done|].
  destruct ws as [|w' ws]; [by apply split_none|].
  change (join (w :: w' :: ws) [sep]) with (w ++ [sep] ++ join (w' :: ws) [sep]).
  rewrite split_app by done. by rewrite IH.
Qed.

Lemma split_parts s sep : Forall (λ w, sep ∉ w) (split s sep).
Proof.
  induction s as [|c s IH]; cbn [split]; [apply Forall_singleton, not_elem_of_nil|].
  destruct (Z.eqb_spec c sep); [constructor; [apply not_elem_of_nil|done]|].
  assert (sep ∉ [c]) by (rewrite list_elem_of_singleton; congruence).
  destruct IH as [|w ws Hw Hws]; [by apply Forall_singleton|].
  constructor; [|done]. apply not_elem_of_cons. split; [congruence|done].
Qed.

Lemma length_split_count s sep :
  length (split s sep) = S (length (filter (λ c, c = sep) s)).
Proof.
  induction s as [|c s IH]; [done|]. cbn [split]. rewrite filter_cons.
  destruct (Z.eqb_spec c sep) as [->|Hc].
  - rewrite decide_True by done. cbn. by rewrite IH.
  - rewrite decide_False by congruence. destruct (split s sep) eqn:E; [by apply split_nonempty in E|].
    done.
Qed.

(** *** Words *)

Lemma fields_from_word w s :
  Forall (λ c, is_space c = false) s → fields_from w s = match w ++ s with [] => [] | x => [x] end.
Proof.
  intros H. revert w. induction H as [|c s Hc _ IH]; intros w.
  - rewrite app_nil_r. by destruct w.
  - cbn [fields_from]. rewrite Hc, IH, <-app_assoc. done.
Qed.

Lemma fields_from_app w a s :
  Forall (λ c, is_space c = false) a → fields_from w (a ++ s) = fields_from (w ++ a) s.
Proof.
  intros H. revert w. induction H as [|c a Hc _ IH]; intros w; [by rewrite app_nil_r|].
  cbn [fields_from app]. by rewrite Hc, IH, <-app_assoc.
Qed.

Lemma fields_from_blank w s : w ≠ [] → fields_from w ([32] ++ s) = w :: fields_from [] s.
Proof. by destruct w. Qed.

(** A text of words set apart by blanks has exactly these words. *)
Lemma fields_from_join ws :
  Forall (λ w, w ≠ [] ∧ Forall (λ c, is_space c = false) w) ws →
  fields_from [] (join ws [32]) = ws.
Proof.
  induction 1 as [|w ws [Hne Hw] _ IH]; [done|]. destruct ws as [|w' ws].
  - cbn [join]. rewrite fields_from_word by done. by destruct w.
  - change (join (w :: w' :: ws) [32]) with (w ++ [32] ++ join (w' :: ws) [32]).
    rewrite fields_from_app, fields_from_blank by done. by rewrite IH.
Qed.

(** *** Letters *)

Lemma lower_byte_range c : lower_byte c < 65 ∨ 90 < lower_byte c.
Proof. unfold lower_byte. case_test; lia. Qed.

Lemma lower_byte_idemp c : lower_byte (lower_byte c) = lower_byte c.
Proof. pose proof (lower_byte_range c). unfold lower_byte at 1. case_test; lia. Qed.

Lemma ascii_text_app a b : ascii_text (a ++ b) = ascii_text a && ascii_text b.
Proof. apply forallb_app. Qed.

Lemma ascii_text_Forall s : ascii_text s = true ↔ Forall (λ c, c < 128) s.
Proof.
  unfold ascii_text. rewrite forallb_forall, Forall_forall. setoid_rewrite Z.ltb_lt.
  split; intros Hs x Hx; apply Hs; by apply list_elem_of_In.
Qed.
End lemmas.

(** *** Decimal numbers *)

Definition digits (s : list Z) : Prop := Forall (λ c, 48 ≤ c ≤ 57) s.

Lemma str_String a s : str (String a s) = Z.of_N (Ascii.N_of_ascii a) :: str s.
Proof. done. Qed.

Lemma pretty_char_digit n : (n < 10)%N → 48 ≤ Z.of_N (Ascii.N_of_ascii (pretty_N_char n)) ≤ 57.
Proof.
  intros Hn. assert (n = 0 ∨ n = 1 ∨ n = 2 ∨ n = 3 ∨ n = 4 ∨ n = 5 ∨ n = 6 ∨ n = 7 ∨ n = 8 ∨ n = 9)%N
    as Hc by lia.
  destruct_or! Hc; subst; by vm_compute.
Qed.

Lemma pretty_go_digits n s : digits (str s) → digits (str (pretty_N_go n s)).
Proof.
  revert s. induction (N.lt_wf_0 n) as [n _ IH]; intros s Hs.
  destruct (decide (n = 0)%N) as [->|Hn]; [by rewrite pretty_N_go_0|].
  rewrite pretty_N_go_step by lia. apply IH; [apply N.div_lt; lia|].
  rewrite str_String. constructor; [|done]. apply pretty_char_digit, N.mod_lt. lia.
Qed.

Lemma fmt_u_digits z : 0 ≤ z → digits (fmt_u z).
Proof.
  intros Hz. unfold fmt_u. destruct z as [|z|z]; [..|lia].
  - unfold digits. by_decide.
  - change (pretty (Z.pos z)) with (pretty (N.pos z)). unfold pretty, pretty_N.
    rewrite decide_False by lia. apply pretty_go_digits. constructor.
Qed.

Lemma str_inj s t : str s = str t → s = t.
Proof.
  revert t. induction s as [|a s IH]; intros [|b t]; try done.
  rewrite !str_String. intros [= E H]. f_equal; [|by apply IH].
  apply N2Z.inj in E. apply (f_equal Ascii.ascii_of_N) in E. by rewrite !Ascii.ascii_N_embedding in E.
Qed.

Lemma fmt_u_inj a b : fmt_u a = fmt_u b ↔ a = b.
Proof. split; [|by intros ->]. intros E%str_inj. by apply (inj pretty) in E. Qed.

(** The tables of a program that meets no other scripts. *)
Definition ascii_only : GoUnicode :=
  {| unicode_lower := λ s, s; unicode_upper := λ s, s; unicode_fields := λ s, [s] |}.
