(* ===== verification/GoNet.v ===== *)
(** * Addresses as the dashboard reads them

    What [go/dashboard/main.go] uses of Go's package [net] - [ParseIP],
    [ParseCIDR], [IPNet.Contains], the classes of addresses - and [isPrivateIP].
    The addresses the packet service prints are read back exactly; a subnet
    contains the addresses that agree with it on its leading bits. *)

From stdpp Require Import strings pretty.
From S2P Require Import Prelude PacketTypes Wire GoText.

(** ** Parsing *)

Inductive addr :=
  | V4 (b : list Z)   (** four bytes *)
  | V6 (b : list Z).  (** sixteen bytes *)

#[export] Instance addr_eq_dec : EqDecision addr.
Proof. solve_decision. Defined.

Definition is_digit (c : Z) : bool := (48 <=? c) && (c <=? 57).

(** The four numbers of a dotted quad: [prev_dot] at the beginning and behind a
    dot, [val] and [dig_len] of the number being read, [fields] those before. *)
Fixpoint parse_ipv4_fields (s : list Z) (prev_dot : bool) (val dig_len : Z) (fields : list Z)
    : option (list Z) :=
  match s with
  | [] => if zlen fields <? 3 then None else Some (fields ++ [val])
  | c :: s =>
      if is_digit c then
        if (dig_len =? 1) && (val =? 0) then None
        else
          let val := val * 10 + (c - 48) in
          if 255 <? val then None else parse_ipv4_fields s false val (dig_len + 1) fields
      else if c =? 46 then
        if prev_dot || bool_decide (s = []) then None
        else if zlen fields =? 3 then None
        else parse_ipv4_fields s true 0 0 (fields ++ [val])
      else None
  end.

Definition parse_ipv4 (s : list Z) : option (list Z) := parse_ipv4_fields s true 0 0 [].

Definition hex_value (c : Z) : option Z :=
  if is_digit c then Some (c - 48)
  else if (97 <=? c) && (c <=? 102) then Some (c - 87)
  else if (65 <=? c) && (c <=? 70) then Some (c - 55)
  else None.

(** One group of hexadecimal digits: how many, their value, what follows. *)
Fixpoint hex_group (s : list Z) (off acc : Z) : option (Z * Z * list Z) :=
  match s with
  | c :: s' =>
      match hex_value c with
      | Some d =>
          let acc := acc * 16 + d in
          if 3 <? off then None
          else if 65535 <? acc then None
          else hex_group s' (off + 1) acc
      | None => Some (off, acc, s)
      end
  | [] => Some (off, acc, [])
  end.

(** The groups of an IPv6 address: [ip] the bytes so far, [ellipsis] the place
    of a double colon; at most eight rounds. *)
Fixpoint ipv6_groups (fuel : nat) (s ip : list Z) (ellipsis : option nat)
    : option (list Z * list Z * option nat) :=
  match fuel with
  | O => Some (s, ip, ellipsis)
  | S fuel =>
      if 16 <=? zlen ip then Some (s, ip, ellipsis)
      else
        '(off, acc, rest) ← hex_group s 0 0;
        if off =? 0 then None
        else
          match rest with
          | [] => Some ([], ip ++ [acc / 256; acc mod 256], ellipsis)
          | 46 :: _ =>
              if bool_decide (ellipsis = None) && negb (zlen ip =? 12) then None
              else if 16 <? zlen ip + 4 then None
              else f ← parse_ipv4 s; Some ([], ip ++ f, ellipsis)
          | 58 :: rest =>
              let ip := ip ++ [acc / 256; acc mod 256] in
              match rest with
              | [] => None
              | 58 :: rest =>
                  match ellipsis, rest with
                  | Some _, _ => None
                  | None, [] => Some ([], ip, Some (length ip))
                  | None, _ => ipv6_groups fuel rest ip (Some (length ip))
                  end
              | _ => ipv6_groups fuel rest ip ellipsis
              end
          | _ => None
          end
  end.

Definition expand (s ip : list Z) (ellipsis : option nat) : option (list Z) :=
  if negb (bool_decide (s = [])) then None
  else if zlen ip <? 16 then
    e ← ellipsis; Some (take e ip ++ replicate (16 - length ip) 0 ++ drop e ip)
  else match ellipsis with Some _ => None | None => Some ip end.

Definition parse_ipv6 (s : list Z) : option (list Z) :=
  match s with
  | [58; 58] => Some (replicate 16 0)
  | 58 :: 58 :: s => '(s, ip, e) ← ipv6_groups 8 s [] (Some 0%nat); expand s ip e
  | _ => '(s, ip, e) ← ipv6_groups 8 s [] None; expand s ip e
  end.

(** [netip.ParseAddr]: the first dot or colon decides.  An address with a zone
    (behind a percent sign) is refused by both callers. *)
Fixpoint first_separator (s : list Z) : option Z :=
  match s with
  | [] => None
  | c :: s => if (c =? 46) || (c =? 58) || (c =? 37) then Some c else first_separator s
  end.

Definition parse_addr (s : list Z) : option addr :=
  if bool_decide (37 ∈ s) then None
  else
    match first_separator s with
    | Some 46 => V4 <$> parse_ipv4 s
    | Some 58 => V6 <$> parse_ipv6 s
    | _ => None
    end.

(** [As16]: IPv4 addresses in the mapped form. *)
Definition v4_in_v6 : list Z := replicate 10 0 ++ [255; 255].
Definition as16 (a : addr) : list Z := match a with V4 b => v4_in_v6 ++ b | V6 b => b end.
Definition to4 (ip : list Z) : option (list Z) :=
  if bool_decide (take 12 ip = v4_in_v6) then Some (drop 12 ip) else None.

Definition ParseIP (s : list Z) : option (list Z) := as16 <$> parse_addr s.

(** ** Classes of addresses *)

Section classes.
Context (ip : list Z).

Definition at_ (b : list Z) (i : nat) : Z := default 0 (b !! i).

Definition is_loopback : bool :=
  match to4 ip with
  | Some b => at_ b 0 =? 127
  | None => bool_decide (ip = replicate 15 0 ++ [1])
  end.

Definition is_multicast : bool :=
  match to4 ip with
  | Some b => Z.land (at_ b 0) 0xf0 =? 0xe0
  | None => at_ ip 0 =? 0xff
  end.

Definition is_link_local_unicast : bool :=
  match to4 ip with
  | Some b => (at_ b 0 =? 169) && (at_ b 1 =? 254)
  | None => (at_ ip 0 =? 0xfe) && (Z.land (at_ ip 1) 0xc0 =? 0x80)
  end.

Definition is_unspecified : bool :=
  bool_decide (ip = v4_in_v6 ++ [0; 0; 0; 0]) || bool_decide (ip = replicate 16 0).

Definition IsGlobalUnicast : bool :=
  negb (bool_decide (ip = v4_in_v6 ++ [255; 255; 255; 255])) && negb is_unspecified &&
  negb is_loopback && negb is_multicast && negb is_link_local_unicast.

Definition IsPrivate : bool :=
  match to4 ip with
  | Some b =>
      (at_ b 0 =? 10) || ((at_ b 0 =? 172) && (Z.land (at_ b 1) 0xf0 =? 16)) ||
      ((at_ b 0 =? 192) && (at_ b 1 =? 168))
  | None => Z.land (at_ ip 0) 0xfe =? 0xfc
  end.
End classes.

Definition isPrivateIP (ipStr : list Z) : bool :=
  match ParseIP ipStr with
  | None => true
  | Some parsed => negb (IsGlobalUnicast parsed) || IsPrivate parsed
  end.

(** ** Subnets *)

(** [CIDRMask]: [n] ones, [len] bytes. *)
Fixpoint cidr_mask (n : Z) (len : nat) : list Z :=
  match len with
  | O => []
  | S len =>
      if 8 <=? n then 255 :: cidr_mask (n - 8) len
      else (255 - Z.shiftr 255 n) :: cidr_mask 0 len
  end.

(** The decimal digits at the beginning: value and how many; [None] for
    numbers the library calls too big. *)
Fixpoint dtoi (s : list Z) (n i : Z) : option (Z * Z) :=
  match s with
  | c :: s =>
      if is_digit c then
        let n := n * 10 + (c - 48) in
        if 0xFFFFFF <=? n then None else dtoi s n (i + 1)
      else Some (n, i)
  | [] => Some (n, i)
  end.

Fixpoint cut (s : list Z) (sep : Z) : option (list Z * list Z) :=
  match s with
  | [] => None
  | c :: s => if c =? sep then Some ([], s) else '(a, b) ← cut s sep; Some (c :: a, b)
  end.

(** The network number and its mask, as [networkNumberAndMask] gives them. *)
Record IPNet := mkIPNet { net_ip : list Z; net_mask : list Z }.

Definition land_bytes (a m : list Z) : list Z := zip_with Z.land a m.

Definition ParseCIDR (s : list Z) : option IPNet :=
  '(a, mask) ← cut s 47;
  ad ← parse_addr a;
  '(n, i) ← dtoi mask 0 0;
  let len := match ad with V4 _ => 4%nat | V6 _ => 16%nat end in
  if (i =? 0) || negb (i =? zlen mask) || (8 * Z.of_nat len <? n) then None
  else
    let m := cidr_mask n len in
    let nn := match ad with V4 b => land_bytes b m | V6 b => land_bytes b m end in
    match to4 nn with
    | Some nn' => Some (mkIPNet nn' (drop 12 m))
    | None => Some (mkIPNet nn m)
    end.

Definition net_contains (n : IPNet) (ip : option (list Z)) : bool :=
  match ip with
  | None => false
  | Some ip =>
      let ip := default ip (to4 ip) in
      if negb (length ip =? length (net_ip n))%nat then false
      else bool_decide (land_bytes (net_ip n) (net_mask n) = land_bytes ip (net_mask n))
  end.

(** ** Reading back what the service prints *)

(** A byte in decimal: one, two or three digits. *)
Definition decimal_byte (z : Z) : list Z :=
  if z <? 10 then [48 + z]
  else if z <? 100 then [48 + z / 10; 48 + z mod 10]
  else [48 + z / 100; 48 + z / 10 mod 10; 48 + z mod 10].

(** A statement about all bytes, by evaluation. *)
Lemma byte_cases (P : Z → Prop) `{∀ z, Decision (P z)} :
  forallb (λ n, bool_decide (P (Z.of_nat n))) (seq 0 256) = true → ∀ z, is_byte z → P z.
Proof.
  rewrite forallb_forall. intros Hall z [Hz Hz'].
  assert (bool_decide (P (Z.of_nat (Z.to_nat z))) = true) as Hb.
  { apply Hall, in_seq. change (2 ^ 8) with 256 in Hz'. lia. }
  rewrite Z2Nat.id in Hb by done. by apply bool_decide_eq_true in Hb.
Qed.

Lemma fmt_u_decimal z : is_byte z → fmt_u z = decimal_byte z.
Proof. revert z. apply (byte_cases (λ z, fmt_u z = decimal_byte z)). by vm_compute. Qed.

Lemma byte_digits z :
  is_byte z → 0 ≤ z / 10 ∧ 0 ≤ z mod 10 < 10 ∧ 0 ≤ z / 10 mod 10 < 10 ∧ 0 ≤ z / 100 < 3 ∧
    z = z / 10 * 10 + z mod 10 ∧ z / 10 = z / 100 * 10 + z / 10 mod 10.
Proof.
  intros [? Hz]. change (2 ^ 8) with 256 in Hz. split_and!.
  - apply Z.div_pos; lia.
  - apply Z.mod_pos_bound; lia.
  - apply Z.mod_pos_bound; lia.
  - apply Z.mod_pos_bound; lia.
  - apply Z.mod_pos_bound; lia.
  - apply Z.div_pos; lia.
  - apply Z.div_lt_upper_bound; lia.
  - pose proof (Z_div_mod_eq_full z 10). lia.
  - pose proof (Z_div_mod_eq_full (z / 10) 10) as E. rewrite Z.div_div in E by lia.
    change (10 * 10) with 100 in E. lia.
Qed.

(** One digit of a number that stays a byte. *)
Lemma parse_digit d s pd val dl fs :
  0 ≤ d < 10 → val * 10 + d ≤ 255 → (dl =? 1) && (val =? 0) = false →
  parse_ipv4_fields ((48 + d) :: s) pd val dl fs =
    parse_ipv4_fields s false (val * 10 + d) (dl + 1) fs.
Proof.
  intros Hd Hv Hz. cbn [parse_ipv4_fields]. unfold is_digit.
  replace ((48 <=? 48 + d) && (48 + d <=? 57)) with true by lia. rewrite Hz.
  replace (48 + d - 48) with d by lia. by destruct (Z.ltb_spec 255 (val * 10 + d)); [lia|].
Qed.

Lemma parse_number z s pd fs :
  is_byte z → ∃ dl, 0 < dl ∧
    parse_ipv4_fields (fmt_u z ++ s) pd 0 0 fs = parse_ipv4_fields s false z dl fs.
Proof.
  intros Hz. rewrite fmt_u_decimal by done. pose proof (byte_digits z Hz) as (H0 & H1 & H2 & H3 & H4 & H5).
  destruct Hz as [Hz Hz']. change (2 ^ 8) with 256 in Hz'. unfold decimal_byte.
  destruct (Z.ltb_spec z 10); [|destruct (Z.ltb_spec z 100)]; cbn [app].
  - exists 1. split; [lia|]. rewrite parse_digit by lia. by f_equal; lia.
  - exists 2. split; [lia|]. rewrite !parse_digit by lia. by f_equal; lia.
  - exists 3. split; [lia|]. rewrite !parse_digit by lia. by f_equal; lia.
Qed.

Lemma parse_dot s val dl fs :
  s ≠ [] → zlen fs ≠ 3 →
  parse_ipv4_fields (str "." ++ s) false val dl fs = parse_ipv4_fields s true 0 0 (fs ++ [val]).
Proof.
  intros Hs Hf. change (str "." ++ s) with (46 :: s). cbn [parse_ipv4_fields].
  change (is_digit 46) with false. cbn [Z.eqb Pos.eqb orb].
  rewrite bool_decide_eq_false_2 by done. by destruct (Z.eqb_spec (zlen fs) 3).
Qed.

Lemma fmt_u_ne z s : is_byte z → fmt_u z ++ s ≠ [].
Proof. intros Hz. rewrite fmt_u_decimal by done. unfold decimal_byte. by repeat case_test. Qed.

Lemma parse_ipv4_dotted b : bytes b → length b = 4%nat → parse_ipv4 (dotted b) = Some b.
Proof.
  intros Hb Hl. destruct b as [|b0 [|b1 [|b2 [|b3 [|]]]]]; try done. clear Hl.
  unfold bytes in Hb. rewrite !Forall_cons in Hb. destruct Hb as (H0 & H1 & H2 & H3 & _).
  unfold parse_ipv4, dotted.
  destruct (parse_number b0 (str "." ++ fmt_u b1 ++ str "." ++ fmt_u b2 ++ str "." ++ fmt_u b3)
    true [] H0) as (d0 & _ & ->).
  rewrite parse_dot by (done || by apply fmt_u_ne).
  destruct (parse_number b1 (str "." ++ fmt_u b2 ++ str "." ++ fmt_u b3) true ([] ++ [b0]) H1)
    as (d1 & _ & ->).
  rewrite parse_dot by (done || by apply fmt_u_ne).
  destruct (parse_number b2 (str "." ++ fmt_u b3) true (([] ++ [b0]) ++ [b1]) H2) as (d2 & _ & ->).
  rewrite parse_dot; [|rewrite <-(app_nil_r (fmt_u b3)); by apply fmt_u_ne|done].
  rewrite <-(app_nil_r (fmt_u b3)).
  by destruct (parse_number b3 [] true ((([] ++ [b0]) ++ [b1]) ++ [b2]) H3) as (d3 & _ & ->).
Qed.

(** *** Hexadecimal groups *)

Lemma fmt_hex_byte z :
  is_byte z → fmt_hex 2 z = [hex_digit (z / 16); hex_digit (z mod 16)] ∧
    0 ≤ z / 16 < 16 ∧ 0 ≤ z mod 16 < 16 ∧ z = z / 16 * 16 + z mod 16.
Proof.
  intros [? Hz]. change (2 ^ 8) with 256 in Hz.
  assert (0 ≤ z / 16 < 16) as Hq by (split; [apply Z.div_pos|apply Z.div_lt_upper_bound]; lia).
  split_and!; try apply Hq; try (apply Z.mod_pos_bound; lia).
  - cbn [fmt_hex app]. by rewrite (Z.mod_small (z / 16)).
  - pose proof (Z_div_mod_eq_full z 16). lia.
Qed.

Lemma hex_value_digit d : 0 ≤ d < 16 → hex_value (hex_digit d) = Some d.
Proof.
  intros Hd. unfold hex_digit, hex_value, is_digit. destruct (Z.ltb_spec d 10).
  - replace ((48 <=? 48 + d) && (48 + d <=? 57)) with true by lia. f_equal. lia.
  - replace ((48 <=? 87 + d) && (87 + d <=? 57)) with false by lia.
    replace ((97 <=? 87 + d) && (87 + d <=? 102)) with true by lia. f_equal. lia.
Qed.

Lemma hex_digit_char d : 0 ≤ d < 16 → hex_digit d ≠ 46 ∧ hex_digit d ≠ 58 ∧ hex_digit d ≠ 37.
Proof. intros. unfold hex_digit. destruct (Z.ltb_spec d 10); lia. Qed.

Lemma hex_group_pair h l s :
  is_byte h → is_byte l → (s = [] ∨ ∃ r, s = 58 :: r) →
  hex_group (fmt_hex 2 h ++ fmt_hex 2 l ++ s) 0 0 = Some (4, h * 256 + l, s).
Proof.
  intros Hh Hl Hs. destruct (fmt_hex_byte h Hh) as (-> & Hh1 & Hh2 & Eh).
  destruct (fmt_hex_byte l Hl) as (-> & Hl1 & Hl2 & El). cbn [app hex_group].
  rewrite !hex_value_digit by done. cbn [Z.ltb Z.compare Z.add Pos.compare Pos.compare_cont Pos.add Pos.succ].
  set (a := h / 16) in *. set (b := h mod 16) in *. set (c := l / 16) in *. set (d := l mod 16) in *.
  repeat match goal with |- context [65535 <? ?x] => destruct (Z.ltb_spec 65535 x); [lia|] end.
  destruct Hs as [->|[r ->]]; cbn [hex_group].
  - do 2 f_equal. f_equal. lia.
  - change (hex_value 58) with (@None Z). do 2 f_equal. f_equal. lia.
Qed.

Lemma colons_pair h l r :
  r ≠ [] → colons 2 2 (h :: l :: r) = fmt_hex 2 h ++ fmt_hex 2 l ++ [58] ++ colons 2 2 r.
Proof. by destruct r. Qed.

Lemma hex_first h s : is_byte h → ∃ d s', fmt_hex 2 h ++ s = d :: s' ∧ d ≠ 58.
Proof.
  intros Hh. destruct (fmt_hex_byte h Hh) as (-> & Hd & _). cbn [app].
  eexists _, _. split; [done|]. by apply hex_digit_char.
Qed.

Lemma colons_first h r : is_byte h → ∃ d s, colons 2 2 (h :: r) = d :: s ∧ d ≠ 58.
Proof.
  intros Hh. destruct r as [|l r].
  - destruct (hex_first h [] Hh) as (d & s & E & Hd). rewrite app_nil_r in E.
    exists d, s. by split.
  - change (colons 2 2 (h :: l :: r)) with (fmt_hex 2 h ++ colons 2 1 (l :: r)). by apply hex_first.
Qed.

Lemma ipv6_groups_colons m fuel b ip :
  length b = (2 * S m)%nat → bytes b → (m < fuel)%nat → zlen ip + 2 * (1 + Z.of_nat m) ≤ 16 →
  ipv6_groups fuel (colons 2 2 b) ip None = Some ([], ip ++ b, None).
Proof.
  revert fuel b ip. induction m as [|m IH]; intros fuel b ip Hl Hb Hf Hip.
  all: destruct b as [|h [|l r]]; try (simpl in Hl; lia).
  all: destruct fuel as [|fuel]; [lia|]; cbn [ipv6_groups].
  all: unfold bytes in Hb; rewrite !Forall_cons in Hb; destruct Hb as (Hh & Hlo & Hr).
  all: destruct (Z.leb_spec 16 (zlen ip)); [lia|].
  all: assert ((h * 256 + l) / 256 = h ∧ (h * 256 + l) mod 256 = l) as [Eh El]
    by (destruct Hlo as [? Hlo]; change (2 ^ 8) with 256 in Hlo;
        split; [symmetry; apply (Z.div_unique _ _ h l); lia
               |symmetry; apply (Z.mod_unique _ _ h l); lia]).
  - assert (r = []) as -> by (destruct r; [done|simpl in Hl; lia]).
    change (colons 2 2 [h; l]) with (fmt_hex 2 h ++ fmt_hex 2 l).
    rewrite <-(app_nil_r (fmt_hex 2 l)), hex_group_pair by auto. cbn. by rewrite Eh, El.
  - assert (r ≠ []) as Hne by (intros ->; simpl in Hl; lia).
    rewrite colons_pair, hex_group_pair by eauto.
    cbn [mbind option_bind Z.eqb app Pos.eqb]. rewrite Eh, El.
    destruct r as [|h' r]; [done|]. destruct (colons_first h' r) as (d & s & E & Hd).
    { by inversion Hr. }
    rewrite E.
    assert (ipv6_groups fuel (d :: s) (ip ++ [h; l]) None =
      Some ([], (ip ++ [h; l]) ++ h' :: r, None)) as IHr.
    { rewrite <-E. apply IH; [simpl in *; lia|done|lia|rewrite length_app; simpl; lia]. }
    rewrite <-app_assoc in IHr. cbn [app] in IHr. rewrite <-IHr. clear -Hd.
    destruct d as [|p|]; try done. repeat (destruct p as [p|p|]; try done).
Qed.

(** *** Whole addresses *)

(** The characters of the addresses the service prints. *)
Definition address_char (c : Z) : Prop := c = 46 ∨ 48 ≤ c ≤ 58 ∨ 97 ≤ c ≤ 102.

Lemma chars_fmt_u z : is_byte z → Forall address_char (fmt_u z).
Proof.
  intros Hz. rewrite fmt_u_decimal by done. pose proof (byte_digits z Hz). unfold decimal_byte, address_char.
  destruct Hz as [? Hz]. change (2 ^ 8) with 256 in Hz.
  repeat case_test; repeat apply Forall_cons_2; try apply Forall_nil_2; lia.
Qed.

Lemma chars_fmt_hex z : is_byte z → Forall address_char (fmt_hex 2 z).
Proof.
  intros Hz. destruct (fmt_hex_byte z Hz) as (-> & H0 & H1 & _). unfold hex_digit, address_char.
  repeat case_test; repeat apply Forall_cons_2; try apply Forall_nil_2; lia.
Qed.

Lemma chars_colons n k b : bytes b → Forall address_char (colons n k b).
Proof.
  intros Hb. revert k. induction Hb as [|x b Hx Hb IH]; intros k; cbn [colons]; [constructor|].
  destruct b as [|y b]; [by apply chars_fmt_hex|].
  destruct k as [|[|k]]; repeat (apply Forall_app_2; [by apply chars_fmt_hex|]); try apply IH.
  all: change (str ":") with [58]; apply Forall_app_2; [|apply IH].
  all: apply Forall_cons_2; [unfold address_char; lia|done].
Qed.

Lemma chars_dotted b : bytes b → Forall address_char (dotted b).
Proof.
  intros Hb. destruct b as [|b0 [|b1 [|b2 [|b3 [|]]]]]; try constructor.
  unfold bytes in Hb. rewrite !Forall_cons in Hb. destruct Hb as (H0 & H1 & H2 & H3 & _).
  assert (Forall address_char [46]) by (apply Forall_cons_2; [unfold address_char; lia|done]).
  unfold dotted. change (str ".") with [46]. repeat (apply Forall_app_2; [try done; by apply chars_fmt_u|]).
  by apply chars_fmt_u.
Qed.

Lemma first_separator_skip a c s :
  Forall (λ x, x ≠ 46 ∧ x ≠ 58 ∧ x ≠ 37) a → (c = 46 ∨ c = 58) →
  first_separator (a ++ c :: s) = Some c.
Proof.
  intros Ha Hc. induction Ha as [|x a (? & ? & ?) _ IH]; cbn [app first_separator].
  - by replace ((c =? 46) || (c =? 58) || (c =? 37)) with true by lia.
  - by replace ((x =? 46) || (x =? 58) || (x =? 37)) with false by lia.
Qed.

Lemma no_percent s : Forall address_char s → 37 ∉ s.
Proof. intros H Hin. rewrite Forall_forall in H. apply H in Hin. unfold address_char in Hin. lia. Qed.

Lemma parse_addr_dotted b : bytes b → length b = 4%nat → parse_addr (dotted b) = Some (V4 b).
Proof.
  intros Hb Hl. unfold parse_addr. rewrite bool_decide_eq_false_2 by by apply no_percent, chars_dotted.
  assert (first_separator (dotted b) = Some 46) as ->; [|by rewrite parse_ipv4_dotted].
  destruct b as [|b0 [|b1 [|b2 [|b3 [|]]]]]; try done. unfold bytes in Hb. rewrite Forall_cons in Hb.
  destruct Hb as [H0 _]. unfold dotted. change (str ".") with [46]. apply first_separator_skip; [|auto].
  rewrite fmt_u_decimal by done. pose proof (byte_digits b0 H0). destruct H0 as [? H0].
  change (2 ^ 8) with 256 in H0. unfold decimal_byte.
  repeat case_test; repeat apply Forall_cons_2; try apply Forall_nil_2; lia.
Qed.

Lemma parse_addr_colons b : bytes b → length b = 16%nat → parse_addr (colons 2 2 b) = Some (V6 b).
Proof.
  intros Hb Hl. unfold parse_addr. rewrite bool_decide_eq_false_2 by by apply no_percent, chars_colons.
  pose proof (ipv6_groups_colons 7 8 b [] Hl Hb ltac:(lia) ltac:(simpl; lia)) as Hg.
  destruct b as [|h [|l r]]; [done..|]. destruct (colons_first h (l :: r)) as (d & s & E & Hd).
  { by inversion Hb. }
  assert (first_separator (colons 2 2 (h :: l :: r)) = Some 58) as ->.
  { unfold bytes in Hb. rewrite !Forall_cons in Hb. destruct Hb as (Hh & Hlo & _).
    rewrite colons_pair by (by intros ->). rewrite app_assoc. apply first_separator_skip; [|auto].
    destruct (fmt_hex_byte h Hh) as (-> & ? & ? & _), (fmt_hex_byte l Hlo) as (-> & ? & ? & _).
    cbn [app]. repeat (apply Forall_cons_2; [by apply hex_digit_char|]).
    constructor. }
  assert (parse_ipv6 (colons 2 2 (h :: l :: r)) = Some (h :: l :: r)) as ->; [|done].
  assert (∀ x, parse_ipv6 (d :: s) = x ↔
    ('(s, ip, e) ← ipv6_groups 8 (d :: s) [] None; expand s ip e) = x) as Hv6.
  { clear -Hd. intros x. destruct d as [|p|]; try done. repeat (destruct p as [p|p|]; try done). }
  rewrite E. apply Hv6. rewrite <-E, Hg. cbn [mbind option_bind app]. unfold expand.
  rewrite Hl. by rewrite bool_decide_eq_true_2.
Qed.

Lemma parse_addr_service ip v6 :
  is_array 16 ip →
  parse_addr (ip_addr_to_string ip v6) = Some (if v6 then V6 ip else V4 (drop 12 ip)).
Proof.
  intros [Hl Hb]. unfold ip_addr_to_string. destruct v6.
  - apply parse_addr_colons; [done|lia].
  - apply parse_addr_dotted; [by apply bytes_drop|rewrite length_drop; lia].
Qed.

(** ** Subnets *)

(** A list of bytes as a number, most significant first. *)
Fixpoint be_value (b : list Z) : Z :=
  match b with [] => 0 | x :: b => x * 256 ^ zlen b + be_value b end.

Lemma be_value_range b : bytes b → 0 ≤ be_value b < 256 ^ zlen b.
Proof.
  induction 1 as [|x b [Hx Hx'] _ IH]; [by cbn|]. cbn [be_value length].
  change (2 ^ 8) with 256 in Hx'. rewrite Nat2Z.inj_succ, Z.pow_succ_r by lia.
  split; [apply Z.add_nonneg_nonneg; [apply Z.mul_nonneg_nonneg; lia|lia]|].
  assert (x * 256 ^ zlen b ≤ 255 * 256 ^ zlen b) by (apply Z.mul_le_mono_nonneg_r; lia). lia.
Qed.

(** The mask byte with [n] ones keeps the leading [n] bits. *)
Lemma land_partial x n :
  is_byte x → 0 ≤ n < 8 → Z.land x (255 - Z.shiftr 255 n) = x / 2 ^ (8 - n) * 2 ^ (8 - n).
Proof.
  intros Hx Hn. revert x Hx.
  assert (n = 0 ∨ n = 1 ∨ n = 2 ∨ n = 3 ∨ n = 4 ∨ n = 5 ∨ n = 6 ∨ n = 7) as Hc by lia.
  destruct_or! Hc; subst n; apply (byte_cases (λ x, Z.land x _ = _)); by vm_compute.
Qed.

Lemma land_full x : is_byte x → Z.land x 255 = x.
Proof. revert x. apply (byte_cases (λ x, Z.land x 255 = x)). by vm_compute. Qed.

Lemma land_mask_0 b m : length b = m → land_bytes b (cidr_mask 0 m) = replicate m 0.
Proof.
  intros <-. induction b as [|x b IH]; [done|]. cbn. rewrite Z.land_0_r. f_equal. apply IH.
Qed.

Lemma land_bytes_cons x a y m : land_bytes (x :: a) (y :: m) = Z.land x y :: land_bytes a m.
Proof. done. Qed.

Lemma div_cancel_tail x v k n :
  0 ≤ v < 256 ^ k → 0 ≤ n ≤ 8 → 0 ≤ k →
  (x * 256 ^ k + v) / 2 ^ (8 * (k + 1) - n) = x / 2 ^ (8 - n).
Proof.
  intros Hv Hn Hk. replace (8 * (k + 1) - n) with (8 * k + (8 - n)) by lia.
  rewrite Z.pow_add_r by lia. rewrite <-Z.div_div; [|apply Z.pow_nonzero; lia|apply Z.pow_pos_nonneg; lia].
  rewrite Z.pow_mul_r by lia. change (2 ^ 8) with 256. rewrite Z.div_add_l by (apply Z.pow_nonzero; lia).
  by rewrite (Z.div_small v), Z.add_0_r.
Qed.

Lemma div_keep_head x v k n :
  0 ≤ v < 256 ^ k → 8 ≤ n ≤ 8 * (k + 1) → 0 ≤ k →
  (x * 256 ^ k + v) / 2 ^ (8 * (k + 1) - n) = x * 2 ^ (n - 8) + v / 2 ^ (8 * k - (n - 8)) ∧
  0 ≤ v / 2 ^ (8 * k - (n - 8)) < 2 ^ (n - 8).
Proof.
  intros Hv Hn Hk. replace (8 * (k + 1) - n) with (8 * k - (n - 8)) by lia.
  set (j := 8 * k - (n - 8)). assert (256 ^ k = 2 ^ (n - 8) * 2 ^ j) as E.
  { rewrite <-Z.pow_add_r by lia. change 256 with (2 ^ 8). rewrite <-Z.pow_mul_r by lia.
    f_equal. lia. }
  assert (0 < 2 ^ j) by (apply Z.pow_pos_nonneg; lia). split.
  - rewrite E, Z.mul_assoc. rewrite Z.div_add_l by lia. done.
  - split; [apply Z.div_pos; lia|]. apply Z.div_lt_upper_bound; [done|]. rewrite Z.mul_comm, <-E. lia.
Qed.

Lemma div_mul_inj x y p : 0 < p → x / p * p = y / p * p → x / p = y / p.
Proof. intros Hp E. apply Z.mul_reg_r in E; lia. Qed.

(** Two addresses agree under a mask of [n] bits exactly when they agree on
    their [n] leading bits. *)
Lemma land_mask_prefix a b n :
  bytes a → bytes b → length a = length b → 0 ≤ n ≤ 8 * zlen a →
  land_bytes a (cidr_mask n (length a)) = land_bytes b (cidr_mask n (length a)) ↔
  be_value a / 2 ^ (8 * zlen a - n) = be_value b / 2 ^ (8 * zlen a - n).
Proof.
  intros Ha. revert b n. induction Ha as [|x a Hx Ha IH]; intros b n Hb Hl Hn.
  { destruct b; [done|by simpl in Hl]. }
  destruct b as [|y b]; [by simpl in Hl|]. inversion Hb as [|? ? Hy Hb']; subst.
  injection Hl as Hl. cbn [length be_value cidr_mask] in *. rewrite <-Hl.
  replace (Z.of_nat (S (length a))) with (zlen a + 1) in * by lia.
  pose proof (be_value_range a Ha) as Ra. pose proof (be_value_range b Hb') as Rb. rewrite <-Hl in Rb.
  destruct (Z.leb_spec 8 n); rewrite !land_bytes_cons.
  - rewrite !land_full by done.
    destruct (div_keep_head x _ (zlen a) n Ra) as [-> Qa]; [lia..|].
    destruct (div_keep_head y _ (zlen a) n Rb) as [-> Qb]; [lia..|].
    specialize (IH b (n - 8) Hb' Hl ltac:(lia)). split.
    + intros [= -> E]. f_equal. by apply IH.
    + intros E. assert (x = y) as ->.
      { set (p := 2 ^ (n - 8)) in *. clearbody p. nia. }
      f_equal. apply IH. lia.
  - rewrite !div_cancel_tail, !land_partial by lia || done.
    assert (land_bytes a (cidr_mask 0 (length a)) = land_bytes b (cidr_mask 0 (length a))) as ->.
    { by rewrite !land_mask_0. }
    assert (0 < 2 ^ (8 - n)) by (apply Z.pow_pos_nonneg; lia). split.
    + intros [= E]. by eapply div_mul_inj.
    + intros ->. done.
Qed.

(** *** What a subnet word of the filter selects *)

Lemma land_bytes_idemp a m : land_bytes (land_bytes a m) m = land_bytes a m.
Proof.
  revert m. induction a as [|x a IH]; intros [|y m]; try done.
  by rewrite !land_bytes_cons, IH, <-Z.land_assoc, Z.land_diag.
Qed.

Lemma length_cidr_mask n l : length (cidr_mask n l) = l.
Proof.
  revert n. induction l as [|l IH]; intros n; [done|]. cbn [cidr_mask].
  case_test; cbn [length]; by rewrite IH.
Qed.

Lemma length_land_bytes a n : length (land_bytes a (cidr_mask n (length a))) = length a.
Proof. unfold land_bytes. by rewrite length_zip_with_l_eq by (by rewrite length_cidr_mask). Qed.

Lemma cut_app a sep s : sep ∉ a → cut (a ++ sep :: s) sep = Some (a, s).
Proof.
  induction a as [|c a IH]; intros Ha; cbn [cut app].
  - by rewrite Z.eqb_refl.
  - rewrite not_elem_of_cons in Ha. destruct Ha as [Hc Ha].
    destruct (Z.eqb_spec c sep); [congruence|]. by rewrite IH.
Qed.

Lemma dtoi_fmt n : is_byte n → dtoi (fmt_u n) 0 0 = Some (n, zlen (fmt_u n)).
Proof.
  revert n. apply (byte_cases (λ n, dtoi (fmt_u n) 0 0 = Some (n, zlen (fmt_u n)))). by vm_compute.
Qed.

Lemma zlen_fmt_u n : is_byte n → 0 < zlen (fmt_u n).
Proof. intros Hn. rewrite fmt_u_decimal by done. unfold decimal_byte. by repeat case_test. Qed.

Lemma to4_short b : (length b < 12)%nat → to4 b = None.
Proof.
  intros Hb. unfold to4. rewrite bool_decide_eq_false_2; [done|]. intros E.
  apply (f_equal length) in E. rewrite length_take in E. change (length v4_in_v6) with 12%nat in E. lia.
Qed.

Lemma ParseCIDR_dotted net n :
  bytes net → length net = 4%nat → 0 ≤ n ≤ 32 →
  ParseCIDR (dotted net ++ str "/" ++ fmt_u n) =
    Some (mkIPNet (land_bytes net (cidr_mask n 4)) (cidr_mask n 4)).
Proof.
  intros Hb Hl Hn. unfold ParseCIDR. change (str "/" ++ fmt_u n) with (47 :: fmt_u n).
  assert (is_byte n) as Hby by (unfold is_u; lia). rewrite cut_app.
  2: { intros Hin. pose proof (chars_dotted net Hb) as Hc. rewrite Forall_forall in Hc.
       apply Hc in Hin. unfold address_char in Hin. lia. }
  cbn [mbind option_bind]. rewrite parse_addr_dotted, dtoi_fmt by done. cbn [mbind option_bind].
  pose proof (zlen_fmt_u n Hby). rewrite Z.eqb_refl.
  replace (zlen (fmt_u n) =? 0) with false by lia.
  replace (8 * Z.of_nat 4 <? n) with false by lia. cbn [orb negb].
  pose proof (length_land_bytes net n) as Hlen. rewrite Hl in Hlen.
  by rewrite to4_short by (rewrite Hlen; lia).
Qed.

(** The form of an address that the comparison uses. *)
Definition short_form (ip : list Z) (v6 : bool) : list Z :=
  let full := as16 (if v6 then V6 ip else V4 (drop 12 ip)) in default full (to4 full).

Lemma to4_mapped b : to4 (v4_in_v6 ++ b) = Some b.
Proof. done. Qed.

Lemma short_form_v4 ip : short_form ip false = drop 12 ip.
Proof. unfold short_form. cbn [as16]. by rewrite to4_mapped. Qed.

Lemma ParseIP_service ip v6 :
  is_array 16 ip →
  ParseIP (ip_addr_to_string ip v6) = Some (as16 (if v6 then V6 ip else V4 (drop 12 ip))).
Proof. intros Hip. unfold ParseIP. by rewrite parse_addr_service. Qed.

Lemma bytes_short_form ip v6 : is_array 16 ip → bytes (short_form ip v6).
Proof.
  intros [Hl Hb]. unfold short_form. destruct v6; cbn [as16].
  - unfold to4. case_bool_decide; cbn; [by apply bytes_drop|done].
  - rewrite to4_mapped. cbn. by apply bytes_drop.
Qed.

Lemma subnet_contains net n ip v6 :
  bytes net → length net = 4%nat → 0 ≤ n ≤ 32 → is_array 16 ip →
  net_contains (mkIPNet (land_bytes net (cidr_mask n 4)) (cidr_mask n 4))
    (ParseIP (ip_addr_to_string ip v6)) = true ↔
  length (short_form ip v6) = 4%nat ∧
  be_value (short_form ip v6) / 2 ^ (32 - n) = be_value net / 2 ^ (32 - n).
Proof.
  intros Hb Hl Hn Hip. rewrite ParseIP_service by done. unfold net_contains.
  change (default _ (to4 _)) with (short_form ip v6).
  set (a := short_form ip v6). assert (bytes a) as Ha by by apply bytes_short_form.
  cbn [net_ip net_mask]. rewrite <-Hl, length_land_bytes, Hl.
  destruct (Nat.eqb_spec (length a) 4); cbn [negb]; [|by split; [|intros [? _]]].
  rewrite bool_decide_eq_true, land_bytes_idemp. rewrite <-Hl.
  pose proof (land_mask_prefix net a n Hb Ha ltac:(lia) ltac:(lia)) as H.
  rewrite H, Hl. change (8 * Z.of_nat 4) with 32.
  split; [by intros ->|by intros [_ ->]].
Qed.

(** ** Private addresses *)

(** The IPv4 addresses that are not looked up: private networks, loopback,
    link-local, multicast, the unspecified and the broadcast address. *)
Definition local_ipv4 (b : list Z) : Prop :=
  match b with
  | [a; b; c; d] =>
      a = 10 ∨ a = 127 ∨ 224 ≤ a < 240 ∨ (a = 169 ∧ b = 254) ∨ (a = 172 ∧ 16 ≤ b < 32) ∨
      (a = 192 ∧ b = 168) ∨ (a = 0 ∧ b = 0 ∧ c = 0 ∧ d = 0) ∨
      (a = 255 ∧ b = 255 ∧ c = 255 ∧ d = 255)
  | _ => False
  end.

Lemma land_f0 x v :
  is_byte x → v = 0xe0 ∨ v = 16 → (Z.land x 0xf0 =? v) = (v <=? x) && (x <? v + 16).
Proof.
  intros Hx Hv. revert x Hx.
  destruct Hv as [-> | ->]; apply (byte_cases (λ x, (Z.land x 0xf0 =? _) = _)); by vm_compute.
Qed.

Lemma quad_eqb a b c d a' b' c' d' :
  bool_decide (v4_in_v6 ++ [a; b; c; d] = v4_in_v6 ++ [a'; b'; c'; d']) =
  (a =? a') && (b =? b') && (c =? c') && (d =? d').
Proof.
  case_bool_decide as E.
  - apply app_inv_head in E. injection E as -> -> -> ->. by rewrite !Z.eqb_refl.
  - destruct (Z.eqb_spec a a'), (Z.eqb_spec b b'), (Z.eqb_spec c c'), (Z.eqb_spec d d');
      subst; done.
Qed.

Lemma mapped_not_zero b : bool_decide (v4_in_v6 ++ b = replicate 16 0) = false.
Proof. by apply bool_decide_eq_false_2. Qed.

Lemma isPrivateIP_v4 b :
  bytes b → length b = 4%nat → isPrivateIP (dotted b) = true ↔ local_ipv4 b.
Proof.
  intros Hb Hl. unfold isPrivateIP, ParseIP. rewrite parse_addr_dotted by done. cbn [fmap option_fmap option_map].
  destruct b as [|a [|b [|c [|d [|]]]]]; try done. clear Hl.
  unfold bytes in Hb. rewrite !Forall_cons in Hb. destruct Hb as (Ha & Hb & Hc & Hd & _).
  unfold IsGlobalUnicast, IsPrivate, is_unspecified, is_loopback, is_multicast, is_link_local_unicast.
  cbn [as16]. rewrite !to4_mapped, !quad_eqb, mapped_not_zero. unfold at_. cbn [lookup list_lookup default].
  rewrite !land_f0 by auto. unfold id. cbn [local_ipv4].
  rewrite !negb_andb, !negb_involutive, !orb_true_iff, !andb_true_iff, !Z.eqb_eq, !Z.leb_le, !Z.ltb_lt.
  clear. intuition (try lia).
Qed.

(** C32. The two ends of the service agree on addresses: whatever the sixteen
    bytes of the record, the text the packet service prints for them is parsed
    by the dashboard to the same address, IPv4 and IPv6; an IPv4 address is
    classified as local exactly in the private, loopback, link-local, multicast,
    unspecified and broadcast ranges; and a word [a.b.c.d/n] of the filter
    denotes exactly the addresses that share the [n] leading bits. *)
Theorem addresses_agree ip v6 :
  is_array 16 ip →
  ParseIP (ip_addr_to_string ip v6) = Some (as16 (if v6 then V6 ip else V4 (drop 12 ip))) ∧
  (isPrivateIP (ip_addr_to_string ip false) = true ↔ local_ipv4 (drop 12 ip)) ∧
  (∀ net n, bytes net → length net = 4%nat → 0 ≤ n ≤ 32 → ∃ nw,
    ParseCIDR (dotted net ++ str "/" ++ fmt_u n) = Some nw ∧
    (net_contains nw (ParseIP (ip_addr_to_string ip v6)) = true ↔
      length (short_form ip v6) = 4%nat ∧
      be_value (short_form ip v6) / 2 ^ (32 - n) = be_value net / 2 ^ (32 - n))).
Proof.
  intros Hip. split; [by apply ParseIP_service|]. split.
  - destruct Hip as [Hl Hb]. apply isPrivateIP_v4; [by apply bytes_drop|]. rewrite length_drop. lia.
  - intros net n Hb Hl Hn. eexists. split; [by apply ParseCIDR_dotted|].
    by apply subnet_contains.
Qed.

Definition sample_ip (b : list Z) : list Z := replicate 12 0 ++ b.

Lemma addresses_agree_witness :
  ParseIP (str "10.1.2.3") = Some (v4_in_v6 ++ [10; 1; 2; 3]) ∧
  isPrivateIP (str "10.1.2.3") = true ∧
  ∃ nw, ParseCIDR (str "10.1.0.0/16") = Some nw ∧ net_contains nw (ParseIP (str "10.1.2.3")) = true.
Proof.
  assert (is_array 16 (sample_ip [10; 1; 2; 3])) as Hip by (split; by_decide).
  destruct (addresses_agree (sample_ip [10; 1; 2; 3]) false Hip) as (H & Hp & Hn).
  split; [exact H|]. split; [apply Hp; by left|].
  destruct (Hn [10; 1; 0; 0] 16) as (nw & E & Hc); [by_decide|done|lia|].
  exists nw. split; [exact E|]. apply Hc. split; by vm_compute.
Defined.
