(* ===== verification/RingBuffer.v ===== *)
(** * The dashboard's history

    [RingBuffer] of [go/dashboard/main.go]: the last packets, in an array that
    is written round and round.  Each operation runs under the buffer's lock;
    a panic (an index out of range, a division by zero) is [None]. *)

From S2P Require Import Prelude.

Section ring.
Context {T : Type}.
Implicit Types (p : T) (l : list T).

Record RingBuffer := mkRing {
    data : list T;
    size : Z;
    head : Z;
    count : Z
  }.

(** [zero] is the zero value of the element type. *)
Definition NewRingBuffer (zero : T) (n : Z) : RingBuffer :=
  mkRing (replicate (Z.to_nat n) zero) n 0 0.

(** [r.data[i]] *)
Definition at_index (l : list T) (i : Z) : option T := if i <? 0 then None else l !! Z.to_nat i.

(** [a % b]; the sign is that of [a]. *)
Definition go_rem (a b : Z) : option Z := if b =? 0 then None else Some (Z.rem a b).

Definition Add (p : T) (r : RingBuffer) : option RingBuffer :=
  _ ← at_index (data r) (head r);
  h ← go_rem (head r + 1) (size r);
  Some (mkRing (<[Z.to_nat (head r) := p]> (data r)) (size r) h
    (if count r <? size r then count r + 1 else count r)).

Definition Clear (r : RingBuffer) : RingBuffer := mkRing (data r) (size r) 0 0.

(** The index of the element [i] of the result. *)
Definition get_index (reversed : bool) (r : RingBuffer) (i : Z) : option Z :=
  if reversed then go_rem (head r - 1 - i + size r) (size r)
  else
    let start := if count r =? size r then head r else 0 in
    go_rem (start + i) (size r).

Definition GetAll (reversed : bool) (r : RingBuffer) : option (list T) :=
  mapM (λ i, idx ← get_index reversed r (Z.of_nat i); at_index (data r) idx)
    (seq 0 (Z.to_nat (count r))).

(** The loop of [Update]: the first [n] elements from [i]. *)
Fixpoint update_loop (f : T → T) (n i : nat) (l : list T) : option (list T) :=
  match n with
  | O => Some l
  | S n => x ← l !! i; update_loop f n (S i) (<[i := f x]> l)
  end.

Definition Update (f : T → T) (r : RingBuffer) : option RingBuffer :=
  l ← update_loop f (Z.to_nat (count r)) 0 (data r);
  Some (mkRing l (size r) (head r) (count r)).

(** ** The contents, oldest first *)

Record ring_ok (r : RingBuffer) : Prop := {
    ring_size : 0 < size r;
    ring_data : zlen (data r) = size r;
    ring_head : 0 ≤ head r < size r;
    ring_count : 0 ≤ count r ≤ size r;
    ring_filling : count r < size r → head r = count r
  }.

Definition contents (r : RingBuffer) : list T :=
  if count r <? size r then take (Z.to_nat (count r)) (data r)
  else drop (Z.to_nat (head r)) (data r) ++ take (Z.to_nat (head r)) (data r).

(** The last [n] elements. *)
Definition last_n (n : nat) (l : list T) : list T := drop (length l - n) l.

Lemma last_n_short n l : (length l <= n)%nat → last_n n l = l.
Proof. intros. unfold last_n. by replace (length l - n)%nat with 0%nat by lia. Qed.

Lemma last_n_snoc n l p : (length l = n)%nat → n ≠ 0%nat → last_n n (l ++ [p]) = drop 1 l ++ [p].
Proof.
  intros <- Hn. unfold last_n. rewrite length_app. cbn [length].
  replace (length l + 1 - length l)%nat with 1%nat by lia. rewrite drop_app_le by lia. done.
Qed.

(** Forgetting early or late makes no difference. *)
Lemma last_n_app n l l' : last_n n (last_n n l ++ l') = last_n n (l ++ l').
Proof.
  unfold last_n. rewrite !length_app, length_drop.
  rewrite <-drop_app_le by lia. rewrite drop_drop. f_equal. lia.
Qed.

Lemma last_n_fmap (f : T → T) n l : last_n n (f <$> l) = f <$> last_n n l.
Proof. unfold last_n. by rewrite length_fmap, fmap_drop. Qed.

Lemma length_last_n n l : (length (last_n n l) <= n)%nat.
Proof. unfold last_n. rewrite length_drop. lia. Qed.

Lemma length_contents r : ring_ok r → zlen (contents r) = count r.
Proof.
  intros [Hs Hd Hh Hc Hf]. unfold contents. destruct (Z.ltb_spec (count r) (size r)).
  - rewrite length_take. lia.
  - rewrite length_app, length_drop, length_take. lia.
Qed.

(** ** The operations on the contents *)

Lemma at_index_lookup l i : 0 ≤ i → at_index l i = l !! Z.to_nat i.
Proof. intros Hi. unfold at_index. by destruct (Z.ltb_spec i 0); [lia|]. Qed.

Lemma NewRingBuffer_ok zero n : 0 < n → ring_ok (NewRingBuffer zero n) ∧ contents (NewRingBuffer zero n) = [].
Proof.
  intros Hn. split; [split; cbn; rewrite ?length_replicate; lia|].
  unfold contents. cbn. by destruct (Z.ltb_spec 0 n); [|lia].
Qed.

Lemma Clear_ok r : ring_ok r → ring_ok (Clear r) ∧ contents (Clear r) = [].
Proof.
  intros [Hs Hd Hh Hc Hf]. split; [split; cbn; lia|].
  unfold contents. cbn. by destruct (Z.ltb_spec 0 (size r)); [|lia].
Qed.

(** The next write position. *)
Lemma next_head r :
  ring_ok r → go_rem (head r + 1) (size r) =
    Some (if head r + 1 =? size r then 0 else head r + 1).
Proof.
  intros [Hs Hd Hh Hc Hf]. unfold go_rem. destruct (Z.eqb_spec (size r) 0); [lia|]. f_equal.
  destruct (Z.eqb_spec (head r + 1) (size r)) as [->|]; [by apply Z.rem_same|].
  apply Z.rem_small. lia.
Qed.

Lemma ring_Add_ok p r :
  ring_ok r → ∃ r', Add p r = Some r' ∧ ring_ok r' ∧ size r' = size r ∧
    contents r' = last_n (Z.to_nat (size r)) (contents r ++ [p]).
Proof.
  intros Hr. pose proof (length_contents r Hr) as Hlen. pose proof (next_head r Hr) as Hn.
  destruct Hr as [Hs Hd Hh Hc Hf]. unfold Add. rewrite at_index_lookup, Hn by lia.
  destruct (lookup_lt_is_Some_2 (data r) (Z.to_nat (head r))) as [x ->]; [lia|].
  eexists. split; [done|]. split.
  { split; cbn [size data head count]; rewrite ?length_insert; repeat case_test; lia. }
  split; [done|]. unfold contents. cbn [size data head count].
  destruct (Z.ltb_spec (count r) (size r)) as [Hlt|Hge].
  - unfold contents in Hlen. rewrite (proj2 (Z.ltb_lt _ _) Hlt) in Hlen.
    rewrite Hf in * by done.
    rewrite last_n_short by (rewrite length_app; simpl; lia).
    assert (take (Z.to_nat (count r + 1)) (<[Z.to_nat (count r) := p]> (data r)) =
      take (Z.to_nat (count r)) (data r) ++ [p]) as E.
    { rewrite insert_take_drop by lia. replace (Z.to_nat (count r + 1)) with (S (Z.to_nat (count r))) by lia.
      rewrite take_app, length_take, take_take.
      replace (S (Z.to_nat (count r)) `min` Z.to_nat (count r))%nat with (Z.to_nat (count r)) by lia.
      f_equal. by replace (S (Z.to_nat (count r)) - _)%nat with 1%nat by lia. }
    destruct (Z.ltb_spec (count r + 1) (size r)); [done|].
    replace (count r + 1 =? size r) with true by lia. cbn [Z.to_nat]. rewrite drop_0, app_nil_r.
    rewrite <-E, take_ge; [done|]. rewrite length_insert. lia.
  - destruct (Z.ltb_spec (count r) (size r)); [lia|].
    rewrite last_n_snoc by (rewrite ?length_app, ?length_drop, ?length_take; lia).
    rewrite insert_take_drop by lia. set (h := Z.to_nat (head r)).
    assert (h < length (data r))%nat by lia.
    assert (length (take h (data r)) = h) as Ht by (rewrite length_take; lia).
    destruct (Z.eqb_spec (head r + 1) (size r)).
    + cbn [Z.to_nat]. rewrite drop_0, app_nil_r.
      assert (h = length (data r) - 1)%nat as Eh by lia.
      assert (drop (S h) (data r) = []) as -> by (apply drop_ge; lia).
      destruct (drop h (data r)) as [|y [|]] eqn:E; [| |].
      * apply (f_equal length) in E. rewrite length_drop in E. simpl in E. lia.
      * done.
      * apply (f_equal length) in E. rewrite length_drop in E. simpl in E. lia.
    + replace (Z.to_nat (head r + 1)) with (S h) by lia.
      rewrite drop_app, take_app, Ht, take_take.
      replace (S h `min` h)%nat with h by lia. replace (S h - h)%nat with 1%nat by lia.
      rewrite (drop_ge (take h (data r))) by lia. cbn [app drop].
      destruct (drop h (data r)) as [|y d] eqn:E.
      { apply (f_equal length) in E. rewrite length_drop in E. simpl in E. lia. }
      assert (drop (S h) (data r) = d) as ->.
      { replace (S h) with (h + 1)%nat by lia. by rewrite <-drop_drop, E. }
      rewrite drop_0. cbn [app drop take]. by rewrite drop_0, <-app_assoc.
Qed.

(** The element [i] of the result of [GetAll] is at this index. *)
Lemma get_index_spec reversed r i :
  ring_ok r → 0 ≤ i < count r →
  get_index reversed r i =
    Some (let start := if count r =? size r then head r else 0 in
      let j := if reversed then (if count r =? size r then head r else count r) - 1 - i else start + i in
      if j <? 0 then j + size r else if j <? size r then j else j - size r).
Proof.
  intros [Hs Hd Hh Hc Hf] Hi. unfold get_index, go_rem. destruct (Z.eqb_spec (size r) 0); [lia|].
  assert (∀ j, 0 ≤ j < 2 * size r → Z.rem j (size r) = if j <? size r then j else j - size r) as Hrem.
  { intros j Hj. destruct (Z.ltb_spec j (size r)); [apply Z.rem_small; lia|].
    replace j with ((j - size r) + 1 * size r) at 1 by lia.
    rewrite Z.rem_add by nia. apply Z.rem_small. lia. }
  destruct reversed; f_equal; rewrite Hrem by (repeat case_test; lia);
    destruct (Z.eqb_spec (count r) (size r)); repeat case_test; lia.
Qed.

Lemma contents_lookup r i :
  ring_ok r → 0 ≤ i < count r →
  contents r !! Z.to_nat i =
    data r !! Z.to_nat (let j := (if count r =? size r then head r else 0) + i in
      if j <? size r then j else j - size r).
Proof.
  intros [Hs Hd Hh Hc Hf] Hi. unfold contents. cbn zeta.
  destruct (Z.ltb_spec (count r) (size r)), (Z.eqb_spec (count r) (size r)); try lia.
  - rewrite lookup_take_lt by lia. f_equal. case_test; lia.
  - destruct (Z.ltb_spec (head r + i) (size r)).
    + rewrite lookup_app_l by (rewrite length_drop; lia). rewrite lookup_drop. f_equal. lia.
    + rewrite lookup_app_r by (rewrite length_drop; lia). rewrite length_drop, lookup_take_lt by lia.
      f_equal. lia.
Qed.

Lemma mapM_seq_lookup (g : nat → option T) l n :
  length l = n → (∀ i, (i < n)%nat → g i = l !! i) → mapM g (seq 0 n) = Some l.
Proof.
  intros Hl Hg. apply mapM_Some. apply Forall2_same_length_lookup. split.
  { by rewrite length_seq, Hl. }
  intros i x y Hx Hy. apply lookup_seq in Hx as [-> Hi]. rewrite Hg by done. done.
Qed.

Lemma ring_GetAll_ok reversed r :
  ring_ok r → GetAll reversed r = Some (if reversed then reverse (contents r) else contents r).
Proof.
  intros Hr. pose proof (length_contents r Hr) as Hl. unfold GetAll. apply mapM_seq_lookup.
  { destruct reversed; rewrite ?length_reverse; lia. }
  intros i Hi. pose proof Hr as [Hs Hd Hh Hc Hf]. rewrite get_index_spec by (done || lia).
  cbn [mbind option_bind]. rewrite at_index_lookup by (destruct reversed; repeat case_test; lia).
  destruct reversed.
  - rewrite reverse_lookup by lia.
    replace (length (contents r) - S i)%nat with (Z.to_nat (count r - 1 - Z.of_nat i)) by lia.
    rewrite contents_lookup by (done || lia). f_equal. f_equal.
    cbn zeta. destruct (Z.eqb_spec (count r) (size r)); repeat case_test; lia.
  - replace (contents r !! i) with (contents r !! Z.to_nat (Z.of_nat i)) by (by rewrite Nat2Z.id).
    rewrite contents_lookup by (done || lia).
    do 2 f_equal. cbn zeta. destruct (Z.eqb_spec (count r) (size r)); repeat case_test; lia.
Qed.

Lemma update_loop_ok f n i l :
  (i + n <= length l)%nat →
  ∃ l', update_loop f n i l = Some l' ∧ length l' = length l ∧
    ∀ j, l' !! j = if decide (i ≤ j < i + n)%nat then f <$> l !! j else l !! j.
Proof.
  revert i l. induction n as [|n IH]; intros i l Hi; cbn [update_loop].
  - exists l. split_and!; try done. intros j. by rewrite decide_False by lia.
  - destruct (lookup_lt_is_Some_2 l i) as [x Hx]; [lia|]. rewrite Hx. cbn [mbind option_bind].
    destruct (IH (S i) (<[i := f x]> l)) as (l' & -> & Hl & Hj); [rewrite length_insert; lia|].
    exists l'. rewrite length_insert in Hl. split_and!; try done. intros j. rewrite Hj.
    destruct (decide (j = i)) as [->|Hne].
    + rewrite decide_False, decide_True by lia. rewrite list_lookup_insert_eq by lia. by rewrite Hx.
    + rewrite list_lookup_insert_ne by done. repeat case_decide; lia || done.
Qed.

Lemma Update_ok f r :
  ring_ok r → ∃ r', Update f r = Some r' ∧ ring_ok r' ∧ size r' = size r ∧
    contents r' = f <$> contents r.
Proof.
  intros Hr. pose proof Hr as [Hs Hd Hh Hc Hf]. unfold Update.
  destruct (update_loop_ok f (Z.to_nat (count r)) 0 (data r)) as (l & -> & Hl & Hj); [lia|].
  eexists. split; [done|]. assert (ring_ok (mkRing l (size r) (head r) (count r))) as Hr'
    by (split; cbn; lia).
  split; [done|]. split; [done|]. apply list_eq. intros i. rewrite list_lookup_fmap.
  pose proof (length_contents _ Hr) as L. pose proof (length_contents _ Hr') as L'.
  cbn [count] in L'. destruct (decide (Z.of_nat i < count r)) as [Hi|Hi].
  - rewrite <-(Nat2Z.id i), !contents_lookup by (done || (cbn; lia)).
    cbn [size head count data]. rewrite Hj. rewrite decide_True; [done|].
    cbn zeta. destruct (Z.eqb_spec (count r) (size r)); repeat case_test; lia.
  - by rewrite !lookup_ge_None_2 by lia.
Qed.
End ring.

Arguments RingBuffer : clear implicits.

(** ** The history over any sequence of calls *)

Section log.
Context {T : Type}.

Inductive ring_op :=
  | OpAdd (p : T)
  | OpClear
  | OpUpdate (f : T → T).

Definition ring_step (r : RingBuffer T) (o : ring_op) : option (RingBuffer T) :=
  match o with
  | OpAdd p => Add p r
  | OpClear => Some (Clear r)
  | OpUpdate f => Update f r
  end.

Fixpoint ring_run (r : RingBuffer T) (os : list ring_op) : option (RingBuffer T) :=
  match os with [] => Some r | o :: os => r' ← ring_step r o; ring_run r' os end.

(** The specification: an unbounded list. *)
Definition log_step (l : list T) (o : ring_op) : list T :=
  match o with OpAdd p => l ++ [p] | OpClear => [] | OpUpdate f => f <$> l end.

Lemma ring_step_log r o l :
  ring_ok r → contents r = last_n (Z.to_nat (size r)) l →
  ∃ r', ring_step r o = Some r' ∧ ring_ok r' ∧ size r' = size r ∧
    contents r' = last_n (Z.to_nat (size r)) (log_step l o).
Proof.
  intros Hr Hl. destruct o as [p| |f]; cbn [ring_step log_step].
  - destruct (ring_Add_ok p r Hr) as (r' & ? & ? & ? & E). exists r'. split_and!; try done.
    by rewrite E, Hl, last_n_app.
  - eexists. destruct (Clear_ok r Hr). split_and!; done.
  - destruct (Update_ok f r Hr) as (r' & ? & ? & ? & E). exists r'. split_and!; try done.
    by rewrite E, Hl, last_n_fmap.
Qed.

Lemma ring_run_log r os l :
  ring_ok r → contents r = last_n (Z.to_nat (size r)) l →
  ∃ r', ring_run r os = Some r' ∧ ring_ok r' ∧ size r' = size r ∧
    contents r' = last_n (Z.to_nat (size r)) (foldl log_step l os).
Proof.
  revert r l. induction os as [|o os IH]; intros r l Hr Hl; [by exists r|].
  destruct (ring_step_log r o l Hr Hl) as (r' & E & Hr' & Hs & Hl').
  rewrite <-Hs in Hl'. destruct (IH r' _ Hr' Hl') as (r'' & E' & ? & ? & ?).
  exists r''. cbn [ring_run foldl]. rewrite E. cbn [mbind option_bind]. rewrite Hs in *.
  split_and!; done.
Qed.

(** C24. The history refines an unbounded log that only its end is read from:
    whatever packets are added, cleared and updated, in any order and number,
    no index is ever out of range, and [GetAll] returns exactly the last
    [n] elements of the log, oldest first or newest first. *)
Theorem ring_buffer_refines (zero : T) n os :
  0 < n →
  ∃ r, ring_run (NewRingBuffer zero n) os = Some r ∧
    let l := last_n (Z.to_nat n) (foldl log_step [] os) in
    GetAll false r = Some l ∧ GetAll true r = Some (reverse l) ∧ (length l <= Z.to_nat n)%nat.
Proof.
  intros Hn. destruct (NewRingBuffer_ok zero n Hn) as [H0 Hc].
  destruct (ring_run_log _ os [] H0) as (r & E & Hr & Hs & Hl); [by rewrite Hc|].
  exists r. split; [done|]. cbn zeta. rewrite !ring_GetAll_ok, Hl by done.
  split_and!; try done. apply length_last_n.
Qed.
End log.

Lemma ring_buffer_refines_witness :
  ∃ r, ring_run (NewRingBuffer 0 3)
    [OpAdd 1; OpClear; OpAdd 2; OpAdd 3; OpAdd 4; OpAdd 5; OpUpdate (λ x, x * 10); OpAdd 6] = Some r ∧
    GetAll true r = Some [6; 50; 40].
Proof.
  destruct (ring_buffer_refines 0 3
    [OpAdd 1; OpClear; OpAdd 2; OpAdd 3; OpAdd 4; OpAdd 5; OpUpdate (λ x, x * 10); OpAdd 6])
    as (r & E & _ & H & _); [lia|].
  exists r. split; [exact E|]. by rewrite H.
Defined.
