(* ===== verification/LruCache.v ===== *)
(** * The cache of locations

    [lruCache] of [go/dashboard/main.go]: a map from keys to elements of a
    doubly linked list, the list in the order of use.  The elements of
    [container/list] are cells of a store ([entries]), named by numbers, so that
    the map and the list share them as in the code; each operation runs under
    the cache's lock.  [None] is a panic: an element that does not exist. *)

From stdpp Require Import gmap fin_maps.
From S2P Require Import Prelude.

(** Keys and values are strings of bytes. *)
Abbreviation text := (list Z).

Record lruCache := mkLru {
    capacity : Z;
    cache : gmap text nat;            (** [map[string]*list.Element] *)
    order : list nat;                 (** the list, front first *)
    entries : gmap nat (text * text); (** the elements' values, [*lruEntry] *)
    fresh : nat                       (** the next element to be allocated *)
  }.

Definition NewLRUCache (capacity : Z) : lruCache := mkLru capacity ∅ [] ∅ 0.

(** [list.Remove]: the cell is unlinked. *)
Definition unlink (e : nat) (l : list nat) : list nat := filter (λ x, x ≠ e) l.

(** [list.MoveToFront] *)
Definition move_to_front (e : nat) (l : list nat) : list nat := e :: unlink e l.

(** [list.PushFront] of a new entry, and [c.cache[key] = element]. *)
Definition push_front (key value : text) (c : lruCache) : lruCache :=
  mkLru (capacity c) (<[key := fresh c]> (cache c)) (fresh c :: order c)
    (<[fresh c := (key, value)]> (entries c)) (S (fresh c)).

Definition Get (key : text) (c : lruCache) : option (lruCache * option text) :=
  match cache c !! key with
  | Some element =>
      '(_, value) ← entries c !! element;
      Some (mkLru (capacity c) (cache c) (move_to_front element (order c)) (entries c) (fresh c),
        Some value)
  | None => Some (c, None)
  end.

Definition Add (key value : text) (c : lruCache) : option lruCache :=
  match cache c !! key with
  | Some element =>
      '(k, _) ← entries c !! element;
      Some (mkLru (capacity c) (cache c) (move_to_front element (order c))
        (<[element := (k, value)]> (entries c)) (fresh c))
  | None =>
      c ← (if capacity c <=? zlen (order c) then
             match last (order c) with
             | Some oldest =>
                 '(k, _) ← entries c !! oldest;
                 Some (mkLru (capacity c) (delete k (cache c)) (unlink oldest (order c))
                   (entries c) (fresh c))
             | None => Some c
             end
           else Some c);
      Some (push_front key value c)
  end.

Definition Remove (key : text) (c : lruCache) : lruCache :=
  match cache c !! key with
  | Some element =>
      mkLru (capacity c) (delete key (cache c)) (unlink element (order c)) (entries c) (fresh c)
  | None => c
  end.

(** [range] over a map yields its elements in any order: [iter]. *)
Definition GetAll (iter : list nat) (c : lruCache) : option (gmap text text) :=
  foldr (λ e m, m ← m; '(k, v) ← entries c !! e; Some (<[k := v]> m)) (Some ∅) iter.

Definition Load (iter : list (text * text)) (c : lruCache) : lruCache :=
  foldl (λ c '(key, value), push_front key value c)
    (mkLru (capacity c) ∅ [] (entries c) (fresh c)) iter.

(** ** The specification: an association list, the last used first *)

Section spec.
Implicit Types (l : list (text * text)) (k v : text).

Fixpoint assoc k l : option text :=
  match l with
  | [] => None
  | (k', v) :: l => if decide (k' = k) then Some v else assoc k l
  end.

Definition without k l : list (text * text) := filter (λ kv, kv.1 ≠ k) l.

Definition spec_get k l : list (text * text) * option text :=
  match assoc k l with Some v => ((k, v) :: without k l, Some v) | None => (l, None) end.

Definition spec_add (cap : Z) k v l : list (text * text) :=
  match assoc k l with
  | Some _ => (k, v) :: without k l
  | None => (k, v) :: (if cap <=? zlen l then removelast l else l)
  end.

Lemma assoc_None k l : assoc k l = None ↔ k ∉ l.*1.
Proof.
  induction l as [|[k' v] l IH]; cbn.
  - split; [intros _; apply not_elem_of_nil|done].
  - rewrite not_elem_of_cons. case_decide; [split; [done|intros [? _]; congruence]|]. rewrite IH.
    split; [split; congruence|by intros [_ ?]].
Qed.

Lemma assoc_Some_1 k v l : assoc k l = Some v → (k, v) ∈ l.
Proof.
  induction l as [|[k' v'] l IH]; cbn; [done|]. case_decide as E; [|by right; apply IH].
  intros [= ->]. subst. by left.
Qed.

Lemma assoc_Some_2 k v l : NoDup l.*1 → (k, v) ∈ l → assoc k l = Some v.
Proof.
  induction l as [|[k' v'] l IH]; cbn; [intros _ H; by apply elem_of_nil in H|].
  rewrite NoDup_cons. intros [Hk Hd] [[= -> ->]|Hin]%elem_of_cons; [by rewrite decide_True|].
  case_decide as E; [|by apply IH]. subst. exfalso. apply Hk.
  apply list_elem_of_fmap. by exists (k, v).
Qed.

Lemma without_id k l : k ∉ l.*1 → without k l = l.
Proof.
  intros Hk. induction l as [|[k' v] l IH]; [done|]. cbn in Hk. apply not_elem_of_cons in Hk as [Hne Hk].
  unfold without in *. rewrite filter_cons_True by (cbn; congruence). by rewrite IH.
Qed.
End spec.

(** ** The invariant *)

Record lru_ok (c : lruCache) : Prop := {
    lru_nodup : NoDup (order c);
    lru_fresh : ∀ e, e ∈ order c → (e < fresh c)%nat;
    lru_linked : ∀ e, e ∈ order c → ∃ k v, entries c !! e = Some (k, v) ∧ cache c !! k = Some e;
    lru_mapped : ∀ k e, cache c !! k = Some e → e ∈ order c ∧ ∃ v, entries c !! e = Some (k, v)
  }.

(** What the cache holds, the last used first. *)
Definition items (c : lruCache) : list (text * text) := omap (λ e, entries c !! e) (order c).

Section invariant.
Implicit Types (c : lruCache) (k v : text) (e : nat).

Lemma items_lookup c kv : kv ∈ items c ↔ ∃ e, e ∈ order c ∧ entries c !! e = Some kv.
Proof. unfold items. apply list_elem_of_omap. Qed.

Lemma items_keys c k : lru_ok c → k ∈ (items c).*1 ↔ is_Some (cache c !! k).
Proof.
  intros Hc. rewrite list_elem_of_fmap. split.
  - intros ([k' v] & -> & (e & He & E)%items_lookup).
    destruct (lru_linked c Hc e He) as (k'' & v' & E' & Hk). rewrite E in E'.
    injection E' as -> ->. cbn. eauto.
  - intros [e He]. destruct (lru_mapped c Hc k e He) as (Ho & v & E).
    exists (k, v). split; [done|]. apply items_lookup. eauto.
Qed.

Lemma items_assoc c k e v :
  cache c !! k = Some e → entries c !! e = Some (k, v) → lru_ok c → assoc k (items c) = Some v.
Proof.
  intros Hk He Hc. destruct (assoc k (items c)) as [v'|] eqn:E.
  - apply assoc_Some_1, items_lookup in E as (e' & Ho & E).
    destruct (lru_linked c Hc e' Ho) as (k2 & v2 & E2 & Hk2). rewrite E in E2.
    injection E2 as <- <-. congruence.
  - apply assoc_None in E. exfalso. apply E, items_keys; eauto.
Qed.

Lemma items_assoc_None c k : cache c !! k = None → lru_ok c → assoc k (items c) = None.
Proof.
  intros Hk Hc. apply assoc_None. rewrite items_keys by done. rewrite Hk. by intros [].
Qed.

Lemma omap_unlink (f : nat → option (text * text)) k e l :
  (∀ x, x ∈ l → ∃ k' v, f x = Some (k', v) ∧ (k' = k ↔ x = e)) →
  omap f (unlink e l) = without k (omap f l).
Proof.
  intros H. induction l as [|x l IH]; [done|].
  destruct (H x) as (k' & v & Hf & Hk); [by left|]. unfold unlink, without in *.
  rewrite filter_cons. cbn [omap list_omap]. rewrite Hf, filter_cons. cbn [fst].
  destruct (decide (x ≠ e)) as [Hx|Hx].
  - rewrite decide_True by intuition congruence. cbn [omap list_omap]. rewrite Hf. f_equal.
    apply IH. intros y Hy. apply H. by right.
  - rewrite decide_False by intuition congruence. apply IH. intros y Hy. apply H. by right.
Qed.

(** An element's key identifies it. *)
Lemma linked_key c k e :
  lru_ok c → cache c !! k = Some e →
  ∀ x, x ∈ order c → ∃ k' v, entries c !! x = Some (k', v) ∧ (k' = k ↔ x = e).
Proof.
  intros Hc Hk x Hx. destruct (lru_linked c Hc x Hx) as (k' & v & E & Hk').
  exists k', v. split; [done|]. split; [intros ->; congruence|intros ->].
  destruct (lru_mapped c Hc k e Hk) as (_ & v' & E'). congruence.
Qed.

Lemma items_unlink c k e :
  lru_ok c → cache c !! k = Some e → omap (λ x, entries c !! x) (unlink e (order c)) = without k (items c).
Proof. intros Hc Hk. apply omap_unlink. by apply linked_key. Qed.

Lemma elem_of_unlink e x l : x ∈ unlink e l ↔ x ≠ e ∧ x ∈ l.
Proof. unfold unlink. by rewrite list_elem_of_filter. Qed.

Lemma unlink_ok c k e :
  lru_ok c → cache c !! k = Some e →
  lru_ok (mkLru (capacity c) (delete k (cache c)) (unlink e (order c)) (entries c) (fresh c)).
Proof.
  intros Hc Hk. split; cbn.
  - by apply NoDup_filter, lru_nodup.
  - intros x [_ Hx]%elem_of_unlink. by apply (lru_fresh c).
  - intros x [Hne Hx]%elem_of_unlink. destruct (lru_linked c Hc x Hx) as (k' & v & E & Hk').
    exists k', v. split; [done|]. rewrite lookup_delete_ne; [done|]. congruence.
  - intros k' x Hx. apply lookup_delete_Some in Hx as [Hne Hx].
    destruct (lru_mapped c Hc k' x Hx) as (Ho & v & E). split; [|eauto].
    apply elem_of_unlink. split; [|done]. intros ->.
    destruct (lru_mapped c Hc k e Hk) as (_ & v' & E'). congruence.
Qed.

Lemma push_front_ok c k v :
  lru_ok c → cache c !! k = None → lru_ok (push_front k v c).
Proof.
  intros Hc Hk. assert (fresh c ∉ order c) as Hf.
  { intros Hin. apply (lru_fresh c Hc) in Hin. lia. }
  split; cbn.
  - apply NoDup_cons. split; [done|apply Hc].
  - intros x [->|Hx]%elem_of_cons; [lia|]. apply (lru_fresh c Hc) in Hx. lia.
  - intros x [->|Hx]%elem_of_cons.
    + exists k, v. by rewrite !lookup_insert_eq.
    + destruct (lru_linked c Hc x Hx) as (k' & v' & E & Hk'). exists k', v'.
      rewrite !lookup_insert_ne by congruence. done.
  - intros k' x Hx. apply lookup_insert_Some in Hx as [[<- <-]|[Hne Hx]].
    + split; [by left|]. exists v. by rewrite lookup_insert_eq.
    + destruct (lru_mapped c Hc k' x Hx) as (Ho & v' & E). split; [by right|].
      exists v'. rewrite lookup_insert_ne; [done|]. congruence.
Qed.

Lemma items_push_front c k v :
  lru_ok c → items (push_front k v c) = (k, v) :: items c.
Proof.
  intros Hc. unfold items. cbn [push_front order entries omap list_omap].
  rewrite lookup_insert_eq. f_equal. apply list_omap_ext.
  assert (fresh c ∉ order c) as Hf by (intros Hin; apply (lru_fresh c Hc) in Hin; lia).
  clear -Hf. induction (order c) as [|x l IH]; constructor.
  - apply not_elem_of_cons in Hf as [Hf _]. by rewrite lookup_insert_ne.
  - apply IH. by apply not_elem_of_cons in Hf as [_ Hf].
Qed.

Lemma length_items c : lru_ok c → length (items c) = length (order c).
Proof.
  intros Hc. unfold items. assert (∀ e, e ∈ order c → is_Some (entries c !! e)) as H.
  { intros e He. destruct (lru_linked c Hc e He) as (k & v & -> & _). eauto. }
  clear Hc. induction (order c) as [|x l IH]; [done|]. cbn.
  destruct (H x) as [y ->]; [by left|]. cbn. rewrite IH; [done|].
  intros e He. apply H. by right.
Qed.
End invariant.

(** ** Each operation implements the specification *)

Section refinement.
Implicit Types (c : lruCache) (k v : text) (e : nat).

(** What an operation keeps, and what it makes of the contents. *)
Definition implements (cap : Z) (l : list (text * text)) c : Prop :=
  lru_ok c ∧ capacity c = cap ∧ items c = l.

Lemma New_ok cap : implements cap [] (NewLRUCache cap).
Proof.
  split; [|done]. split; cbn; try (intros e He; by apply elem_of_nil in He).
  - constructor.
  - intros k e He. by rewrite lookup_empty in He.
Qed.

(** An element that is in the map comes to the front, with this value. *)
Lemma touch_ok c k e v :
  lru_ok c → cache c !! k = Some e →
  implements (capacity c) ((k, v) :: without k (items c))
    (mkLru (capacity c) (cache c) (move_to_front e (order c)) (<[e := (k, v)]> (entries c)) (fresh c)).
Proof.
  intros Hc Hk. destruct (lru_mapped c Hc k e Hk) as (Ho & w & E). split; [|split; [done|]].
  - split; cbn.
    + apply NoDup_cons. split; [by intros [? _]%elem_of_unlink|]. by apply NoDup_filter, lru_nodup.
    + intros x [->|[_ Hx]%elem_of_unlink]%elem_of_cons; by apply (lru_fresh c).
    + intros x [->|[Hne Hx]%elem_of_unlink]%elem_of_cons.
      * exists k, v. by rewrite lookup_insert_eq.
      * destruct (lru_linked c Hc x Hx) as (k' & v' & E' & Hk'). exists k', v'.
        by rewrite lookup_insert_ne.
    + intros k' x Hx. destruct (lru_mapped c Hc k' x Hx) as (Hox & v' & E').
      destruct (decide (x = e)) as [->|Hne].
      * rewrite E in E'. injection E' as <- <-. split; [by left|]. exists v. by rewrite lookup_insert_eq.
      * split; [right; by apply elem_of_unlink|]. exists v'. by rewrite lookup_insert_ne.
  - unfold items, move_to_front. cbn [order entries omap list_omap]. rewrite lookup_insert_eq. f_equal.
    fold (items c). rewrite <-(items_unlink c k e) by done.
    assert (Forall (λ x, x ≠ e) (unlink e (order c))) as H.
    { apply Forall_forall. by intros x [? _]%elem_of_unlink. }
    clear -H. induction H as [|x l Hx _ IH]; [done|]. cbn. by rewrite lookup_insert_ne, IH.
Qed.

Lemma Get_ok c k :
  lru_ok c → ∃ c' r, Get k c = Some (c', r) ∧
    implements (capacity c) (spec_get k (items c)).1 c' ∧ r = (spec_get k (items c)).2.
Proof.
  intros Hc. unfold Get, spec_get. destruct (cache c !! k) as [e|] eqn:Hk.
  - destruct (lru_mapped c Hc k e Hk) as (Ho & v & E). rewrite E. cbn [mbind option_bind].
    rewrite (items_assoc c k e v) by done. eexists _, _. split; [done|]. split; [|done].
    pose proof (touch_ok c k e v Hc Hk) as H. by rewrite insert_id in H.
  - rewrite items_assoc_None by done. by eexists _, _.
Qed.

Lemma last_unlink e l : NoDup l → last l = Some e → unlink e l = removelast l.
Proof.
  intros Hd [l' ->]%last_Some. apply NoDup_app in Hd as (Hd & Hn & _).
  rewrite removelast_last. unfold unlink. rewrite filter_app.
  rewrite (filter_cons_False _ e) by (intros H; by apply H). rewrite filter_nil, app_nil_r.
  clear Hd. induction l' as [|x l IH]; [done|]. rewrite filter_cons_True.
  - rewrite IH; [done|]. intros y Hy. apply Hn. by right.
  - intros ->. apply (Hn e); by left.
Qed.

Lemma omap_removelast {A B} (f : A → option B) l :
  (∀ x, x ∈ l → is_Some (f x)) → omap f (removelast l) = removelast (omap f l).
Proof.
  induction l as [|x l IH]; intros H; [done|]. destruct (H x) as [y Hy]; [by left|].
  destruct l as [|x' l]; [cbn; by rewrite Hy|]. destruct (H x') as [y' Hy']; [right; by left|].
  change (removelast (x :: x' :: l)) with (x :: removelast (x' :: l)).
  cbn [omap list_omap]. rewrite Hy, Hy'.
  change (removelast (y :: y' :: omap f l)) with (y :: removelast (y' :: omap f l)). f_equal.
  rewrite IH by (intros z Hz; apply H; by right). cbn. by rewrite Hy'.
Qed.

(** Evicting the element at the back. *)
Lemma evict_ok c :
  lru_ok c →
  ∃ c', (match last (order c) with
         | Some oldest =>
             '(k, _) ← entries c !! oldest;
             Some (mkLru (capacity c) (delete k (cache c)) (unlink oldest (order c))
               (entries c) (fresh c))
         | None => Some c
         end) = Some c' ∧ implements (capacity c) (removelast (items c)) c' ∧
    ∀ k, cache c !! k = None → cache c' !! k = None.
Proof.
  intros Hc. destruct (last (order c)) as [e|] eqn:El.
  - assert (e ∈ order c) as Ho by (apply last_Some in El as [l ->]; apply elem_of_app; right; by left).
    destruct (lru_linked c Hc e Ho) as (k & v & E & Hk). rewrite E. cbn [mbind option_bind].
    eexists. split; [done|]. split.
    + split; [by apply unlink_ok|]. split; [done|]. unfold items. cbn [order entries].
      rewrite (last_unlink e) by (done || apply Hc). apply omap_removelast.
      intros x Hx. destruct (lru_linked c Hc x Hx) as (? & ? & -> & _). eauto.
    + intros k' Hk'. cbn. destruct (decide (k = k')) as [->|]; [by rewrite lookup_delete_eq|].
      by rewrite lookup_delete_ne.
  - exists c. split; [done|]. apply last_None in El. split; [|done]. split; [done|]. split; [done|].
    unfold items. by rewrite El.
Qed.

Lemma lru_Add_ok c k v :
  lru_ok c → ∃ c', Add k v c = Some c' ∧ implements (capacity c) (spec_add (capacity c) k v (items c)) c'.
Proof.
  intros Hc. unfold Add, spec_add. destruct (cache c !! k) as [e|] eqn:Hk.
  - destruct (lru_mapped c Hc k e Hk) as (Ho & w & E). rewrite E. cbn [mbind option_bind].
    rewrite (items_assoc c k e w) by done. eexists. split; [done|]. by apply touch_ok.
  - rewrite items_assoc_None, length_items by done. case_test.
    + destruct (evict_ok c Hc) as (c' & -> & (Hc' & Hcap & Hi) & Hkeep). cbn [mbind option_bind].
      eexists. split; [done|]. split; [by apply push_front_ok; auto|]. split; [done|].
      by rewrite items_push_front, Hi.
    + cbn [mbind option_bind]. eexists. split; [done|]. split; [by apply push_front_ok|].
      split; [done|]. by rewrite items_push_front.
Qed.

Lemma Remove_ok c k : lru_ok c → implements (capacity c) (without k (items c)) (Remove k c).
Proof.
  intros Hc. unfold Remove. destruct (cache c !! k) as [e|] eqn:Hk.
  - split; [by apply unlink_ok|]. split; [done|]. exact (items_unlink c k e Hc Hk).
  - split; [done|]. split; [done|]. symmetry. apply without_id.
    rewrite items_keys by done. rewrite Hk. by intros [].
Qed.

Lemma Load_ok c iter :
  NoDup iter.*1 → implements (capacity c) (reverse iter) (Load iter c).
Proof.
  intros Hd. unfold Load.
  set (c0 := mkLru (capacity c) ∅ [] (entries c) (fresh c)).
  assert (lru_ok c0 ∧ capacity c0 = capacity c ∧ items c0 = [] ∧ ∀ k, k ∈ iter.*1 → cache c0 !! k = None)
    as (H0 & Hcap & Hi & Hk).
  { split; [|split; [done|split; [done|intros; apply lookup_empty]]].
    split; cbn; try (intros e He; by apply elem_of_nil in He); [constructor|].
    intros k e He. by rewrite lookup_empty in He. }
  rewrite <-(app_nil_r (reverse iter)), <-Hi, <-Hcap. clearbody c0. clear Hi Hcap.
  revert c0 H0 Hk. induction iter as [|[k v] iter IH]; intros c0 H0 Hk; [done|].
  cbn [foldl]. cbn in Hd. apply NoDup_cons in Hd as [Hn Hd].
  assert (cache c0 !! k = None) as Hkn by (apply Hk; by left).
  destruct (IH Hd (push_front k v c0)) as (? & ? & Hl).
  - by apply push_front_ok.
  - intros k' Hk'. cbn. rewrite lookup_insert_ne by congruence. apply Hk. by right.
  - split; [done|]. split; [done|]. rewrite Hl, items_push_front by done.
    by rewrite reverse_cons, <-app_assoc.
Qed.

(** The association in any list of linked elements is the map's. *)
Lemma assoc_linked c k (l : list nat) :
  lru_ok c → (∀ e, e ∈ l → e ∈ order c) → (∀ e, cache c !! k = Some e → e ∈ l) →
  assoc k (omap (λ e, entries c !! e) l) = cache c !! k ≫= λ e, snd <$> entries c !! e.
Proof.
  intros Hc Hl Hk. destruct (assoc k _) as [v|] eqn:E.
  - apply assoc_Some_1, list_elem_of_omap in E as (e & He & E).
    destruct (lru_linked c Hc e (Hl e He)) as (k' & v' & E' & Hke). rewrite E in E'.
    injection E' as <- <-. rewrite Hke. cbn. by rewrite E.
  - destruct (cache c !! k) as [e|] eqn:Hke; [|done]. exfalso.
    destruct (lru_mapped c Hc k e Hke) as (_ & v & Ee).
    apply assoc_None in E. apply E, list_elem_of_fmap. exists (k, v). split; [done|].
    apply list_elem_of_omap. eauto.
Qed.

Lemma lookup_list_to_map_assoc k (l : list (text * text)) :
  (list_to_map l : gmap text text) !! k = assoc k l.
Proof.
  induction l as [|[k' v] l IH]; [done|]. cbn. case_decide as E.
  - subst. by rewrite lookup_insert_eq.
  - by rewrite lookup_insert_ne.
Qed.

(** What [GetAll] returns does not depend on the order of the iteration. *)
Lemma lru_GetAll_ok c iter :
  lru_ok c → iter ≡ₚ (map_to_list (cache c)).*2 →
  GetAll iter c = Some (list_to_map (items c)).
Proof.
  intros Hc Hp.
  assert (∀ e, e ∈ iter ↔ ∃ k, cache c !! k = Some e) as Hin.
  { intros e. rewrite Hp, list_elem_of_fmap. setoid_rewrite (surjective_pairing _).
    split; [intros ([k e'] & -> & He); apply elem_of_map_to_list in He; by exists k|].
    intros [k Hk]. exists (k, e). split; [done|]. by apply elem_of_map_to_list. }
  assert (∀ e, e ∈ iter → e ∈ order c) as Hio.
  { intros e [k Hk]%Hin. by apply (lru_mapped c Hc k). }
  assert (GetAll iter c = Some (list_to_map (omap (λ e, entries c !! e) iter))) as ->.
  { clear Hp Hin. induction iter as [|e iter IH]; [done|].
    destruct (lru_linked c Hc e) as (k & v & E & _); [apply Hio; by left|].
    cbn [GetAll foldr omap list_omap]. fold (GetAll iter c).
    rewrite IH by (intros x Hx; apply Hio; by right). cbn [mbind option_bind]. by rewrite E. }
  f_equal. apply map_eq. intros k. rewrite !lookup_list_to_map_assoc. unfold items.
  rewrite !assoc_linked; try done.
  - intros e Hk. by apply (lru_mapped c Hc k).
  - intros e Hk. apply Hin. eauto.
Qed.
End refinement.

(** ** Any sequence of calls *)

Inductive lru_op :=
  | OpGet (k : text)
  | OpAdd (k v : text)
  | OpRemove (k : text).

Definition lru_step (c : lruCache) (o : lru_op) : option (lruCache * option text) :=
  match o with
  | OpGet k => Get k c
  | OpAdd k v => c' ← Add k v c; Some (c', None)
  | OpRemove k => Some (Remove k c, None)
  end.

Fixpoint lru_run (c : lruCache) (os : list lru_op) : option (lruCache * list (option text)) :=
  match os with
  | [] => Some (c, [])
  | o :: os => '(c, r) ← lru_step c o; '(c, rs) ← lru_run c os; Some (c, r :: rs)
  end.

Definition spec_step (cap : Z) (l : list (text * text)) (o : lru_op)
    : list (text * text) * option text :=
  match o with
  | OpGet k => spec_get k l
  | OpAdd k v => (spec_add cap k v l, None)
  | OpRemove k => (without k l, None)
  end.

Fixpoint spec_run (cap : Z) (l : list (text * text)) (os : list lru_op)
    : list (text * text) * list (option text) :=
  match os with
  | [] => (l, [])
  | o :: os =>
      let '(l, r) := spec_step cap l o in let '(l, rs) := spec_run cap l os in (l, r :: rs)
  end.

Lemma lru_step_ok cap l c o :
  implements cap l c → ∃ c' r, lru_step c o = Some (c', r) ∧
    implements cap (spec_step cap l o).1 c' ∧ r = (spec_step cap l o).2.
Proof.
  intros (Hc & <- & <-). destruct o as [k|k v|k]; cbn [lru_step spec_step].
  - by apply Get_ok.
  - destruct (lru_Add_ok c k v Hc) as (c' & -> & H). by exists c', None.
  - eexists _, None. split; [done|]. split; [|done]. by apply Remove_ok.
Qed.

Lemma lru_run_ok cap l c os :
  implements cap l c → ∃ c', lru_run c os = Some (c', (spec_run cap l os).2) ∧
    implements cap (spec_run cap l os).1 c'.
Proof.
  revert l c. induction os as [|o os IH]; intros l c H; [by exists c|].
  destruct (lru_step_ok cap l c o H) as (c' & r & E & H' & ->).
  cbn [lru_run spec_run]. rewrite E. cbn [mbind option_bind].
  destruct (spec_step cap l o) as [l' r]. destruct (IH l' c' H') as (c'' & E' & H'').
  cbn [snd] in *. rewrite E'. cbn [mbind option_bind].
  destruct (spec_run cap l' os) as [l'' rs]. by exists c''.
Qed.

Lemma length_without k l : (length (without k l) <= length l)%nat.
Proof. apply length_filter. Qed.

Lemma length_without_lt k v l : assoc k l = Some v → (length (without k l) < length l)%nat.
Proof.
  intros Ha. apply assoc_Some_1, list_elem_of_split in Ha as (a & b & ->).
  unfold without. rewrite filter_app, length_app, filter_cons_False by (cbn; tauto).
  pose proof (length_without k a). pose proof (length_without k b). unfold without in *.
  rewrite length_app. simpl. lia.
Qed.

Lemma length_removelast {A} (l : list A) : length (removelast l) = (length l - 1)%nat.
Proof.
  induction l as [|x [|y l] IH]; [done..|].
  change (removelast (x :: y :: l)) with (x :: removelast (y :: l)). cbn [length] in *. lia.
Qed.

(** The number of entries never grows past the capacity. *)
Lemma spec_step_length cap l o :
  0 < cap → zlen l ≤ cap → zlen (spec_step cap l o).1 ≤ cap.
Proof.
  intros Hcap Hl. destruct o as [k|k v|k]; cbn [spec_step fst].
  - unfold spec_get. destruct (assoc k l) eqn:E; cbn [fst]; [|done].
    pose proof (length_without_lt _ _ _ E). cbn [length]. lia.
  - unfold spec_add. destruct (assoc k l) eqn:E; cbn [length].
    + pose proof (length_without_lt _ _ _ E). lia.
    + case_test; rewrite ?length_removelast; lia.
  - pose proof (length_without k l). lia.
Qed.

Lemma spec_run_length cap l os :
  0 < cap → zlen l ≤ cap → zlen (spec_run cap l os).1 ≤ cap.
Proof.
  intros Hcap. revert l. induction os as [|o os IH]; intros l Hl; [done|]. cbn [spec_run].
  pose proof (spec_step_length cap l o Hcap Hl) as H.
  destruct (spec_step cap l o) as [l' r]. specialize (IH l' H).
  by destruct (spec_run cap l' os).
Qed.

(** C25. The map and the linked list together are a least-recently-used cache:
    for every sequence of calls no element is ever missing, every answer is the
    one of the specification - an association list in which a used key moves to
    the front and a new key evicts the last one when the cache is full - and
    the cache never holds more entries than its capacity. *)
Theorem lru_refines cap os :
  0 < cap →
  ∃ c, lru_run (NewLRUCache cap) os = Some (c, (spec_run cap [] os).2) ∧
    lru_ok c ∧ items c = (spec_run cap [] os).1 ∧ zlen (order c) ≤ cap.
Proof.
  intros Hcap. destruct (lru_run_ok cap [] _ os (New_ok cap)) as (c & E & (Hc & Hc' & Hi)).
  exists c. split_and!; try done. rewrite <-length_items, Hi by done.
  apply spec_run_length; [done|]. simpl. lia.
Qed.

Definition sample_ops : list lru_op :=
  [OpAdd [1] [10]; OpAdd [2] [20]; OpGet [1]; OpAdd [3] [30]; OpGet [2]; OpGet [1]; OpGet [3]].

Lemma lru_refines_witness :
  ∃ c, lru_run (NewLRUCache 2) sample_ops =
    Some (c, [None; None; Some [10]; None; None; Some [10]; Some [30]]) ∧
    items c = [([3], [30]); ([1], [10])].
Proof.
  destruct (lru_refines 2 sample_ops) as (c & E & _ & Hi & _); [lia|].
  exists c. split; [exact E|]. by rewrite Hi.
Defined.
