(* ===== verification/GoPacket.v ===== *)
(** * The dashboard's packets

    [DashboardPacket] of [go/dashboard/main.go], what the packet service's JSON
    puts into it, [getPacketInfo] and [getMacVendor]. *)

From stdpp Require Import strings pretty.
From S2P Require Import Prelude CMemory PacketTypes Wire GoText.

Record DashboardPacket := mkPacket {
    Timestamp : Z;
    SrcIP : list Z;
    DstIP : list Z;
    SrcPort : Z;
    DstPort : Z;
    SrcMAC : list Z;
    DstMAC : list Z;
    Protocol : list Z;
    HasTcpAo : bool;
    TcpFlags : Z;
    L3Offset : Z;
    L4Offset : Z;
    TcpSeq : Z;
    TcpAck : Z;
    VlanID : Z;
    IpTTL : Z;
    IpTos : Z;
    TcpWin : Z;
    IpID : Z;
    IsIpv6 : bool;
    IsFragment : bool;
    TcpMSS : Z;
    TcpWS : Z;
    Ipv6ExtCount : Z;
    Ipv6Flow : Z;
    WireLen : Z;
    TcpTsVal : Z;
    TcpTsEcr : Z;
    TcpSack : bool;
    TcpRTT : Z;
    VxlanVNI : Z;
    Entropy : Z;
    NtpStratum : Z;
    NtpMode : Z;
    IgmpGroup : list Z;
    IgmpType : Z;
    LldpChassis : list Z;
    LldpPort : list Z;
    TcpSackEdges : list Z;
    TopByteInfo : list Z;
    DnsQuery : list Z;
    TlsSNI : list Z;
    ExtraInfo : list Z;
    Payload : list Z;
    Index : Z;
    Info : list Z;
    SrcMacVendor : list Z;
    DstMacVendor : list Z;
    Country : list Z;
    City : list Z;
    ISP : list Z;
    CountryCode : list Z
  }.

(** The packet that [json.Unmarshal] makes of the service's message: each field
    is the one with the name of its JSON tag; the fields the service does not
    send have their zero values, and what it sends beyond these fields
    ([icmp_type], [icmp_code], [delta_time], [app_layer_info]) is dropped. *)
Definition of_service (d : Wire.DashboardPacket) : DashboardPacket := {|
    Timestamp := d_timestamp d;
    SrcIP := d_src_ip d;
    DstIP := d_dst_ip d;
    SrcPort := d_src_port d;
    DstPort := d_dst_port d;
    SrcMAC := d_src_mac d;
    DstMAC := d_dst_mac d;
    Protocol := d_protocol d;
    HasTcpAo := d_has_tcp_ao d;
    TcpFlags := d_tcp_flags d;
    L3Offset := d_l3_offset d;
    L4Offset := d_l4_offset d;
    TcpSeq := d_tcp_seq d;
    TcpAck := d_tcp_ack d;
    VlanID := d_vlan_id d;
    IpTTL := d_ip_ttl d;
    IpTos := d_ip_tos d;
    TcpWin := d_tcp_win d;
    IpID := d_ip_id d;
    IsIpv6 := d_is_ipv6 d;
    IsFragment := d_is_fragment d;
    TcpMSS := d_tcp_mss d;
    TcpWS := d_tcp_ws d;
    Ipv6ExtCount := d_ipv6_ext_count d;
    Ipv6Flow := d_ipv6_flow d;
    WireLen := d_wire_len d;
    TcpTsVal := d_tcp_ts_val d;
    TcpTsEcr := d_tcp_ts_ecr d;
    TcpSack := d_tcp_sack d;
    TcpRTT := d_tcp_rtt d;
    VxlanVNI := d_vxlan_vni d;
    Entropy := d_entropy_scaled d;
    NtpStratum := d_ntp_stratum d;
    NtpMode := d_ntp_mode d;
    IgmpGroup := d_igmp_group d;
    IgmpType := d_igmp_type d;
    LldpChassis := d_lldp_chassis d;
    LldpPort := d_lldp_port d;
    TcpSackEdges := d_tcp_sack_edges d;
    TopByteInfo := d_top_byte_info d;
    DnsQuery := d_dns_query d;
    TlsSNI := d_tls_sni d;
    ExtraInfo := d_extra_info d;
    Payload := d_payload d;
    Index := 0;
    Info := [];
    SrcMacVendor := [];
    DstMacVendor := [];
    Country := [];
    City := [];
    ISP := [];
    CountryCode := []
  |}.

(** ** Assignments to fields *)

Definition set_Index (v : Z) (p : DashboardPacket) : DashboardPacket :=
  mkPacket (Timestamp p) (SrcIP p) (DstIP p) (SrcPort p) (DstPort p) (SrcMAC p) (DstMAC p)
    (Protocol p) (HasTcpAo p) (TcpFlags p) (L3Offset p) (L4Offset p) (TcpSeq p) (TcpAck p)
    (VlanID p) (IpTTL p) (IpTos p) (TcpWin p) (IpID p) (IsIpv6 p) (IsFragment p) (TcpMSS p)
    (TcpWS p) (Ipv6ExtCount p) (Ipv6Flow p) (WireLen p) (TcpTsVal p) (TcpTsEcr p) (TcpSack p)
    (TcpRTT p) (VxlanVNI p) (Entropy p) (NtpStratum p) (NtpMode p) (IgmpGroup p) (IgmpType p)
    (LldpChassis p) (LldpPort p) (TcpSackEdges p) (TopByteInfo p) (DnsQuery p) (TlsSNI p)
    (ExtraInfo p) (Payload p) v (Info p) (SrcMacVendor p) (DstMacVendor p) (Country p) (City p)
    (ISP p) (CountryCode p).

Definition set_Info (v : list Z) (p : DashboardPacket) : DashboardPacket :=
  mkPacket (Timestamp p) (SrcIP p) (DstIP p) (SrcPort p) (DstPort p) (SrcMAC p) (DstMAC p)
    (Protocol p) (HasTcpAo p) (TcpFlags p) (L3Offset p) (L4Offset p) (TcpSeq p) (TcpAck p)
    (VlanID p) (IpTTL p) (IpTos p) (TcpWin p) (IpID p) (IsIpv6 p) (IsFragment p) (TcpMSS p)
    (TcpWS p) (Ipv6ExtCount p) (Ipv6Flow p) (WireLen p) (TcpTsVal p) (TcpTsEcr p) (TcpSack p)
    (TcpRTT p) (VxlanVNI p) (Entropy p) (NtpStratum p) (NtpMode p) (IgmpGroup p) (IgmpType p)
    (LldpChassis p) (LldpPort p) (TcpSackEdges p) (TopByteInfo p) (DnsQuery p) (TlsSNI p)
    (ExtraInfo p) (Payload p) (Index p) v (SrcMacVendor p) (DstMacVendor p) (Country p) (City p)
    (ISP p) (CountryCode p).

Definition set_SrcMacVendor (v : list Z) (p : DashboardPacket) : DashboardPacket :=
  mkPacket (Timestamp p) (SrcIP p) (DstIP p) (SrcPort p) (DstPort p) (SrcMAC p) (DstMAC p)
    (Protocol p) (HasTcpAo p) (TcpFlags p) (L3Offset p) (L4Offset p) (TcpSeq p) (TcpAck p)
    (VlanID p) (IpTTL p) (IpTos p) (TcpWin p) (IpID p) (IsIpv6 p) (IsFragment p) (TcpMSS p)
    (TcpWS p) (Ipv6ExtCount p) (Ipv6Flow p) (WireLen p) (TcpTsVal p) (TcpTsEcr p) (TcpSack p)
    (TcpRTT p) (VxlanVNI p) (Entropy p) (NtpStratum p) (NtpMode p) (IgmpGroup p) (IgmpType p)
    (LldpChassis p) (LldpPort p) (TcpSackEdges p) (TopByteInfo p) (DnsQuery p) (TlsSNI p)
    (ExtraInfo p) (Payload p) (Index p) (Info p) v (DstMacVendor p) (Country p) (City p) (ISP p)
    (CountryCode p).

Definition set_DstMacVendor (v : list Z) (p : DashboardPacket) : DashboardPacket :=
  mkPacket (Timestamp p) (SrcIP p) (DstIP p) (SrcPort p) (DstPort p) (SrcMAC p) (DstMAC p)
    (Protocol p) (HasTcpAo p) (TcpFlags p) (L3Offset p) (L4Offset p) (TcpSeq p) (TcpAck p)
    (VlanID p) (IpTTL p) (IpTos p) (TcpWin p) (IpID p) (IsIpv6 p) (IsFragment p) (TcpMSS p)
    (TcpWS p) (Ipv6ExtCount p) (Ipv6Flow p) (WireLen p) (TcpTsVal p) (TcpTsEcr p) (TcpSack p)
    (TcpRTT p) (VxlanVNI p) (Entropy p) (NtpStratum p) (NtpMode p) (IgmpGroup p) (IgmpType p)
    (LldpChassis p) (LldpPort p) (TcpSackEdges p) (TopByteInfo p) (DnsQuery p) (TlsSNI p)
    (ExtraInfo p) (Payload p) (Index p) (Info p) (SrcMacVendor p) v (Country p) (City p) (ISP p)
    (CountryCode p).

Definition set_Country (v : list Z) (p : DashboardPacket) : DashboardPacket :=
  mkPacket (Timestamp p) (SrcIP p) (DstIP p) (SrcPort p) (DstPort p) (SrcMAC p) (DstMAC p)
    (Protocol p) (HasTcpAo p) (TcpFlags p) (L3Offset p) (L4Offset p) (TcpSeq p) (TcpAck p)
    (VlanID p) (IpTTL p) (IpTos p) (TcpWin p) (IpID p) (IsIpv6 p) (IsFragment p) (TcpMSS p)
    (TcpWS p) (Ipv6ExtCount p) (Ipv6Flow p) (WireLen p) (TcpTsVal p) (TcpTsEcr p) (TcpSack p)
    (TcpRTT p) (VxlanVNI p) (Entropy p) (NtpStratum p) (NtpMode p) (IgmpGroup p) (IgmpType p)
    (LldpChassis p) (LldpPort p) (TcpSackEdges p) (TopByteInfo p) (DnsQuery p) (TlsSNI p)
    (ExtraInfo p) (Payload p) (Index p) (Info p) (SrcMacVendor p) (DstMacVendor p) v (City p)
    (ISP p) (CountryCode p).

Definition set_City (v : list Z) (p : DashboardPacket) : DashboardPacket :=
  mkPacket (Timestamp p) (SrcIP p) (DstIP p) (SrcPort p) (DstPort p) (SrcMAC p) (DstMAC p)
    (Protocol p) (HasTcpAo p) (TcpFlags p) (L3Offset p) (L4Offset p) (TcpSeq p) (TcpAck p)
    (VlanID p) (IpTTL p) (IpTos p) (TcpWin p) (IpID p) (IsIpv6 p) (IsFragment p) (TcpMSS p)
    (TcpWS p) (Ipv6ExtCount p) (Ipv6Flow p) (WireLen p) (TcpTsVal p) (TcpTsEcr p) (TcpSack p)
    (TcpRTT p) (VxlanVNI p) (Entropy p) (NtpStratum p) (NtpMode p) (IgmpGroup p) (IgmpType p)
    (LldpChassis p) (LldpPort p) (TcpSackEdges p) (TopByteInfo p) (DnsQuery p) (TlsSNI p)
    (ExtraInfo p) (Payload p) (Index p) (Info p) (SrcMacVendor p) (DstMacVendor p) (Country p) v
    (ISP p) (CountryCode p).

Definition set_ISP (v : list Z) (p : DashboardPacket) : DashboardPacket :=
  mkPacket (Timestamp p) (SrcIP p) (DstIP p) (SrcPort p) (DstPort p) (SrcMAC p) (DstMAC p)
    (Protocol p) (HasTcpAo p) (TcpFlags p) (L3Offset p) (L4Offset p) (TcpSeq p) (TcpAck p)
    (VlanID p) (IpTTL p) (IpTos p) (TcpWin p) (IpID p) (IsIpv6 p) (IsFragment p) (TcpMSS p)
    (TcpWS p) (Ipv6ExtCount p) (Ipv6Flow p) (WireLen p) (TcpTsVal p) (TcpTsEcr p) (TcpSack p)
    (TcpRTT p) (VxlanVNI p) (Entropy p) (NtpStratum p) (NtpMode p) (IgmpGroup p) (IgmpType p)
    (LldpChassis p) (LldpPort p) (TcpSackEdges p) (TopByteInfo p) (DnsQuery p) (TlsSNI p)
    (ExtraInfo p) (Payload p) (Index p) (Info p) (SrcMacVendor p) (DstMacVendor p) (Country p)
    (City p) v (CountryCode p).

Definition set_CountryCode (v : list Z) (p : DashboardPacket) : DashboardPacket :=
  mkPacket (Timestamp p) (SrcIP p) (DstIP p) (SrcPort p) (DstPort p) (SrcMAC p) (DstMAC p)
    (Protocol p) (HasTcpAo p) (TcpFlags p) (L3Offset p) (L4Offset p) (TcpSeq p) (TcpAck p)
    (VlanID p) (IpTTL p) (IpTos p) (TcpWin p) (IpID p) (IsIpv6 p) (IsFragment p) (TcpMSS p)
    (TcpWS p) (Ipv6ExtCount p) (Ipv6Flow p) (WireLen p) (TcpTsVal p) (TcpTsEcr p) (TcpSack p)
    (TcpRTT p) (VxlanVNI p) (Entropy p) (NtpStratum p) (NtpMode p) (IgmpGroup p) (IgmpType p)
    (LldpChassis p) (LldpPort p) (TcpSackEdges p) (TopByteInfo p) (DnsQuery p) (TlsSNI p)
    (ExtraInfo p) (Payload p) (Index p) (Info p) (SrcMacVendor p) (DstMacVendor p) (Country p)
    (City p) (ISP p) v.

(** ** [getPacketInfo] *)

Definition span_syn : list Z := str "<span style='color:#fbbf24; font-weight:800;'>SYN</span>".
Definition span_fin : list Z := str "<span style='color:#a855f7; font-weight:800;'>FIN</span>".
Definition span_rst : list Z := str "<span style='color:#f43f5e; font-weight:800;'>RST</span>".
Definition span_entropy : list Z :=
  str " <span title='High Entropy (Possible Encryption)' style='color:#ec4899; cursor:help;'>[!]</span>".

(** ["%d -> %d"] *)
Definition ports (p : DashboardPacket) : list Z := fmt_u (SrcPort p) ++ str " -> " ++ fmt_u (DstPort p).

Definition has_flag (p : DashboardPacket) (bit : Z) : bool := negb (Z.land (TcpFlags p) bit =? 0).

Definition flag_names (p : DashboardPacket) : list (list Z) :=
  (if has_flag p 0x02 then [span_syn] else []) ++
  (if has_flag p 0x01 then [span_fin] else []) ++
  (if has_flag p 0x04 then [span_rst] else []) ++
  (if has_flag p 0x10 then [str "ACK"] else []) ++
  (if has_flag p 0x08 then [str "PSH"] else []).

(** [" (%s)"] for a vendor that is known *)
Definition vendor_suffix (v : list Z) : list Z :=
  if bool_decide (v = []) then [] else str " (" ++ v ++ str ")".

Definition tcp_info (p : DashboardPacket) : list Z :=
  let info := ports p ++ (if 7200 <? Entropy p then span_entropy else []) in
  let flags := flag_names p in
  let info :=
    if bool_decide (flags = []) then info else info ++ str " [" ++ join flags (str ",") ++ str "]" in
  info ++ str " seq=" ++ fmt_u (TcpSeq p) ++ str " ack=" ++ fmt_u (TcpAck p) ++
    str " win=" ++ fmt_u (TcpWin p) ++ str " len=" ++ fmt_u (zlen (Payload p)).

Section info.
Context `{GoUnicode}.

Definition getPacketInfo (p : DashboardPacket) : list Z :=
  let proto s := bool_decide (Protocol p = str s) in
  let len := str " len=" ++ fmt_u (zlen (Payload p)) in
  if negb (bool_decide (TlsSNI p = [])) then
    str "TLS SNI: " ++ TlsSNI p ++ str " (" ++ ports p ++ str ")"
  else if negb (bool_decide (ExtraInfo p = [])) then ExtraInfo p
  else if negb (bool_decide (DnsQuery p = [])) then str "DNS Query: " ++ DnsQuery p
  else if proto "TCP" then tcp_info p
  else if proto "UDP" then ports p ++ len
  else if proto "DHCP" then str "DHCP Message " ++ ports p ++ len
  else if proto "HTTP" then str "HTTP Request/Response " ++ ports p ++ len
  else if proto "ICMP" then str "echo (ping) request"
  else if proto "ARP" then
    str "ARP Request/Reply " ++ SrcIP p ++ vendor_suffix (SrcMacVendor p) ++ str " -> " ++
    DstIP p ++ vendor_suffix (DstMacVendor p)
  else if proto "ND" then str "Neighbor Discovery (Solicitation/Advertisement)"
  else if proto "ICMPv6" then str "ICMPv6 Control Message"
  else if proto "OSPF" then str "OSPF Routing Protocol Message"
  else if proto "STP" then
    let cityISP :=
      if bool_decide (City p = []) && bool_decide (ISP p = []) then []
      else str " (" ++ City p ++ str ", " ++ ISP p ++ str ")" in
    str "Spanning Tree Protocol Message to " ++ DstMAC p ++ vendor_suffix (DstMacVendor p) ++ cityISP
  else str "protocol " ++ to_lower (Protocol p) ++ str " message".

(** ** [getMacVendor] *)

Definition macVendors : list (list Z * list Z) :=
  [ (str "00:00:00", str "Xerox"); (str "00:00:0C", str "Cisco"); (str "00:00:0F", str "Fujitsu");
    (str "00:00:1C", str "Intel"); (str "00:00:2D", str "Apple"); (str "00:00:33", str "IBM");
    (str "00:00:3F", str "Motorola"); (str "00:00:5E", str "IANA"); (str "00:00:86", str "HP");
    (str "00:00:A7", str "Dell"); (str "00:00:C0", str "Western Digital");
    (str "00:00:E8", str "Samsung"); (str "00:01:42", str "Microsoft");
    (str "00:01:4F", str "Netgear"); (str "00:01:6C", str "Linksys"); (str "00:01:96", str "Huawei");
    (str "00:02:B3", str "Google"); (str "00:03:93", str "Juniper"); (str "00:04:20", str "Nokia");
    (str "00:05:00", str "VMware"); (str "00:05:1A", str "Broadcom"); (str "00:05:9A", str "D-Link") ].

(** A missing key gives the empty string. *)
Fixpoint lookup_vendor (oui : list Z) (l : list (list Z * list Z)) : list Z :=
  match l with
  | [] => []
  | (k, v) :: l => if bool_decide (k = oui) then v else lookup_vendor oui l
  end.

Definition getMacVendor (mac : list Z) : list Z :=
  if zlen mac <? 8 then [] else lookup_vendor (to_upper (take 8 mac)) macVendors.
End info.
