(* ===== verification/DnsPath.v ===== *)
(** * A DNS query on its way to the dashboard

    From the frame on the network to the row of the table: the dissection, the
    record on the wire, the packet service and the dashboard together. *)

From stdpp Require Import strings.
From S2P Require Import Prelude CMemory PacketTypes Layers Frames Stats Entropy NameDissectors Capture CaptureProps.
From S2P Require Import DnsFrames Wire GoText GoPacket.

Section path.
Context `{DoubleLaws D} `{GoUnicode}.

(** The name of the protocol in the table. *)
Definition dns_protocol (sport dport : Z) : list Z :=
  if (sport =? 67) || (sport =? 68) || (dport =? 67) || (dport =? 68) then str "DHCP" else str "DNS".

Lemma uncaptured_fields j k :
  uncaptured j = uncaptured k →
  src_ip j = src_ip k ∧ dst_ip j = dst_ip k ∧ src_port j = src_port k ∧ dst_port j = dst_port k ∧
  protocol j = protocol k ∧ is_ipv6 j = is_ipv6 k ∧ dns_query j = dns_query k ∧
  tls_sni j = tls_sni k ∧ extra_info j = extra_info k.
Proof.
  intros E.
  split_and!; [apply (f_equal src_ip) in E|apply (f_equal dst_ip) in E|apply (f_equal src_port) in E
    |apply (f_equal dst_port) in E|apply (f_equal protocol) in E|apply (f_equal is_ipv6) in E
    |apply (f_equal dns_query) in E|apply (f_equal tls_sni) in E|apply (f_equal extra_info) in E]; exact E.
Qed.

(** C8. A DNS query is shown for what it is: a frame with a DNS message over UDP
    and IPv4 (any options) or IPv6, between any VLAN tags, that fits the buffer,
    is dissected without a fault to the record with exactly its fields; the
    service decodes the record, and the dashboard's row has both addresses and
    ports, the frame as its payload, and the text "DNS Query: " with the name
    asked for, the first 63 bytes of it. *)
Theorem dns_query_shown (q : dns_frame) (raw : RawPacket) (info : PacketInfo) :
  let name := shown_name (q_labels q) in
  wf_dns q → wf_raw raw → holds_frame raw (build_dns_frame q) →
  ascii name → 0 ∉ name → name ≠ [] →
  ensures (dissect_raw_packet raw info) (λ j,
    uncaptured j = uncaptured (dns_record q raw) ∧
    ∀ r, ∃ d, read_packet (encode j ++ r) = Some (d, r) ∧
      let p := of_service d in
      getPacketInfo p = str "DNS Query: " ++ name ∧
      Protocol p = dns_protocol (q_sport q) (q_dport q) ∧
      SrcIP p = ip_addr_to_string (ipi_src_ip (net_info (q_net q) 0)) (net_v6 (q_net q)) ∧
      DstIP p = ip_addr_to_string (ipi_dst_ip (net_info (q_net q) 0)) (net_v6 (q_net q)) ∧
      SrcPort p = q_sport q ∧ DstPort p = q_dport q ∧ Payload p = build_dns_frame q).
Proof.
  cbn zeta. intros Hq Hraw Hin Ha H0n Hne.
  eapply wp_mono; [by apply (dissect_dns_frame_spec q)|]. intros j (Hj & Hcap & E).
  split; [exact E|]. intros r. exists (dashboard j). split; [by apply read_packet_encode|].
  destruct (uncaptured_fields _ _ E) as (Es & Ed & Esp & Edp & Ep & E6 & Eq & Et & Ex).
  assert (d_dns_query (dashboard j) = shown_name (q_labels q)) as Hname.
  { cbn [d_dns_query dashboard]. rewrite Eq. unfold dns_record. cbn [dns_query set_dns_query].
    by apply text_cstring. }
  assert (d_tls_sni (dashboard j) = [] ∧ d_extra_info (dashboard j) = []) as [Ht Hx].
  { cbn [d_tls_sni d_extra_info dashboard]. rewrite Et, Ex.
    split; [apply (text_cstring [] 64)|apply (text_cstring [] 128)]; by (constructor || apply not_elem_of_nil). }
  cbn [of_service Protocol SrcIP DstIP SrcPort DstPort Payload].
  cbn [d_protocol d_src_ip d_dst_ip d_src_port d_dst_port d_payload dashboard].
  rewrite Es, Ed, Esp, Edp, Ep, E6.
  assert (src_ip (dns_record q raw) = ipi_src_ip (net_info (q_net q) 0) ∧
    dst_ip (dns_record q raw) = ipi_dst_ip (net_info (q_net q) 0)) as [-> ->].
  { unfold dns_record. record_simpl. by destruct (q_net q). }
  assert (to_bool (is_ipv6 (dns_record q raw)) = net_v6 (q_net q)) as ->.
  { unfold dns_record. record_simpl. by destruct (net_v6 _). }
  split_and!; try reflexivity.
  - unfold getPacketInfo. cbn [TlsSNI ExtraInfo DnsQuery of_service]. rewrite Ht, Hx, Hname.
    by rewrite (bool_decide_eq_false_2 (shown_name _ = [])) by done.
  - unfold dns_record. record_simpl. unfold protocol_to_string, dns_protocol. cbn [Z.eqb Pos.eqb].
    case_test; [done|]. destruct (wf_q_port q Hq) as [->| ->]; [done|]. by rewrite orb_true_r.
  - destruct Hcap as (Hn & -> & _). pose proof (dns_fits q raw Hraw Hin) as Hfit.
    destruct Hin as (Hc & junk & ->). rewrite Hn, Hc, !(Z.min_l _ 256), Nat2Z.id by lia.
    by rewrite take_app_length, take_app_length.
Qed.
End path.

(** A query for www.example.com over IPv6, in a tagged frame. *)
Definition sample_query : dns_frame := {|
    q_dst := [0; 1; 2; 3; 4; 5]; q_src := [6; 7; 8; 9; 10; 11]; q_tags := [(0x8100, 7)];
    q_net := NetV6 0 0xABCDE 64 (replicate 15 0 ++ [1]) (replicate 15 0 ++ [2]);
    q_sport := 40000; q_dport := 53; q_sum := 0;
    q_header := [18; 52; 1; 0; 0; 1; 0; 0; 0; 0; 0; 0];
    q_labels := [str "www"; str "example"; str "com"];
    q_tail := [0; 0; 28; 0; 1]; q_trailer := [0; 0]
  |}.

Lemma dns_query_shown_witness :
  let raw := raw_of (build_dns_frame sample_query) in
  ensures (dissect_raw_packet raw zero_info) (λ j,
    ∃ d, read_packet (encode j) = Some (d, []) ∧
      getPacketInfo (H := ascii_only) (of_service d) = str "DNS Query: www.example.com" ∧
      SrcPort (of_service d) = 40000).
Proof.
  cbn zeta. eapply wp_mono.
  { apply (dns_query_shown (H1 := ascii_only) sample_query).
    - constructor; by_decide || (by vm_compute) || (right; reflexivity).
    - constructor; by_decide.
    - split; [reflexivity|]. eexists. reflexivity.
    - by_decide.
    - by_decide.
    - done. }
  intros j [_ Hj]. destruct (Hj []) as (d & Hd & Hi & _ & _ & _ & Hs & _).
  exists d. rewrite app_nil_r in Hd. split; [exact Hd|]. split; [|exact Hs].
  rewrite Hi. vm_compute. reflexivity.
Defined.
