(* ===== verification/Filter.v ===== *)
(** * The dashboard's filter

    Which packets [go/dashboard/main.go] lets into its history: everything, one
    TCP stream, a regular expression, or words that must (or, with a minus sign,
    must not) occur.  Go's [regexp] is an interface. *)

From stdpp Require Import strings pretty.
From S2P Require Import Prelude PacketTypes Wire GoText GoNet GoPacket.

Class GoRegexp := {
    regex : Type;
    Compile : list Z → option regex;
    MatchString : regex → list Z → bool
  }.

Section filter.
Context `{GoUnicode} `{GoRegexp}.
Implicit Types (p : DashboardPacket) (part f : list Z).

(** ** The [filter] parameter of a request *)

Definition regex_of (filterStr : list Z) : option regex :=
  if has_prefix (to_lower filterStr) (str "regex:") then Compile (str "(?i)" ++ drop 6 filterStr)
  else None.

(** ** The decision for a packet *)

Definition stream_match (filterStr : list Z) p : bool :=
  match split filterStr 58 with
  | [_; f1; f2; f3; f4] =>
      let eq a b := bool_decide (a = b) in
      bool_decide (Protocol p = str "TCP") &&
      ((eq (SrcIP p) f1 && eq (fmt_u (SrcPort p)) f2 && eq (DstIP p) f3 && eq (fmt_u (DstPort p)) f4) ||
       (eq (SrcIP p) f3 && eq (fmt_u (SrcPort p)) f4 && eq (DstIP p) f1 && eq (fmt_u (DstPort p)) f2))
  | _ => false
  end.

Definition regex_match (r : regex) p : bool :=
  MatchString r (Protocol p) || MatchString r (SrcIP p) || MatchString r (DstIP p) ||
  MatchString r (Info p) || MatchString r (Country p) || MatchString r (CountryCode p).

(** One word of the filter: does the packet pass? *)
Definition part_match p part : bool :=
  let negate := has_prefix part (str "-") in
  let checkPart := if negate then trim_prefix part (str "-") else part in
  let partMatch :=
    contains (to_lower (Protocol p)) checkPart || contains (to_lower (SrcIP p)) checkPart ||
    contains (to_lower (DstIP p)) checkPart || contains (to_lower (Info p)) checkPart ||
    contains (to_lower (Country p)) checkPart || contains (to_lower (CountryCode p)) checkPart ||
    ((bool_decide (checkPart = str "tcp-ao") || bool_decide (checkPart = str "ao")) && HasTcpAo p) in
  let partMatch := if negate then negb partMatch else partMatch in
  if negb partMatch && contains checkPart (str "/") then
    match ParseCIDR checkPart with
    | Some ipnet =>
        let found := net_contains ipnet (ParseIP (SrcIP p)) || net_contains ipnet (ParseIP (DstIP p)) in
        if negate then negb found else found
    | None => partMatch
    end
  else partMatch.

(** The loop over the words ends at the first that does not match. *)
Fixpoint parts_match p (parts : list (list Z)) : bool :=
  match parts with
  | [] => true
  | part :: parts => if negb (part_match p part) then false else parts_match p parts
  end.

Definition filter_match (filterStr : list Z) (filterRegex : option regex) p : bool :=
  if bool_decide (filterStr = []) then true
  else if has_prefix filterStr (str "STREAM:") then stream_match filterStr p
  else
    match filterRegex with
    | Some r => regex_match r p
    | None => parts_match p (fields (to_lower filterStr))
    end.

(** ** What the words mean *)

(** A text that some shown field of the packet contains. *)
Definition mentions p (w : list Z) : Prop :=
  ∃ s, s ∈ [Protocol p; SrcIP p; DstIP p; Info p; Country p; CountryCode p] ∧
    contains (to_lower s) w = true.

Definition word_holds p (w : list Z) : Prop :=
  mentions p w ∨ (w = str "tcp-ao" ∨ w = str "ao") ∧ HasTcpAo p = true.

(** The word is a subnet that contains one of the addresses. *)
Definition subnet_holds p (w : list Z) : Prop :=
  ∃ nw, ParseCIDR w = Some nw ∧
    (net_contains nw (ParseIP (SrcIP p)) = true ∨ net_contains nw (ParseIP (DstIP p)) = true).

Lemma mentions_test p w :
  contains (to_lower (Protocol p)) w || contains (to_lower (SrcIP p)) w ||
    contains (to_lower (DstIP p)) w || contains (to_lower (Info p)) w ||
    contains (to_lower (Country p)) w || contains (to_lower (CountryCode p)) w = true ↔ mentions p w.
Proof.
  unfold mentions. rewrite !orb_true_iff. split.
  - intros [[[[[H1|H1]|H1]|H1]|H1]|H1]; eexists; (split; [|exact H1]);
      rewrite !elem_of_cons; tauto.
  - intros (s & Hs & Hc). rewrite !elem_of_cons, elem_of_nil in Hs.
    destruct Hs as [->|[->|[->|[->|[->|[->|[]]]]]]]; tauto.
Qed.

Lemma word_test p w :
  contains (to_lower (Protocol p)) w || contains (to_lower (SrcIP p)) w ||
    contains (to_lower (DstIP p)) w || contains (to_lower (Info p)) w ||
    contains (to_lower (Country p)) w || contains (to_lower (CountryCode p)) w ||
    ((bool_decide (w = str "tcp-ao") || bool_decide (w = str "ao")) && HasTcpAo p) = true ↔
  word_holds p w.
Proof.
  rewrite orb_true_iff, mentions_test, andb_true_iff, orb_true_iff, !bool_decide_eq_true. done.
Qed.

Lemma ParseCIDR_slash w nw : ParseCIDR w = Some nw → contains w (str "/") = true.
Proof.
  unfold ParseCIDR. destruct (cut w 47) as [[a m]|] eqn:E; [|done]. intros _.
  assert (∃ b, w = a ++ 47 :: b) as [b ->].
  { clear -E. revert a m E. induction w as [|c w IH]; intros a m; [done|]. cbn [cut].
    destruct (Z.eqb_spec c 47) as [->|]; [intros [= <- <-]; by exists w|].
    destruct (cut w 47) as [[a' m']|]; [|done]. intros [= <- <-].
    destruct (IH a' m' eq_refl) as [b ->]. by exists b. }
  apply contains_spec. by exists a, b.
Qed.

(** A word without a minus sign. *)
Lemma part_match_plain p w :
  has_prefix w (str "-") = false → part_match p w = true ↔ word_holds p w ∨ subnet_holds p w.
Proof.
  intros Hw. unfold part_match. rewrite Hw. pose proof (word_test p w) as Ht.
  destruct (_ || _ && HasTcpAo p); cbn [negb andb].
  { split; [|done]. intros _. left. by apply Ht. }
  assert (¬ word_holds p w) as Hn by (intros Hh; by apply Ht in Hh).
  unfold subnet_holds. destruct (ParseCIDR w) as [nw|] eqn:E.
  - rewrite (ParseCIDR_slash w nw E), orb_true_iff. split; [intros Hor; right; by exists nw|].
    intros [Hh|(nw' & E' & Hor)]; [by destruct (Hn Hh)|]. by injection E' as <-.
  - assert (∀ b : bool, (if b then false else false) = true ↔ word_holds p w ∨
      ∃ nw, None = Some nw ∧ (net_contains nw (ParseIP (SrcIP p)) = true ∨
        net_contains nw (ParseIP (DstIP p)) = true)) as Hb; [|apply Hb].
    intros b. destruct b; (split; [discriminate|]); intros [Hh|(? & Hf & _)];
      first [discriminate|destruct (Hn Hh)].
Qed.

(** A word with a minus sign: the subnet test is reached only if the packet
    mentions the text of the word. *)
Lemma part_match_negated p w :
  part_match p (str "-" ++ w) = true ↔
  ¬ word_holds p w ∨ (∃ nw, ParseCIDR w = Some nw ∧ ¬ subnet_holds p w).
Proof.
  unfold part_match. rewrite has_prefix_app, trim_prefix_app. pose proof (word_test p w) as Ht.
  destruct (_ || _ && HasTcpAo p); cbn [negb andb].
  2: { split; [|done]. intros _. left. intros Hh. by apply Ht in Hh. }
  assert (word_holds p w) as Hw by by apply Ht. unfold subnet_holds.
  destruct (ParseCIDR w) as [nw|] eqn:E.
  - rewrite (ParseCIDR_slash w nw E), negb_true_iff, orb_false_iff. split.
    + intros [H1 H2]. right. exists nw. split; [done|]. intros (nw' & E' & Hor).
      injection E' as <-. destruct Hor; congruence.
    + intros [Hh|(nw' & E' & Hn)]; [by destruct (Hh Hw)|]. injection E' as <-.
      split; apply not_true_is_false; intros Ht'; apply Hn; exists nw; (split; [reflexivity|]).
      * by left.
      * by right.
  - assert (∀ b : bool, (if b then false else false) = true ↔ ¬ word_holds p w ∨
      ∃ nw : IPNet, None = Some nw ∧ ¬ (∃ nw, None = Some nw ∧
        (net_contains nw (ParseIP (SrcIP p)) = true ∨
        net_contains nw (ParseIP (DstIP p)) = true))) as Hb; [|apply Hb].
    intros b. destruct b; (split; [discriminate|]); intros [Hh|(? & Hf & _)];
      first [discriminate|destruct (Hh Hw)].
Qed.

Lemma parts_match_all p parts :
  parts_match p parts = true ↔ Forall (λ w, part_match p w = true) parts.
Proof.
  induction parts as [|w parts IH]; cbn [parts_match].
  - split; [constructor|done].
  - rewrite Forall_cons, <-IH. destruct (part_match p w); cbn; tauto || (split; [done|by intros [? _]]).
Qed.
End filter.
