(* ===== verification/FilterProps.v ===== *)
(** * What the filter selects

    The words of the filter, the subnets among them, and the streams: what a
    filter means for the packets of the service, and what the page's own link
    "Follow TCP Stream" asks for. *)

From stdpp Require Import strings pretty.
From S2P Require Import Prelude PacketTypes Wire GoText GoNet GoPacket Filter.

(** ** Words *)

Inductive word :=
  | Plain (w : list Z)
  | Not (w : list Z).

Definition word_text (w : word) : list Z := match w with Plain w => w | Not w => str "-" ++ w end.

(** Printable ASCII without capitals and blanks. *)
Definition typed (w : list Z) : Prop := Forall (λ c, 33 ≤ c < 127 ∧ lower_byte c = c) w.

Definition word_ok (w : word) : Prop :=
  match w with
  | Plain w => w ≠ [] ∧ typed w ∧ has_prefix w (str "-") = false
  | Not w => typed w
  end.

(** The text of the filter: the words, a blank between them. *)
Definition filter_text (ws : list word) : list Z := join (word_text <$> ws) [32].

Section words.
Context `{GoUnicode} `{GoRegexp}.
Implicit Types (p : DashboardPacket).

(** The packet has the word: it shows it, or it is a subnet with one of its addresses. *)
Definition word_matches p (w : list Z) : Prop := word_holds p w ∨ subnet_holds p w.

(** What a word of the filter means. *)
Definition word_passes p (w : word) : Prop :=
  match w with Plain w => word_matches p w | Not w => ¬ word_matches p w end.

(** What the code makes of it. *)
Definition word_accepts p (w : word) : Prop :=
  match w with
  | Plain w => word_matches p w
  | Not w => ¬ word_holds p w ∨ (∃ nw, ParseCIDR w = Some nw ∧ ¬ subnet_holds p w)
  end.

Definition negated_subnet (w : word) : Prop :=
  match w with Plain _ => False | Not w => is_Some (ParseCIDR w) end.

Lemma word_accepts_passes p (w : word) : ¬ negated_subnet w → word_accepts p w ↔ word_passes p w.
Proof.
  destruct w as [w|w]; cbn [negated_subnet word_accepts word_passes]; [done|]. intros Hno.
  unfold word_matches, subnet_holds. split.
  - intros [Hw|(nw & E & _)]; [|by destruct Hno; eexists].
    intros [?|(nw & E & _)]; [done|]. by destruct Hno; eexists.
  - intros Hw. left. tauto.
Qed.

Lemma typed_word_text (w : word) : word_ok w → typed (word_text w) ∧ word_text w ≠ [].
Proof.
  destruct w as [w|w]; cbn [word_ok word_text]; [by intros (? & ? & _)|]. intros Hw. split; [|done].
  apply Forall_app_2; [|done]. apply Forall_singleton. by_decide.
Qed.

Definition lower_text (s : list Z) : Prop := Forall (λ c, c < 128 ∧ lower_byte c = c) s.

Lemma to_lower_id s : lower_text s → to_lower s = s.
Proof.
  intros Hs. unfold to_lower. rewrite (proj2 (ascii_text_Forall s)).
  - induction Hs as [|c s [_ Hc] _ IH]; [done|]. rewrite fmap_cons. by rewrite Hc, IH.
  - eapply Forall_impl; [exact Hs|]. by intros c [? _].
Qed.

Lemma lower_no_stream s : lower_text s → has_prefix s (str "STREAM:") = false.
Proof.
  intros Hs. apply not_true_is_false. intros [b ->]%has_prefix_spec.
  apply Forall_app in Hs as [Hs _]. inversion Hs as [|? ? [_ Hc] _]; subst. by vm_compute in Hc.
Qed.

Lemma lower_filter_text ws : Forall word_ok ws → lower_text (filter_text ws).
Proof.
  unfold filter_text. induction 1 as [|w ws Hw _ IH]; [constructor|].
  assert (lower_text (word_text w)).
  { eapply Forall_impl; [by apply typed_word_text|]. cbn. lia. }
  rewrite fmap_cons in *. destruct (word_text <$> ws) as [|w' ws'] eqn:E; [done|].
  change (join (?a :: w' :: ws') ?s) with (a ++ s ++ join (w' :: ws') s).
  apply Forall_app_2; [done|]. apply Forall_app_2; [|done].
  apply Forall_singleton. by vm_compute.
Qed.

Lemma fields_filter_text ws :
  Forall word_ok ws → fields (filter_text ws) = word_text <$> ws.
Proof.
  intros Hws. unfold fields. rewrite (proj2 (ascii_text_Forall _)).
  2: { eapply Forall_impl; [by apply lower_filter_text|]. by intros c [? _]. }
  apply fields_from_join, Forall_fmap. eapply Forall_impl; [exact Hws|].
  intros w Hw. destruct (typed_word_text w Hw) as [Ht Hn]. split; [done|].
  eapply Forall_impl; [exact Ht|]. intros c [? _]. cbn. unfold is_space. lia.
Qed.

Lemma part_match_word p (w : word) : word_ok w → part_match p (word_text w) = true ↔ word_accepts p w.
Proof.
  destruct w as [w|w]; cbn [word_ok word_text word_accepts].
  - intros (_ & _ & Hn). by apply part_match_plain.
  - intros _. apply part_match_negated.
Qed.

Lemma filter_text_ne ws : ws ≠ [] → Forall word_ok ws → filter_text ws ≠ [].
Proof.
  intros Hne Hws E. apply (f_equal fields) in E. rewrite fields_filter_text in E by done.
  by destruct ws.
Qed.

Lemma filter_match_words ws p :
  ws ≠ [] → Forall word_ok ws → has_prefix (filter_text ws) (str "regex:") = false →
  filter_match (filter_text ws) (regex_of (filter_text ws)) p = true ↔ Forall (word_accepts p) ws.
Proof.
  intros Hne Hws Hr. pose proof (lower_filter_text ws Hws) as Hl.
  unfold filter_match, regex_of. rewrite bool_decide_eq_false_2 by by apply filter_text_ne.
  rewrite lower_no_stream, to_lower_id, Hr by done.
  rewrite parts_match_all, fields_filter_text, Forall_fmap by done.
  rewrite Forall_forall in Hws. rewrite !Forall_forall. unfold compose.
  split; intros Hall w Hw; apply part_match_word; auto.
Qed.

Lemma word_holds_dec p w : Decision (word_holds p w).
Proof.
  pose proof (word_test p w) as Ht.
  match type of Ht with (?b = true ↔ _) => destruct b end; [left; by apply Ht|right].
  intros Hw. by apply Ht in Hw.
Qed.

(** *** Subnets *)

Definition subnet_text (net : list Z) (n : Z) : list Z := dotted net ++ str "/" ++ fmt_u n.

(** The address, as the service prints it, shares the [n] leading bits. *)
Definition in_subnet (net : list Z) (n : Z) (ip : list Z) (v6 : bool) : Prop :=
  length (short_form ip v6) = 4%nat ∧
  be_value (short_form ip v6) / 2 ^ (32 - n) = be_value net / 2 ^ (32 - n).

(** A packet whose addresses the service printed. *)
Definition addresses p (src dst : list Z) (v6 : bool) : Prop :=
  is_array 16 src ∧ is_array 16 dst ∧
  SrcIP p = ip_addr_to_string src v6 ∧ DstIP p = ip_addr_to_string dst v6.

Lemma subnet_holds_spec p src dst v6 net n :
  addresses p src dst v6 → bytes net → length net = 4%nat → 0 ≤ n ≤ 32 →
  subnet_holds p (subnet_text net n) ↔ in_subnet net n src v6 ∨ in_subnet net n dst v6.
Proof.
  intros (Hs & Hd & Es & Ed) Hb Hl Hn. unfold subnet_holds, subnet_text, in_subnet.
  rewrite ParseCIDR_dotted, Es, Ed by done.
  rewrite <-!(subnet_contains net n _ v6 Hb Hl Hn) by done. split.
  - intros (nw & [= <-] & ?). done.
  - intros ?. eexists. split; [reflexivity|done].
Qed.

Lemma typed_address s : Forall address_char s → typed s.
Proof.
  intros Hs. eapply Forall_impl; [exact Hs|]. intros c Hc. unfold address_char in Hc.
  split; [lia|]. unfold lower_byte. case_test; lia.
Qed.

Lemma typed_digits s : digits s → typed s.
Proof.
  intros Hs. eapply Forall_impl; [exact Hs|]. cbn. intros c Hc.
  split; [lia|]. unfold lower_byte. case_test; lia.
Qed.

Lemma typed_subnet net n : bytes net → 0 ≤ n → typed (subnet_text net n).
Proof.
  intros Hb Hn. unfold subnet_text. repeat apply Forall_app_2.
  - by apply typed_address, chars_dotted.
  - apply Forall_singleton. by_decide.
  - by apply typed_digits, fmt_u_digits.
Qed.

(** C33. A filter of words, none of which is a subnet behind a minus sign, lets a
    packet through exactly when every word passes: the packet has a plain word if
    it occurs in the protocol, an address, the information or the location, or is
    "tcp-ao" or "ao" and the packet has that option, or is a subnet that contains
    the source or the destination - for [a.b.c.d/n] these are the addresses with
    the same [n] leading bits -; a word behind a minus sign passes if the packet
    does not have it.  Of the packets that pass the other words, a subnet behind a
    minus sign, which means the same, holds back only those that are in the
    subnet and moreover show its text. *)
Theorem filter_words ws p src dst v6 :
  ws ≠ [] → Forall word_ok ws → has_prefix (filter_text ws) (str "regex:") = false →
  addresses p src dst v6 →
  let through := filter_match (filter_text ws) (regex_of (filter_text ws)) p = true in
  (Forall (λ w, ¬ negated_subnet w) ws → through ↔ Forall (word_passes p) ws) ∧
  (∀ net n, bytes net → length net = 4%nat → 0 ≤ n ≤ 32 →
    word_matches p (subnet_text net n) ↔
      word_holds p (subnet_text net n) ∨ in_subnet net n src v6 ∨ in_subnet net n dst v6) ∧
  (∀ ws1 w ws2, ws = ws1 ++ Not w :: ws2 → negated_subnet (Not w) →
    Forall (λ w, ¬ negated_subnet w ∧ word_passes p w) (ws1 ++ ws2) →
    through ↔ ¬ (word_holds p w ∧ subnet_holds p w)).
Proof.
  intros Hne Hws Hr Ha through. pose proof (filter_match_words ws p Hne Hws Hr : through ↔ _) as Hm.
  clearbody through. split; [|split].
  - intros Hno. rewrite Hm. rewrite Forall_forall in Hno. rewrite !Forall_forall.
    split; intros H1 w Hw; apply word_accepts_passes; auto.
  - intros net n Hb Hl Hn. unfold word_matches. by rewrite (subnet_holds_spec p src dst v6).
  - intros ws1 w ws2 -> Hneg Hrest. cbn [negated_subnet] in Hneg.
    assert (Forall (word_accepts p) (ws1 ++ ws2)) as Hacc.
    { eapply Forall_impl; [exact Hrest|]. intros v [? ?]. by apply word_accepts_passes. }
    apply Forall_app in Hacc as [H1 H2]. rewrite Hm, Forall_app, Forall_cons. cbn [word_accepts].
    destruct Hneg as [nw E]. split.
    + intros (_ & Hw & _) [Hh Hs]. destruct Hw as [?|(? & _ & ?)]; done.
    + intros Hw. split; [done|]. split; [|done].
      destruct (word_holds_dec p w) as [Hh|]; [|by left]. right. exists nw. split; [done|]. tauto.
Qed.

Lemma no_prefix (s p : list Z) c : c ∈ p → c ∉ s → has_prefix s p = false.
Proof.
  intros Hp Hs. apply not_true_is_false. intros [b ->]%has_prefix_spec.
  apply Hs, elem_of_app. by left.
Qed.

Lemma subnet_chars net n : bytes net → 0 ≤ n → Forall (λ c, 46 ≤ c ≤ 58 ∨ 97 ≤ c ≤ 102) (subnet_text net n).
Proof.
  intros Hb Hn. unfold subnet_text. repeat apply Forall_app_2.
  - eapply Forall_impl; [by apply chars_dotted|]. unfold address_char. lia.
  - apply Forall_singleton. by_decide.
  - eapply Forall_impl; [by apply fmt_u_digits|]. cbn. lia.
Qed.

(** A subnet behind a minus sign excludes nothing: for every packet whose
    shown texts do not contain the word literally, [-a.b.c.d/n] lets the packet
    through, although the plain word selects exactly the packets of the subnet -
    the subnet test is made only if the word has failed, which for a word behind
    a minus sign means that its text was found. *)
Theorem negated_subnet_ignored p src dst v6 net n :
  addresses p src dst v6 → bytes net → length net = 4%nat → 0 ≤ n ≤ 32 →
  ¬ word_holds p (subnet_text net n) →
  (filter_match (subnet_text net n) (regex_of (subnet_text net n)) p = true ↔
    in_subnet net n src v6 ∨ in_subnet net n dst v6) ∧
  filter_match (str "-" ++ subnet_text net n) (regex_of (str "-" ++ subnet_text net n)) p = true.
Proof.
  intros Ha Hb Hl Hn Hw. pose proof (subnet_chars net n Hb (proj1 Hn)) as Hc.
  pose proof (typed_subnet net n Hb (proj1 Hn)) as Ht. rewrite Forall_forall in Hc. split.
  - pose proof (filter_match_words [Plain (subnet_text net n)] p) as H1.
    change (filter_text [Plain _]) with (subnet_text net n) in H1. rewrite H1; clear H1.
    + rewrite Forall_singleton. cbn [word_accepts]. unfold word_matches.
      rewrite (subnet_holds_spec p src dst v6) by done.
      split; [by intros [?|?]|by right].
    + done.
    + apply Forall_singleton. split_and!; [|done|].
      * unfold subnet_text. intros E%app_nil. destruct E as [_ E]. by apply app_nil in E as [? _].
      * apply (no_prefix _ _ 45); [by left|]. intros Hin%Hc. lia.
    + apply (no_prefix _ _ 114); [by left|]. intros Hin%Hc. lia.
  - pose proof (filter_match_words [Not (subnet_text net n)] p) as H1.
    change (filter_text [Not _]) with (str "-" ++ subnet_text net n) in H1. apply H1; clear H1.
    + done.
    + by apply Forall_singleton.
    + apply (no_prefix _ _ 114); [by left|]. rewrite elem_of_app. intros [Hin|Hin%Hc]; [|lia].
      by apply list_elem_of_singleton in Hin.
    + apply Forall_singleton. by left.
Qed.

(** ** Streams *)

(** The parameter of the link "Follow TCP Stream" of the page. *)
Definition followStream (src : list Z) (sport : Z) (dst : list Z) (dport : Z) : list Z :=
  str "stream:" ++ src ++ str ":" ++ fmt_u sport ++ str ":" ++ dst ++ str ":" ++ fmt_u dport.

(** The filter the dashboard understands. *)
Definition stream_text (src : list Z) (sport : Z) (dst : list Z) (dport : Z) : list Z :=
  join [str "STREAM"; src; fmt_u sport; dst; fmt_u dport] [58].

Lemma stream_text_prefix src sport dst dport :
  has_prefix (stream_text src sport dst dport) (str "STREAM:") = true.
Proof.
  change (stream_text src sport dst dport) with
    (str "STREAM:" ++ join [src; fmt_u sport; dst; fmt_u dport] [58]). apply has_prefix_app.
Qed.

Lemma stream_match_long f p : (5 < length (split f 58))%nat → stream_match f p = false.
Proof.
  unfold stream_match. destruct (split f 58) as [|? [|? [|? [|? [|? [|]]]]]]; try done; simpl; lia.
Qed.

Lemma fmt_u_no_colon z : 0 ≤ z → 58 ∉ fmt_u z.
Proof.
  intros Hz Hin.
  pose proof (fmt_u_digits z Hz) as Hd. unfold digits in Hd. rewrite Forall_forall in Hd.
  apply Hd in Hin. lia.
Qed.

Lemma colons_count (a : list Z) : 58 ∈ a → 1 ≤ zlen (filter (λ c : Z, c = 58) a).
Proof.
  intros Ha. assert (58 ∈ filter (λ c : Z, c = 58) a) as Hin by by apply list_elem_of_filter.
  destruct (filter (λ c : Z, c = 58) a); [by apply elem_of_nil in Hin|simpl; lia].
Qed.

Lemma filter_match_stream src sport dst dport r p :
  filter_match (stream_text src sport dst dport) r p = stream_match (stream_text src sport dst dport) p.
Proof.
  unfold filter_match. rewrite bool_decide_eq_false_2 by done. by rewrite stream_text_prefix.
Qed.

(** The packet belongs to the stream, in this direction. *)
Definition of_stream p (src : list Z) (sport : Z) (dst : list Z) (dport : Z) : Prop :=
  SrcIP p = src ∧ SrcPort p = sport ∧ DstIP p = dst ∧ DstPort p = dport.

Lemma of_stream_test p src sport dst dport :
  bool_decide (SrcIP p = src) && bool_decide (fmt_u (SrcPort p) = fmt_u sport) &&
    bool_decide (DstIP p = dst) && bool_decide (fmt_u (DstPort p) = fmt_u dport) = true ↔
  of_stream p src sport dst dport.
Proof.
  unfold of_stream. rewrite !andb_true_iff, !bool_decide_eq_true, !fmt_u_inj. tauto.
Qed.

(** C34. The filter "STREAM:" selects one TCP connection: between IPv4 addresses
    exactly the packets of protocol TCP in one or the other direction; between
    IPv6 addresses, which contain colons themselves, no packet at all; and never
    a packet of the ports 80 and 443, because the service does not call those TCP. *)
Theorem stream_filter src sport dst dport r p :
  0 ≤ sport → 0 ≤ dport →
  (58 ∉ src → 58 ∉ dst →
    filter_match (stream_text src sport dst dport) r p = true ↔
      Protocol p = str "TCP" ∧ (of_stream p src sport dst dport ∨ of_stream p dst dport src sport)) ∧
  (58 ∈ src ∨ 58 ∈ dst → filter_match (stream_text src sport dst dport) r p = false) ∧
  (Protocol p = protocol_to_string 6 (SrcPort p) (DstPort p) →
    SrcPort p ∈ [80; 443] ∨ DstPort p ∈ [80; 443] →
    filter_match (stream_text src sport dst dport) r p = false).
Proof.
  intros Hs Hd. rewrite filter_match_stream. split; [|split].
  - intros Hcs Hcd. unfold stream_match, stream_text. rewrite split_join; [|done|].
    2: { repeat apply Forall_cons_2; try done; try (by apply fmt_u_no_colon). by_decide. }
    rewrite andb_true_iff, orb_true_iff, bool_decide_eq_true, !of_stream_test. done.
  - intros Hc. apply stream_match_long. rewrite length_split_count. unfold stream_text.
    cbn [join]. rewrite !filter_app, !length_app.
    change (length (filter (λ c : Z, c = 58) [58])) with 1%nat.
    destruct Hc as [Hc|Hc]; apply colons_count in Hc; lia.
  - intros Hp Hports. assert (bool_decide (Protocol p = str "TCP") = false) as Hn.
    { apply bool_decide_eq_false_2. rewrite Hp. unfold protocol_to_string. cbn [Z.eqb Pos.eqb].
      rewrite !elem_of_cons in Hports. repeat case_test; try done. exfalso.
      destruct Hports as [[?|[?|[]%elem_of_nil]]|[?|[?|[]%elem_of_nil]]]; lia. }
    unfold stream_match. rewrite Hn. by destruct (split _ _) as [|? [|? [|? [|? [|? [|]]]]]].
Qed.

(** *** The link of the page *)

Lemma followStream_word src sport dst dport s6 d6 :
  is_array 16 src → is_array 16 dst → 0 ≤ sport → 0 ≤ dport →
  let w := followStream (ip_addr_to_string src s6) sport (ip_addr_to_string dst d6) dport in
  typed w ∧ (47 ∉ w) ∧ has_prefix w (str "regex:") = false ∧ has_prefix w (str "-") = false.
Proof.
  intros [Hsl Hs] [Hdl Hd] Hsp Hdp. cbn zeta.
  assert (∀ ip v6, length ip = 16%nat → bytes ip → Forall address_char (ip_addr_to_string ip v6)) as Hip.
  { intros ip v6 Hl Hb. unfold ip_addr_to_string. destruct v6; [by apply chars_colons|].
    by apply chars_dotted, bytes_drop. }
  set (w := followStream _ _ _ _).
  assert (Forall (λ c, typed [c] ∧ c ≠ 47) w) as Hw.
  { assert (∀ s, digits s → Forall (λ c, typed [c] ∧ c ≠ 47) s) as Hdig.
    { intros s Hds. eapply Forall_impl; [exact Hds|]. cbn. intros c Hc. split; [|lia].
      by apply typed_digits, Forall_singleton. }
    assert (∀ s, Forall address_char s → Forall (λ c, typed [c] ∧ c ≠ 47) s) as Hadd.
    { intros s Hds. eapply Forall_impl; [exact Hds|]. intros c Hc. split.
      - by apply typed_address, Forall_singleton.
      - unfold address_char in Hc. lia. }
    unfold w, followStream. repeat apply Forall_app_2; auto using fmt_u_digits.
    all: unfold typed; by_decide. }
  split_and!.
  - eapply Forall_impl; [exact Hw|]. intros c [Hc _]. by inversion Hc.
  - rewrite Forall_forall in Hw. intros Hin. by apply Hw in Hin as [_ ?].
  - done.
  - done.
Qed.

Definition tcp_char (c : Z) : Prop := c < 128 ∧ c ≠ 77 ∧ c ≠ 109.

Lemma tcp_char_digits z : 0 ≤ z → Forall tcp_char (fmt_u z).
Proof.
  intros Hz. eapply Forall_impl; [by apply fmt_u_digits|]. cbn. unfold tcp_char. lia.
Qed.

Lemma tcp_char_join ws : Forall (Forall tcp_char) ws → Forall tcp_char (join ws (str ",")).
Proof.
  induction 1 as [|w ws Hw _ IH]; [constructor|]. destruct ws as [|w' ws]; [done|].
  change (join (w :: w' :: ws) (str ",")) with (w ++ str "," ++ join (w' :: ws) (str ",")).
  repeat apply Forall_app_2; try done. unfold tcp_char. by_decide.
Qed.

(** The numbers in the information of a TCP packet. *)
Definition numbers_ok p : Prop :=
  0 ≤ SrcPort p ∧ 0 ≤ DstPort p ∧ 0 ≤ TcpSeq p ∧ 0 ≤ TcpAck p ∧ 0 ≤ TcpWin p.

#[local] Instance tcp_char_dec c : Decision (tcp_char c).
Proof. unfold tcp_char. apply _. Defined.

Lemma tcp_char_const (s : list Z) : bool_decide (Forall tcp_char s) = true → Forall tcp_char s.
Proof. apply bool_decide_eq_true_1. Qed.

Ltac tcp_const := apply tcp_char_const; vm_compute; reflexivity.

Lemma tcp_info_chars p : numbers_ok p → Forall tcp_char (tcp_info p).
Proof.
  intros (H1 & H2 & H3 & H4 & H5).
  assert (Forall tcp_char (ports p)).
  { unfold ports. repeat apply Forall_app_2; try by apply tcp_char_digits. tcp_const. }
  assert (Forall (Forall tcp_char) (flag_names p)).
  { unfold flag_names. repeat apply Forall_app_2; case_test; try apply Forall_nil_2;
      apply Forall_singleton; tcp_const. }
  unfold tcp_info. repeat apply Forall_app_2; try (apply tcp_char_digits; lia); try tcp_const.
  assert (Forall tcp_char (if 7200 <? Entropy p then span_entropy else [])).
  { case_test; [tcp_const|constructor]. }
  case_bool_decide; [by apply Forall_app_2|]. apply Forall_app_2; [by apply Forall_app_2|].
  repeat apply Forall_app_2; try tcp_const. by apply tcp_char_join.
Qed.

Lemma lower_no_m s : Forall tcp_char s → 109 ∉ to_lower s.
Proof.
  intros Hs. unfold to_lower. rewrite (proj2 (ascii_text_Forall s)).
  2: { eapply Forall_impl; [exact Hs|]. by intros c [? _]. }
  intros (c & E & Hc)%list_elem_of_fmap. rewrite Forall_forall in Hs. apply Hs in Hc as (? & ? & ?).
  unfold lower_byte in E.
  destruct ((65 <=? c) && (c <=? 90)) eqn:Eb; lia.
Qed.

(** A TCP packet of which nothing but its header was dissected. *)
Definition plain_tcp p (src dst : list Z) (v6 : bool) : Prop :=
  addresses p src dst v6 ∧ numbers_ok p ∧ Protocol p = str "TCP" ∧
  TlsSNI p = [] ∧ ExtraInfo p = [] ∧ DnsQuery p = [] ∧ Info p = getPacketInfo p ∧
  (58 ∉ to_lower (Country p)) ∧ (58 ∉ to_lower (CountryCode p)).

Lemma plain_tcp_no_stream p src dst v6 : plain_tcp p src dst v6 → ¬ mentions p (str "stream:").
Proof.
  intros ((Hs & Hd & Es & Ed) & Hnum & Hp & H1 & H2 & H3 & Hi & Hc & Hcc) (s & Hin & Hm).
  assert (∀ ip, is_array 16 ip → Forall address_char (ip_addr_to_string ip v6)) as Hip.
  { intros ip [Hl Hb]. unfold ip_addr_to_string. destruct v6; [by apply chars_colons|].
    by apply chars_dotted, bytes_drop. }
  assert (∀ ip, is_array 16 ip → 109 ∉ to_lower (ip_addr_to_string ip v6)) as Hno.
  { intros ip Ha. apply lower_no_m. eapply Forall_impl; [by apply Hip|].
    intros c. unfold address_char, tcp_char. lia. }
  assert (109 ∈ to_lower s) as Hms by (apply (contains_elem _ _ _ Hm); by_decide).
  assert (58 ∈ to_lower s) as Hcs by (apply (contains_elem _ _ _ Hm); by_decide).
  rewrite !elem_of_cons, elem_of_nil in Hin.
  destruct Hin as [->|[->|[->|[->|[->|[->|[]]]]]]].
  - rewrite Hp in Hms. revert Hms. apply lower_no_m. tcp_const.
  - rewrite Es in Hms. exact (Hno src Hs Hms).
  - rewrite Ed in Hms. exact (Hno dst Hd Hms).
  - rewrite Hi in Hms. unfold getPacketInfo in Hms. rewrite H1, H2, H3, Hp in Hms.
    change (109 ∈ to_lower (tcp_info p)) in Hms. revert Hms. by apply lower_no_m, tcp_info_chars.
  - done.
  - done.
Qed.

(** C37. "Follow TCP Stream" shows nothing: the page asks for "stream:" in small
    letters, which the dashboard does not take for a stream but for a word; no
    packet that does not carry that text passes, and no TCP packet without
    further dissection carries it - not even the packet that was clicked on. *)
Theorem follow_stream_shows_nothing src sport dst dport s6 d6 p :
  is_array 16 src → is_array 16 dst → 0 ≤ sport → 0 ≤ dport →
  let f := followStream (ip_addr_to_string src s6) sport (ip_addr_to_string dst d6) dport in
  (¬ mentions p (str "stream:") → filter_match f (regex_of f) p = false) ∧
  (∀ ps pd v6, plain_tcp p ps pd v6 → filter_match f (regex_of f) p = false).
Proof.
  intros Hs Hd Hsp Hdp. cbn zeta.
  destruct (followStream_word src sport dst dport s6 d6) as (Ht & Hsl & Hr & Hm); try done.
  set (f := followStream _ _ _ _) in *.
  assert (¬ mentions p (str "stream:") → filter_match f (regex_of f) p = false) as H1.
  { intros Hn. apply not_true_is_false. pose proof (filter_match_words [Plain f] p) as Hw.
    change (filter_text [Plain f]) with f in Hw. rewrite Hw; clear Hw; try done.
    - rewrite Forall_singleton. cbn [word_accepts]. intros [[(s & Hin & Hc)|[[E|E] _]]|(nw & E & _)].
      + apply Hn. exists s. split; [done|]. by eapply contains_weaken.
      + done.
      + done.
      + apply ParseCIDR_slash in E. apply Hsl. eapply contains_elem; [exact E|]. by left.
    - by apply Forall_singleton. }
  split; [done|]. intros ps pd v6 Hp. by eapply H1, plain_tcp_no_stream.
Qed.
End words.

(** ** Concrete filters *)

(** No regular expressions. *)
Definition no_regexp : GoRegexp :=
  {| regex := Empty_set; Compile := λ _, None; MatchString := λ r _, match r with end |}.

Definition sample_src : list Z := sample_ip [10; 1; 2; 3].
Definition sample_dst : list Z := sample_ip [8; 8; 8; 8].

(** A TCP segment from 10.1.2.3:50000 to 8.8.8.8:22, as the dashboard stores it. *)
Definition sample_packet : DashboardPacket :=
  let p := of_service (dashboard (set_src_ip sample_src (set_dst_ip sample_dst
    (set_src_port 50000 (set_dst_port 22 (set_protocol 6 (set_tcp_flags 2 zero_info))))))) in
  set_Country (str "united states") (set_Info (getPacketInfo (H := ascii_only) p) p).

Lemma sample_addresses : addresses sample_packet sample_src sample_dst false.
Proof. split_and!; [split; by_decide..|by vm_compute|by vm_compute]. Qed.

Lemma filter_words_witness :
  filter_match (H := ascii_only) (H0 := no_regexp) (str "tcp 10.0.0.0/8 -udp") None sample_packet = true.
Proof.
  pose (ws := [Plain (str "tcp"); Plain (str "10.0.0.0/8"); Not (str "udp")]).
  assert (Forall word_ok ws) as Hws.
  { repeat apply Forall_cons_2; [split_and!; [done|unfold typed; by_decide|done]..|
      unfold word_ok, typed; by_decide|constructor]. }
  destruct (filter_words (H := ascii_only) (H0 := no_regexp) ws sample_packet sample_src sample_dst
    false ltac:(done) Hws eq_refl sample_addresses) as (Hf & Hn & _).
  apply Hf; repeat apply Forall_cons_2; try apply Forall_nil_2.
  - intros [].
  - intros [].
  - intros [nw E]. by vm_compute in E.
  - left. apply word_test. by vm_compute.
  - apply (Hn [10; 0; 0; 0] 8); [by_decide|done|lia|]. right. left. split; by vm_compute.
  - intros [Hw|(nw & E & _)]; [apply word_test in Hw; by vm_compute in Hw|by vm_compute in E].
Defined.

Lemma negated_subnet_ignored_witness :
  let f := filter_match (H := ascii_only) (H0 := no_regexp) in
  f (str "10.0.0.0/8") None sample_packet = true ∧ f (str "-10.0.0.0/8") None sample_packet = true.
Proof.
  destruct (negated_subnet_ignored (H := ascii_only) (H0 := no_regexp) sample_packet sample_src
    sample_dst false [10; 0; 0; 0] 8) as [Hp Hn]; [exact sample_addresses|by_decide|done|lia| |].
  - intros Hw. apply word_test in Hw. by vm_compute in Hw.
  - split; [|exact Hn]. apply Hp. left. split; by vm_compute.
Defined.

Lemma stream_filter_witness :
  filter_match (H := ascii_only) (H0 := no_regexp) (str "STREAM:8.8.8.8:22:10.1.2.3:50000") None
    sample_packet = true.
Proof.
  destruct (stream_filter (H := ascii_only) (H0 := no_regexp) (str "8.8.8.8") 22 (str "10.1.2.3") 50000
    None sample_packet) as [Hs _]; [lia..|].
  apply Hs; [by_decide..|]. split; [by vm_compute|]. right. split_and!; by vm_compute.
Defined.

Lemma sample_plain_tcp : plain_tcp (H := ascii_only) sample_packet sample_src sample_dst false.
Proof.
  split; [exact sample_addresses|]. unfold numbers_ok.
  split_and!; first [by vm_compute|by_decide].
Qed.

Lemma follow_stream_shows_nothing_witness :
  let f := followStream (str "10.1.2.3") 50000 (str "8.8.8.8") 22 in
  f = str "stream:10.1.2.3:50000:8.8.8.8:22" ∧
  filter_match (H := ascii_only) (H0 := no_regexp) f None sample_packet = false.
Proof.
  split; [by vm_compute|].
  apply (proj2 (follow_stream_shows_nothing (H := ascii_only) (H0 := no_regexp) sample_src 50000
    sample_dst 22 false false sample_packet ltac:(split; by_decide) ltac:(split; by_decide)
    ltac:(lia) ltac:(lia)) sample_src sample_dst false sample_plain_tcp).
Defined.
