(* ===== verification/PcapExport.v ===== *)
(** * The exported capture

    The handler of [/api/export] in [go/dashboard/main.go] writes the history
    as a file in the format of libpcap.  A reader of that format gets back every
    packet with its time and its bytes; [EndToEnd] says which frames these are. *)

From S2P Require Import Prelude CMemory PacketTypes Layers Frames Stats Entropy Capture CaptureProps Wire GoPacket.

(** ** [/api/export] *)

(** [binary.Write(w, binary.LittleEndian, ...)] of the fixed fields *)
Definition file_header : list Z :=
  le 4 0xa1b2c3d4 ++ le 2 2 ++ le 2 4 ++ le 4 0 ++ le 4 0 ++ le 4 65535 ++ le 4 1.

Definition export_packet (p : DashboardPacket) : list Z :=
  let payload := Payload p in
  let sec := u32 (Timestamp p / 1000000) in
  let usec := u32 (Timestamp p mod 1000000) in
  le 4 sec ++ le 4 usec ++ le 4 (u32 (zlen payload)) ++ le 4 (u32 (zlen payload)) ++ payload.

(** The body of the answer, for [GetAll(false)]. *)
Definition export (history : list DashboardPacket) : list Z :=
  file_header ++ concat (export_packet <$> history).

(** ** A reader of the format *)

Record capture := mkCapture {
    c_sec : Z;
    c_usec : Z;
    c_orig_len : Z;
    c_data : list Z
  }.

(** A packet record: the captured length and the length on the wire, then as
    many bytes as were captured. *)
Definition read_capture : reader capture := (
  sec <- get_le 4; usec <- get_le 4; incl <- get_le 4; orig <- get_le 4;
  d <- copy_to_slice (Z.to_nat incl);
  rret (mkCapture sec usec orig d))%reader.

Fixpoint read_captures (fuel : nat) (b : list Z) : option (list capture) :=
  match b, fuel with
  | [], _ => Some []
  | _, O => None
  | _, S fuel => '(c, b) ← read_capture b; cs ← read_captures fuel b; Some (c :: cs)
  end.

(** Little-endian, version 2.4, times in UTC and microseconds, Ethernet. *)
Definition read_pcap (b : list Z) : option (list capture) :=
  '(h, b) ← (magic <- get_le 4; major <- get_le 2; minor <- get_le 2; zone <- get_le 4;
    sigfigs <- get_le 4; snaplen <- get_le 4; link <- get_le 4;
    rret (magic, major, minor, zone, sigfigs, snaplen, link))%reader b;
  if bool_decide (h = (0xa1b2c3d4, 2, 4, 0, 0, 65535, 1)) then read_captures (length b) b else None.

(** ** Reading back *)

(** What a packet of the history becomes. *)
Definition captured_as (p : DashboardPacket) : capture :=
  mkCapture (u32 (Timestamp p / 1000000)) (Timestamp p mod 1000000) (zlen (Payload p)) (Payload p).

Definition exportable (p : DashboardPacket) : Prop := zlen (Payload p) < 2 ^ 32.

Lemma read_capture_export p r :
  exportable p → read_capture (export_packet p ++ r) = Some (captured_as p, r).
Proof.
  intros Hl. unfold exportable, export_packet in *. cbn zeta. rewrite <-!app_assoc.
  assert (0 ≤ Timestamp p mod 1000000 < 1000000) as Hu by (apply Z.mod_pos_bound; lia).
  assert (is_u 32 (Timestamp p mod 1000000)) as Hu' by (unfold is_u; lia).
  assert (is_u 32 (zlen (Payload p))) as Hp by (unfold is_u; lia).
  pose proof (u32_range (Timestamp p / 1000000)) as Hs.
  rewrite (u32_small _ Hu'), (u32_small _ Hp). unfold read_capture.
  repeat (eapply rbind_step; [by apply (get_le_app 4)|]).
  eapply rbind_step; [apply copy_to_slice_app; lia|]. done.
Qed.

Lemma length_export_packet p : (0 < length (export_packet p))%nat.
Proof. unfold export_packet. cbn zeta. rewrite length_app, length_le. lia. Qed.

Lemma read_captures_export ps fuel :
  Forall exportable ps → (length (concat (export_packet <$> ps)) <= fuel)%nat →
  read_captures fuel (concat (export_packet <$> ps)) = Some (captured_as <$> ps).
Proof.
  intros H. revert fuel. induction H as [|p ps Hp _ IH]; intros fuel Hf; [by destruct fuel|].
  rewrite !fmap_cons in *. cbn [concat] in *. rewrite length_app in Hf.
  pose proof (length_export_packet p). destruct fuel as [|fuel]; [lia|].
  assert (∃ x b, export_packet p ++ concat (export_packet <$> ps) = x :: b) as (x & b & E).
  { destruct (export_packet p); [simpl in *; lia|by eexists _, _]. }
  rewrite E. cbn [read_captures]. rewrite <-E, read_capture_export by done.
  cbn [mbind option_bind]. rewrite IH by lia. done.
Qed.

Lemma read_pcap_export ps :
  Forall exportable ps → read_pcap (export ps) = Some (captured_as <$> ps).
Proof.
  intros H. unfold read_pcap, export, file_header. rewrite <-!app_assoc.
  set (rest := concat _).
  assert (∀ n z r, is_u (8 * Z.of_nat n) z → get_le n (le n z ++ r) = Some (z, r)) as Hg
    by apply get_le_app.
  eassert ((_ : reader _) _ = Some ((0xa1b2c3d4, 2, 4, 0, 0, 65535, 1), rest)) as ->.
  { repeat (eapply rbind_step; [apply Hg; split; lia|]). done. }
  cbn [mbind option_bind]. rewrite bool_decide_eq_true_2 by done. by apply read_captures_export.
Qed.

(** *** The frame behind a packet *)

(** What a reader of the file should see of a frame: its first 256 bytes and
    the time libpcap gave it. *)
Definition frame_capture (raw : RawPacket) : capture :=
  let frame := take (Z.to_nat (Z.min (caplen (pkthdr raw)) 256)) (data raw) in
  mkCapture (ts_sec (pkthdr raw)) (ts_usec (pkthdr raw)) (zlen frame) frame.

(** What it sees of a frame of a type the program does not know: its time. *)
Definition empty_capture (raw : RawPacket) : capture :=
  mkCapture (ts_sec (pkthdr raw)) (ts_usec (pkthdr raw)) 0 [].

(** What is in the file for a frame that has an Ethernet header and a time in
    the range of libpcap; of a shorter frame nothing is known, since its record
    was never initialised. *)
Definition exported_as (raw : RawPacket) (c : capture) : Prop :=
  14 ≤ caplen (pkthdr raw) →
  0 ≤ ts_sec (pkthdr raw) < 2 ^ 32 → 0 ≤ ts_usec (pkthdr raw) < 1000000 →
  ∃ e, parse_ethernet_layer (data raw) (caplen (pkthdr raw)) = Ok (Some e) ∧
    c = if known_type (eth_ether_type e) then frame_capture raw else empty_capture raw.

(** The record of a dissection, as the service sends it. *)
Lemma exportable_record i : exportable (of_service (dashboard i)).
Proof.
  unfold exportable. cbn [Payload of_service dashboard d_payload]. rewrite length_take. lia.
Qed.

Lemma record_exported `{DoubleLaws D} raw junk info :
  wf_raw raw → dissect_raw_packet raw junk = Ok info →
  exported_as raw (captured_as (of_service (dashboard info))).
Proof.
  intros Hraw Hinfo Hc Hs Hu.
  pose proof (dissect_raw_packet_spec any_fault raw junk Hraw (guard_any _)) as Hd.
  rewrite Hinfo in Hd. cbn in Hd. unfold dissected in Hd.
  destruct (wf_data _ Hraw) as [Hl Hb]. pose proof (wf_caplen _ Hraw) as Hcl.
  pose proof (parse_ethernet_layer_spec any_fault _ _ Hb Hcl (guard_any _)) as He.
  unfold dissect_raw_packet in Hinfo. cbv zeta in Hinfo.
  destruct (parse_ethernet_layer (data raw) (caplen (pkthdr raw))) as [[e|]|]; [|simpl in He; lia|done].
  clear Hinfo He. destruct Hd as (_ & Hh & Hk). exists e. split; [done|].
  assert (timestamp info = ts_sec (pkthdr raw) * 1000000 + ts_usec (pkthdr raw)) as Hts.
  { unfold header in Hh. injection Hh as Hh _. rewrite Hh. cbn. unfold timestamp_of.
    apply u64_small. unfold is_u. lia. }
  unfold captured_as, frame_capture, empty_capture.
  cbn [Timestamp Payload of_service dashboard d_timestamp d_payload]. rewrite Hts.
  replace ((ts_sec (pkthdr raw) * 1000000 + ts_usec (pkthdr raw)) / 1000000) with (ts_sec (pkthdr raw))
    by (rewrite Z.div_add_l, Z.div_small; lia).
  replace ((ts_sec (pkthdr raw) * 1000000 + ts_usec (pkthdr raw)) mod 1000000) with (ts_usec (pkthdr raw))
    by (rewrite Z.add_comm, Z_mod_plus_full, Z.mod_small; lia).
  rewrite u32_small by (unfold is_u; lia).
  destruct (known_type (eth_ether_type e)); [|by rewrite Hk].
  destruct Hk as (Hlen & Hpay & _). rewrite Hlen, Hpay. set (n := Z.min (caplen (pkthdr raw)) 256) in *.
  replace (Z.min n 256) with n by lia.
  rewrite take_app_le by (rewrite length_take; lia). by rewrite take_take, Nat.min_id.
Qed.

(** Only the time and the bytes matter. *)
Lemma captured_as_eq p p' : Timestamp p = Timestamp p' → Payload p = Payload p' → captured_as p = captured_as p'.
Proof. unfold captured_as. by intros -> ->. Qed.
