(* ===== verification/Dashboard.v ===== *)
(** * The dashboard

    The goroutines of [go/dashboard/main.go] as a transition system: the reader
    of the packet service, the loop over [packetChan], the handlers of the HTTP
    server, [geoWorker], and the writers of the web sockets.  A step is one
    operation on shared state: an operation of the history or of the cache (each
    under its own lock), a channel operation, a broadcast, or what a goroutine
    does between [mu.Lock] and the next of these.  [mu] is held by the goroutine
    whose position is in [holder]. *)

From stdpp Require Import strings pretty gmap.
From S2P Require Import Prelude PacketTypes Wire GoText GoNet GoPacket Filter RingBuffer LruCache.

(** ** State *)

Definition HISTORY_SIZE : Z := 5000.
Definition GEO_CACHE_SIZE : Z := 10000.
Definition SEEN_LIMIT : Z := 10000.
(** The capacities of [packetChan], [geoReqChan] and of a client's channel. *)
Definition PACKET_CHAN : Z := 1000.
Definition GEO_CHAN : Z := 1000.
Definition CLIENT_CHAN : Z := 1024.

(** What the database knows about an address, in small letters. *)
Record location := mkLocation { l_country : text; l_code : text; l_city : text; l_isp : text }.

(** The messages of [broadcast]. *)
Inductive message :=
  | MPacket (p : DashboardPacket)
  | MClear
  | MStatus (isScanning : bool) (filter : option text)
  | MGeo (ip : text) (l : location).

(** A web socket: its channel, and (for the properties) what was written, the
    broadcasts since it was opened, and how many of them it missed. *)
Record client := mkClient {
    c_queue : list message;
    c_written : list message;
    c_since : list message;
    c_missed : nat
  }.

(** Where the goroutine is that holds [mu]. *)
Inductive holder_pc :=
  | Free
  | PCountry (p : DashboardPacket) (ip : text)  (** in [getCountry], before [geoCache.Get] *)
  | PRequest (p : DashboardPacket) (ip : text)  (** before the [select] on [geoReqChan] *)
  | PMatch (p : DashboardPacket)                (** before the filter *)
  | PAdd (p : DashboardPacket)                  (** before [historyBuffer.Add] *)
  | PSend (m : message).                        (** before [broadcast] *)

(** Where [geoWorker] is. *)
Inductive geo_pc :=
  | GIdle
  | GLookup (ip : text)              (** has received [ip] *)
  | GAdd (ip : text) (l : location)  (** before [geoCache.Add] *)
  | GSave (ip : text) (l : location) (** in [saveGeoCacheToDisk] *)
  | GUpdate (ip : text) (l : location)
  | GSend (ip : text) (l : location).

Section dashboard.
Context `{GoUnicode} `{GoRegexp}.
(** The database, if it could be opened: what it answers for an address. *)
Context (geoDB : option (text → option location)).

Record dash := mkDash {
    isScanning : bool;
    filterStr : text;
    filterRegex : option regex;
    packetCounter : Z;
    seenIPs : gset text;
    history : RingBuffer DashboardPacket;
    geoCache : lruCache;
    geoReqChan : list text;
    packetChan : list DashboardPacket;
    clients : gmap nat client;
    holder : holder_pc;
    geo : geo_pc;
    toggles : nat;               (** requests between [mu.Unlock] and their broadcast *)
    (** for the properties: all packets received; those the loop has taken while
        scanning; the history without its bound *)
    received : list DashboardPacket;
    processed : list DashboardPacket;
    log : list DashboardPacket
  }.

(** *** Assignments *)

Definition set_isScanning (v : bool) (s : dash) : dash :=
  mkDash v (filterStr s) (filterRegex s) (packetCounter s) (seenIPs s) (history s) (geoCache s)
    (geoReqChan s) (packetChan s) (clients s) (holder s) (geo s) (toggles s) (received s)
    (processed s) (log s).
Definition set_filterStr (v : text) (s : dash) : dash :=
  mkDash (isScanning s) v (filterRegex s) (packetCounter s) (seenIPs s) (history s) (geoCache s)
    (geoReqChan s) (packetChan s) (clients s) (holder s) (geo s) (toggles s) (received s)
    (processed s) (log s).
Definition set_filterRegex (v : option regex) (s : dash) : dash :=
  mkDash (isScanning s) (filterStr s) v (packetCounter s) (seenIPs s) (history s) (geoCache s)
    (geoReqChan s) (packetChan s) (clients s) (holder s) (geo s) (toggles s) (received s)
    (processed s) (log s).
Definition set_packetCounter (v : Z) (s : dash) : dash :=
  mkDash (isScanning s) (filterStr s) (filterRegex s) v (seenIPs s) (history s) (geoCache s)
    (geoReqChan s) (packetChan s) (clients s) (holder s) (geo s) (toggles s) (received s)
    (processed s) (log s).
Definition set_seenIPs (v : gset text) (s : dash) : dash :=
  mkDash (isScanning s) (filterStr s) (filterRegex s) (packetCounter s) v (history s)
    (geoCache s) (geoReqChan s) (packetChan s) (clients s) (holder s) (geo s) (toggles s)
    (received s) (processed s) (log s).
Definition set_history (v : RingBuffer DashboardPacket) (s : dash) : dash :=
  mkDash (isScanning s) (filterStr s) (filterRegex s) (packetCounter s) (seenIPs s) v
    (geoCache s) (geoReqChan s) (packetChan s) (clients s) (holder s) (geo s) (toggles s)
    (received s) (processed s) (log s).
Definition set_geoCache (v : lruCache) (s : dash) : dash :=
  mkDash (isScanning s) (filterStr s) (filterRegex s) (packetCounter s) (seenIPs s) (history s)
    v (geoReqChan s) (packetChan s) (clients s) (holder s) (geo s) (toggles s) (received s)
    (processed s) (log s).
Definition set_geoReqChan (v : list text) (s : dash) : dash :=
  mkDash (isScanning s) (filterStr s) (filterRegex s) (packetCounter s) (seenIPs s) (history s)
    (geoCache s) v (packetChan s) (clients s) (holder s) (geo s) (toggles s) (received s)
    (processed s) (log s).
Definition set_packetChan (v : list DashboardPacket) (s : dash) : dash :=
  mkDash (isScanning s) (filterStr s) (filterRegex s) (packetCounter s) (seenIPs s) (history s)
    (geoCache s) (geoReqChan s) v (clients s) (holder s) (geo s) (toggles s) (received s)
    (processed s) (log s).
Definition set_clients (v : gmap nat client) (s : dash) : dash :=
  mkDash (isScanning s) (filterStr s) (filterRegex s) (packetCounter s) (seenIPs s) (history s)
    (geoCache s) (geoReqChan s) (packetChan s) v (holder s) (geo s) (toggles s) (received s)
    (processed s) (log s).
Definition set_holder (v : holder_pc) (s : dash) : dash :=
  mkDash (isScanning s) (filterStr s) (filterRegex s) (packetCounter s) (seenIPs s) (history s)
    (geoCache s) (geoReqChan s) (packetChan s) (clients s) v (geo s) (toggles s) (received s)
    (processed s) (log s).
Definition set_geo (v : geo_pc) (s : dash) : dash :=
  mkDash (isScanning s) (filterStr s) (filterRegex s) (packetCounter s) (seenIPs s) (history s)
    (geoCache s) (geoReqChan s) (packetChan s) (clients s) (holder s) v (toggles s) (received s)
    (processed s) (log s).
Definition set_toggles (v : nat) (s : dash) : dash :=
  mkDash (isScanning s) (filterStr s) (filterRegex s) (packetCounter s) (seenIPs s) (history s)
    (geoCache s) (geoReqChan s) (packetChan s) (clients s) (holder s) (geo s) v (received s)
    (processed s) (log s).
Definition set_received (v : list DashboardPacket) (s : dash) : dash :=
  mkDash (isScanning s) (filterStr s) (filterRegex s) (packetCounter s) (seenIPs s) (history s)
    (geoCache s) (geoReqChan s) (packetChan s) (clients s) (holder s) (geo s) (toggles s) v
    (processed s) (log s).
Definition set_processed (v : list DashboardPacket) (s : dash) : dash :=
  mkDash (isScanning s) (filterStr s) (filterRegex s) (packetCounter s) (seenIPs s) (history s)
    (geoCache s) (geoReqChan s) (packetChan s) (clients s) (holder s) (geo s) (toggles s)
    (received s) v (log s).
Definition set_log (v : list DashboardPacket) (s : dash) : dash :=
  mkDash (isScanning s) (filterStr s) (filterRegex s) (packetCounter s) (seenIPs s) (history s)
    (geoCache s) (geoReqChan s) (packetChan s) (clients s) (holder s) (geo s) (toggles s)
    (received s) (processed s) v.

(** ** [broadcast] *)

(** A full channel is skipped. *)
Definition offer (m : message) (c : client) : client :=
  if zlen (c_queue c) <? CLIENT_CHAN
  then mkClient (c_queue c ++ [m]) (c_written c) (c_since c ++ [m]) (c_missed c)
  else mkClient (c_queue c) (c_written c) (c_since c ++ [m]) (S (c_missed c)).

Definition broadcast (m : message) (s : dash) : dash := set_clients (offer m <$> clients s) s.

(** ** The loop over [packetChan] *)

(** Up to the lookup of the location: the counter, the information - before the
    vendors are known -, the addresses seen, the vendors. *)
Definition number (p : DashboardPacket) (s : dash) : DashboardPacket * dash :=
  let n := packetCounter s + 1 in
  let p := set_Index n p in
  let p := set_Info (getPacketInfo p) p in
  let seen := if SEEN_LIMIT <? Z.of_nat (base.size (seenIPs s)) then ∅ else seenIPs s in
  let s := set_seenIPs ({[DstIP p]} ∪ ({[SrcIP p]} ∪ seen)) (set_packetCounter n s) in
  let p := set_SrcMacVendor (getMacVendor (SrcMAC p)) p in
  let p := set_DstMacVendor (getMacVendor (DstMAC p)) p in
  (p, s).

(** Whose location is shown. *)
Definition choose_country (p : DashboardPacket) : holder_pc :=
  if negb (isPrivateIP (SrcIP p)) then PCountry p (SrcIP p)
  else if negb (isPrivateIP (DstIP p)) then PCountry p (DstIP p)
  else PMatch (set_Country (str "local") p).

(** [strings.Split(res, "|")], and the first two parts *)
Definition set_location (res : text) (p : DashboardPacket) : DashboardPacket :=
  match split res 124 with
  | country :: code :: _ => set_CountryCode code (set_Country country p)
  | [country] => set_Country country p
  | [] => p
  end.

Definition searching : text := str "searching...".

(** ** The filter of a request *)

Definition change_filter (f : text) (s : dash) : dash :=
  set_holder (PSend (MStatus (isScanning s) (Some f)))
    (set_filterRegex (regex_of f) (set_filterStr f s)).

(** ** [geoWorker] *)

(** The cache's entry: ["%s|%s|%s|%s"]. *)
Definition entry_of (l : location) : text :=
  l_country l ++ str "|" ++ l_code l ++ str "|" ++ l_city l ++ str "|" ++ l_isp l.

Definition locate (ip : text) (l : location) (p : DashboardPacket) : DashboardPacket :=
  if bool_decide (SrcIP p = ip) || bool_decide (DstIP p = ip)
  then set_ISP (l_isp l) (set_City (l_city l) (set_CountryCode (l_code l) (set_Country (l_country l) p)))
  else p.

(** What the worker makes of the database's answer. *)
Definition geo_record (raw : location) : location :=
  let country := to_lower (l_country raw) in
  mkLocation (if bool_decide (country = []) then str "unknown" else country)
    (to_lower (l_code raw)) (to_lower (l_city raw)) [].

(** ** Steps *)

Inductive step : dash → dash → Prop :=
  (** the reader of the service: [packetChan <- pkt] *)
  | step_receive s d :
      zlen (packetChan s) < PACKET_CHAN →
      step s (set_packetChan (packetChan s ++ [of_service d])
        (set_received (received s ++ [of_service d]) s))
  (** the loop *)
  | step_skip s p q :
      holder s = Free → packetChan s = p :: q → isScanning s = false →
      step s (set_packetChan q s)
  | step_take s p q p' s' :
      holder s = Free → packetChan s = p :: q → isScanning s = true →
      number p s = (p', s') →
      step s (set_processed (processed s ++ [p]) (set_packetChan q (set_holder (choose_country p') s')))
  | step_cached s p ip c r :
      holder s = PCountry p ip → Get ip (geoCache s) = Some (c, Some r) →
      step s (set_holder (PMatch (set_location r p)) (set_geoCache c s))
  | step_missing s p ip c :
      holder s = PCountry p ip → Get ip (geoCache s) = Some (c, None) →
      step s (set_holder (PRequest p ip) (set_geoCache c s))
  | step_request s p ip :
      holder s = PRequest p ip →
      step s (set_holder (PMatch (set_location searching p))
        (if zlen (geoReqChan s) <? GEO_CHAN then set_geoReqChan (geoReqChan s ++ [ip]) s else s))
  | step_match s p :
      holder s = PMatch p →
      step s (set_holder (if filter_match (filterStr s) (filterRegex s) p then PAdd p else Free) s)
  | step_add s p r :
      holder s = PAdd p → RingBuffer.Add p (history s) = Some r →
      step s (set_holder (PSend (MPacket p)) (set_log (log s ++ [p]) (set_history r s)))
  | step_send s m :
      holder s = PSend m → step s (set_holder Free (broadcast m s))
  (** the handlers *)
  | step_clear s :
      holder s = Free →
      step s (set_holder (PSend MClear) (set_log [] (set_history (Clear (history s)) s)))
  | step_toggle s :
      holder s = Free →
      step s (set_toggles (S (toggles s)) (set_isScanning (negb (isScanning s)) s))
  | step_toggled s n :
      toggles s = S n →
      step s (set_toggles n (broadcast (MStatus (isScanning s) None) s))
  | step_filter s f :
      holder s = Free → filterStr s ≠ f → step s (change_filter f s)
  (** the worker *)
  | step_geo_receive s ip q :
      geo s = GIdle → geoReqChan s = ip :: q →
      step s (set_geo (GLookup ip) (set_geoReqChan q s))
  | step_geo_off s ip :
      geo s = GLookup ip → geoDB = None → step s (set_geo GIdle s)
  | step_geo_unknown s ip db :
      geo s = GLookup ip → geoDB = Some db → db ip = None →
      step s (set_geo GIdle (set_geoCache (Remove ip (geoCache s)) s))
  | step_geo_found s ip db raw :
      geo s = GLookup ip → geoDB = Some db → db ip = Some raw →
      step s (set_geo (GAdd ip (geo_record raw)) s)
  | step_geo_add s ip l c :
      geo s = GAdd ip l → LruCache.Add ip (entry_of l) (geoCache s) = Some c →
      step s (set_geo (GSave ip l) (set_geoCache c s))
  (** the file is read only before the worker starts *)
  | step_geo_saved s ip l : geo s = GSave ip l → step s (set_geo (GUpdate ip l) s)
  | step_geo_update s ip l r :
      geo s = GUpdate ip l → Update (locate ip l) (history s) = Some r →
      step s (set_geo (GSend ip l) (set_log (locate ip l <$> log s) (set_history r s)))
  | step_geo_send s ip l :
      geo s = GSend ip l → step s (set_geo GIdle (broadcast (MGeo ip l) s))
  (** the web sockets *)
  | step_connect s i :
      clients s !! i = None → step s (set_clients (<[i := mkClient [] [] [] 0]> (clients s)) s)
  | step_write s i m q w since n :
      clients s !! i = Some (mkClient (m :: q) w since n) →
      step s (set_clients (<[i := mkClient q (w ++ [m]) since n]> (clients s)) s)
  | step_disconnect s i : step s (set_clients (delete i (clients s)) s).

(** The state after [main] has started its goroutines, with the cache it loaded. *)
Definition init (zero : DashboardPacket) (c : lruCache) : dash := {|
    isScanning := true;
    filterStr := [];
    filterRegex := None;
    packetCounter := 0;
    seenIPs := ∅;
    history := NewRingBuffer zero HISTORY_SIZE;
    geoCache := c;
    geoReqChan := [];
    packetChan := [];
    clients := ∅;
    holder := Free;
    geo := GIdle;
    toggles := 0;
    received := [];
    processed := [];
    log := []
  |}.

(** What [/api/packets] returns: newest first. *)
Definition api_packets (s : dash) : option (list DashboardPacket) := RingBuffer.GetAll true (history s).
End dashboard.
