(* ===== verification/DashboardProps.v ===== *)
(** * Properties of the dashboard

    What holds in every reachable state, whatever packets arrive, whatever the
    visitors of the page request, and however the goroutines interleave. *)

From stdpp Require Import strings pretty gmap sorting.
From S2P Require Import Prelude PacketTypes Wire GoText GoNet GoPacket Filter RingBuffer LruCache.
From S2P Require Import Dashboard.

(** A subsequence that is as long as the sequence. *)
Lemma sublist_same_length {A} (l k : list A) : sublist l k → length l = length k → l = k.
Proof.
  induction 1 as [|x l k _ IH|x l k Hs _]; cbn; [done|intros [= E]; by rewrite IH|].
  intros E. apply sublist_length in Hs. lia.
Qed.

Section properties.
Context `{GoUnicode} `{GoRegexp} (geoDB : option (text → option location)).
Implicit Types (p : DashboardPacket) (s : dash).

(** ** Rows *)

(** The row that the loop makes of packet [q] as the [n]th. *)
Definition row (n : Z) q : DashboardPacket :=
  let p := set_Index n q in
  let p := set_Info (getPacketInfo p) p in
  set_DstMacVendor (getMacVendor (DstMAC q)) (set_SrcMacVendor (getMacVendor (SrcMAC q)) p).

(** Without its location, which changes later. *)
Definition erase p : DashboardPacket :=
  set_ISP [] (set_City [] (set_CountryCode [] (set_Country [] p))).

(** The row of the packet with its number. *)
Definition row_of (qs : list DashboardPacket) p : Prop :=
  0 < Index p ∧ ∃ q, qs !! Z.to_nat (Index p - 1) = Some q ∧ erase p = erase (row (Index p) q).

Lemma number_row p s :
  (number p s).1 = row (packetCounter s + 1) p.
Proof. done. Qed.

Lemma Index_erase p p' : erase p = erase p' → Index p = Index p'.
Proof. intros E. by apply (f_equal Index) in E. Qed.

Lemma row_of_eq qs p p' : erase p' = erase p → row_of qs p → row_of qs p'.
Proof.
  intros E (Hp & q & Hq & Er). pose proof (Index_erase _ _ E) as Ei. unfold row_of.
  rewrite Ei, E. eauto.
Qed.

Lemma row_of_app qs qs' p : row_of qs p → row_of (qs ++ qs') p.
Proof.
  intros (Hp & q & Hq & Er). split; [done|]. exists q. split; [|done]. by apply lookup_app_l_Some.
Qed.

Lemma erase_location res p : erase (set_location res p) = erase p.
Proof. unfold set_location. by destruct (split res 124) as [|? [|? ?]]. Qed.

Lemma erase_locate ip l p : erase (locate ip l p) = erase p.
Proof. unfold locate. by case_test. Qed.

(** The packet that the loop is working on and has not stored. *)
Definition pending (h : holder_pc) : list DashboardPacket :=
  match h with
  | PCountry p _ | PRequest p _ | PMatch p | PAdd p => [p]
  | Free | PSend _ => []
  end.

(** ** The invariant *)

Definition client_ok c : Prop :=
  zlen (c_queue c) ≤ CLIENT_CHAN ∧
  sublist (c_written c ++ c_queue c) (c_since c) ∧
  length (c_since c) = (length (c_written c ++ c_queue c) + c_missed c)%nat.

Definition indices (l : list DashboardPacket) : list Z := Index <$> l.

Record dash_ok s : Prop := {
    ok_ring : ring_ok (history s) ∧ RingBuffer.size (history s) = HISTORY_SIZE;
    ok_log : contents (history s) = last_n (Z.to_nat HISTORY_SIZE) (log s);
    ok_cache : lru_ok (geoCache s) ∧ capacity (geoCache s) = GEO_CACHE_SIZE ∧
      zlen (items (geoCache s)) ≤ GEO_CACHE_SIZE;
    ok_geo_chan : zlen (geoReqChan s) ≤ GEO_CHAN;
    ok_packet_chan : zlen (packetChan s) ≤ PACKET_CHAN;
    ok_seen : Z.of_nat (base.size (seenIPs s)) ≤ SEEN_LIMIT + 2;
    ok_counter : packetCounter s = zlen (processed s);
    ok_arrived : ∃ taken, received s = taken ++ packetChan s ∧ sublist (processed s) taken;
    ok_sorted : StronglySorted Z.lt (indices (log s ++ pending (holder s)));
    ok_rows : Forall (λ p, Index p ≤ packetCounter s ∧ row_of (processed s) p)
      (log s ++ pending (holder s));
    ok_clients : map_Forall (λ _, client_ok) (clients s)
  }.

Lemma client_ok_offer m c : client_ok c → client_ok (offer m c).
Proof.
  intros (Hq & Hs & Hl). unfold offer. destruct (Z.ltb_spec (zlen (c_queue c)) CLIENT_CHAN); split_and!;
    cbn [c_queue c_written c_since c_missed].
  - rewrite length_app. simpl. lia.
  - rewrite app_assoc. by apply sublist_app.
  - rewrite !length_app in *. simpl. lia.
  - done.
  - by apply sublist_inserts_r.
  - rewrite !length_app in *. simpl. lia.
Qed.

Lemma offered m (cs : gmap nat client) :
  map_Forall (λ _, client_ok) cs → map_Forall (λ _, client_ok) (offer m <$> cs).
Proof.
  intros Hc i c Hi. rewrite lookup_fmap in Hi. destruct (cs !! i) as [c'|] eqn:E; [|done].
  injection Hi as <-. by eapply client_ok_offer, Hc.
Qed.

Lemma size_seen (a b : text) (m : gset text) :
  Z.of_nat (base.size m) ≤ SEEN_LIMIT → Z.of_nat (base.size ({[a]} ∪ ({[b]} ∪ m))) ≤ SEEN_LIMIT + 2.
Proof.
  intros Hm. pose proof (size_union_alt {[a]} ({[b]} ∪ m)) as H1.
  pose proof (size_union_alt {[b]} m) as H2. rewrite !size_singleton in *.
  pose proof (subseteq_size (({[b]} ∪ m) ∖ {[a]}) ({[b]} ∪ m) ltac:(apply subseteq_difference_l; done)).
  pose proof (subseteq_size (m ∖ {[b]}) m ltac:(apply subseteq_difference_l; done)). lia.
Qed.

(** *** Each step keeps the invariant *)

(** The fields a step does not touch. *)
Ltac unchanged W := split; cbn -[zlen base.size]; try (by apply W).

Lemma broadcast_ok m s : dash_ok s → dash_ok (broadcast m s).
Proof. intros W. unfold broadcast. unchanged W. by apply offered, W. Qed.

(** Changing only the position of the goroutine that holds [mu]. *)
Lemma set_holder_ok h s :
  dash_ok s → pending h = [] ∨ (∃ p p', pending (holder s) = [p] ∧ pending h = [p'] ∧ erase p' = erase p) →
  dash_ok (set_holder h s).
Proof.
  intros W Hh. assert (StronglySorted Z.lt (indices (log s ++ pending h)) ∧
    Forall (λ p, Index p ≤ packetCounter s ∧ row_of (processed s) p) (log s ++ pending h)) as [Hs Hr].
  { pose proof (ok_sorted _ W) as Hs. pose proof (ok_rows _ W) as Hr.
    destruct Hh as [->|(p & p' & Ep & -> & E)].
    - rewrite app_nil_r. apply Forall_app in Hr as [Hr _]. split; [|done].
      unfold indices in *. rewrite fmap_app in Hs. by apply StronglySorted_app_1_l in Hs.
    - rewrite Ep in *. unfold indices in *. rewrite fmap_app in *. cbn in *.
      rewrite (Index_erase _ _ E). split; [done|]. apply Forall_app in Hr as [Hr Hp].
      apply Forall_app_2; [done|]. apply Forall_singleton. apply Forall_singleton in Hp as [Hp Hp'].
      split; [by rewrite (Index_erase _ _ E)|]. by eapply row_of_eq. }
  unchanged W; done.
Qed.

Lemma take_ok s p (q : list DashboardPacket) :
  dash_ok s → holder s = Free → packetChan s = p :: q →
  dash_ok (set_processed (processed s ++ [p]) (set_packetChan q
    (set_holder (choose_country (number p s).1) (number p s).2))).
Proof.
  intros W Hh Hq. pose proof (ok_packet_chan _ W) as Hch. rewrite Hq in Hch.
  pose proof (ok_sorted _ W) as Hs. pose proof (ok_rows _ W) as Hr. rewrite Hh in Hs, Hr.
  cbn [pending] in *. rewrite app_nil_r in *. set (p' := row (packetCounter s + 1) p).
  assert (∃ p2, pending (choose_country (number p s).1) = [p2] ∧ erase p2 = erase p') as (p2 & Hp2 & E2).
  { rewrite number_row. fold p'. unfold choose_country. repeat case_test; by eexists. }
  assert (Index p2 = packetCounter s + 1) as Hi by by rewrite (Index_erase _ _ E2).
  pose proof (ok_counter _ W) as Hc.
  assert (row_of (processed s ++ [p]) p2) as Hrow.
  { split; [lia|]. exists p. split.
    - rewrite Hi, lookup_app_r by lia. by replace (_ - _)%nat with 0%nat by lia.
    - by rewrite E2, Hi. }
  split; try (by apply W).
  - cbn [packetChan set_processed set_packetChan length] in *. lia.
  - cbn -[zlen base.size]. case_test; apply size_seen; [rewrite size_empty; unfold SEEN_LIMIT; lia|lia].
  - change (packetCounter s + 1 = zlen (processed s ++ [p])). rewrite Hc, length_app. simpl. lia.
  - destruct (ok_arrived _ W) as (taken & Er & Hsub). exists (taken ++ [p]). split.
    + change (received s = (taken ++ [p]) ++ q). by rewrite Er, Hq, <-app_assoc.
    + by apply sublist_app.
  - change (StronglySorted Z.lt (indices (log s ++ pending (choose_country (number p s).1)))).
    rewrite Hp2. unfold indices. rewrite fmap_app. cbn [fmap list_fmap].
    rewrite Hi. apply StronglySorted_app. split; [|split; [done|by repeat constructor]].
    intros x y Hx ->%list_elem_of_singleton. apply list_elem_of_fmap in Hx as (r & -> & Hx).
    rewrite Forall_forall in Hr. apply Hr in Hx as [Hx _]. lia.
  - change (Forall (λ p0, Index p0 ≤ packetCounter s + 1 ∧ row_of (processed s ++ [p]) p0)
      (log s ++ pending (choose_country (number p s).1))).
    rewrite Hp2. apply Forall_app_2.
    + eapply Forall_impl; [exact Hr|]. intros x [Hx Hx']. split; [lia|by apply row_of_app].
    + apply Forall_singleton. split; [lia|done].
Qed.

Lemma Index_locate ip l p : Index (locate ip l p) = Index p.
Proof. apply Index_erase, erase_locate. Qed.

Lemma indices_locate ip l (ps : list DashboardPacket) : indices (locate ip l <$> ps) = indices ps.
Proof.
  unfold indices. rewrite <-list_fmap_compose. apply list_fmap_ext. intros i p _. apply Index_locate.
Qed.

Lemma rows_prefix s (ps : list DashboardPacket) :
  dash_ok s → ps = [] ∨ ps = log s →
  StronglySorted Z.lt (indices ps) ∧
  Forall (λ p, Index p ≤ packetCounter s ∧ row_of (processed s) p) ps.
Proof.
  intros W [->| ->]; [repeat constructor|].
  pose proof (ok_sorted _ W) as Hs. pose proof (ok_rows _ W) as Hr.
  unfold indices in *. rewrite fmap_app in Hs. apply StronglySorted_app_1_l in Hs.
  by apply Forall_app in Hr as [Hr _].
Qed.

Lemma history_ok s r (l : list DashboardPacket) h :
  dash_ok s → ring_ok r → RingBuffer.size r = HISTORY_SIZE →
  contents r = last_n (Z.to_nat HISTORY_SIZE) l →
  StronglySorted Z.lt (indices (l ++ pending h)) →
  Forall (λ p, Index p ≤ packetCounter s ∧ row_of (processed s) p) (l ++ pending h) →
  dash_ok (set_holder h (set_log l (set_history r s))).
Proof. intros W Hr Hsz Hc Hs Hrows. split; try (by apply W); try done. Qed.

Lemma cache_ok s c (l : list (text * text)) :
  dash_ok s → implements GEO_CACHE_SIZE l c → zlen l ≤ GEO_CACHE_SIZE → dash_ok (set_geoCache c s).
Proof.
  intros W (Hc & Hcap & Hi) Hl. split; try (by apply W). cbn. by rewrite Hi.
Qed.

(** An operation of the cache. *)
Lemma cache_step_ok s o c r :
  dash_ok s → lru_step (geoCache s) o = Some (c, r) → dash_ok (set_geoCache c s).
Proof.
  intros W E. destruct (ok_cache _ W) as (Hc & Hcap & Hl).
  destruct (lru_step_ok GEO_CACHE_SIZE (items (geoCache s)) (geoCache s) o) as (c' & r' & E' & Hi & _).
  { by split_and!. }
  rewrite E in E'. injection E' as <- <-. eapply cache_ok; [done|done|].
  apply spec_step_length; [done|done].
Qed.

Lemma set_geoReqChan_ok q s : dash_ok s → zlen q ≤ GEO_CHAN → dash_ok (set_geoReqChan q s).
Proof. intros W Hq. by split; try (by apply W). Qed.

Lemma set_clients_ok cs s :
  dash_ok s → map_Forall (λ _, client_ok) cs → dash_ok (set_clients cs s).
Proof. intros W Hc. by split; try (by apply W). Qed.

Lemma receive_ok s p :
  dash_ok s → zlen (packetChan s) < PACKET_CHAN →
  dash_ok (set_packetChan (packetChan s ++ [p]) (set_received (received s ++ [p]) s)).
Proof.
  intros W Hch. split; try (by apply W).
  - cbn. rewrite length_app. simpl. lia.
  - destruct (ok_arrived _ W) as (taken & Er & Hsub). exists taken. split; [|done].
    cbn. by rewrite Er, app_assoc.
Qed.

Lemma skip_ok s p (q : list DashboardPacket) :
  dash_ok s → packetChan s = p :: q → dash_ok (set_packetChan q s).
Proof.
  intros W Hq. split; try (by apply W).
  - pose proof (ok_packet_chan _ W) as Hc. rewrite Hq in Hc. cbn in *. lia.
  - destruct (ok_arrived _ W) as (taken & Er & Hsub). exists (taken ++ [p]). cbn.
    split; [by rewrite Er, Hq, <-app_assoc|]. by apply sublist_inserts_r.
Qed.

Lemma add_ok s p r :
  dash_ok s → holder s = PAdd p → RingBuffer.Add p (history s) = Some r →
  dash_ok (set_holder (PSend (MPacket p)) (set_log (log s ++ [p]) (set_history r s))).
Proof.
  intros W Hh Ha. destruct (ok_ring _ W) as [Hr Hsz].
  destruct (ring_Add_ok p _ Hr) as (r' & E & Hr' & Hsz' & Hl).
  rewrite Ha in E. injection E as <-. pose proof (ok_sorted _ W) as Hs. pose proof (ok_rows _ W) as Hrw.
  rewrite Hh in Hs, Hrw. cbn [pending] in *.
  apply history_ok; cbn [pending]; rewrite ?app_nil_r; try done; [congruence|].
  by rewrite Hl, (ok_log _ W), Hsz, last_n_app.
Qed.

Lemma geo_update_ok s ip l r :
  dash_ok s → Update (locate ip l) (history s) = Some r →
  dash_ok (set_holder (holder s) (set_log (locate ip l <$> log s) (set_history r s))).
Proof.
  intros W Hu. destruct (ok_ring _ W) as [Hr Hsz].
  destruct (Update_ok (locate ip l) _ Hr) as (r' & E & Hr' & Hsz' & Hl).
  rewrite Hu in E. injection E as <-.
  pose proof (ok_sorted _ W) as Hs. pose proof (ok_rows _ W) as Hrw.
  apply history_ok; try done; [congruence|by rewrite Hl, (ok_log _ W), last_n_fmap| |].
  - unfold indices in *. rewrite fmap_app in *. fold (indices (locate ip l <$> log s)).
    rewrite indices_locate. done.
  - apply Forall_app in Hrw as [Hrw Hp]. apply Forall_app_2; [|done]. apply Forall_fmap.
    eapply Forall_impl; [exact Hrw|]. intros p [Hi Hp']. unfold compose. rewrite Index_locate.
    split; [done|]. eapply row_of_eq; [apply erase_locate|done].
Qed.

Lemma geo_drop_ok s ip (q : list text) : dash_ok s → geoReqChan s = ip :: q → dash_ok (set_geoReqChan q s).
Proof.
  intros W Hq. apply set_geoReqChan_ok; [done|]. pose proof (ok_geo_chan _ W) as Hc. rewrite Hq in Hc.
  simpl in Hc. lia.
Qed.

Lemma set_geo_ok g s : dash_ok s → dash_ok (set_geo g s).
Proof. intros W. by split; try (by apply W). Qed.

Lemma write_ok s i m (q w since : list message) n :
  dash_ok s → clients s !! i = Some (mkClient (m :: q) w since n) →
  dash_ok (set_clients (<[i := mkClient q (w ++ [m]) since n]> (clients s)) s).
Proof.
  intros W Hi. apply set_clients_ok; [done|]. apply map_Forall_insert_2; [|by apply W].
  pose proof (ok_clients _ W i _ Hi) as (Hq & Hsub & Hl). cbn in *. split_and!; cbn.
  - lia.
  - by rewrite <-app_assoc.
  - by rewrite <-app_assoc.
Qed.

Lemma step_ok s s' : dash_ok s → step geoDB s s' → dash_ok s'.
Proof.
  intros W Hs. destruct Hs as [s d Hch|s p q Hh Hq Hsc|s p q p' s' Hh Hq Hsc Hn|s p ip c r Hh Hg
    |s p ip c Hh Hg|s p ip Hh|s p Hh|s p r Hh Ha|s m Hh|s Hh|s Hh|s n Ht|s f Hh Hf|s ip q Hg Hq
    |s ip Hg Hdb|s ip db Hg Hdb Hu|s ip db raw Hg Hdb Hf|s ip l c Hg Ha|s ip l Hg|s ip l r Hg Hu|s ip l Hg|s i Hi
    |s i m q w since n Hi|s i].
  - by apply receive_ok.
  - by eapply skip_ok.
  - pose proof (take_ok s p q W Hh Hq) as Ht. by rewrite Hn in Ht.
  - apply set_holder_ok; [by eapply (cache_step_ok s (OpGet ip))|]. right.
    eexists _, _. cbn. rewrite Hh. split_and!; [done..|apply erase_location].
  - apply set_holder_ok; [by eapply (cache_step_ok s (OpGet ip))|]. right.
    eexists _, _. cbn. by rewrite Hh.
  - apply set_holder_ok.
    + case_test; [|done]. apply set_geoReqChan_ok; [done|]. rewrite length_app. simpl. lia.
    + right. exists p. eexists. split; [case_test; cbn; by rewrite Hh|].
      split; [done|apply erase_location].
  - apply set_holder_ok; [done|]. case_test; [|by left]. right. exists p, p. by rewrite Hh.
  - by apply add_ok.
  - apply set_holder_ok; [by apply broadcast_ok|by left].
  - destruct (ok_ring _ W) as [Hr Hsz]. destruct (Clear_ok _ Hr) as [Hr' Hc].
    by apply history_ok; cbn [pending app]; [..|constructor|constructor].
  - by split; try (by apply W).
  - pose proof (broadcast_ok (MStatus (isScanning s) None) s W) as Wb. by split; try (by apply Wb).
  - unfold change_filter. apply set_holder_ok; [by split; try (by apply W)|by left].
  - apply set_geo_ok. by eapply geo_drop_ok.
  - by apply set_geo_ok.
  - apply set_geo_ok. by eapply (cache_step_ok s (OpRemove ip)).
  - by apply set_geo_ok.
  - apply set_geo_ok. eapply (cache_step_ok s (OpAdd ip _)); [done|]. cbn. by rewrite Ha.
  - by apply set_geo_ok.
  - pose proof (geo_update_ok s ip l r W Hu) as W'. by split; try (by apply W').
  - pose proof (broadcast_ok (MGeo ip l) s W) as Wb. by split; try (by apply Wb).
  - apply set_clients_ok; [done|]. apply map_Forall_insert_2; [|by apply W].
    split_and!; cbn; [done|constructor|done].
  - by eapply write_ok.
  - apply set_clients_ok; [done|]. by apply map_Forall_delete, W.
Qed.

Lemma init_ok zero c l :
  implements GEO_CACHE_SIZE l c → zlen l ≤ GEO_CACHE_SIZE → dash_ok (init zero c).
Proof.
  intros (Hc & Hcap & Hi) Hl. destruct (NewRingBuffer_ok zero HISTORY_SIZE) as [Hr Hn]; [done|].
  split; try done; cbn -[zlen base.size].
  - by rewrite Hi.
  - by exists [].
  - constructor.
Qed.

Lemma reachable_ok zero c l s :
  implements GEO_CACHE_SIZE l c → zlen l ≤ GEO_CACHE_SIZE → rtc (step geoDB) (init zero c) s → dash_ok s.
Proof.
  intros Hc Hl. apply (rtc_ind_r (λ s, dash_ok s)); [by eapply init_ok|].
  intros x y _ Hs W. by eapply step_ok.
Qed.

(** ** The claims *)

(** The states of a running dashboard, whose cache file held [l]. *)
Definition runs zero (c : lruCache) s : Prop := rtc (step geoDB) (init zero c) s.

(** C16. Memory stays bounded and nothing panics: in every reachable state the
    history, the cache, the set of addresses, the two channels and the channel
    of every web socket are within their limits, and every operation of the
    history and of the cache, with any argument, finds its elements. *)
Theorem dashboard_bounds zero c l s :
  implements GEO_CACHE_SIZE l c → zlen l ≤ GEO_CACHE_SIZE → runs zero c s →
  (zlen (contents (history s)) ≤ HISTORY_SIZE ∧ zlen (items (geoCache s)) ≤ GEO_CACHE_SIZE ∧
   Z.of_nat (base.size (seenIPs s)) ≤ SEEN_LIMIT + 2 ∧ zlen (packetChan s) ≤ PACKET_CHAN ∧
   zlen (geoReqChan s) ≤ GEO_CHAN ∧
   map_Forall (λ _ x, zlen (c_queue x) ≤ CLIENT_CHAN) (clients s)) ∧
  (∀ p, is_Some (RingBuffer.Add p (history s))) ∧ (∀ f, is_Some (Update f (history s))) ∧
  (∀ b, is_Some (RingBuffer.GetAll b (history s))) ∧
  (∀ o, is_Some (lru_step (geoCache s) o)).
Proof.
  intros Hc Hl Hr. pose proof (reachable_ok zero c l s Hc Hl Hr) as W.
  destruct (ok_ring _ W) as [Hring Hsz], (ok_cache _ W) as (Hlru & Hcap & Hlen).
  split; [split_and!; try (by apply W)|split_and!].
  - pose proof (length_contents _ Hring). destruct Hring. lia.
  - intros i x Hx. by apply (ok_clients _ W i x Hx).
  - intros p. destruct (ring_Add_ok p _ Hring) as (r & -> & _). by eexists.
  - intros f. destruct (Update_ok f _ Hring) as (r & -> & _). by eexists.
  - intros b. rewrite ring_GetAll_ok by done. by eexists.
  - intros o. destruct (lru_step_ok GEO_CACHE_SIZE (items (geoCache s)) (geoCache s) o) as (x & y & -> & _);
      [by split_and!|by eexists].
Qed.

(** C14. What the page is given: in every reachable state [/api/packets] returns
    the last 5000 rows stored since the history was cleared, newest first; their
    numbers strictly increase in the order of storing, none is repeated; and the
    row with number [n] is made of the [n]th packet that the loop took while
    scanning - its information and vendors included -, the packets taken being
    a subsequence of those the service sent, in their order. *)
Theorem dashboard_rows zero c l s :
  implements GEO_CACHE_SIZE l c → zlen l ≤ GEO_CACHE_SIZE → runs zero c s →
  api_packets s = Some (reverse (last_n (Z.to_nat HISTORY_SIZE) (log s))) ∧
  StronglySorted Z.lt (Index <$> log s) ∧
  Forall (row_of (processed s)) (log s) ∧
  packetCounter s = zlen (processed s) ∧ sublist (processed s) (received s).
Proof.
  intros Hc Hl Hr. pose proof (reachable_ok zero c l s Hc Hl Hr) as W.
  destruct (rows_prefix s (log s) W (or_intror eq_refl)) as [Hs Hrows]. split_and!.
  - unfold api_packets. rewrite ring_GetAll_ok by apply W. by rewrite (ok_log _ W).
  - done.
  - eapply Forall_impl; [exact Hrows|]. by intros p [_ ?].
  - apply W.
  - destruct (ok_arrived _ W) as (taken & -> & Hsub). by apply sublist_inserts_r.
Qed.

(** C17. A web socket is never blocked on and never reordered: what was written
    to it, followed by what waits in its channel, is a subsequence of the
    messages broadcast since it was opened; the number of messages missing is
    counted exactly, and if none is missing the page gets them all. *)
Theorem client_messages zero c l s i x :
  implements GEO_CACHE_SIZE l c → zlen l ≤ GEO_CACHE_SIZE → runs zero c s →
  clients s !! i = Some x →
  sublist (c_written x ++ c_queue x) (c_since x) ∧
  length (c_since x) = (length (c_written x ++ c_queue x) + c_missed x)%nat ∧
  (c_missed x = 0%nat → c_written x ++ c_queue x = c_since x) ∧
  (∀ m, zlen (c_queue x) < CLIENT_CHAN → c_missed (offer m x) = c_missed x).
Proof.
  intros Hc Hl Hr Hi. pose proof (reachable_ok zero c l s Hc Hl Hr) as W.
  destruct (ok_clients _ W i x Hi) as (Hq & Hsub & Hlen). split_and!; try done.
  - intros Hm. apply sublist_same_length; [done|lia].
  - intros m Hm. unfold offer. by destruct (Z.ltb_spec (zlen (c_queue x)) CLIENT_CHAN); [|lia].
Qed.
(** ** Nothing is lost *)

(** A step of a dashboard that scans, without a filter, and is not cleared. *)
Definition calm_step s s' : Prop :=
  step geoDB s s' ∧ isScanning s' = true ∧ filterStr s' = [] ∧ holder s' ≠ PSend MClear.

(** The rows of all packets, in their order. *)
Definition all_rows (ps : list DashboardPacket) : list DashboardPacket :=
  imap (λ i p, erase (row (Z.of_nat i + 1) p)) ps.

Lemma all_rows_snoc ps p : all_rows (ps ++ [p]) = all_rows ps ++ [erase (row (zlen ps + 1) p)].
Proof. unfold all_rows. rewrite imap_app. cbn. unfold compose. by rewrite Nat.add_0_r. Qed.

Definition complete s : Prop :=
  isScanning s = true ∧ filterStr s = [] ∧ received s = processed s ++ packetChan s ∧
  erase <$> (log s ++ pending (holder s)) = all_rows (processed s).

(** Only the packet that is being handled, or locations, change. *)
Lemma complete_same s s' :
  complete s → isScanning s' = true → filterStr s' = [] → received s' = received s →
  processed s' = processed s → packetChan s' = packetChan s →
  erase <$> (log s' ++ pending (holder s')) = erase <$> (log s ++ pending (holder s)) → complete s'.
Proof. intros (_ & _ & Hr & Hl) H1 H2 H3 H4 H5 H6. split_and!; congruence. Qed.

Lemma erase_pending (l : list DashboardPacket) p p' :
  erase p' = erase p → erase <$> (l ++ [p']) = erase <$> (l ++ [p]).
Proof. intros E. rewrite !fmap_app. cbn. by rewrite E. Qed.

Lemma complete_take s p (q : list DashboardPacket) :
  dash_ok s → complete s → holder s = Free → packetChan s = p :: q →
  complete (set_processed (processed s ++ [p]) (set_packetChan q
    (set_holder (choose_country (number p s).1) (number p s).2))).
Proof.
  intros W (Hsc & Hf & Hr & Hl) Hh Hq. split_and!; [done|done|..].
  - change (received s = (processed s ++ [p]) ++ q). by rewrite Hr, Hq, <-app_assoc.
  - change (erase <$> (log s ++ pending (choose_country (number p s).1)) = all_rows (processed s ++ [p])).
    rewrite Hh in Hl. cbn [pending] in Hl. rewrite app_nil_r in Hl.
    rewrite all_rows_snoc, <-Hl, <-(ok_counter _ W), number_row.
    set (p' := row _ p). rewrite fmap_app. f_equal. unfold choose_country. by repeat case_test.
Qed.

Lemma complete_step s s' : dash_ok s → complete s → calm_step s s' → complete s'.
Proof.
  intros Wd W (Hs & Hsc' & Hf' & Hh'). pose proof W as (Hsc & Hf & Hr & Hl).
  destruct Hs as [s d Hch|s p q Hh Hq Hscan|s p q p' s' Hh Hq Hscan Hn|s p ip c r Hh Hg
    |s p ip c Hh Hg|s p ip Hh|s p Hh|s p r Hh Ha|s m Hh|s Hh|s Hh|s n Ht|s f Hh Hne|s ip q Hg Hq
    |s ip Hg Hdb|s ip db Hg Hdb Hu|s ip db raw Hg Hdb Hfnd|s ip l c Hg Ha|s ip l Hg|s ip l r Hg Hu|s ip l Hg|s i Hi
    |s i m q w since n Hi|s i];
    try (by apply (complete_same s)).
  - split_and!; try done. cbn. by rewrite Hr, app_assoc.
  - congruence.
  - pose proof (complete_take s p q Wd W Hh Hq) as Ht. by rewrite Hn in Ht.
  - apply (complete_same s); try done. rewrite Hh. cbn. apply erase_pending, erase_location.
  - apply (complete_same s); try done. by rewrite Hh.
  - apply (complete_same s); [exact W|by case_test..|]. rewrite Hh. cbn -[set_location].
    case_test; apply erase_pending, erase_location.
  - apply (complete_same s); try done. rewrite Hh. cbn. by rewrite Hf.
  - apply (complete_same s); try done. rewrite Hh. cbn. by rewrite app_nil_r.
  - apply (complete_same s); try done. by rewrite Hh.
  - cbn in Hf'. congruence.
  - apply (complete_same s); try done. cbn. rewrite !fmap_app. f_equal.
    rewrite <-list_fmap_compose. apply list_fmap_ext. intros j x _. apply erase_locate.
Qed.

(** All packets in their order. *)
Lemma stored_spec zero c l s :
  implements GEO_CACHE_SIZE l c → zlen l ≤ GEO_CACHE_SIZE → rtc calm_step (init zero c) s →
  received s = processed s ++ packetChan s ∧
  erase <$> (log s ++ pending (holder s)) = all_rows (processed s) ∧
  (packetChan s = [] → pending (holder s) = [] → ∃ answer,
    api_packets s = Some answer ∧
    erase <$> answer = reverse (last_n (Z.to_nat HISTORY_SIZE) (all_rows (received s)))).
Proof.
  intros Hc Hl Hr. assert (dash_ok s ∧ complete s) as [W (_ & _ & Hrec & Hlog)].
  { revert Hr. apply (rtc_ind_r (λ s, dash_ok s ∧ complete s)).
    - split; [by eapply init_ok|by split_and!].
    - intros x y _ Hs [W Wc]. split; [eapply step_ok; [done|apply Hs]|by eapply complete_step]. }
  split; [done|]. split; [done|]. intros Hq Hp. rewrite Hq, app_nil_r in Hrec. rewrite Hp, app_nil_r in Hlog.
  eexists. split; [unfold api_packets; rewrite ring_GetAll_ok by apply W; reflexivity|].
  rewrite (ok_log _ W), fmap_reverse, Hrec, <-Hlog. f_equal. unfold last_n.
  by rewrite fmap_drop, length_fmap.
Qed.

(** C15. Nothing is lost: while the dashboard scans, has no filter and is not
    cleared, every packet that arrives is in its channel, in the hand of the
    loop or in the history, under its number, in the order of arrival; once
    channel and hand are empty [/api/packets] returns the last 5000 of all the
    packets received, newest first, whatever the other goroutines, web sockets
    and locations do in between. *)
Theorem every_packet_stored zero c l s :
  implements GEO_CACHE_SIZE l c → zlen l ≤ GEO_CACHE_SIZE → rtc calm_step (init zero c) s →
  received s = processed s ++ packetChan s ∧
  erase <$> (log s ++ pending (holder s)) = all_rows (processed s) ∧
  (packetChan s = [] → pending (holder s) = [] → ∃ answer,
    api_packets s = Some answer ∧
    erase <$> answer = reverse (last_n (Z.to_nat HISTORY_SIZE) (all_rows (received s)))).
Proof. apply stored_spec. Qed.
End properties.
