(* ===== verification/DashboardGeo.v ===== *)
(** * Vendors and locations

    What the rows say about the makers of the network cards and the places of
    the addresses: how the cache's entries are read back, what is never shown,
    and how a location can be missed although it was found. *)

From stdpp Require Import strings pretty gmap sorting.
From S2P Require Import Prelude PacketTypes Wire GoText GoNet GoPacket Filter RingBuffer LruCache.
From S2P Require Import Dashboard DashboardProps FilterProps.

Section geo.
Context `{GoUnicode} `{GoRegexp}.
Implicit Types (p : DashboardPacket) (s : dash).

(** ** The cache's entries *)

Definition no_bar (l : location) : Prop :=
  (124 ∉ l_country l) ∧ (124 ∉ l_code l) ∧ (124 ∉ l_city l) ∧ (124 ∉ l_isp l).

Lemma split_entry l :
  no_bar l → split (entry_of l) 124 = [l_country l; l_code l; l_city l; l_isp l].
Proof.
  intros (H1 & H2 & H3 & H4).
  change (entry_of l) with (join [l_country l; l_code l; l_city l; l_isp l] [124]).
  apply split_join; [done|]. by repeat constructor.
Qed.

(** A location that is read from the cache is the one that was stored, but
    only in part: the row gets the country and its code, never the city and the
    provider, while a row that is already in the history when the location is
    found gets all four. *)
Theorem cached_location_partial l p ip cap c :
  no_bar l → 0 < cap → SrcIP p = ip ∨ DstIP p = ip → lru_ok c → capacity c = cap →
  (∃ c1 c2, LruCache.Add ip (entry_of l) c = Some c1 ∧ Get ip c1 = Some (c2, Some (entry_of l))) ∧
  set_location (entry_of l) p = set_CountryCode (l_code l) (set_Country (l_country l) p) ∧
  locate ip l p = set_ISP (l_isp l) (set_City (l_city l)
    (set_CountryCode (l_code l) (set_Country (l_country l) p))).
Proof.
  intros Hl Hcap Hip Hc <-. split; [|split].
  - destruct (lru_Add_ok c ip (entry_of l) Hc) as (c1 & E1 & (Hc1 & Hcap1 & Hi)).
    destruct (Get_ok c1 ip Hc1) as (c2 & r & E2 & _ & ->). exists c1, c2. split; [done|].
    rewrite E2, Hi. do 2 f_equal. unfold spec_get, spec_add.
    destruct (assoc ip (items c)); cbn [assoc]; by rewrite decide_True.
  - unfold set_location. by rewrite split_entry.
  - unfold locate. destruct Hip as [->| ->]; rewrite (bool_decide_eq_true_2 (ip = ip)) by done;
      by rewrite ?orb_true_r.
Qed.

(** ** Vendors *)

Definition arp_text (d : Wire.DashboardPacket) : text :=
  str "ARP Request/Reply " ++ d_src_ip d ++ str " -> " ++ d_dst_ip d.

(** The vendors whose prefixes the program knows, by the six digits in capitals. *)
Definition vendor_of (oui : text) : text := lookup_vendor oui macVendors.

(** The vendors of the network cards are looked up, but not shown where the
    program means to show them: the information of a row is written before the
    vendors are known, so that of an ARP packet never names one. *)
Theorem arp_vendor_never_shown d s p' s' :
  d_protocol d = str "ARP" → d_tls_sni d = [] → d_extra_info d = [] → d_dns_query d = [] →
  number (of_service d) s = (p', s') →
  Info p' = arp_text d ∧
  SrcMacVendor p' = getMacVendor (d_src_mac d) ∧ DstMacVendor p' = getMacVendor (d_dst_mac d).
Proof.
  intros Hp H1 H2 H3 E. assert (p' = row (packetCounter s + 1) (of_service d)) as ->.
  { by rewrite <-number_row, E. }
  split; [|done]. change (Info (row _ (of_service d))) with
    (getPacketInfo (set_Index (packetCounter s + 1) (of_service d))).
  unfold getPacketInfo. cbn [TlsSNI ExtraInfo DnsQuery Protocol set_Index of_service].
  rewrite Hp, H1, H2, H3. unfold arp_text. rewrite <-(app_nil_r (d_dst_ip d)). reflexivity.
Qed.

(** ** A location that comes too early *)

(** Nothing is left to do. *)
Definition quiescent s : Prop :=
  holder s = Free ∧ geo s = GIdle ∧ geoReqChan s = [] ∧ packetChan s = [] ∧ toggles s = 0%nat.

Section race.
Context (db : text → option location) (raw : location) (d : Wire.DashboardPacket)
  (zero : DashboardPacket).
Context (Hpub : isPrivateIP (d_src_ip d) = false) (Hdb : db (d_src_ip d) = Some raw).

#[local] Abbreviation ip := (d_src_ip d).
#[local] Abbreviation loc := (geo_record raw).
#[local] Abbreviation steps := (rtc (step (Some db))).

(** A state of the run: the parts that matter. *)
Definition run_state (h : holder_pc) (g : geo_pc) (reqs : list text) (rows : list DashboardPacket)
    (cached : list (text * text)) s : Prop :=
  holder s = h ∧ geo s = g ∧ geoReqChan s = reqs ∧ packetChan s = [] ∧ toggles s = 0%nat ∧
  filterStr s = [] ∧ ring_ok (history s) ∧ RingBuffer.size (history s) = HISTORY_SIZE ∧
  contents (history s) = rows ∧ implements GEO_CACHE_SIZE cached (geoCache s).

#[local] Abbreviation first_row := (row 1 (of_service d)).

Lemma set_location_searching p : set_location searching p = set_Country searching p.
Proof. reflexivity. Qed.

(** The packet arrives, is numbered, and its address is asked for. *)
Lemma run_request :
  ∃ s, steps (init zero (NewLRUCache GEO_CACHE_SIZE)) s ∧
    run_state (PMatch (set_Country searching first_row)) GIdle [ip] [] [] s.
Proof using Hpub.
  set (s0 := init zero (NewLRUCache GEO_CACHE_SIZE)).
  assert (run_state Free GIdle [] [] [] s0) as W0.
  { destruct (NewRingBuffer_ok zero HISTORY_SIZE) as [Hr Hn]; [done|].
    split_and!; try done. apply New_ok. }
  destruct W0 as (Hh & Hg & Hq & Hp & Ht & Hf & Hr & Hsz & Hc & Hl).
  assert (packetCounter s0 = 0 ∧ isScanning s0 = true) as [Hn Hs] by done.
  clearbody s0. set (s1 := set_packetChan (packetChan s0 ++ [of_service d])
    (set_received (received s0 ++ [of_service d]) s0)).
  pose proof (number_row (of_service d) s1) as Hrow.
  assert (packetCounter s1 = 0) as Hn1 by done. rewrite Hn1 in Hrow. change (0 + 1) with 1 in Hrow.
  assert (SrcIP (row 1 (of_service d)) = ip) as Hsrc by done.
  set (p0 := row 1 (of_service d)) in *. clearbody p0.
  destruct (number (of_service d) s1) as [p' s1'] eqn:En. cbn [fst] in Hrow. subst p'.
  assert (s1' = (number (of_service d) s1).2) as Es1' by by rewrite En.
  eexists. split.
  - eapply rtc_l; [apply (step_receive _ s0 d); by rewrite Hp|]. fold s1.
    eapply rtc_l; [eapply (step_take _ s1 (of_service d) []); [done| |done|exact En]|].
    { cbn. by rewrite Hp. }
    unfold choose_country. rewrite Hsrc, Hpub. cbn [negb].
    eapply rtc_l; [eapply step_missing; [done|]|].
    { change (geoCache _) with (geoCache s1'). rewrite Es1'. change (geoCache (number _ s1).2) with (geoCache s0).
      destruct Hl as (Hl & Hcap & Hi). unfold Get.
      destruct (cache (geoCache s0) !! ip) as [e|] eqn:Ec; [|reflexivity].
      exfalso. destruct (lru_mapped _ Hl _ _ Ec) as (Ho & v & E). 
      assert ((ip, v) ∈ items (geoCache s0)) as Hin by (apply items_lookup; eauto).
      rewrite Hi in Hin. by apply elem_of_nil in Hin. }
    eapply rtc_l; [eapply step_request; done|]. apply rtc_refl.
  - subst s1'. rewrite set_location_searching. change (geoReqChan _) with (geoReqChan s0) at 1. rewrite Hq. change (zlen [] <? GEO_CHAN) with true.
    split_and!; try exact Hr; try exact Hl; try done.
    change (geoReqChan s0 ++ [ip] = [ip]). by rewrite Hq.
Qed.

(** The worker looks the address up, with [rows] in the history. *)
Lemma run_geo h rows s :
  run_state h GIdle [ip] rows [] s →
  ∃ s', steps s s' ∧ run_state h GIdle [] (locate ip loc <$> rows) [(ip, entry_of loc)] s'.
Proof using All.
  intros (Hh & Hg & Hq & Hp & Ht & Hf & Hr & Hsz & Hc & Hl).
  destruct (proj1 Hl) as [? ? ? ?]. destruct Hl as (Hok & Hcap & Hi).
  destruct (lru_Add_ok _ ip (entry_of loc) Hok) as (c & Ec & Hc').
  rewrite Hcap, Hi in Hc'. cbn [spec_add assoc] in Hc'.
  destruct (Update_ok (locate ip loc) _ Hr) as (r & Er & Hr' & Hsz' & Hcr).
  eexists. split.
  - eapply rtc_l; [eapply step_geo_receive; [done|exact Hq]|].
    eapply rtc_l; [eapply step_geo_found; [done|done|exact Hdb]|].
    eapply rtc_l; [eapply step_geo_add; [done|exact Ec]|].
    eapply rtc_l; [by eapply step_geo_saved|].
    eapply rtc_l; [eapply step_geo_update; [done|exact Er]|].
    eapply rtc_l; [eapply step_geo_send; done|]. apply rtc_refl.
  - split_and!; try done; cbn; [congruence|by rewrite Hcr, Hc].
Qed.

(** The loop stores the packet, which passes the empty filter. *)
Lemma run_store p reqs rows cached s :
  run_state (PMatch p) GIdle reqs rows cached s → zlen rows < HISTORY_SIZE →
  ∃ s', steps s s' ∧ run_state Free GIdle reqs (rows ++ [p]) cached s'.
Proof using All.
  intros (Hh & Hg & Hq & Hp & Ht & Hf & Hr & Hsz & Hc & Hl) Hlen.
  destruct (ring_Add_ok p _ Hr) as (r & Er & Hr' & Hsz' & Hcr).
  assert (contents r = rows ++ [p]) as Hrows.
  { rewrite Hcr, Hc, Hsz. apply last_n_short. rewrite length_app. simpl. unfold HISTORY_SIZE in *. lia. }
  eexists. split.
  - eapply rtc_l; [eapply step_match; exact Hh|].
    assert (filter_match (filterStr s) (filterRegex s) p = true) as -> by by rewrite Hf.
    eapply rtc_l; [eapply step_add; [done|exact Er]|].
    eapply rtc_l; [eapply step_send; done|]. apply rtc_refl.
  - split_and!; try done. cbn. congruence.
Qed.

Lemma run_state_end rows cached s :
  run_state Free GIdle [] rows cached s →
  quiescent s ∧ items (geoCache s) = cached ∧ api_packets s = Some (reverse rows).
Proof using All.
  intros (Hh & Hg & Hq & Hp & Ht & _ & Hr & Hsz & <- & (_ & _ & Hi)).
  split; [by split_and!|]. split; [done|]. unfold api_packets. by rewrite ring_GetAll_ok.
Qed.

(** C38. Whether a row gets its location is a race: the request is sent before
    the row is stored, so the worker may look the address up, write it to the
    rows that exist and announce it before this row is one of them.  Then all is
    quiet, the cache knows the location, and the row - the only one - says
    "searching..." for ever; in another interleaving of the same packet it shows
    its country. *)
Theorem location_race :
  (∃ s, steps (init zero (NewLRUCache GEO_CACHE_SIZE)) s ∧ quiescent s ∧
    items (geoCache s) = [(ip, entry_of loc)] ∧
    ∃ p, api_packets s = Some [p] ∧ SrcIP p = ip ∧ Country p = searching) ∧
  (∃ s, steps (init zero (NewLRUCache GEO_CACHE_SIZE)) s ∧ quiescent s ∧
    items (geoCache s) = [(ip, entry_of loc)] ∧
    ∃ p, api_packets s = Some [p] ∧ SrcIP p = ip ∧ Country p = l_country loc).
Proof using Hpub Hdb.
  destruct run_request as (s & Hs & W). split.
  - destruct (run_geo _ _ _ W) as (s1 & H1 & W1). destruct (run_store _ _ _ _ _ W1) as (s2 & H2 & W2).
    { done. }
    exists s2. destruct (run_state_end _ _ _ W2) as (Hq & Hi & Ha).
    split; [by repeat (etransitivity; [eassumption|])|]. split; [done|]. split; [done|].
    eexists. split; [exact Ha|]. done.
  - destruct (run_store _ _ _ _ _ W) as (s1 & H1 & W1); [done|].
    destruct (run_geo _ _ _ W1) as (s2 & H2 & W2).
    exists s2. destruct (run_state_end _ _ _ W2) as (Hq & Hi & Ha).
    split; [by repeat (etransitivity; [eassumption|])|]. split; [done|]. split; [done|].
    eexists. split; [exact Ha|]. unfold locate. rewrite bool_decide_eq_true_2 by done. done.
Qed.
End race.
End geo.

(** ** A concrete dashboard *)

Definition sample_db (ip : text) : option location :=
  if bool_decide (ip = str "8.8.8.8")
  then Some (mkLocation (str "United States") (str "US") (str "Ashburn") []) else None.

Definition sample_raw : location := mkLocation (str "United States") (str "US") (str "Ashburn") [].

Definition sample_service : Wire.DashboardPacket :=
  dashboard (set_src_ip sample_dst (set_dst_ip sample_src (set_src_port 22 (set_dst_port 50000
    (set_protocol 6 zero_info))))).

#[local] Existing Instance ascii_only.
#[local] Existing Instance no_regexp.

Lemma location_race_witness :
  (∃ s, rtc (step (Some sample_db)) (init sample_packet (NewLRUCache GEO_CACHE_SIZE)) s ∧
    ∃ p, api_packets s = Some [p] ∧ Country p = searching) ∧
  (∃ s, rtc (step (Some sample_db)) (init sample_packet (NewLRUCache GEO_CACHE_SIZE)) s ∧
    ∃ p, api_packets s = Some [p] ∧ Country p = str "united states").
Proof.
  destruct (location_race sample_db sample_raw sample_service sample_packet eq_refl eq_refl)
    as [(s & Hs & _ & _ & p & Hp & _ & Hc) (s' & Hs' & _ & _ & p' & Hp' & _ & Hc')].
  split; [exists s|exists s']; (split; [assumption|]); eexists; split; eassumption.
Defined.

Lemma empty_cache_ok : implements GEO_CACHE_SIZE [] (NewLRUCache GEO_CACHE_SIZE) ∧ zlen (@nil (text * text)) ≤ GEO_CACHE_SIZE.
Proof. split; [apply New_ok|done]. Qed.

(** One packet arrives and is stored. *)
Lemma sample_run :
  ∃ s, runs (Some sample_db) sample_packet (NewLRUCache GEO_CACHE_SIZE) s ∧
    ∃ p, api_packets s = Some [p] ∧ SrcIP p = str "8.8.8.8".
Proof.
  destruct (run_request sample_db sample_service sample_packet eq_refl) as (s & Hs & W).
  destruct (run_store sample_db sample_raw sample_service sample_packet eq_refl eq_refl _ _ _ _ _ W) as (s1 & H1 & W1).
  { done. }
  exists s1. split; [unfold runs; by etransitivity|]. destruct W1 as (_ & _ & _ & _ & _ & _ & Hr & _ & Hc & _).
  eexists. unfold api_packets. rewrite ring_GetAll_ok, Hc by done. done.
Qed.

Lemma dashboard_bounds_witness :
  ∃ s p, runs (Some sample_db) sample_packet (NewLRUCache GEO_CACHE_SIZE) s ∧
    api_packets s = Some [p] ∧ is_Some (RingBuffer.Add p (history s)).
Proof.
  destruct sample_run as (s & Hs & p & Hp & _). exists s, p. split; [exact Hs|]. split; [exact Hp|].
  exact (proj1 (proj2 (dashboard_bounds (Some sample_db) sample_packet _ [] s (proj1 empty_cache_ok)
    (proj2 empty_cache_ok) Hs)) p).
Defined.

Lemma dashboard_rows_witness :
  ∃ s p, runs (Some sample_db) sample_packet (NewLRUCache GEO_CACHE_SIZE) s ∧
    api_packets s = Some [p] ∧ StronglySorted Z.lt (Index <$> log s).
Proof.
  destruct sample_run as (s & Hs & p & Hp & _). exists s, p. split; [exact Hs|]. split; [exact Hp|].
  exact (proj1 (proj2 (dashboard_rows (Some sample_db) sample_packet _ [] s (proj1 empty_cache_ok)
    (proj2 empty_cache_ok) Hs))).
Defined.

(** A page that is open while scanning is stopped. *)
Lemma client_messages_witness :
  ∃ s x, runs (Some sample_db) sample_packet (NewLRUCache GEO_CACHE_SIZE) s ∧
    clients s !! 7%nat = Some x ∧ c_written x ++ c_queue x = [MStatus false None].
Proof.
  eassert (runs (Some sample_db) sample_packet (NewLRUCache GEO_CACHE_SIZE) _) as Hs.
  { eapply rtc_l; [apply (step_connect _ _ 7); reflexivity|].
    eapply rtc_l; [apply step_toggle; reflexivity|].
    eapply rtc_l; [eapply step_toggled; reflexivity|]. apply rtc_refl. }
  eexists _, (offer (MStatus false None) (mkClient [] [] [] 0)).
  split; [exact Hs|]. split; [reflexivity|].
  refine (proj1 (proj2 (proj2 (client_messages (Some sample_db) sample_packet _ [] _ 7
    (offer (MStatus false None) (mkClient [] [] [] 0)) (proj1 empty_cache_ok) (proj2 empty_cache_ok) Hs _))) _);
    reflexivity.
Defined.

Lemma cached_location_partial_witness :
  let l := mkLocation (str "germany") (str "de") (str "berlin") [] in
  City (set_location (entry_of l) sample_packet) = [] ∧
  City (locate (str "8.8.8.8") l sample_packet) = str "berlin".
Proof.
  destruct (cached_location_partial (mkLocation (str "germany") (str "de") (str "berlin") [])
    sample_packet (str "8.8.8.8") GEO_CACHE_SIZE (NewLRUCache GEO_CACHE_SIZE)) as (_ & H1 & H2).
  - split_and!; by_decide.
  - done.
  - right. by vm_compute.
  - apply empty_cache_ok.
  - done.
  - cbn zeta. rewrite H1, H2. split; reflexivity.
Defined.

(** The sender's card is one of Cisco's. *)
Definition sample_arp : Wire.DashboardPacket :=
  dashboard (set_src_mac [0; 0; 12; 1; 2; 3] (set_src_ip sample_src (set_dst_ip sample_dst
    (set_protocol 200 zero_info)))).

Lemma arp_vendor_never_shown_witness :
  ∃ p, fst (number (of_service sample_arp) (init sample_packet (NewLRUCache GEO_CACHE_SIZE))) = p ∧
    SrcMacVendor p = str "Cisco" ∧ Info p = str "ARP Request/Reply 10.1.2.3 -> 8.8.8.8".
Proof.
  eexists. split; [reflexivity|].
  destruct (arp_vendor_never_shown sample_arp (init sample_packet (NewLRUCache GEO_CACHE_SIZE)) _ _
    eq_refl eq_refl eq_refl eq_refl (surjective_pairing _)) as (H1 & H2 & _).
  split.
  - rewrite H2. vm_compute. reflexivity.
  - rewrite H1. vm_compute. reflexivity.
Defined.
