(* ===== verification/Service.v ===== *)
(** * From the packet service to the dashboard

    [handle_go_connection] of [rust/packet_service/src/handlers.rs], which
    writes the packets as lines of JSON, and the goroutine of
    [go/dashboard/main.go] that reads them and connects again when the
    connection is lost.  What tokio's broadcast channel yields and what the
    network does are sequences given by the environment; the JSON of a packet
    and how it is read back are parameters. *)

From stdpp Require Import strings.
From S2P Require Import Prelude CMemory PacketTypes Wire Sender GoPacket.

(** ** [handle_go_connection] *)

(** What [rx.recv()] returns. *)
Inductive recv :=
  | RecvOk (p : Wire.DashboardPacket)
  | RecvLagged (skipped : Z)
  | RecvClosed.

Section service.
(** [serde_json::to_string], and [json.Unmarshal] into a [DashboardPacket] *)
Context (to_json : Wire.DashboardPacket → option (list Z)).
Context (unmarshal : list Z → option DashboardPacket).

(** [format!("{}\n", json)] *)
Definition line (j : list Z) : list Z := j ++ [10].

(** The bytes put out.  [writes]: what each [write_all] does - [None] for
    success, [Some k] for a failure after [k] bytes. *)
Fixpoint handle_go_connection (results : list recv) (writes : list (option nat)) : list Z :=
  match results with
  | RecvOk p :: results =>
      match to_json p with
      | Some j =>
          match writes with
          | None :: writes => line j ++ handle_go_connection results writes
          | Some k :: _ => take k (line j)
          | [] => []
          end
      | None => handle_go_connection results writes
      end
  | RecvLagged _ :: results => handle_go_connection results writes
  | RecvClosed :: _ | [] => []
  end.

(** tokio documents: a receiver gets the values sent since it subscribed, in
    order; if it was too slow, the oldest are dropped and it is told how many. *)
Inductive broadcasts : list Wire.DashboardPacket → list recv → Prop :=
  | bc_wait sent : broadcasts sent []
  | bc_ok p sent results : broadcasts sent results → broadcasts (p :: sent) (RecvOk p :: results)
  | bc_lagged n sent results :
      0 < n ≤ zlen sent → broadcasts (drop (Z.to_nat n) sent) results →
      broadcasts sent (RecvLagged n :: results)
  | bc_closed : broadcasts [] [RecvClosed].

(** The packets among the results, until the channel is closed. *)
Fixpoint oks (results : list recv) : list Wire.DashboardPacket :=
  match results with
  | RecvOk p :: results => p :: oks results
  | RecvLagged _ :: results => oks results
  | RecvClosed :: _ | [] => []
  end.

(** ** The reader of the dashboard *)

Definition MAX_TOKEN : Z := 1024 * 1024.

(** The complete lines of a buffer, and what is left. *)
Fixpoint cut_lines (l b : list Z) : list (list Z) * list Z :=
  match b with
  | [] => ([], l)
  | c :: b =>
      if c =? 10 then let '(ls, rest) := cut_lines [] b in (l :: ls, rest)
      else cut_lines (l ++ [c]) b
  end.

(** [dropCR] of [bufio] *)
Definition drop_cr (t : list Z) : list Z :=
  if bool_decide (last t = Some 13) then removelast t else t.

(** [bufio.Scanner] with [ScanLines] and this buffer: one element of [reads] is
    what one [Read] returns; their end is the end of the connection.  A buffer
    that is full and holds no line ends the scan with an error. *)
Fixpoint scan (buf : list Z) (reads : list (list Z)) : list (list Z) :=
  match reads with
  | [] => if bool_decide (buf = []) then [] else [drop_cr buf]
  | r :: reads =>
      let '(ls, rest) := cut_lines [] (buf ++ r) in
      (drop_cr <$> ls) ++ (if MAX_TOKEN <=? zlen rest then [] else scan rest reads)
  end.

(** The packets that are sent to [packetChan]. *)
Definition read_packets (reads : list (list Z)) : list DashboardPacket :=
  omap unmarshal (scan [] reads).

(** What serde_json and encoding/json document of the JSON of this packet: an
    object on one line, read back to the fields with the same names; a part of
    it is a syntax error. *)
Record codec_ok (p : Wire.DashboardPacket) (j : list Z) : Prop := {
    codec_json : to_json p = Some j;
    codec_read : unmarshal j = Some (of_service p);
    codec_part : ∀ k, (k < length j)%nat → unmarshal (drop_cr (take k j)) = None;
    codec_line : 10 ∉ j;
    codec_end : last j ≠ Some 13;
    codec_size : zlen j < MAX_TOKEN
  }.

(** ** Lines *)

Lemma cut_lines_app l b b' :
  cut_lines l (b ++ b') =
    let '(ls, rest) := cut_lines l b in let '(ls', rest') := cut_lines rest b' in (ls ++ ls', rest').
Proof.
  revert l. induction b as [|c b IH]; intros l; cbn [cut_lines app].
  - by destruct (cut_lines l b').
  - case_test.
    + rewrite IH. destruct (cut_lines [] b) as [ls rest]. by destruct (cut_lines rest b').
    + rewrite IH. by destruct (cut_lines (l ++ [c]) b).
Qed.

Lemma cut_lines_none l b : 10 ∉ b → cut_lines l b = ([], l ++ b).
Proof.
  revert l. induction b as [|c b IH]; intros l Hb; cbn [cut_lines]; [by rewrite app_nil_r|].
  rewrite not_elem_of_cons in Hb. destruct Hb as [Hc Hb].
  destruct (Z.eqb_spec c 10); [congruence|]. by rewrite IH, <-app_assoc.
Qed.

Lemma cut_lines_line l j b :
  10 ∉ j → cut_lines l (line j ++ b) = let '(ls, rest) := cut_lines [] b in ((l ++ j) :: ls, rest).
Proof.
  intros Hj. unfold line. rewrite <-app_assoc, cut_lines_app, cut_lines_none by done. cbn.
  by destruct (cut_lines [] b).
Qed.

(** What is left has no line break, and is a suffix. *)
Lemma cut_lines_rest l b ls rest :
  cut_lines l b = (ls, rest) → 10 ∉ l → (10 ∉ rest) ∧ cut_lines [] rest = ([], rest).
Proof.
  revert l ls. induction b as [|c b IH]; intros l ls; cbn [cut_lines].
  - intros [= <- <-] Hl. split; [done|]. by rewrite cut_lines_none.
  - destruct (Z.eqb_spec c 10).
    + destruct (cut_lines [] b) as [ls' rest'] eqn:E. intros [= _ <-] _.
      eapply IH; [exact E|]. apply not_elem_of_nil.
    + intros E Hl. eapply IH; [exact E|]. rewrite elem_of_app, list_elem_of_singleton. by intros [?|?].
Qed.

(** A stream whose lines all fit the buffer is scanned the same however it is cut. *)
Definition fits (b : list Z) : Prop :=
  ∀ b1 b2 ls rest, b = b1 ++ b2 → cut_lines [] b1 = (ls, rest) → zlen rest < MAX_TOKEN.

Lemma scan_stream buf reads ls0 pre :
  cut_lines [] pre = (ls0, buf) → fits (pre ++ concat reads) →
  (drop_cr <$> ls0) ++ scan buf reads =
    let '(ls, rest) := cut_lines [] (pre ++ concat reads) in
    (drop_cr <$> ls) ++ (if bool_decide (rest = []) then [] else [drop_cr rest]).
Proof.
  revert buf ls0 pre. induction reads as [|r reads IH]; intros buf ls0 pre Hpre Hf; cbn [scan concat].
  - by rewrite app_nil_r, Hpre.
  - assert (10 ∉ buf) as Hbuf by (eapply cut_lines_rest; [exact Hpre|apply not_elem_of_nil]).
    pose proof (cut_lines_app [] pre r) as E1. rewrite Hpre in E1.
    pose proof (cut_lines_app [] buf r) as E2. rewrite (cut_lines_none [] buf) in E2 by done.
    cbn [app] in E2. destruct (cut_lines buf r) as [ls rest] eqn:E3. rewrite E2.
    assert (zlen rest < MAX_TOKEN) as Hlen.
    { eapply Hf; [|exact E1]. rewrite <-app_assoc. done. }
    destruct (Z.leb_spec MAX_TOKEN (zlen rest)); [lia|].
    specialize (IH rest (ls0 ++ ls) (pre ++ r) E1). rewrite <-app_assoc in IH.
    rewrite <-IH by done. by rewrite fmap_app, <-app_assoc.
Qed.

Lemma fits_short b : 10 ∉ b → zlen b < MAX_TOKEN → fits b.
Proof.
  intros Hb Hl b1 b2 ls rest -> E. rewrite cut_lines_none in E.
  - injection E as <- <-. cbn [app]. rewrite length_app in Hl. lia.
  - intros Hin. apply Hb, elem_of_app. by left.
Qed.

Lemma fits_line j b : 10 ∉ j → zlen j < MAX_TOKEN → fits b → fits (line j ++ b).
Proof.
  intros Hj Hl Hb b1 b2 ls rest E Hc. apply app_eq_inv in E as [(k & E & ->)|(k & -> & E)].
  - unfold line in E. apply app_eq_inv in E as [(k' & -> & ->)|(k' & -> & E)].
    + eapply (fits_short (b1 ++ k')); done.
    + destruct k' as [|c k']; cbn in E.
      * rewrite app_nil_r in Hc. eapply (fits_short j); [done|done| |exact Hc]. by rewrite app_nil_r.
      * injection E as <- E. symmetry in E. apply app_nil in E as [-> ->].
        change (j ++ [10]) with (line j) in Hc. rewrite <-(app_nil_r (line j)) in Hc.
        rewrite cut_lines_line in Hc by done. by injection Hc as <- <-.
  - rewrite cut_lines_line in Hc by done. destruct (cut_lines [] k) as [ls' rest'] eqn:Ek.
    injection Hc as <- <-. by eapply Hb.
Qed.

Lemma fits_lines js tail :
  Forall (λ j, (10 ∉ j) ∧ zlen j < MAX_TOKEN) js → 10 ∉ tail → zlen tail < MAX_TOKEN →
  fits (concat (line <$> js) ++ tail).
Proof.
  intros Hjs Ht Hl. induction Hjs as [|j js [Hj Hjl] _ IH]; [by apply fits_short|].
  rewrite fmap_cons. cbn [concat]. rewrite <-app_assoc. by apply fits_line.
Qed.

Lemma cut_lines_lines js tail :
  Forall (λ j, 10 ∉ j) js → 10 ∉ tail →
  cut_lines [] (concat (line <$> js) ++ tail) = (js, tail).
Proof.
  intros Hjs Ht. induction Hjs as [|j js Hj _ IH]; [by rewrite cut_lines_none|].
  rewrite fmap_cons. cbn [concat]. rewrite <-app_assoc, cut_lines_line by done.
  cbn [app] in *. by rewrite IH.
Qed.

(** ** Delivery *)

Lemma drop_cr_id j : last j ≠ Some 13 → drop_cr j = j.
Proof. intros Hj. unfold drop_cr. by rewrite bool_decide_eq_false_2. Qed.

(** What the reader makes of whole lines and the beginning of one more. *)
Lemma read_lines ps js tail reads :
  Forall2 codec_ok ps js → (10 ∉ tail) → zlen tail < MAX_TOKEN →
  concat reads = concat (line <$> js) ++ tail →
  read_packets reads = (of_service <$> ps) ++
    (if bool_decide (tail = []) then [] else match unmarshal (drop_cr tail) with Some p => [p] | None => [] end).
Proof.
  intros Hps Ht Hl E. unfold read_packets.
  assert (Forall (λ j, (10 ∉ j) ∧ zlen j < MAX_TOKEN) js) as Hjs.
  { eapply Forall2_Forall_r; [exact Hps|]. apply Forall_true. by intros p j []. }
  pose proof (scan_stream [] reads [] [] eq_refl) as Hs. cbn [app fmap list_fmap] in Hs.
  rewrite Hs by (rewrite E; by apply fits_lines).
  rewrite E, cut_lines_lines by (done || by eapply Forall_impl; [exact Hjs|intros ? []]).
  rewrite omap_app. f_equal.
  - clear -Hps. induction Hps as [|p j ps js Hp _ IH]; [done|]. rewrite !fmap_cons. cbn [omap list_omap].
    rewrite drop_cr_id by apply Hp. rewrite (codec_read _ _ Hp). by rewrite IH.
  - case_bool_decide; [done|]. cbn. by destruct (unmarshal (drop_cr tail)).
Qed.

(** The shape of what is put out: whole lines, and of one more a beginning. *)
Lemma output_shape results writes :
  Forall (λ p, ∃ j, codec_ok p j) (oks results) →
  ∃ ps js rest tail, oks results = ps ++ rest ∧ Forall2 codec_ok ps js ∧
    handle_go_connection results writes = concat (line <$> js) ++ tail ∧
    (tail = [] ∨ ∃ p j k rest', rest = p :: rest' ∧ codec_ok p j ∧ (k <= length j)%nat ∧ tail = take k j) ∧
    (Forall (λ w, w = None) writes → (length (oks results) <= length writes)%nat → rest = [] ∧ tail = []).
Proof.
  revert writes. induction results as [|r results IH]; intros writes Hc.
  { exists [], [], [], []. split_and!; [done|constructor|done|by left|done]. }
  destruct r as [p|n|]; cbn [oks handle_go_connection] in *.
  - apply Forall_cons in Hc as [[j Hj] Hc]. rewrite (codec_json _ _ Hj).
    destruct writes as [|[k|] writes].
    + exists [], [], (p :: oks results), []. split_and!; [done|constructor|done|by left|].
      intros _ Hl. simpl in Hl. lia.
    + destruct (decide (k <= length j)%nat) as [Hk|Hk].
      * exists [], [], (p :: oks results), (take k j). split_and!; [done|constructor| | |].
        -- unfold line. by rewrite take_app_le.
        -- right. by exists p, j, k, (oks results).
        -- intros Hf. by inversion Hf.
      * exists [p], [j], (oks results), []. split_and!; [done|by apply Forall2_cons_2| |by left|].
        -- rewrite take_ge by (unfold line; rewrite length_app; simpl; lia). cbn. by rewrite !app_nil_r.
        -- intros Hf. by inversion Hf.
    + destruct (IH writes Hc) as (ps & js & rest & tail & E & Hps & Eo & Ht & Hall).
      exists (p :: ps), (j :: js), rest, tail. split_and!; [by rewrite E|by constructor| |done|].
      * rewrite Eo, fmap_cons. cbn [concat]. by rewrite <-app_assoc.
      * intros Hf Hl. inversion Hf; subst. apply Hall; [done|]. simpl in Hl. lia.
  - by apply IH.
  - exists [], [], [], []. split_and!; [done|constructor|done|by left|done].
Qed.

(** What a slow receiver gets is what was sent, with gaps. *)
Lemma broadcasts_sublist sent results : broadcasts sent results → sublist (oks results) sent.
Proof.
  induction 1 as [sent|p sent results _ IH|n sent results Hn _ IH|]; cbn.
  - apply sublist_nil_l.
  - by apply sublist_skip.
  - etransitivity; [exact IH|]. apply sublist_drop.
  - constructor.
Qed.

Lemma Forall_sublist {A} (P : A → Prop) (l k : list A) : sublist l k → Forall P k → Forall P l.
Proof.
  induction 1; rewrite ?Forall_cons; [done|intros [? ?]; split; auto|intros [_ ?]; auto].
Qed.

Lemma sublist_fmap_inv {A B} (f : A → B) (l : list B) (k : list A) :
  sublist l (f <$> k) → ∃ k', l = f <$> k' ∧ sublist k' k.
Proof.
  revert l. induction k as [|x k IH]; intros l Hl.
  - exists []. split; [by apply sublist_nil_r in Hl|constructor].
  - rewrite fmap_cons in Hl. apply sublist_cons_r in Hl as [Hl|(l' & -> & Hl)].
    + destruct (IH l Hl) as (k' & -> & Hk). exists k'. split; [done|by apply sublist_cons].
    + destruct (IH l' Hl) as (k' & -> & Hk). exists (x :: k'). split; [done|by apply sublist_skip].
Qed.

(** The packets that arrive at the dashboard. *)
Lemma service_delivery sent results writes reads :
  broadcasts sent results → Forall (λ p, ∃ j, codec_ok p j) sent →
  concat reads = handle_go_connection results writes →
  ∃ ps, read_packets reads = of_service <$> ps ∧ ps `prefix_of` oks results ∧
    (Forall (λ w, w = None) writes → (length (oks results) <= length writes)%nat → ps = oks results).
Proof.
  intros Hb Hc E. pose proof (broadcasts_sublist _ _ Hb) as Hsub.
  pose proof (Forall_sublist _ _ _ Hsub Hc) as Hoks.
  destruct (output_shape results writes Hoks) as (ps & js & rest & tail & Er & Hps & Eo & Ht & Hall).
  rewrite Eo in E. destruct Ht as [->|(p & j & k & rest' & -> & Hj & Hk & ->)].
  - rewrite (read_lines ps js [] reads Hps) by (done || apply not_elem_of_nil). cbn. rewrite app_nil_r.
    exists ps. split; [done|]. split; [rewrite Er; by eexists|]. intros Hw Hl.
    destruct (Hall Hw Hl) as [-> _]. by rewrite Er, app_nil_r.
  - assert (10 ∉ take k j) as Hn.
    { intros Hin. apply (codec_line _ _ Hj). rewrite <-(take_drop k j). apply elem_of_app. by left. }
    rewrite (read_lines ps js (take k j) reads Hps Hn) by
      (done || (rewrite length_take; pose proof (codec_size _ _ Hj); lia)).
    destruct (decide (k < length j)%nat) as [Hlt|Hge].
    + rewrite (codec_part _ _ Hj k Hlt). exists ps. split; [by case_bool_decide; rewrite app_nil_r|].
      split; [rewrite Er; by eexists|]. intros Hw Hl. destruct (Hall Hw Hl) as [[=] _].
    + rewrite take_ge by lia. rewrite drop_cr_id, (codec_read _ _ Hj) by apply Hj.
      case_bool_decide as Ej.
      * exists ps. split; [by rewrite app_nil_r|]. split; [rewrite Er; by eexists|].
        intros Hw Hl. destruct (Hall Hw Hl) as [[=] _].
      * exists (ps ++ [p]). split; [by rewrite fmap_app|]. split.
        -- rewrite Er. exists rest'. by rewrite <-app_assoc.
        -- intros Hw Hl. destruct (Hall Hw Hl) as [[=] _].
Qed.

Section all_the_way.
Context (hmac : list Z → list Z → list Z) (hmac_length : ∀ k m, zlen (hmac k m) = HASH_SIZE).

(** What arrives in the dashboard's channel. *)
Lemma records_spec secret rs creads results writes reads :
  Forall wf_info rs →
  concat creads = concat (message hmac secret <$> rs) →
  Forall (λ r, 0 < zlen r ≤ 2 * 1024 * 1024 - TOTAL_MSG_SIZE) creads →
  Forall (λ i, ∃ j, codec_ok (dashboard i) j) rs →
  broadcasts (handle_cpp_connection hmac secret [] creads).1 results →
  concat reads = handle_go_connection results writes →
  ∃ is_, read_packets reads = (λ i, of_service (dashboard i)) <$> is_ ∧ sublist is_ rs ∧
    (length (oks results) = length rs → Forall (λ w, w = None) writes →
      (length rs <= length writes)%nat → is_ = rs).
Proof using All.
  intros W Ec Hcr Hj Hb E.
  assert ((handle_cpp_connection hmac secret [] creads).1 = dashboard <$> rs) as Es.
  { rewrite handle_reads by (done || by unfold TOTAL_MSG_SIZE, STRUCT_SIZE, HASH_SIZE). cbn [app].
    by rewrite Ec, drain_messages. }
  rewrite Es in Hb. assert (Forall (λ p, ∃ j, codec_ok p j) (dashboard <$> rs)) as Hc.
  { apply Forall_fmap. exact Hj. }
  destruct (service_delivery _ _ _ _ Hb Hc E) as (ps & Ep & [k Hk] & Hall).
  pose proof (broadcasts_sublist _ _ Hb) as Hsub.
  assert (sublist ps (dashboard <$> rs)) as Hps.
  { etransitivity; [|exact Hsub]. rewrite Hk. by apply sublist_inserts_r. }
  destruct (sublist_fmap_inv _ _ _ Hps) as (is_ & -> & His). exists is_. split; [|split; [done|]].
  - by rewrite Ep, <-list_fmap_compose.
  - intros Hl Hw Hlw. specialize (Hall Hw ltac:(lia)).
    apply (f_equal length) in Hall. rewrite length_fmap, Hl in Hall.
    clear -His Hall. induction His as [|x l k' _ IH|x l k' Hs IH]; cbn in *; [done| |].
    + f_equal. apply IH. lia.
    + apply sublist_length in Hs. lia.
Qed.

(** C13. From the sender's socket to the dashboard's channel, through three
    programs: the records that were sent arrive as packets with the same fields,
    each at most once and in order, however the two connections are cut into
    reads, whatever the broadcast channel drops for a slow reader, and wherever
    a write fails; if nothing is dropped and no write fails, all arrive. *)
Theorem records_reach_dashboard secret rs creads results writes reads :
  Forall wf_info rs →
  concat creads = concat (message hmac secret <$> rs) →
  Forall (λ r, 0 < zlen r ≤ 2 * 1024 * 1024 - TOTAL_MSG_SIZE) creads →
  Forall (λ i, ∃ j, codec_ok (dashboard i) j) rs →
  broadcasts (handle_cpp_connection hmac secret [] creads).1 results →
  concat reads = handle_go_connection results writes →
  ∃ is_, read_packets reads = (λ i, of_service (dashboard i)) <$> is_ ∧ sublist is_ rs ∧
    (length (oks results) = length rs → Forall (λ w, w = None) writes →
      (length rs <= length writes)%nat → is_ = rs).
Proof using All. apply records_spec. Qed.
End all_the_way.
End service.

(** ** Connecting again *)

Definition minInterval : Z := 2 * 10 ^ 9.
Definition maxInterval : Z := 60 * 10 ^ 9.

(** [minInterval * (1 << uint(consecutiveFailures-1))] on 64-bit durations: a
    shift by 64 or more gives 0. *)
Definition backoff (consecutiveFailures : Z) : Z :=
  let k := u64 (consecutiveFailures - 1) in
  let shifted := if 64 <=? k then 0 else i64 (2 ^ k) in
  let b := i64 (minInterval * shifted) in
  if (maxInterval <? b) || (b <? minInterval) then maxInterval else b.

(** The loop of the goroutine: what is slept before each attempt, given whether
    the attempts connect.  A connection that ends counts as a failure. *)
Fixpoint reconnect (consecutiveFailures : Z) (dials : list bool) : list Z :=
  match dials with
  | [] => []
  | ok :: dials =>
      (if 0 <? consecutiveFailures then backoff consecutiveFailures else 0) ::
      reconnect (if ok then 1 else consecutiveFailures + 1) dials
  end.

(** The attempts since the last one that connected, itself included. *)
Definition failures (dials : list bool) : Z :=
  foldl (λ n (ok : bool), if ok then 1 else n + 1) 0 dials.

(** Sixty-four cases by evaluation, and no shift beyond them. *)
Lemma backoff_exact n :
  1 ≤ n < 2 ^ 63 → backoff n = Z.min (2 ^ (n - 1) * minInterval) maxInterval.
Proof.
  intros Hn. unfold backoff. rewrite u64_small by (unfold is_u; lia).
  destruct (Z.leb_spec 64 (n - 1)) as [Hk|Hk].
  - change (i64 (minInterval * 0)) with 0. change ((maxInterval <? 0) || (0 <? minInterval)) with true.
    rewrite Z.min_r; [done|]. assert (2 ^ 64 ≤ 2 ^ (n - 1)) by (apply Z.pow_le_mono_r; lia).
    unfold minInterval, maxInterval. lia.
  - assert (forallb (λ i, let k := Z.of_nat i in
      (let b := i64 (minInterval * i64 (2 ^ k)) in
       if (maxInterval <? b) || (b <? minInterval) then maxInterval else b) =?
      Z.min (2 ^ k * minInterval) maxInterval) (seq 0 64) = true) as Hall by (vm_compute; reflexivity).
    rewrite forallb_forall in Hall. specialize (Hall (Z.to_nat (n - 1))).
    rewrite Z2Nat.id in Hall by lia. apply Z.eqb_eq, Hall, in_seq. lia.
Qed.

Lemma backoff_le n : backoff n ≤ maxInterval.
Proof.
  unfold backoff. set (b := i64 _). clearbody b. cbn zeta. case_test; lia.
Qed.

Lemma reconnect_app n ds ds' :
  reconnect n (ds ++ ds') = reconnect n ds ++ reconnect (foldl (λ n (ok : bool), if ok then 1 else n + 1) n ds) ds'.
Proof. revert n. induction ds as [|ok ds IH]; intros n; [done|]. cbn. by rewrite IH. Qed.

Lemma failures_range n ds :
  0 ≤ n → 0 ≤ foldl (λ n (ok : bool), if ok then 1 else n + 1) n ds ≤ Z.max 1 n + zlen ds.
Proof.
  revert n. induction ds as [|ok ds IH]; intros n Hn; cbn [foldl length]; [lia|].
  specialize (IH (if ok then 1 else n + 1)). destruct ok; specialize (IH ltac:(lia)); lia.
Qed.

(** The waits between attempts to reach the service: none before the first,
    then 2, 4, 8, 16, 32 seconds and 60 from there on, starting again with 2
    after every connection that worked - for any number of failures, although
    the product overflows 64 bits from the 33rd on and is 0 later. *)
Theorem reconnect_waits ds (next : bool) :
  zlen ds < 2 ^ 62 →
  reconnect 0 (ds ++ [next]) = reconnect 0 ds ++
    [if failures ds =? 0 then 0 else Z.min (2 ^ (failures ds - 1) * minInterval) maxInterval] ∧
  (failures ds = 0 ↔ ds = []) ∧ Forall (λ w, w ≤ maxInterval) (reconnect 0 ds).
Proof.
  intros Hl. assert (0 ≤ failures ds ≤ 1 + zlen ds) as Hf.
  { unfold failures. pose proof (failures_range 0 ds). lia. }
  split; [|split].
  - rewrite reconnect_app. f_equal. cbn [reconnect]. fold (failures ds). f_equal.
    destruct (Z.ltb_spec 0 (failures ds)), (Z.eqb_spec (failures ds) 0); try lia.
    apply backoff_exact. lia.
  - split; [|by intros ->]. destruct ds as [|ok ds]; [done|]. unfold failures. cbn [foldl].
    assert (∀ n, 1 ≤ n → 1 ≤ foldl (λ n (ok : bool), if ok then 1 else n + 1) n ds) as Hpos.
    { clear. induction ds as [|ok ds IH]; intros n Hn; cbn [foldl]; [done|]. apply IH. destruct ok; lia. }
    specialize (Hpos (if ok then 1 else 0 + 1)). destruct ok; specialize (Hpos ltac:(lia)); lia.
  - clear. generalize 0 as n. induction ds as [|ok ds IH]; intros n; cbn [reconnect]; [constructor|].
    constructor; [|apply IH]. case_test; [apply backoff_le|]. by unfold maxInterval.
Qed.

Lemma reconnect_waits_witness :
  reconnect 0 (replicate 70 false ++ [true] ++ [false]) =
    reconnect 0 (replicate 70 false ++ [true]) ++ [2 * 10 ^ 9] ∧
  reconnect 0 (replicate 70 false ++ [true]) = reconnect 0 (replicate 70 false) ++ [60 * 10 ^ 9].
Proof.
  split.
  - rewrite app_assoc. refine (proj1 (reconnect_waits (replicate 70 false ++ [true]) false _)). by_decide.
  - refine (proj1 (reconnect_waits (replicate 70 false) true _)). by_decide.
Defined.

(** ** A concrete connection *)

Definition sample_to_json (p : Wire.DashboardPacket) : option (list Z) :=
  Some (if d_src_port p =? 53 then str "{53}" else str "{0}").

Definition sample_unmarshal (j : list Z) : option DashboardPacket :=
  if bool_decide (j = str "{53}") then Some (of_service (dashboard sample_record))
  else if bool_decide (j = str "{0}") then Some (of_service (dashboard zero_info)) else None.

Lemma sample_codec :
  codec_ok sample_to_json sample_unmarshal (dashboard sample_record) (str "{53}") ∧
  codec_ok sample_to_json sample_unmarshal (dashboard zero_info) (str "{0}").
Proof.
  split; split; try reflexivity; try by_decide.
  - intros k Hk. do 4 (destruct k as [|k]; [reflexivity|]). simpl in Hk. lia.
  - intros k Hk. do 3 (destruct k as [|k]; [reflexivity|]). simpl in Hk. lia.
Qed.

Lemma records_reach_dashboard_witness :
  let results := [RecvOk (dashboard sample_record); RecvOk (dashboard zero_info)] in
  let sent := handle_go_connection sample_to_json results [None; None] in
  sent = str "{53}" ++ [10] ++ str "{0}" ++ [10] ∧
  read_packets sample_unmarshal [take 3 sent; drop 3 sent] =
    [of_service (dashboard sample_record); of_service (dashboard zero_info)].
Proof.
  split; [by vm_compute|]. set (rs := [sample_record; zero_info]).
  assert (Forall wf_info rs) as W.
  { repeat apply Forall_cons_2; [split; by_decide..|constructor]. }
  set (results := [RecvOk (dashboard sample_record); RecvOk (dashboard zero_info)]).
  set (sent := handle_go_connection sample_to_json results [None; None]).
  pose (reads := [take 3 sent; drop 3 sent]).
  pose (creads := message sample_hmac (str "secret") <$> rs).
  assert ((handle_cpp_connection sample_hmac (str "secret") [] creads).1 = dashboard <$> rs) as Es
    by (vm_compute; reflexivity).
  destruct (records_reach_dashboard sample_to_json sample_unmarshal sample_hmac sample_hmac_length
    (str "secret") rs creads results [None; None] reads W) as (is_ & E & _ & Hall).
  - done.
  - by_decide.
  - destruct sample_codec. repeat apply Forall_cons_2; [by eexists..|constructor].
  - rewrite Es. repeat constructor.
  - cbn [reads concat]. by rewrite app_nil_r, take_drop.
  - assert (is_ = rs) as -> by (apply Hall; [done|by repeat constructor|done]).
    exact E.
Defined.
