(* ===== verification/Page.v ===== *)
(** * The page in the browser

    The list of packets of [go/dashboard/script.js]: what the messages of the
    web socket and the answer of [/api/packets] make of it, in which order the
    table shows it, and what its search box does. *)

From stdpp Require Import strings gmap.
From S2P Require Import Prelude Wire GoText GoPacket Filter Dashboard.

(** ** The list of packets *)

Definition PAGE_SIZE : Z := 5000.

(** [ws.onmessage] *)
Definition on_message (packets : list DashboardPacket) (m : message) : list DashboardPacket :=
  match m with
  | MPacket p =>
      let packets := packets ++ [p] in
      if PAGE_SIZE <? zlen packets then drop 1 packets else packets
  | MGeo ip l => locate ip l <$> packets
  | MStatus _ _ => packets
  | MClear => []
  end.

(** [updateTable] and [displayData]: the page takes the answer as it is. *)
Definition load (answer : list DashboardPacket) : list DashboardPacket := answer.

(** The rows of the table from top to bottom. *)
Definition table (packets : list DashboardPacket) : list DashboardPacket := reverse packets.

(** ** The search box

    JavaScript's own tables for small letters and blanks, and its regular
    expressions, are instances of the interfaces of Go's; [None] is an exception
    that nobody catches. *)

Section search.
Context `{GoUnicode} `{GoRegexp}.
Implicit Types (p : DashboardPacket) (part : list Z).

(** [p.f && test(p.f)]: the empty string is false. *)
Definition present (s : list Z) (test : list Z → bool) : bool :=
  if bool_decide (s = []) then false else test s.

Definition search_regex (r : regex) p : bool :=
  MatchString r (SrcIP p) || MatchString r (DstIP p) || MatchString r (Protocol p) ||
  MatchString r (Info p) || present (Country p) (MatchString r).

(** The fields that are searched for a word. *)
Definition found_in p check : bool :=
  let includes s := contains (to_lower s) check in
  includes (SrcIP p) || includes (DstIP p) || includes (Protocol p) ||
  present (SrcMacVendor p) includes || present (DstMacVendor p) includes || includes (Info p) ||
  present (Country p) includes || present (CountryCode p) includes ||
  present (City p) includes || present (ISP p) includes.

(** One word.  [found] is declared [const]: the assignment that follows if it is
    false is a [TypeError]. *)
Definition search_part p part : option bool :=
  let negate := has_prefix part (str "-") in
  let check := if negate then drop 1 part else part in
  if bool_decide (check = []) then Some true
  else
    let found := found_in p check in
    if negb found then None
    else Some (if negate then negb found else found).

(** [parts.every] ends at the first word that fails. *)
Fixpoint search_parts p (parts : list (list Z)) : option bool :=
  match parts with
  | [] => Some true
  | part :: parts =>
      ok ← search_part p part;
      if (ok : bool) then search_parts p parts else Some false
  end.

Definition search_packet (query : list Z) p : option bool :=
  if has_prefix query (str "regex:") then
    match Compile (drop 6 query) with Some r => Some (search_regex r p) | None => Some false end
  else search_parts p (fields query).

(** [packets.filter] *)
Fixpoint search_filter (query : list Z) (packets : list DashboardPacket) : option (list DashboardPacket) :=
  match packets with
  | [] => Some []
  | p :: packets =>
      ok ← search_packet query p;
      rest ← search_filter query packets;
      Some (if (ok : bool) then p :: rest else rest)
  end.

(** The rows that [displayData] draws, or an exception before the table is touched. *)
Definition display (searchQuery : list Z) (packets : list DashboardPacket) : option (list DashboardPacket) :=
  filteredPackets ← (if bool_decide (searchQuery = []) then Some packets
    else search_filter searchQuery packets);
  Some (table filteredPackets).

(** ** The page as a state machine *)

(** [packets], [searchQuery], [needsUpdate]; the rows on the screen; whether the
    next frame was requested. *)
Record page := mkPage {
    packets : list DashboardPacket;
    searchQuery : list Z;
    needsUpdate : bool;
    rows : list DashboardPacket;
    running : bool
  }.

Inductive event :=
  | EMessage (m : message)
  | ELoad (answer : list DashboardPacket)
  | ESearch (val : list Z)
  | EClear
  | EFrame (late : bool).

(** [displayData]: the new rows and whether it ended without an exception. *)
Definition displayData (g : page) : page * bool :=
  match display (searchQuery g) (packets g) with
  | Some t => (mkPage (packets g) (searchQuery g) (needsUpdate g) t (running g), true)
  | None => (g, false)
  end.

(** [updateLoop]: an exception ends the loop, since the next frame is requested
    at the end. *)
Definition updateLoop (late : bool) (g : page) : page :=
  if negb (running g) then g
  else if needsUpdate g && late then
    let '(g, ok) := displayData g in
    if (ok : bool) then mkPage (packets g) (searchQuery g) false (rows g) true
    else mkPage (packets g) (searchQuery g) (needsUpdate g) (rows g) false
  else g.

(** Each event as the page handles it; [EClear] is the key [c]. *)
Definition page_step (g : page) (e : event) : page :=
  match e with
  | EMessage (MStatus _ _) => (displayData g).1
  | EMessage m => mkPage (on_message (packets g) m) (searchQuery g) true (rows g) (running g)
  | ELoad answer =>
      (displayData (mkPage (load answer) (searchQuery g) (needsUpdate g) (rows g) (running g))).1
  | ESearch val => mkPage (packets g) (to_lower val) true (rows g) (running g)
  | EClear => mkPage [] (searchQuery g) true (rows g) (running g)
  | EFrame late => updateLoop late g
  end.

Definition page_run (g : page) (es : list event) : page := foldl page_step g es.

(** The page before anything arrived. *)
Definition fresh_page : page := mkPage [] [] false [] true.
End search.
