(* ===== verification/PageProps.v ===== *)
(** * Properties of the page

    What the page shows of the dashboard's history, from the answer it loads and
    the messages that follow; what a reload does to the order; what its search
    box does, and when it stops the page. *)

From stdpp Require Import strings gmap sorting.
From S2P Require Import Prelude PacketTypes Wire GoText GoPacket Filter RingBuffer LruCache Dashboard DashboardProps.
From S2P Require Import GoNet FilterProps DashboardGeo Page.

(** ** Rows *)

(** The rows but for their locations. *)
Definition rows_of (l : list DashboardPacket) : list DashboardPacket := erase <$> l.
Arguments rows_of : simpl never.

(** What a message does to the rows of an unbounded list. *)
Definition row_step (rows : list DashboardPacket) (m : message) : list DashboardPacket :=
  match m with MPacket p => rows ++ [erase p] | MClear => [] | _ => rows end.

(** The messages that are rows, or take rows away. *)
Definition is_row (m : message) : bool := match m with MPacket _ | MClear => true | _ => false end.

Definition row_messages (msgs : list message) : list message := filter is_row msgs.

Lemma row_step_filter rows msgs : foldl row_step rows msgs = foldl row_step rows (row_messages msgs).
Proof.
  revert rows. unfold row_messages. induction msgs as [|m msgs IH]; intros rows; [done|].
  rewrite filter_cons. destruct m; cbn [is_row decide]; case_decide; (done || (cbn [foldl row_step]; apply IH)).
Qed.

Lemma row_messages_app a b : row_messages (a ++ b) = row_messages a ++ row_messages b.
Proof. apply filter_app. Qed.

(** Without a clearing, rows are only added. *)
Lemma row_step_grows msgs : MClear ∉ msgs → ∃ new, ∀ rows', foldl row_step rows' msgs = rows' ++ new.
Proof.
  induction msgs as [|m msgs IH] using rev_ind; intros Hm; [exists []; intros; by rewrite app_nil_r|].
  apply not_elem_of_app in Hm as [Hm Hlast]. destruct (IH Hm) as [new E].
  destruct m as [p| |b f|ip l]; [exists (new ++ [erase p])| |exists new..]; cbn [row_step].
  - intros. rewrite foldl_app. cbn [foldl row_step]. by rewrite E, app_assoc.
  - destruct Hlast. by left.
  - intros. rewrite foldl_app. apply E.
  - intros. rewrite foldl_app. apply E.
Qed.

(** After a clearing it does not matter what was there. *)
Lemma row_step_cleared rows rows' msgs : MClear ∈ msgs → foldl row_step rows msgs = foldl row_step rows' msgs.
Proof.
  intros (a & b & ->)%list_elem_of_split. by rewrite !foldl_app.
Qed.

Lemma rows_of_locate ip l ps : rows_of (locate ip l <$> ps) = rows_of ps.
Proof.
  unfold rows_of. rewrite <-list_fmap_compose. apply list_fmap_ext. intros j p _. apply erase_locate.
Qed.

Lemma rows_of_app a b : rows_of (a ++ b) = rows_of a ++ rows_of b.
Proof. apply fmap_app. Qed.

Lemma rows_of_last n l : rows_of (last_n n l) = last_n n (rows_of l).
Proof. unfold rows_of, last_n. by rewrite length_fmap, fmap_drop. Qed.

Lemma push_last {A} (sz : Z) (l : list A) p :
  0 < sz →
  (if sz <? zlen (last_n (Z.to_nat sz) l ++ [p]) then drop 1 (last_n (Z.to_nat sz) l ++ [p])
   else last_n (Z.to_nat sz) l ++ [p]) = last_n (Z.to_nat sz) (l ++ [p]).
Proof.
  intros Hs. pose proof (length_last_n (Z.to_nat sz) l) as Hl. rewrite <-last_n_app.
  generalize dependent (last_n (Z.to_nat sz) l). clear l. intros l Hl. rewrite length_app. cbn [length].
  case_test.
  - rewrite last_n_snoc by lia. by rewrite drop_app_le by lia.
  - by rewrite last_n_short by (rewrite length_app; cbn [length]; lia).
Qed.

Lemma rows_on_message l m : rows_of (on_message l m) = match m with
  | MPacket p => let l := rows_of l ++ [erase p] in if PAGE_SIZE <? zlen l then drop 1 l else l
  | MClear => []
  | _ => rows_of l end.
Proof.
  destruct m as [p| |b f|ip r]; cbn [on_message]; [|done|done|apply rows_of_locate].
  cbn zeta. unfold rows_of. rewrite !length_app, length_fmap. cbn [length].
  case_test; by rewrite ?fmap_drop, fmap_app.
Qed.

(** The page's list has the last rows. *)
Lemma rows_on_messages l msgs : zlen l ≤ PAGE_SIZE →
  rows_of (foldl on_message l msgs) = last_n (Z.to_nat PAGE_SIZE) (foldl row_step (rows_of l) msgs).
Proof.
  intros Hl. induction msgs as [|m msgs IH] using rev_ind.
  - cbn [foldl]. rewrite last_n_short; [done|]. unfold rows_of. rewrite length_fmap. lia.
  - rewrite !foldl_app. cbn [foldl]. rewrite rows_on_message, IH. set (k := foldl row_step _ msgs).
    destruct m as [p| |b f|ip r]; cbn [row_step]; [by apply push_last|done..].
Qed.

(** *** A list that was loaded *)

Lemma last_n_last {A} n (l : list A) q :
  n ≠ 0%nat → (n <= S (length l))%nat →
  ∃ k, last_n n (l ++ [q]) = k ++ [q] ∧ S (length k) = n.
Proof.
  intros Hn Hl. unfold last_n. rewrite length_app. cbn [length].
  rewrite drop_app_le by lia. eexists. split; [reflexivity|]. rewrite length_drop. lia.
Qed.

Lemma push_full (k : list DashboardPacket) q p :
  S (length k) = Z.to_nat PAGE_SIZE →
  on_message (reverse (k ++ [q])) (MPacket p) = reverse k ++ [p].
Proof.
  intros Hk. rewrite reverse_snoc. cbn [on_message].
  destruct (Z.ltb_spec PAGE_SIZE (zlen ((q :: reverse k) ++ [p]))) as [_|Hge]; [done|].
  rewrite length_app in Hge. cbn [length] in Hge. rewrite length_reverse in Hge. lia.
Qed.

(** The newest row is lost to the next packet. *)
Lemma push_reloaded (k : list DashboardPacket) q p :
  S (length k) = Z.to_nat PAGE_SIZE → StronglySorted Z.lt (Index <$> (k ++ [q])) → Index q < Index p →
  q ∉ on_message (reverse (k ++ [q])) (MPacket p).
Proof.
  intros Hk Hs Hp. rewrite push_full by done. rewrite fmap_app in Hs.
  apply StronglySorted_app in Hs as (Hlt & _ & _). intros [Hin|Hin]%elem_of_app.
  - assert (q ∈ k) as Hk' by by apply elem_of_reverse.
    assert (Index q < Index q); [|lia].
    apply Hlt; [apply list_elem_of_fmap; exists q; by split|by left].
  - apply list_elem_of_singleton in Hin as ->. lia.
Qed.

(** ** A page that is open *)

Section mirror.
Context `{GoUnicode} `{GoRegexp} (geoDB : option (text → option location)).
Implicit Types (s : dash).

(** The message that is about to be broadcast. *)
Definition in_flight (h : holder_pc) : list message := match h with PSend m => [m] | _ => [] end.

(** A step after which page [i] is still connected. *)
Definition open_step (i : nat) s s' : Prop := step geoDB s s' ∧ is_Some (clients s' !! i).

Lemma since_offer m x : c_since (offer m x) = c_since x ++ [m].
Proof. unfold offer. by case_test. Qed.

(** What was broadcast to page [i] since it had been sent [base], and the message
    on its way, make the rows of the history from what they were then. *)
Section mirrors.
Context (i : nat) (base : list message) (old : list DashboardPacket).

Definition mirrors s : Prop :=
  ∃ x rest, clients s !! i = Some x ∧ c_since x = base ++ rest ∧
  foldl row_step old (rest ++ in_flight (holder s)) = rows_of (log s).

(** Steps that do not touch the history. *)
Lemma mirrors_keep s s' x x' :
  mirrors s → clients s !! i = Some x → clients s' !! i = Some x' → c_since x' = c_since x →
  rows_of (log s') = rows_of (log s) → in_flight (holder s') = in_flight (holder s) → mirrors s'.
Proof.
  intros (y & rest & Hy & Hb & Hl) Hx Hx' E E2 E3. assert (y = x) as -> by congruence.
  exists x', rest. by rewrite E, E2, E3.
Qed.

(** Broadcasts beside the goroutine that holds [mu]. *)
Lemma mirrors_broadcast s m : is_row m = false → mirrors s → mirrors (broadcast m s).
Proof.
  intros Hm (x & rest & Hx & Hb & Hl). exists (offer m x), (rest ++ [m]). cbn.
  rewrite lookup_fmap, Hx, since_offer, Hb, <-app_assoc. split; [done|]. split; [done|].
  rewrite <-Hl, !foldl_app. cbn [foldl]. by destruct m.
Qed.

Lemma mirrors_step s s' : mirrors s → open_step i s s' → mirrors s'.
Proof.
  intros W [Hs Ho]. pose proof W as (x & rest & Hx & Hb & Hl).
  destruct Hs as [s d Hch|s p q Hh Hq Hsc|s p q p' s' Hh Hq Hsc Hn|s p ip c r Hh Hc
    |s p ip c Hh Hc|s p ip Hh|s p Hh|s p r Hh Ha|s m Hh|s Hh|s Hh|s n Ht|s f Hh Hf|s ip q Hi Hq
    |s ip Hi Hdb|s ip db Hi Hdb Hu|s ip db raw Hi Hdb Hf|s ip l c Hi Ha|s ip l Hi|s ip l r Hi Hu|s ip l Hi|s j Hi
    |s j m q w since n Hi|s j].
  1, 2, 4, 5, 11, 14, 15, 16, 17, 18, 19: (eapply mirrors_keep; [exact W|exact Hx|exact Hx|done..|]; cbn; by rewrite ?Hh).
  - assert (s' = (number p s).2) as -> by by rewrite Hn.
    eapply mirrors_keep; [exact W|exact Hx|exact Hx|reflexivity..|].
    rewrite Hh. cbn [holder set_processed set_packetChan set_holder]. unfold choose_country.
    by repeat case_test.
  - eapply mirrors_keep; [exact W|exact Hx| |done| |]; case_test; try done; cbn; by rewrite Hh.
  - eapply mirrors_keep; [exact W|exact Hx|exact Hx|done..|]. rewrite Hh. cbn. by case_test.
  - exists x, rest. split; [done|]. split; [done|]. cbn [in_flight log holder set_holder set_log].
    rewrite Hh in Hl. cbn [in_flight] in Hl. rewrite app_nil_r in Hl.
    rewrite foldl_app, Hl. cbn [foldl row_step]. by rewrite rows_of_app.
  - exists (offer m x), (rest ++ [m]). cbn. rewrite lookup_fmap, Hx, since_offer, Hb, app_nil_r, app_assoc.
    split; [done|]. split; [done|]. by rewrite Hh in Hl.
  - exists x, rest. split; [done|]. split; [done|]. cbn. by rewrite foldl_app.
  - apply (mirrors_keep (broadcast (MStatus (isScanning s) None) s) _ (offer (MStatus (isScanning s) None) x)
      (offer (MStatus (isScanning s) None) x)); try done; cbn; try by rewrite lookup_fmap, Hx.
    by apply mirrors_broadcast.
  - exists x, rest. split; [done|]. split; [done|]. cbn. rewrite foldl_app. cbn [foldl row_step].
    rewrite Hh in Hl. cbn [in_flight] in Hl. by rewrite app_nil_r in Hl.
  - eapply mirrors_keep; [exact W|exact Hx|exact Hx|done|apply rows_of_locate|done].
  - apply (mirrors_keep (broadcast (MGeo ip l) s) _ (offer (MGeo ip l) x) (offer (MGeo ip l) x));
      try done; cbn; try by rewrite lookup_fmap, Hx. by apply mirrors_broadcast.
  - assert (j ≠ i) as Hne by congruence. apply (mirrors_keep s _ x x); try done. cbn.
    by rewrite lookup_insert_ne.
  - destruct (decide (j = i)) as [->|Hne].
    + eapply (mirrors_keep s); [exact W|exact Hi|cbn; apply lookup_insert_eq|done..].
    + apply (mirrors_keep s _ x x); try done. cbn. by rewrite lookup_insert_ne.
  - cbn in Ho. destruct (decide (j = i)) as [->|Hne].
    + rewrite lookup_delete_eq in Ho. by destruct Ho.
    + apply (mirrors_keep s _ x x); try done. cbn. by rewrite lookup_delete_ne.
Qed.

Lemma mirrors_steps s s' : mirrors s → rtc (open_step i) s s' → mirrors s'.
Proof. intros W Hr. induction Hr as [|s s1 s2 Hs _ IH]; [done|]. apply IH. by eapply mirrors_step. Qed.
End mirrors.

Lemma open_steps i s s' : rtc (open_step i) s s' → rtc (step geoDB) s s'.
Proof. induction 1 as [|s s1 s2 [Hs _] _ IH]; [constructor|by eapply rtc_l]. Qed.

(** ** The page *)

(** The messages a page handles. *)
Definition message_of (e : event) : option message := match e with EMessage m => Some m | _ => None end.
Definition messages (es : list event) : list message := omap message_of es.

(** No further answer, and the page is not cleared by its key. *)
Definition undisturbed (e : event) : bool := match e with ELoad _ | EClear => false | _ => true end.

Lemma messages_app a b : messages (a ++ b) = messages a ++ messages b.
Proof. apply omap_app. Qed.

Lemma packets_displayData g : packets (displayData g).1 = packets g.
Proof. unfold displayData. by destruct (display _ _). Qed.

Lemma packets_page_run g es : Forall (λ e, undisturbed e = true) es →
  packets (page_run g es) = foldl on_message (packets g) (messages es).
Proof.
  intros Hes. revert g. induction Hes as [|e es He _ IH]; intros g; [done|]. unfold page_run in *. cbn [foldl].
  rewrite IH. destruct e as [m|ans|val| |late]; try done.
  - assert (packets (page_step g (EMessage m)) = on_message (packets g) m) as ->; [|done].
    destruct m; try done. apply packets_displayData.
  - assert (packets (page_step g (EFrame late)) = packets g) as ->; [|done].
    cbn [page_step]. unfold updateLoop. destruct (negb (running g)); [done|].
    destruct (needsUpdate g && late); [|done]. pose proof (packets_displayData g) as E.
    by destruct (displayData g) as [g' [|]].
Qed.

Lemma rows_of_reverse l : rows_of (reverse l) = reverse (rows_of l).
Proof. apply fmap_reverse. Qed.

Lemma reverse_last_n {A} n (l : list A) : reverse (last_n n l) = take n (reverse l).
Proof.
  destruct (decide (length l <= n)%nat).
  - by rewrite last_n_short, take_ge by (rewrite ?length_reverse; lia).
  - rewrite <-(take_drop (length l - n) l) at 2. rewrite reverse_app.
    rewrite take_app_length'; [done|]. rewrite length_reverse, length_drop. lia.
Qed.

Lemma clear_row_message msgs : MClear ∈ row_messages msgs ↔ MClear ∈ msgs.
Proof. unfold row_messages. rewrite list_elem_of_filter. by split; [intros []|]. Qed.

(** An empty answer is an empty history. *)
Lemma answer_empty k : rows_of [] = rows_of (reverse (last_n (Z.to_nat HISTORY_SIZE) k)) → k = [].
Proof.
  intros E%(f_equal length). unfold rows_of in E. rewrite !length_fmap, length_reverse in E. unfold last_n in E.
  rewrite length_drop in E. destruct k; [done|]. cbn [length] in *. change HISTORY_SIZE with 5000 in E. lia.
Qed.

(** ** The claims *)

(** C19. What the page shows.  A page takes the answer to its request for
    [/api/packets] for its list - whatever messages it had handled before - and
    adds the messages of its web socket.  Let the answer have the rows of the
    history in a state in which the socket is open, and let the page handle
    before the answer just those packets and clearings that were broadcast up to
    that state; let it miss no message, and not be cleared by its own key.  Then
    whenever it has handled all messages and no row is on its way: if the answer
    was empty, or the history has been cleared since, the table is what
    [/api/packets] would now return, newest row at the top; otherwise the rows
    that arrived since are at the top, newest first, and the rows of the answer
    below them, oldest first (of more than 5000 rows, the lowest are dropped).
    The locations are left apart: they arrive by messages of their own. *)
Theorem page_shows_history zero c l s1 i x1 answer s x pre post :
  implements GEO_CACHE_SIZE l c → zlen l ≤ GEO_CACHE_SIZE → runs geoDB zero c s1 →
  clients s1 !! i = Some x1 → holder s1 = Free →
  (∃ a, api_packets s1 = Some a ∧ rows_of answer = rows_of a) →
  rtc (open_step i) s1 s → clients s !! i = Some x →
  c_missed x = 0%nat → c_queue x = [] → in_flight (holder s) = [] →
  messages (pre ++ post) = c_written x → row_messages (messages pre) = row_messages (c_since x1) →
  Forall (λ e, undisturbed e = true) post →
  let g := page_run fresh_page (pre ++ ELoad answer :: post) in
  ∃ now, api_packets s = Some now ∧
    (answer = [] ∨ MClear ∈ messages post → rows_of (table (packets g)) = rows_of now) ∧
    (MClear ∉ messages post → ∃ new,
      rows_of (log s) = rows_of (log s1) ++ new ∧
      rows_of (table (packets g)) = take (Z.to_nat PAGE_SIZE) (reverse new ++ reverse (rows_of answer))).
Proof.
  intros Hc Hl Hr Hx1 Hfree (a & Ha & Eans) Hs Hx Hm Hq Hf Hmsg Hpre Hpost g.
  pose proof (reachable_ok geoDB zero c l s1 Hc Hl Hr) as W1.
  assert (dash_ok s) as W.
  { eapply reachable_ok; [exact Hc|exact Hl|]. etransitivity; [exact Hr|]. by eapply open_steps. }
  unfold api_packets in Ha. rewrite ring_GetAll_ok, (ok_log _ W1) in Ha by apply W1. injection Ha as <-.
  destruct (mirrors_steps i (c_since x1) (rows_of (log s1)) s1 s) as (x' & rest & Hx' & Hb & Erest); [|done|].
  { exists x1, []. by rewrite Hfree, !app_nil_r. }
  rewrite Hx in Hx'. injection Hx' as <-. rewrite Hf, app_nil_r in Erest.
  assert (row_messages (messages post) = row_messages rest) as Epost.
  { destruct (ok_clients _ W i x Hx) as (_ & Hsub & Hlen). rewrite Hq, app_nil_r in Hsub, Hlen.
    assert (c_written x = c_since x) as E by (apply sublist_same_length; [done|lia]).
    rewrite E, Hb, messages_app in Hmsg. apply (f_equal row_messages) in Hmsg.
    rewrite !row_messages_app, Hpre in Hmsg. by apply app_inv_head in Hmsg. }
  assert (rows_of (packets g) = last_n (Z.to_nat PAGE_SIZE) (foldl row_step (rows_of answer) (row_messages rest))) as Eg.
  { unfold g, page_run. rewrite foldl_app. cbn [foldl]. fold (page_run fresh_page pre).
    fold (page_run (page_step (page_run fresh_page pre) (ELoad answer)) post). rewrite packets_page_run by done.
    cbn [page_step]. rewrite packets_displayData. cbn [packets]. unfold load.
    rewrite rows_on_messages, row_step_filter, Epost; [done|].
    apply (f_equal length) in Eans. unfold rows_of in Eans. rewrite !length_fmap, length_reverse in Eans.
    pose proof (length_last_n (Z.to_nat HISTORY_SIZE) (log s1)).
    assert (0 ≤ HISTORY_SIZE) by done. change PAGE_SIZE with HISTORY_SIZE. lia. }
  rewrite row_step_filter in Erest.
  eexists. split; [unfold api_packets; rewrite ring_GetAll_ok by apply W; reflexivity|].
  rewrite (ok_log _ W). unfold table. rewrite !rows_of_reverse, rows_of_last, Eg, <-Erest. split.
  - intros Hcase. f_equal. change PAGE_SIZE with HISTORY_SIZE. f_equal. destruct Hcase as [->|Hin].
    + by rewrite (answer_empty _ Eans).
    + apply row_step_cleared. rewrite <-Epost. by apply clear_row_message.
  - intros Hno. destruct (row_step_grows (row_messages rest)) as [new E].
    { by rewrite <-Epost, clear_row_message. }
    exists new. rewrite !E. split; [done|]. by rewrite reverse_last_n, reverse_app.
Qed.

(** C40. After a reload the order is reversed: the page takes the answer of
    [/api/packets], newest first, for its list, which holds the oldest packet
    first; the table then shows the oldest row at the top, numbers increasing
    downwards, and once 5000 rows are loaded, the next packet drives out the
    newest of them instead of the oldest. *)
Theorem page_reload_order zero c l s answer :
  implements GEO_CACHE_SIZE l c → zlen l ≤ GEO_CACHE_SIZE → runs geoDB zero c s →
  api_packets s = Some answer →
  StronglySorted Z.lt (Index <$> table (load answer)) ∧
  table (load answer) = last_n (Z.to_nat HISTORY_SIZE) (log s) ∧
  ∀ older newest p,
    log s = older ++ [newest] → HISTORY_SIZE ≤ zlen (log s) → Index newest < Index p →
    (newest ∈ load answer) ∧ (newest ∉ on_message (load answer) (MPacket p)) ∧
    ∃ oldest, last_n (Z.to_nat HISTORY_SIZE) (log s) !! 0%nat = Some oldest ∧
      oldest ∈ on_message (load answer) (MPacket p).
Proof.
  intros Hc Hl Hr Ha. pose proof (reachable_ok geoDB zero c l s Hc Hl Hr) as W.
  destruct (rows_prefix s (log s) W (or_intror eq_refl)) as [Hs _].
  unfold api_packets in Ha. rewrite ring_GetAll_ok, (ok_log _ W) in Ha by apply W.
  injection Ha as <-. unfold table, load. rewrite reverse_involutive.
  assert (StronglySorted Z.lt (Index <$> last_n (Z.to_nat HISTORY_SIZE) (log s))) as Hs'.
  { unfold last_n. rewrite fmap_drop. unfold indices in Hs.
    rewrite <-(take_drop (length (log s) - Z.to_nat HISTORY_SIZE) (Index <$> log s)) in Hs.
    by apply StronglySorted_app_1_r in Hs. }
  split; [done|]. split; [done|]. intros older newest p E Hlen Hp.
  destruct (last_n_last (Z.to_nat HISTORY_SIZE) older newest) as (k & Ek & Hk).
  { done. }
  { rewrite E, length_app in Hlen. cbn [length] in Hlen. lia. }
  rewrite E, Ek in *. clear E Ek Hlen. change HISTORY_SIZE with PAGE_SIZE in *. split_and!.
  - apply elem_of_reverse, elem_of_app. right. by left.
  - by apply push_reloaded.
  - destruct k as [|oldest k].
    { by apply (f_equal Z.of_nat) in Hk. }
    exists oldest. split; [done|]. rewrite push_full by done. apply elem_of_app. left.
    apply elem_of_reverse. by left.
Qed.
End mirror.

(** ** The search box *)

Section search_props.
Context `{GoUnicode} `{GoRegexp}.
Implicit Types (p : DashboardPacket) (w : list Z).













End search_props.

(** ** Runs of a page *)

#[local] Existing Instance ascii_only.
#[local] Existing Instance no_regexp.


Lemma number_keeps p s :
  history (number p s).2 = history s ∧ clients (number p s).2 = clients s ∧
  filterStr (number p s).2 = filterStr s ∧ processed (number p s).2 = processed s ∧
  isScanning (number p s).2 = isScanning s ∧ received (number p s).2 = received s.
Proof. by split_and!. Qed.

(** Steps with page [i] open and nothing else going on. *)
Definition run_step (i : nat) s s' : Prop := open_step None i s s' ∧ calm_step None s s'.

Lemma run_step_intro i s s' :
  step None s s' → is_Some (clients s' !! i) → isScanning s' = true → filterStr s' = [] →
  holder s' ≠ PSend MClear → run_step i s s'.
Proof. by repeat split. Qed.

Lemma run_open i s s' : rtc (run_step i) s s' → rtc (open_step None i) s s'.
Proof. intros Hr. eapply rtc_subrel; [|exact Hr]. by intros x y []. Qed.

Lemma run_calm i s s' : rtc (run_step i) s s' → rtc (calm_step None) s s'.
Proof. intros Hr. eapply rtc_subrel; [|exact Hr]. by intros x y []. Qed.

(** One packet between private addresses arrives while page [i] is open. *)
Lemma run_arrives i s x d :
  holder s = Free → packetChan s = [] → isScanning s = true → filterStr s = [] →
  clients s !! i = Some x → isPrivateIP (d_src_ip d) = true → isPrivateIP (d_dst_ip d) = true →
  ∃ s' p, rtc (run_step i) s s' ∧ holder s' = PMatch p ∧ history s' = history s ∧
    clients s' = clients s ∧ filterStr s' = [] ∧ isScanning s' = true ∧ packetChan s' = [] ∧
    received s' = received s ++ [of_service d].
Proof.
  intros Hh Hq Hsc Hfs Hx Hps Hpd.
  set (s1 := set_packetChan (packetChan s ++ [of_service d]) (set_received (received s ++ [of_service d]) s)).
  destruct (number_keeps (of_service d) s1) as (Er & Ec & Ef & Eps & Esc & Erc).
  pose proof (number_row (of_service d) s1) as Erow.
  destruct (number (of_service d) s1) as [p1 s2] eqn:En. cbn [fst snd] in *.
  assert (choose_country p1 = PMatch (set_Country (str "local") p1)) as Hch.
  { assert (SrcIP p1 = d_src_ip d) as Es by by rewrite Erow.
    assert (DstIP p1 = d_dst_ip d) as Ed by by rewrite Erow.
    unfold choose_country. by rewrite Es, Ed, Hps, Hpd. }
  exists (set_processed (processed s2 ++ [of_service d]) (set_packetChan [] (set_holder (choose_country p1) s2))).
  eexists. split; [|split; [exact Hch|split_and!; cbn; [by rewrite Er|by rewrite Ec|by rewrite Ef|by rewrite Esc|done|by rewrite Erc]]].
  eapply rtc_l; [apply (run_step_intro i s s1); [apply step_receive; by rewrite Hq|by eexists|done|done|cbn; by rewrite Hh]|].
  apply rtc_once, run_step_intro; cbn.
  - rewrite Eps. apply (step_take _ s1 (of_service d) []); [done| |done|exact En]. cbn. by rewrite Hq.
  - rewrite Ec. by eexists.
  - by rewrite Esc.
  - by rewrite Ef.
  - by rewrite Hch.
Qed.

Lemma run_stored i s x p :
  holder s = PMatch p → filterStr s = [] → isScanning s = true → ring_ok (history s) →
  clients s !! i = Some x → c_queue x = [] →
  ∃ s' x', rtc (run_step i) s s' ∧ clients s' !! i = Some x' ∧
    c_written x' = c_written x ++ [MPacket p] ∧ c_queue x' = [] ∧ c_missed x' = c_missed x ∧
    holder s' = Free ∧ packetChan s' = packetChan s ∧ received s' = received s.
Proof.
  intros Hh Hf Hsc Hr Hx Hqx. destruct (ring_Add_ok p (history s) Hr) as (r & Ea & _).
  eexists _, _. split.
  { eapply rtc_l; [eapply run_step_intro; [by eapply step_match|by eexists|done|done|]|].
    { rewrite Hf. done. }
    rewrite Hf. change (filter_match [] _ p) with true. cbn iota.
    eapply rtc_l; [eapply run_step_intro; [by eapply step_add|by eexists|done|done|done]|].
    eapply rtc_l; [eapply run_step_intro; [by eapply step_send| |done|done|done]|].
    { cbn. rewrite lookup_fmap, Hx. by eexists. }
    eapply rtc_l; [eapply run_step_intro; [eapply (step_write _ _ i)| |done|done|done]|apply rtc_refl].
    - cbn. rewrite lookup_fmap, Hx. cbn. unfold offer. rewrite Hqx. reflexivity.
    - cbn. rewrite lookup_insert_eq. by eexists. }
  split; [cbn; apply lookup_insert_eq|]. by cbn.
Qed.

(** The connection of a page that was just opened, on an empty history. *)
Definition just_opened (i : nat) (s : dash) : Prop :=
  clients s !! i = Some (mkClient [] [] [] 0) ∧ log s = [] ∧ holder s = Free.

(** A state in which page 7 was just opened. *)
Lemma opened_state :
  ∃ s, rtc (calm_step None) (init sample_packet (NewLRUCache GEO_CACHE_SIZE)) s ∧ just_opened 7 s ∧
    holder s = Free ∧ packetChan s = [] ∧ isScanning s = true ∧ filterStr s = [] ∧
    received s = [] ∧ ring_ok (history s).
Proof.
  eexists. split; [eapply rtc_once; split; [apply (step_connect _ _ 7); reflexivity|by split_and!]|].
  by split_and!.
Qed.

Definition local_service : Wire.DashboardPacket :=
  dashboard (set_src_ip sample_src (set_dst_ip sample_src zero_info)).

Lemma calm_steps s s' : rtc (calm_step None) s s' → rtc (step None) s s'.
Proof. intros Hr. eapply rtc_subrel; [|exact Hr]. by intros x y []. Qed.

(** The page has seen one packet between private addresses. *)
Lemma packet_shown d :
  isPrivateIP (d_src_ip d) = true → isPrivateIP (d_dst_ip d) = true →
  ∃ s0 s p x, rtc (calm_step None) (init sample_packet (NewLRUCache GEO_CACHE_SIZE)) s0 ∧ just_opened 7 s0 ∧
    rtc (run_step 7) s0 s ∧ clients s !! 7%nat = Some x ∧ c_written x = [MPacket p] ∧
    c_queue x = [] ∧ c_missed x = 0%nat ∧ holder s = Free ∧ packetChan s = [] ∧ received s = [of_service d].
Proof.
  intros Hps Hpd. destruct opened_state as (s0 & Hr & Ho & Hh & Hq & Hsc & Hf & Hrc & Hring).
  pose proof Ho as (Hx & _ & _).
  destruct (run_arrives 7 s0 _ d Hh Hq Hsc Hf Hx Hps Hpd)
    as (s1 & p & H1 & Hh1 & Er & Ec & Ef & Es & Eq & Erc).
  destruct (run_stored 7 s1 (mkClient [] [] [] 0) p) as (s & x & H2 & Hc & Hw & Hqx & Hm & Hh2 & Hpc & Hrv);
    [done|done|done|by rewrite Er|by rewrite Ec|done|].
  exists s0, s, p, x. split_and!; try done; [by etransitivity|congruence|by rewrite Hrv, Erc, Hrc].
Qed.

(** The page has seen one row. *)
Lemma shown_state :
  ∃ s0 s p x, rtc (calm_step None) (init sample_packet (NewLRUCache GEO_CACHE_SIZE)) s0 ∧ just_opened 7 s0 ∧
    rtc (run_step 7) s0 s ∧ clients s !! 7%nat = Some x ∧ c_written x = [MPacket p] ∧
    c_queue x = [] ∧ c_missed x = 0%nat ∧ holder s = Free ∧ packetChan s = [].
Proof.
  destruct (packet_shown local_service) as (s0 & s & p & x & H); [by vm_compute..|].
  exists s0, s, p, x. by split_and!; try apply H.
Qed.

(** The page's request is answered before the first packet arrives. *)
Lemma page_shows_history_witness :
  ∃ s p now, runs None sample_packet (NewLRUCache GEO_CACHE_SIZE) s ∧ api_packets s = Some now ∧
    rows_of (table (packets (page_run fresh_page [ELoad []; EMessage (MPacket p)]))) = rows_of now.
Proof.
  destruct shown_state as (s0 & s & p & x & Hr%calm_steps & Ho & Hs%run_open & Hx & Hw & Hq & Hm & Hh & _).
  destruct Ho as (Hx0 & Hl0 & Hf0).
  assert (api_packets s0 = Some []) as Ha0.
  { assert (dash_ok s0) as W by (eapply reachable_ok; [apply empty_cache_ok|apply empty_cache_ok|exact Hr]).
    unfold api_packets. rewrite ring_GetAll_ok, (ok_log _ W), Hl0 by apply W. reflexivity. }
  destruct (page_shows_history None sample_packet (NewLRUCache GEO_CACHE_SIZE) [] s0 7
    (mkClient [] [] [] 0) [] s x [] [EMessage (MPacket p)]
    (proj1 empty_cache_ok) (proj2 empty_cache_ok) Hr Hx0 Hf0 (ex_intro _ [] (conj Ha0 eq_refl)) Hs Hx Hm Hq)
    as (now & Ha & E & _); [by rewrite Hh|by rewrite Hw|done|by repeat constructor|].
  exists s, p, now. split; [unfold runs; etransitivity; [exact Hr|by eapply open_steps]|].
  split; [exact Ha|]. apply E. by left.
Defined.

Lemma page_reload_order_witness :
  ∃ s p, runs (Some sample_db) sample_packet (NewLRUCache GEO_CACHE_SIZE) s ∧
    api_packets s = Some [p] ∧ [p] = last_n (Z.to_nat HISTORY_SIZE) (log s).
Proof.
  destruct sample_run as (s & Hs & p & Hp & _). exists s, p. split; [exact Hs|]. split; [exact Hp|].
  exact (proj1 (proj2 (page_reload_order (Some sample_db) sample_packet _ [] s [p] (proj1 empty_cache_ok)
    (proj2 empty_cache_ok) Hs Hp))).
Defined.

Lemma every_packet_stored_witness :
  ∃ s answer, rtc (calm_step None) (init sample_packet (NewLRUCache GEO_CACHE_SIZE)) s ∧
    api_packets s = Some answer ∧
    erase <$> answer = reverse (last_n (Z.to_nat HISTORY_SIZE) (all_rows (received s))).
Proof.
  destruct shown_state as (s0 & s & p & x & Hr & _ & Hs%run_calm & _ & _ & _ & _ & Hh & Hq).
  assert (rtc (calm_step None) (init sample_packet (NewLRUCache GEO_CACHE_SIZE)) s) as Hs' by by etransitivity.
  destruct (every_packet_stored None sample_packet _ [] s (proj1 empty_cache_ok) (proj2 empty_cache_ok) Hs')
    as (_ & _ & H). destruct (H Hq) as (answer & Ha & E); [by rewrite Hh|].
  exists s, answer. split; [exact Hs'|]. split; [exact Ha|exact E].
Defined.
