(* ===== verification/EndToEnd.v ===== *)
(** * From the network card to the page

    The three programs together: the capture engine ([Pipeline]), the packet
    service ([Sender], [Service]) and the dashboard ([Dashboard]), up to the
    answers of [/api/packets] and [/api/export]. *)

From stdpp Require Import strings gmap.
From S2P Require Import Prelude CMemory PacketTypes Stats Entropy Capture CaptureProps Wire Sender Queue QueueInterface.
From S2P Require Import Pipeline PipelineProps Shutdown.
From S2P Require Import GoText GoNet GoPacket Filter RingBuffer LruCache Dashboard DashboardProps DashboardGeo Service Page PageProps FilterProps PcapExport.

Section end_to_end.
Context {D : Type} `{DoubleLaws D} {QR QI : Type}.
Context `{BoundedQueue RawPacket QR} `{BoundedQueue PacketInfo QI}.
Context (hmac : list Z → list Z → list Z) (hmac_length : ∀ k m, zlen (hmac k m) = HASH_SIZE).
Context (secret : list Z).
Context (to_json : Wire.DashboardPacket → option (list Z)) (unmarshal : list Z → option DashboardPacket).
Context `{GoUnicode} `{GoRegexp} (geoDB : option (text → option location)).

(** The service's packet, as the dashboard reads it. *)
Definition service_packet (i : PacketInfo) : DashboardPacket := of_service (dashboard i).

(** *** What all this leaves in the history *)

Lemma history_of_frames q0 q1 (s : state (QR := QR) (QI := QI)) creads results writes reads zero c l d :
  bq_holds q0 [] → bq_holds q1 [] → rtc (Pipeline.step (D := D) hmac secret) (Pipeline.init q0 q1) s →
  failed s = [] →
  concat creads = Pipeline.wire s →
  Forall (λ r, 0 < zlen r ≤ 2 * 1024 * 1024 - TOTAL_MSG_SIZE) creads →
  Forall (λ i, ∃ j, codec_ok to_json unmarshal (dashboard i) j) (sent s) →
  broadcasts (handle_cpp_connection hmac secret [] creads).1 results →
  length (oks results) = length (sent s) → Forall (λ w, w = None) writes →
  (length (sent s) <= length writes)%nat →
  concat reads = handle_go_connection to_json results writes →
  implements GEO_CACHE_SIZE l c → zlen l ≤ GEO_CACHE_SIZE →
  rtc (calm_step geoDB) (Dashboard.init zero c) d →
  received d = read_packets unmarshal reads → packetChan d = [] → pending (holder d) = [] →
  ∃ hist ds,
    RingBuffer.GetAll false (history d) = Some hist ∧ api_packets d = Some (reverse hist) ∧
    erase <$> hist = last_n (Z.to_nat HISTORY_SIZE) (all_rows (service_packet <$> ds.*2)) ∧
    ds.*2 = sent s ∧ ds.*1 ⊆+ handled s ∧
    Forall (λ '(raw, info), wf_raw raw ∧ dissects (D := D) raw info) ds.
Proof using All.
  intros Hq0 Hq1 Hr Hf Hc Hsz Hj Hb Hok Hw Hlw He Hi Hl Hd Hrec Hch Hp.
  destruct (delivery_spec hmac secret hmac_length q0 q1 s creads Hq0 Hq1 Hr Hf Hc Hsz)
    as [_ (ds & Eds & Hsub & Hall)].
  destruct (wire_of_records hmac secret hmac_length q0 q1 s Hq0 Hq1 Hr Hf) as [Hwf Ew].
  destruct (records_spec to_json unmarshal hmac hmac_length secret (sent s) creads results writes reads Hwf)
    as (is_ & Er & _ & Hfull); [congruence|done..|].
  rewrite (Hfull Hok Hw Hlw) in Er.
  destruct (stored_spec geoDB zero c l d Hi Hl Hd) as (_ & _ & Hans).
  destruct (Hans Hch Hp) as (answer & Ha & E).
  assert (dash_ok d) as W.
  { eapply (reachable_ok geoDB zero c l); [done|done|]. eapply rtc_subrel; [|exact Hd]. by intros x y []. }
  assert (ring_ok (history d)) as Hring by apply W.
  exists (contents (history d)), ds. unfold api_packets in *. rewrite !ring_GetAll_ok in * by done.
  injection Ha as <-. split_and!; try done. rewrite fmap_reverse, Hrec, Er in E.
  apply (f_equal reverse) in E. rewrite !reverse_involutive in E. by rewrite E, Eds.
Qed.

(** *** The rows in the file *)

Lemma all_rows_captured ps : captured_as <$> all_rows ps = captured_as <$> ps.
Proof using Type.
  unfold all_rows. apply list_eq. intros k. rewrite !list_lookup_fmap, list_lookup_imap.
  by destruct (ps !! k).
Qed.

Lemma exported_rows (ds : list (RawPacket * PacketInfo)) hist :
  erase <$> hist = last_n (Z.to_nat HISTORY_SIZE) (all_rows (service_packet <$> ds.*2)) →
  Forall exportable hist ∧
  captured_as <$> hist = captured_as <$> (service_packet <$> last_n (Z.to_nat HISTORY_SIZE) ds.*2).
Proof using Type.
  intros E. assert (captured_as <$> hist = captured_as <$> (erase <$> hist)) as Ecap.
  { rewrite <-list_fmap_compose. by apply list_fmap_ext. }
  assert (captured_as <$> hist = captured_as <$> (service_packet <$> last_n (Z.to_nat HISTORY_SIZE) ds.*2)) as Hcap.
  { rewrite Ecap, E. unfold last_n. rewrite !fmap_drop, all_rows_captured.
    unfold all_rows. by rewrite length_imap, !length_fmap. }
  split; [|done]. apply Forall_lookup. intros k p Hk.
  apply (f_equal (λ x, x !! k)) in Hcap. rewrite !list_lookup_fmap, Hk in Hcap. cbn in Hcap.
  destruct (last_n _ _ !! k) as [i|]; [|done]. injection Hcap as _ _ _ Hpay.
  pose proof (exportable_record i) as Hi. unfold exportable in *. by rewrite Hpay.
Qed.

Lemma records_exported (ds : list (RawPacket * PacketInfo)) n :
  Forall (λ '(raw, info), wf_raw raw ∧ dissects (D := D) raw info) ds →
  Forall2 exported_as (last_n n ds.*1) (captured_as <$> (service_packet <$> last_n n ds.*2)).
Proof using All.
  intros Hds. unfold last_n. rewrite !length_fmap, <-!fmap_drop.
  rewrite Forall2_fmap_l, <-list_fmap_compose, <-list_fmap_compose, Forall2_fmap_r.
  apply Forall_Forall2_diag. eapply Forall_impl; [by apply Forall_drop|].
  intros [raw info] [Hraw (junk & _ & Hd)]. by apply (record_exported raw junk info).
Qed.

(** C4. From the network card to the page.  The capture engine runs with its
    threads interleaved in any way until some records are sent; the two
    connections are cut into reads in any way; the dashboard runs with its
    goroutines interleaved in any way, while it scans, has no filter and is not
    cleared.  If no write fails and nothing is skipped, then once its loop has
    caught up [/api/packets] returns, newest first, the last 5000 of exactly the
    records that were sent, numbered from 1 in the order of sending, and each of
    them is the dissection of a different frame that libpcap handed over. *)
Theorem frames_reach_page q0 q1 (s : state (QR := QR) (QI := QI)) creads results writes reads zero c l d :
  bq_holds q0 [] → bq_holds q1 [] → rtc (Pipeline.step (D := D) hmac secret) (Pipeline.init q0 q1) s →
  failed s = [] →
  concat creads = Pipeline.wire s →
  Forall (λ r, 0 < zlen r ≤ 2 * 1024 * 1024 - TOTAL_MSG_SIZE) creads →
  Forall (λ i, ∃ j, codec_ok to_json unmarshal (dashboard i) j) (sent s) →
  broadcasts (handle_cpp_connection hmac secret [] creads).1 results →
  length (oks results) = length (sent s) → Forall (λ w, w = None) writes →
  (length (sent s) <= length writes)%nat →
  concat reads = handle_go_connection to_json results writes →
  implements GEO_CACHE_SIZE l c → zlen l ≤ GEO_CACHE_SIZE →
  rtc (calm_step geoDB) (Dashboard.init zero c) d →
  received d = read_packets unmarshal reads → packetChan d = [] → pending (holder d) = [] →
  ∃ answer ds,
    api_packets d = Some answer ∧
    erase <$> answer = reverse (last_n (Z.to_nat HISTORY_SIZE) (all_rows (service_packet <$> ds.*2))) ∧
    ds.*2 = sent s ∧ ds.*1 ⊆+ handled s ∧
    Forall (λ '(raw, info), wf_raw raw ∧ dissects (D := D) raw info) ds.
Proof using All.
  intros Hq0 Hq1 Hr Hf Hc Hsz Hj Hb Hok Hw Hlw He Hi Hl Hd Hrec Hch Hp.
  destruct (history_of_frames q0 q1 s creads results writes reads zero c l d)
    as (hist & ds & _ & Hans & E & Eds & Hsub & Hall); try done.
  exists (reverse hist), ds. split_and!; try done. by rewrite fmap_reverse, E.
Qed.

(** C18. From the network card to the exported file.  The capture engine's threads
    and the dashboard's goroutines are interleaved and the two connections cut
    into reads in any way, while the dashboard scans, has no filter and is not
    cleared.  If no write fails and nothing is skipped, then once its loop has
    caught up [/api/export] answers with a file, and a reader of the format gets from it,
    oldest first, one packet for each of the last 5000 records that were sent.
    These are the dissections of different frames that libpcap handed over; the
    packet has the time of its frame's capture and the frame's first 256 bytes -
    and claims that this is the length the frame had on the wire -, or no bytes
    if the frame's EtherType is not one the program knows.  Nothing is said of a
    frame that is shorter than an Ethernet header, or has a time that is not in
    libpcap's range. *)
Theorem export_captures q0 q1 (s : state (QR := QR) (QI := QI)) creads results writes reads zero c l d :
  bq_holds q0 [] → bq_holds q1 [] → rtc (Pipeline.step (D := D) hmac secret) (Pipeline.init q0 q1) s →
  failed s = [] →
  concat creads = Pipeline.wire s →
  Forall (λ r, 0 < zlen r ≤ 2 * 1024 * 1024 - TOTAL_MSG_SIZE) creads →
  Forall (λ i, ∃ j, codec_ok to_json unmarshal (dashboard i) j) (sent s) →
  broadcasts (handle_cpp_connection hmac secret [] creads).1 results →
  length (oks results) = length (sent s) → Forall (λ w, w = None) writes →
  (length (sent s) <= length writes)%nat →
  concat reads = handle_go_connection to_json results writes →
  implements GEO_CACHE_SIZE l c → zlen l ≤ GEO_CACHE_SIZE →
  rtc (calm_step geoDB) (Dashboard.init zero c) d →
  received d = read_packets unmarshal reads → packetChan d = [] → pending (holder d) = [] →
  ∃ hist ds cs,
    RingBuffer.GetAll false (history d) = Some hist ∧ read_pcap (export hist) = Some cs ∧
    Forall2 exported_as (last_n (Z.to_nat HISTORY_SIZE) ds.*1) cs ∧
    ds.*2 = sent s ∧ ds.*1 ⊆+ handled s ∧
    Forall (λ '(raw, info), wf_raw raw ∧ dissects (D := D) raw info) ds.
Proof using All.
  intros Hq0 Hq1 Hr Hf Hc Hsz Hj Hb Hok Hw Hlw He Hi Hl Hd Hrec Hch Hp.
  destruct (history_of_frames q0 q1 s creads results writes reads zero c l d)
    as (hist & ds & Hget & _ & E & Eds & Hsub & Hall); try done.
  destruct (exported_rows ds hist) as [Hexp Hcap]; [by rewrite E, Eds|].
  exists hist, ds, (captured_as <$> hist). split_and!; try done; [by apply read_pcap_export|].
  rewrite Hcap. by apply records_exported.
Qed.
End end_to_end.

(** ** A concrete run

    One frame without IP, so that the addresses shown are ["0.0.0.0"]. *)

#[local] Existing Instance ascii_only.
#[local] Existing Instance no_regexp.

Definition one_json (p : Wire.DashboardPacket) : option (list Z) := Some (str "{0}").

Definition one_unmarshal (p : DashboardPacket) (j : list Z) : option DashboardPacket :=
  if bool_decide (j = str "{0}") then Some p else None.

Lemma one_codec p : codec_ok one_json (one_unmarshal (of_service p)) p (str "{0}").
Proof.
  split; try reflexivity; try by_decide.
  intros k Hk. do 3 (destruct k as [|k]; [reflexivity|]). simpl in Hk. lia.
Qed.

Lemma one_line p q :
  handle_go_connection one_json [RecvOk p] [None] = line (str "{0}") ∧
  read_packets (one_unmarshal q) [line (str "{0}")] = [q].
Proof. by split; vm_compute. Qed.

Lemma one_private i :
  src_ip i = zeros 16 → dst_ip i = zeros 16 → is_ipv6 i = 0 →
  isPrivateIP (d_src_ip (dashboard i)) = true ∧ isPrivateIP (d_dst_ip (dashboard i)) = true.
Proof.
  intros Hs Hd H6. unfold dashboard. cbn [d_src_ip d_dst_ip]. rewrite Hs, Hd, H6.
  by split; vm_compute.
Qed.

(** One record went through the three programs. *)
Record went_through (s : state (QR := list RawPacket) (QI := list PacketInfo)) (info : PacketInfo)
    (creads : list (list Z)) (d : dash) : Prop := mk_went {
    went_run : rtc (Pipeline.step (D := Z) (H0 := list_queue 8192) (H1 := list_queue 8192) sample_hmac [])
      (Pipeline.init [] []) s;
    went_failed : failed s = [];
    went_sent : sent s = [info];
    went_reads : concat creads = Pipeline.wire s;
    went_sizes : Forall (λ r, 0 < zlen r ≤ 2 * 1024 * 1024 - TOTAL_MSG_SIZE) creads;
    went_packets : (handle_cpp_connection sample_hmac [] [] creads).1 = [dashboard info];
    went_shown : rtc (calm_step None) (Dashboard.init sample_packet (NewLRUCache GEO_CACHE_SIZE)) d;
    went_received : received d = [service_packet info];
    went_idle : packetChan d = [] ∧ holder d = Free
  }.

Lemma sample_went_through : ∃ s info creads d, went_through s info creads d.
Proof.
  destruct sample_run_delivered as (s & info & Hr & Hf & Hs & Hw & Hwf & Ha).
  destruct (one_private info) as [Hps Hpd]; [apply Ha..|].
  destruct (packet_shown (dashboard info) Hps Hpd)
    as (d0 & d & p & x & Hd0 & _ & Hd%run_calm & _ & _ & _ & _ & Hh & Hq & Hrc).
  pose proof (length_message sample_hmac sample_hmac_length [] info Hwf) as Hl.
  change TOTAL_MSG_SIZE with 1088 in Hl.
  set (creads := [Sender.message sample_hmac [] info]).
  assert (concat creads = Pipeline.wire s) as Hc by (rewrite Hw; apply app_nil_r).
  assert (Forall (λ r, 0 < zlen r ≤ 2 * 1024 * 1024 - TOTAL_MSG_SIZE) creads) as Hsz.
  { constructor; [|constructor]. rewrite Hl. by split. }
  destruct (delivery_spec (H1 := list_queue 8192) (H2 := list_queue 8192) sample_hmac [] sample_hmac_length
    [] [] s creads eq_refl eq_refl Hr Hf Hc Hsz) as [Hshow _].
  rewrite Hs in Hshow. exists s, info, creads, d. split; try done; [by rewrite Hshow|by etransitivity].
Qed.

Lemma frames_reach_page_witness :
  ∃ s info d answer raw,
    rtc (Pipeline.step (D := Z) (H0 := list_queue 8192) (H1 := list_queue 8192) sample_hmac [])
      (Pipeline.init [] []) s ∧ sent s = [info] ∧
    rtc (calm_step None) (Dashboard.init sample_packet (NewLRUCache GEO_CACHE_SIZE)) d ∧
    api_packets d = Some answer ∧ erase <$> answer = all_rows [service_packet info] ∧
    raw ∈ handled (QR := list RawPacket) (QI := list PacketInfo) s ∧ dissects (D := Z) raw info.
Proof.
  destruct sample_went_through as (s & info & creads & d & [Hr Hf Hs Hc Hsz Hshow Hd Hrc [Hq Hh]]).
  destruct (frames_reach_page (H1 := list_queue 8192) (H2 := list_queue 8192) sample_hmac sample_hmac_length []
    one_json (one_unmarshal (service_packet info)) None [] [] s creads [RecvOk (dashboard info)] [None] [line (str "{0}")]
    sample_packet (NewLRUCache GEO_CACHE_SIZE) [] d eq_refl eq_refl Hr Hf Hc Hsz)
    as (answer & ds & Ha1 & Ha2 & Ha3 & Ha4 & Ha5).
  - rewrite Hs. constructor; [|constructor]. eexists. apply one_codec.
  - rewrite Hshow. repeat constructor.
  - by rewrite Hs.
  - by constructor.
  - by rewrite Hs.
  - rewrite (proj1 (one_line (dashboard info) (service_packet info))). apply app_nil_r.
  - apply empty_cache_ok.
  - apply empty_cache_ok.
  - exact Hd.
  - by rewrite (proj2 (one_line (dashboard info) (service_packet info))).
  - exact Hq.
  - by rewrite Hh.
  - rewrite Hs in Ha3. destruct ds as [|[raw i] [|]]; try discriminate. injection Ha3 as ->.
    exists s, info, d, answer, raw. split_and!; try done.
    + eapply elem_of_submseteq; [|exact Ha4]. by left.
    + by apply Forall_inv in Ha5 as [_ ?].
Defined.

Lemma export_captures_witness :
  ∃ s info d hist raw cap,
    rtc (Pipeline.step (D := Z) (H0 := list_queue 8192) (H1 := list_queue 8192) sample_hmac [])
      (Pipeline.init [] []) s ∧ sent s = [info] ∧
    rtc (calm_step None) (Dashboard.init sample_packet (NewLRUCache GEO_CACHE_SIZE)) d ∧
    RingBuffer.GetAll false (history d) = Some hist ∧ read_pcap (export hist) = Some [cap] ∧
    exported_as raw cap ∧ raw ∈ handled (QR := list RawPacket) (QI := list PacketInfo) s ∧
    dissects (D := Z) raw info.
Proof.
  destruct sample_went_through as (s & info & creads & d & [Hr Hf Hs Hc Hsz Hshow Hd Hrc [Hq Hh]]).
  destruct (export_captures (H1 := list_queue 8192) (H2 := list_queue 8192) sample_hmac sample_hmac_length []
    one_json (one_unmarshal (service_packet info)) None [] [] s creads [RecvOk (dashboard info)] [None] [line (str "{0}")]
    sample_packet (NewLRUCache GEO_CACHE_SIZE) [] d eq_refl eq_refl Hr Hf Hc Hsz)
    as (hist & ds & cs & Hget & Hread & Hexp & Ha3 & Ha4 & Ha5).
  - rewrite Hs. constructor; [|constructor]. eexists. apply one_codec.
  - rewrite Hshow. repeat constructor.
  - by rewrite Hs.
  - by constructor.
  - by rewrite Hs.
  - rewrite (proj1 (one_line (dashboard info) (service_packet info))). apply app_nil_r.
  - apply empty_cache_ok.
  - apply empty_cache_ok.
  - exact Hd.
  - by rewrite (proj2 (one_line (dashboard info) (service_packet info))).
  - exact Hq.
  - by rewrite Hh.
  - rewrite Hs in Ha3. destruct ds as [|[raw i] [|]]; try discriminate. injection Ha3 as ->.
    apply Forall2_cons_inv_l in Hexp as (cap & cs' & Hcap & Hnil & ->). apply Forall2_nil_inv_l in Hnil as ->.
    exists s, info, d, hist, raw, cap. split_and!; try done.
    + eapply elem_of_submseteq; [|exact Ha4]. by left.
    + by apply Forall_inv in Ha5 as [_ ?].
Defined.
